(** * BufferLib: a shallow embedding of ufs::Buffer, ufs::Random32 and
      ufs::CompareResult, with the properties of the sector buffer.

    Conventions of the embedding.
    - [size_t], [UInt64], [UInt32] and [UInt8] values are integers of [Z];
      every arithmetic operation of the C++ code that can wrap is written
      with its reduction ([wrap64], [wrap32], [wrap8]).
    - The payload (the bytes from [_dataStart] on) is a [list Z] of byte
      values, read with [rd] and written with [wr]; index [i] of the list is
      [_dataStart[i]].
    - A throwing member function is a computation in the monad [M]: it
      returns [Ok], or [Throw] with the error kind, together with the object
      as the exception leaves it. *)

From Stdlib Require Import ZArith Lia Bool Ascii String.
From stdpp Require Import base list.

Local Open Scope Z_scope.

(** ** Machine integers *)

Definition wrap8 (x : Z) : Z := x mod 2 ^ 8.
Definition wrap32 (x : Z) : Z := x mod 2 ^ 32.
Definition wrap64 (x : Z) : Z := x mod 2 ^ 64.

(** [LLONG_MAX] of <climits>. *)
Definition LLONG_MAX : Z := 2 ^ 63 - 1.

(** ** CompareResult.h / CompareResult.cpp *)

Record CompareResult : Type := mkCompareResult {
  _areEqual : bool;
  _firstDifferenceOffset : Z;
  _expectedValue : Z;
  _actualValue : Z;
  _differenceCount : Z
}.

(** [CompareResult::CompareResult()] *)
Definition CompareResult_equal : CompareResult :=
  {| _areEqual := true; _firstDifferenceOffset := 0; _expectedValue := 0;
     _actualValue := 0; _differenceCount := 0 |}.

(** [CompareResult::CompareResult(size_t, UInt8, UInt8)] *)
Definition CompareResult_unequal (firstDifferenceOffset expectedValue actualValue : Z)
  : CompareResult :=
  {| _areEqual := false; _firstDifferenceOffset := firstDifferenceOffset;
     _expectedValue := expectedValue; _actualValue := actualValue;
     _differenceCount := 1 |}.

(** [CompareResult::AddDifference]; [_differenceCount++] is an increment of
    a [size_t]. *)
Definition AddDifference (offset expectedValue actualValue : Z) (r : CompareResult)
  : CompareResult :=
  if _areEqual r then
    {| _areEqual := false; _firstDifferenceOffset := offset;
       _expectedValue := expectedValue; _actualValue := actualValue;
       _differenceCount := 1 |}
  else
    {| _areEqual := _areEqual r;
       _firstDifferenceOffset := _firstDifferenceOffset r;
       _expectedValue := _expectedValue r;
       _actualValue := _actualValue r;
       _differenceCount := wrap64 (_differenceCount r + 1) |}.

(** The results a program can build, indexed by the number of differences
    recorded so far: either constructor, then [AddDifference] calls. *)
Inductive reachable : Z -> CompareResult -> Prop :=
| reach_equal : reachable 0 CompareResult_equal
| reach_unequal o e a : reachable 1 (CompareResult_unequal o e a)
| reach_add n r o e a :
    reachable n r -> reachable (n + 1) (AddDifference o e a r).

(** [n] further calls of [AddDifference] with the same arguments. *)
Definition AddDifference_times (n : positive) (o e a : Z) (r : CompareResult)
  : CompareResult :=
  Pos.iter (AddDifference o e a) r n.


(** An unequal result on which [AddDifference] has run 2^64 - 2 times:
    2^64 - 1 differences are recorded. *)
Definition full_result : CompareResult :=
  AddDifference_times (2 ^ 64 - 2) 0 1 2 (CompareResult_unequal 0 1 2).

(** ** Errors.h *)

Inductive ErrorKind : Type :=
| OutOfRangeError
| InvalidArgumentError
| RuntimeError.

(** The result of a call: a value, an exception, or a loop of the model
    that used all of its fuel. *)
Inductive Result (A : Type) : Type :=
| Ok (a : A)
| Throw (e : ErrorKind)
| OutOfFuel.

Arguments Ok {A} a.
Arguments Throw {A} e.
Arguments OutOfFuel {A}.

Definition is_Ok {A : Type} (r : Result A) : bool :=
  match r with Ok _ => true | _ => false end.

Definition Result_bind {A B : Type} (r : Result A) (k : A -> Result B) : Result B :=
  match r with
  | Ok a => k a
  | Throw e => Throw e
  | OutOfFuel => OutOfFuel
  end.

(** ** Bytes in memory *)

(** [_dataStart[i]] as an rvalue. *)
Definition rd (d : list Z) (i : Z) : Z := d !!! Z.to_nat i.

(** [_dataStart[i] = v]. *)
Definition wr (d : list Z) (i : Z) (v : Z) : list Z := <[Z.to_nat i := v]> d.

(** Storing the byte sequence [bs] at offset [off] (the effect of a
    [memcpy] or [std::copy] from storage outside the payload). *)
Definition write_bytes (d : list Z) (off : Z) (bs : list Z) : list Z :=
  take (Z.to_nat off) d ++ bs ++ drop (Z.to_nat off + length bs) d.

(** [::memset(_dataStart + dst, v, n)]. *)
Definition memset (d : list Z) (dst v n : Z) : list Z :=
  write_bytes d dst (replicate (Z.to_nat n) v).

(** [::memcpy(_dataStart + dst, _dataStart + src, n)], the two regions
    disjoint. *)
Definition memcpy (d : list Z) (dst src n : Z) : list Z :=
  write_bytes d dst (take (Z.to_nat n) (drop (Z.to_nat src) d)).

(** [::memcmp(d1 + p1, d2 + p2, n)]: zero when the [n] bytes agree, else
    the difference of the first pair that differs. *)
Fixpoint memcmp (d1 : list Z) (p1 : Z) (d2 : list Z) (p2 : Z) (n : nat) : Z :=
  match n with
  | O => 0
  | S n' =>
      if rd d1 p1 =? rd d2 p2 then memcmp d1 (p1 + 1) d2 (p2 + 1) n'
      else rd d1 p1 - rd d2 p2
  end.

(** The four bytes of a 32-bit word, least significant first. *)
Definition le32 (w : Z) : list Z :=
  [ Z.land w 255; Z.land (Z.shiftr w 8) 255;
    Z.land (Z.shiftr w 16) 255; Z.land (Z.shiftr w 24) 255 ].

(** [int32Ptr[i] = w] with [int32Ptr = (UInt32* )_dataStart]. *)
Definition wr32 (d : list Z) (i : Z) (w : Z) : list Z :=
  write_bytes d (4 * i) (le32 w).

(** ** boost::random::taus88 *)

(** Modelled from the spec: [boost::random::taus88], the combined
    Tausworthe generator of section 4.2, belongs to the Boost library and
    is not among the sources. It is
    [xor_combine_engine<xor_combine_engine<L1, 0, L2, 0>, 0, L3, 0>] with
    [L1 = linear_feedback_shift_engine<uint32_t, 32, 31, 13, 12>],
    [L2 = <uint32_t, 32, 29, 2, 4>] and [L3 = <uint32_t, 32, 28, 3, 17>];
    the object holds the three [value] words in this order. *)
Record taus88 : Type := mkTaus88 { lfsr1 : Z; lfsr2 : Z; lfsr3 : Z }.

Definition wordmask : Z := 2 ^ 32 - 1.

(** [linear_feedback_shift_engine<UIntType, w, k, q, s>::seed(s0)] *)
Definition lfsr_seed (w k s0 : Z) : Z :=
  let value := Z.land s0 wordmask in
  if value <? Z.shiftl 1 (w - k) then value + Z.shiftl 1 (w - k) else value.

(** [linear_feedback_shift_engine<UIntType, w, k, q, s>::operator()]: the
    new [value], which is also the result. *)
Definition lfsr_next (w k q s value : Z) : Z :=
  let b := Z.shiftr (Z.land (Z.lxor (Z.land (Z.shiftl value q) wordmask) value) wordmask) (k - s) in
  let mask := Z.land (Z.shiftl wordmask (w - k)) wordmask in
  Z.lxor (Z.land (Z.shiftl (Z.land value mask) s) wordmask) b.

(** [taus88::seed(v)] and the constructor [taus88(v)]. *)
Definition taus88_seed (v : Z) : taus88 :=
  {| lfsr1 := lfsr_seed 32 31 v; lfsr2 := lfsr_seed 32 29 v; lfsr3 := lfsr_seed 32 28 v |}.

(** [taus88::operator()] *)
Definition taus88_next (g : taus88) : Z * taus88 :=
  let v1 := lfsr_next 32 31 13 12 (lfsr1 g) in
  let v2 := lfsr_next 32 29 2 4 (lfsr2 g) in
  let v3 := lfsr_next 32 28 3 17 (lfsr3 g) in
  (Z.lxor (Z.lxor v1 v2) v3, {| lfsr1 := v1; lfsr2 := v2; lfsr3 := v3 |}).

(** The object representation of a [taus88]: [sizeof] is 12. *)
Definition taus88_bytes (g : taus88) : list Z :=
  le32 (lfsr1 g) ++ le32 (lfsr2 g) ++ le32 (lfsr3 g).

Definition sizeof_taus88 : Z := 12.

(** ** Random32.h / Random32.cpp *)

Record Random32 : Type := mkRandom32 {
  _generator : taus88;
  _isSeeded : bool
}.

(** [Random32::Random32()]; [clock] is what
    [system_clock::now().time_since_epoch().count()] returns, converted to
    the 32-bit seed of the generator. *)
Definition Random32_new (clock : Z) : Random32 :=
  {| _generator := taus88_seed (wrap32 clock); _isSeeded := false |}.

(** [Random32::Random32(UInt32 seed)] *)
Definition Random32_seeded (seed : Z) : Random32 :=
  {| _generator := taus88_seed seed; _isSeeded := true |}.

(** [Random32::Random32(const Random32&)] *)
Definition Random32_copy (other : Random32) : Random32 :=
  {| _generator := _generator other; _isSeeded := _isSeeded other |}.

(** [Random32::Seed] *)
Definition Seed (seed : Z) (r : Random32) : Random32 :=
  {| _generator := taus88_seed seed; _isSeeded := true |}.

(** [Random32::Next()] *)
Definition Next (r : Random32) : Z * Random32 :=
  let '(v, g) := taus88_next (_generator r) in
  (v, {| _generator := g; _isSeeded := _isSeeded r |}).

Definition GetIsSeeded (r : Random32) : bool := _isSeeded r.
Definition GetGen (r : Random32) : taus88 := _generator r.

(** The generator after [n] calls of [Next]. *)
Fixpoint Next_times (n : nat) (r : Random32) : Random32 :=
  match n with
  | O => r
  | S n' => Next_times n' (snd (Next r))
  end.

(** ** The process environment *)

(** Modelled from the spec: [atoi] of the C library, used on the value of
    [DMX_SIMULATOR_ENABLED] (section 6: "its decimal integer value is
    parsed"): leading white space, an optional sign, then decimal digits.
    A numeral outside the range of [int] is undefined behaviour in C and
    is not reduced here. *)
Definition isspace (c : ascii) : bool :=
  let n := Z.of_nat (nat_of_ascii c) in
  (n =? 32) || ((9 <=? n) && (n <=? 13)).

Definition isdigit (c : ascii) : bool :=
  let n := Z.of_nat (nat_of_ascii c) in
  (48 <=? n) && (n <=? 57).

Fixpoint skip_spaces (s : string) : string :=
  match s with
  | String c r => if isspace c then skip_spaces r else s
  | EmptyString => s
  end.

Fixpoint digits_value (acc : Z) (s : string) : Z :=
  match s with
  | String c r =>
      if isdigit c then digits_value (acc * 10 + (Z.of_nat (nat_of_ascii c) - 48)) r
      else acc
  | EmptyString => acc
  end.

Definition atoi (s : string) : Z :=
  match skip_spaces s with
  | String c r =>
      if Ascii.eqb c "-"%char then - digits_value 0 r
      else if Ascii.eqb c "+"%char then digits_value 0 r
      else digits_value 0 (String c r)
  | EmptyString => 0
  end.

(** What [getenv("DMX_SIMULATOR_ENABLED")] returns: [None] for [NULL]. *)
Definition Environment : Type := option string.

(** The [bool] that [Initialize] stores in [_usePatternMode]. *)
Definition pattern_mode_of (env : Environment) : bool :=
  match env with
  | None => false
  | Some dmxSimulatorEnabled => negb (atoi dmxSimulatorEnabled =? 0)
  end.

(** What [new UInt8[n]] returns: the address of the block and the
    indeterminate bytes it holds, by offset from the payload start. *)
Record Allocation : Type := mkAllocation {
  alloc_address : Z;
  alloc_contents : Z -> Z
}.

Definition fresh_bytes (n : Z) (a : Allocation) : list Z :=
  map (fun k => alloc_contents a (Z.of_nat k)) (seq 0 (Z.to_nat n)).

(** ** Buffer.h *)

Definition COMPRESSION_SIZE_PER_SECTOR : Z := 21.
Definition COMPRESSION_PATTERN_SIZE_IN_BYTE : Z := 12.
Definition COMPRESSION_LBA_SIZE_IN_BYTE : Z := 8.
Definition COMPRESSION_TYPE_SIZE_IN_BYTE : Z := 1.
Definition COMPRESSION_MAX_PATTERN_LEN : Z := 8.

Inductive ECompressionType : Type :=
| eFixPattern
| eIncrementingPattern
| eDecrementingPattern
| eRandomPattern.

(** The enumerator values. *)
Definition type_value (t : ECompressionType) : Z :=
  match t with
  | eFixPattern => 0
  | eIncrementingPattern => 1
  | eDecrementingPattern => 2
  | eRandomPattern => 3
  end.

Definition DEFAULT_BYTES_PER_SECTOR : Z := 512.
Definition DEFAULT_SECTOR_COUNT : Z := 65536.

(** The members of [ufs::Buffer]. [_data] and [_dataStart] are addresses;
    [payload] is the content of the [GetTotalBytes()] bytes that start at
    [_dataStart]. *)
Record Buffer : Type := mkBuffer {
  _name : string;
  _data : Z;
  _dataStart : Z;
  payload : list Z;
  _bytesPerSector : Z;
  _sectorCount : Z;
  _random : option Random32;
  _allocatedByteCount : Z;
  _dataBufferSize : Z;
  _usePatternMode : bool
}.

Definition set_name (v : string) (b : Buffer) : Buffer :=
  mkBuffer v (_data b) (_dataStart b) (payload b) (_bytesPerSector b)
    (_sectorCount b) (_random b) (_allocatedByteCount b) (_dataBufferSize b)
    (_usePatternMode b).

Definition set_data (v : Z) (b : Buffer) : Buffer :=
  mkBuffer (_name b) v (_dataStart b) (payload b) (_bytesPerSector b)
    (_sectorCount b) (_random b) (_allocatedByteCount b) (_dataBufferSize b)
    (_usePatternMode b).

Definition set_dataStart (v : Z) (b : Buffer) : Buffer :=
  mkBuffer (_name b) (_data b) v (payload b) (_bytesPerSector b)
    (_sectorCount b) (_random b) (_allocatedByteCount b) (_dataBufferSize b)
    (_usePatternMode b).

Definition set_payload (v : list Z) (b : Buffer) : Buffer :=
  mkBuffer (_name b) (_data b) (_dataStart b) v (_bytesPerSector b)
    (_sectorCount b) (_random b) (_allocatedByteCount b) (_dataBufferSize b)
    (_usePatternMode b).

Definition set_bytesPerSector (v : Z) (b : Buffer) : Buffer :=
  mkBuffer (_name b) (_data b) (_dataStart b) (payload b) v
    (_sectorCount b) (_random b) (_allocatedByteCount b) (_dataBufferSize b)
    (_usePatternMode b).

Definition set_sectorCount (v : Z) (b : Buffer) : Buffer :=
  mkBuffer (_name b) (_data b) (_dataStart b) (payload b) (_bytesPerSector b)
    v (_random b) (_allocatedByteCount b) (_dataBufferSize b)
    (_usePatternMode b).

Definition set_random (v : option Random32) (b : Buffer) : Buffer :=
  mkBuffer (_name b) (_data b) (_dataStart b) (payload b) (_bytesPerSector b)
    (_sectorCount b) v (_allocatedByteCount b) (_dataBufferSize b)
    (_usePatternMode b).

Definition set_allocatedByteCount (v : Z) (b : Buffer) : Buffer :=
  mkBuffer (_name b) (_data b) (_dataStart b) (payload b) (_bytesPerSector b)
    (_sectorCount b) (_random b) v (_dataBufferSize b)
    (_usePatternMode b).

Definition set_dataBufferSize (v : Z) (b : Buffer) : Buffer :=
  mkBuffer (_name b) (_data b) (_dataStart b) (payload b) (_bytesPerSector b)
    (_sectorCount b) (_random b) (_allocatedByteCount b) v
    (_usePatternMode b).

Definition set_usePatternMode (v : bool) (b : Buffer) : Buffer :=
  mkBuffer (_name b) (_data b) (_dataStart b) (payload b) (_bytesPerSector b)
    (_sectorCount b) (_random b) (_allocatedByteCount b) (_dataBufferSize b)
    v.

(** *** The monad of member functions: the object is the state. *)

Definition M (A : Type) : Type := Buffer -> Result A * Buffer.

Definition ret {A : Type} (a : A) : M A := fun b => (Ok a, b).

Definition bind {A B : Type} (m : M A) (k : A -> M B) : M B :=
  fun b =>
    match m b with
    | (Ok a, b') => k a b'
    | (Throw e, b') => (Throw e, b')
    | (OutOfFuel, b') => (OutOfFuel, b')
    end.

Definition throw {A : Type} (e : ErrorKind) : M A := fun b => (Throw e, b).

(** A [const] member function that may throw. *)
Definition check {A : Type} (f : Buffer -> Result A) : M A := fun b => (f b, b).

(** Reading a member. *)
Definition get {A : Type} (f : Buffer -> A) : M A := fun b => (Ok (f b), b).

(** Assigning members. *)
Definition modify (f : Buffer -> Buffer) : M unit := fun b => (Ok tt, f b).

Declare Scope M_scope.
Delimit Scope M_scope with M.
Notation "'let*' x ':=' m 'in' k" := (bind m (fun x => k))
  (at level 10, x pattern, m at level 100, k at level 200) : M_scope.
Notation "m ';;' k" := (bind m (fun _ => k))
  (at level 100, k at level 200, right associativity) : M_scope.

Local Open Scope M_scope.

(** *** Inline members of Buffer.h *)

Definition GetBytesPerSector (b : Buffer) : Z := _bytesPerSector b.
Definition GetSectorCount (b : Buffer) : Z := _sectorCount b.
Definition GetTotalBytes (b : Buffer) : Z := wrap64 (_sectorCount b * _bytesPerSector b).
Definition GetDataBufferSize (b : Buffer) : Z := _dataBufferSize b.
Definition GetName (b : Buffer) : string := _name b.
Definition SetName (name : string) : M unit := modify (set_name name).

Definition ValidateSectorRangeAndGetSectorCount (startSector sectorCount : Z) (b : Buffer)
  : Result Z :=
  let sectorCount :=
    if sectorCount =? 0 then wrap64 (_sectorCount b - startSector) else sectorCount in
  if startSector >=? GetSectorCount b then Throw OutOfRangeError
  else if wrap64 (startSector + sectorCount) >? GetSectorCount b then Throw OutOfRangeError
  else Ok sectorCount.

(** The two reference parameters [startByte] and [endByte] are the result. *)
Definition GetStartAndStopBytesFromSectors (startSector sectorCount : Z) (b : Buffer)
  : Result (Z * Z) :=
  Result_bind (ValidateSectorRangeAndGetSectorCount startSector sectorCount b)
    (fun newSectorCount =>
       let startByte := wrap64 (startSector * GetBytesPerSector b) in
       let endByte :=
         if newSectorCount =? 0 then GetTotalBytes b
         else wrap64 (wrap64 (startSector + newSectorCount) * GetBytesPerSector b) in
       Ok (startByte, endByte)).

Definition ValidateByteRangeAndGetLength (startingOffset length : Z) (b : Buffer)
  : Result Z :=
  let length :=
    if length =? 0 then wrap64 (GetTotalBytes b - startingOffset) else length in
  if startingOffset >=? GetTotalBytes b then Throw OutOfRangeError
  else if wrap64 (startingOffset + length) >? GetTotalBytes b then Throw OutOfRangeError
  else Ok length.

Definition ValidateIndex (index : Z) (b : Buffer) : Result unit :=
  if index >=? GetTotalBytes b then Throw OutOfRangeError else Ok tt.

(** [GetRandom]; [clock] is the clock reading a default-constructed
    [Random32] would take. *)
Definition GetRandom (useSeed : bool) (seed clock : Z) : M Random32 :=
  fun b =>
    match _random b with
    | None =>
        let r := if useSeed then Random32_seeded seed else Random32_new clock in
        (Ok r, set_random (Some r) b)
    | Some r0 =>
        let r :=
          if useSeed then Seed seed r0
          else if GetIsSeeded r0 then Seed 0 r0 else r0 in
        (Ok r, set_random (Some r) b)
    end.

(** ** Buffer.cpp *)

Definition ValidateCounterMax (maxValue : Z) : Result unit :=
  if maxValue >? LLONG_MAX then Throw OutOfRangeError else Ok tt.

Definition CalculateTotalBytesToAllocate (dataByteCount : Z) : M unit :=
  let dataByteCountLowBits := Z.land dataByteCount 4095 in
  let alignmentOffset :=
    if dataByteCountLowBits =? 0 then 0 else 4096 - dataByteCountLowBits in
  modify (set_dataBufferSize (wrap64 (dataByteCount + alignmentOffset))) ;;
  modify (fun b => set_allocatedByteCount (wrap64 (_dataBufferSize b + 4095 + 4096)) b).

Definition CalculateDataStart (data dataByteCount : Z) : M Z :=
  let dataStartLowBits := Z.land data 4095 in
  let alignmentOffset :=
    if dataStartLowBits =? 0 then 0 else 4096 - dataStartLowBits in
  let dataStart := wrap64 (data + alignmentOffset) in
  let dataStart := wrap64 (dataStart + 4096) in
  let* allocatedByteCount := get _allocatedByteCount in
  if wrap64 (dataStart + dataByteCount) >? wrap64 (data + allocatedByteCount)
  then throw RuntimeError
  else ret dataStart.

(** One iteration of the [for] loop of [FillCompressionInfo] at loop
    variable [i], on the payload [d]. *)
Definition FillCompressionInfo_body (type pattenLen startByte i : Z) (d : list Z)
  : list Z :=
  let d1 :=
    if negb ((rd d startByte =? 0) && (type =? type_value eFixPattern))
    then wr (wr d i 0) i (wrap8 (Z.lor (Z.shiftl type 4) pattenLen))
    else d in
  if (type =? type_value eFixPattern)
     || (type =? type_value eIncrementingPattern)
     || (type =? type_value eDecrementingPattern)
  then memcpy d1 (i - COMPRESSION_PATTERN_SIZE_IN_BYTE)
         (i - COMPRESSION_PATTERN_SIZE_IN_BYTE - COMPRESSION_LBA_SIZE_IN_BYTE)
         pattenLen
  else d1.

(** The [for] loop of [FillCompressionInfo]: it runs while [i < endByte]
    and adds [_bytesPerSector] to [i]. *)
Fixpoint FillCompressionInfo_loop (fuel : nat) (type pattenLen startByte endByte bps : Z)
  (i : Z) (d : list Z) : option (list Z) :=
  if i <? endByte then
    match fuel with
    | O => None
    | S fuel' =>
        FillCompressionInfo_loop fuel' type pattenLen startByte endByte bps
          (wrap64 (i + bps)) (FillCompressionInfo_body type pattenLen startByte i d)
    end
  else Some d.

Definition FillCompressionInfo (type pattenLen startByte endByte : Z) : M unit :=
  fun b =>
    if pattenLen >? COMPRESSION_MAX_PATTERN_LEN then (Ok tt, b)
    else
      match FillCompressionInfo_loop (Z.to_nat endByte) type pattenLen startByte endByte
              (_bytesPerSector b)
              (wrap64 (startByte + COMPRESSION_LBA_SIZE_IN_BYTE
                       + COMPRESSION_PATTERN_SIZE_IN_BYTE))
              (payload b) with
      | Some d => (Ok tt, set_payload d b)
      | None => (OutOfFuel, b)
      end.

Definition Fill (value startSector sectorCount : Z) : M unit :=
  let* (startByte, endByte) :=
    check (GetStartAndStopBytesFromSectors startSector sectorCount) in
  modify (fun b => set_payload
            (memset (payload b) startByte value (wrap64 (endByte - startByte))) b) ;;
  let* usePatternMode := get _usePatternMode in
  if usePatternMode
  then FillCompressionInfo (type_value eFixPattern) 1 startByte endByte
  else ret tt.

Definition FillOnes (startSector sectorCount : Z) : M unit :=
  Fill 255 startSector sectorCount.

Definition FillZeros (startSector sectorCount : Z) : M unit :=
  Fill 0 startSector sectorCount.

(** [Initialize]: [env] is what [getenv] returns at the call and [a] what
    the [new] expression returns. *)
Definition Initialize (env : Environment) (a : Allocation)
  (sectorCount bytesPerSector : Z) : M unit :=
  modify (set_random None) ;;
  modify (set_usePatternMode (pattern_mode_of env)) ;;
  (if sectorCount <? 1 then throw InvalidArgumentError else ret tt) ;;
  (if bytesPerSector <? 1 then throw InvalidArgumentError else ret tt) ;;
  modify (set_name EmptyString) ;;
  modify (set_bytesPerSector bytesPerSector) ;;
  modify (set_sectorCount sectorCount) ;;
  (let* total := get GetTotalBytes in CalculateTotalBytesToAllocate total) ;;
  modify (fun b => set_payload (fresh_bytes (GetTotalBytes b) a)
                     (set_data (alloc_address a) b)) ;;
  (let* data := get _data in
   let* size := get GetDataBufferSize in
   let* dataStart := CalculateDataStart data size in
   modify (set_dataStart dataStart)) ;;
  Fill 0 0 sectorCount.

(** The object a constructor starts from: [_allocatedByteCount(0)], an empty
    name, the other members not yet assigned. *)
Definition blank : Buffer :=
  mkBuffer EmptyString 0 0 [] 0 0 None 0 0 false.

Definition construct (m : M unit) : Result Buffer :=
  match m blank with
  | (Ok _, b) => Ok b
  | (Throw e, _) => Throw e
  | (OutOfFuel, _) => OutOfFuel
  end.

(** [Buffer::Buffer(size_t sectorCount, size_t bytesPerSector)] *)
Definition Buffer_new (env : Environment) (a : Allocation)
  (sectorCount bytesPerSector : Z) : Result Buffer :=
  construct (Initialize env a sectorCount bytesPerSector).

(** [Buffer::Buffer(size_t sectorCount)] *)
Definition Buffer_new1 (env : Environment) (a : Allocation) (sectorCount : Z)
  : Result Buffer :=
  construct (Initialize env a sectorCount DEFAULT_BYTES_PER_SECTOR).

(** [Buffer::Buffer()] *)
Definition Buffer_new0 (env : Environment) (a : Allocation) : Result Buffer :=
  construct (Initialize env a DEFAULT_SECTOR_COUNT DEFAULT_BYTES_PER_SECTOR).

(** [Buffer::Buffer(const Buffer& buffer)]; [_name] is not assigned and
    stays the empty string of its default construction. *)
Definition Buffer_copy (a : Allocation) (buffer : Buffer) : Result Buffer :=
  let this := blank in
  let this := set_bytesPerSector (_bytesPerSector buffer) this in
  let this := set_sectorCount (_sectorCount buffer) this in
  let this := set_random None this in
  let this := set_usePatternMode (_usePatternMode buffer) this in
  let this :=
    match _random buffer with
    | Some r => set_random (Some (Random32_copy r)) this
    | None => this
    end in
  let this := set_allocatedByteCount (_allocatedByteCount buffer) this in
  let this := set_dataBufferSize (_dataBufferSize buffer) this in
  let this := set_payload (fresh_bytes (GetTotalBytes this) a)
                (set_data (alloc_address a) this) in
  match CalculateDataStart (_data this) (GetDataBufferSize this) this with
  | (Ok dataStart, this) =>
      let this := set_dataStart dataStart this in
      Ok (set_payload
            (write_bytes (payload this) 0
               (take (Z.to_nat (GetTotalBytes buffer)) (payload buffer)))
            this)
  | (Throw e, _) => Throw e
  | (OutOfFuel, _) => OutOfFuel
  end.

Definition GetByte (index : Z) (b : Buffer) : Result Z :=
  Result_bind (ValidateIndex index b) (fun _ => Ok (rd (payload b) index)).

Definition SetByte (index value : Z) : M unit :=
  check (ValidateIndex index) ;;
  modify (fun b => set_payload (wr (payload b) index value) b).

Definition SetBytes (startingOffset : Z) (value : list Z) : M unit :=
  check (ValidateByteRangeAndGetLength startingOffset (Z.of_nat (length value))) ;;
  modify (fun b => set_payload (write_bytes (payload b) startingOffset value) b).

(** The [while] loop of [FillPattern]. *)
Fixpoint FillPattern_loop (fuel : nat) (patterStart patternLen startByte endByte : Z)
  (d : list Z) : option (list Z) :=
  if startByte <? endByte then
    match fuel with
    | O => None
    | S fuel' =>
        let lenToEndByte := wrap64 (endByte - startByte) in
        let copyLen := Z.min patternLen lenToEndByte in
        let d' := memcpy d startByte patterStart copyLen in
        FillPattern_loop fuel' patterStart
          (if patternLen >=? 4096 then patternLen else wrap64 (patternLen * 2))
          (wrap64 (startByte + copyLen)) endByte d'
    end
  else Some d.

Definition FillPattern (patterStart patternLen startByte endByte : Z) : M unit :=
  fun b =>
    match FillPattern_loop (Z.to_nat (endByte - startByte)) patterStart patternLen
            startByte endByte (payload b) with
    | Some d => (Ok tt, set_payload d b)
    | None => (OutOfFuel, b)
    end.

(** The first loop of [FillBytes]: [n] iterations from [i]; [lst] is the
    vector [list]. *)
Fixpoint FillBytes_loop (n : nat) (lst : list Z) (byteCount startByte i : Z)
  (d : list Z) : list Z :=
  match n with
  | O => d
  | S n' =>
      FillBytes_loop n' lst byteCount startByte (i + 1)
        (wr d i (rd lst (wrap64 (i - startByte) mod byteCount)))
  end.

Definition FillBytes (lst : list Z) (startSector sectorCount : Z) : M unit :=
  let byteCount := Z.of_nat (length lst) in
  if negb (byteCount =? 0) then
    let* (startByte, endByte) :=
      check (GetStartAndStopBytesFromSectors startSector sectorCount) in
    let patternEnd := wrap64 (startByte + byteCount) in
    modify (fun b => set_payload
              (FillBytes_loop (Z.to_nat (Z.min patternEnd endByte - startByte))
                 lst byteCount startByte startByte (payload b)) b) ;;
    (if endByte >? patternEnd
     then FillPattern startByte byteCount patternEnd endByte
     else ret tt) ;;
    let* usePatternMode := get _usePatternMode in
    if usePatternMode
    then FillCompressionInfo (type_value eFixPattern) (wrap8 byteCount) startByte endByte
    else ret tt
  else ret tt.

(** The first loop of [FillIncrementing]: [startingValue++] on a [UInt8]. *)
Fixpoint FillIncrementing_loop (n : nat) (i startingValue : Z) (d : list Z) : list Z :=
  match n with
  | O => d
  | S n' => FillIncrementing_loop n' (i + 1) (wrap8 (startingValue + 1)) (wr d i startingValue)
  end.

Definition FillIncrementing (startingValue startSector sectorCount : Z) : M unit :=
  let* (startByte, endByte) :=
    check (GetStartAndStopBytesFromSectors startSector sectorCount) in
  let* bps := get GetBytesPerSector in
  modify (fun b => set_payload
            (FillIncrementing_loop (Z.to_nat (wrap64 (startByte + bps) - startByte))
               startByte startingValue (payload b)) b) ;;
  (if endByte >? wrap64 (startByte + bps)
   then FillPattern startByte bps (wrap64 (startByte + bps)) endByte
   else ret tt) ;;
  let* usePatternMode := get _usePatternMode in
  if usePatternMode
  then FillCompressionInfo (type_value eIncrementingPattern) 1 startByte endByte
  else ret tt.

(** The first loop of [FillDecrementing]: [startingValue--] on a [UInt8]. *)
Fixpoint FillDecrementing_loop (n : nat) (i startingValue : Z) (d : list Z) : list Z :=
  match n with
  | O => d
  | S n' => FillDecrementing_loop n' (i + 1) (wrap8 (startingValue - 1)) (wr d i startingValue)
  end.

Definition FillDecrementing (startingValue startSector sectorCount : Z) : M unit :=
  let* (startByte, endByte) :=
    check (GetStartAndStopBytesFromSectors startSector sectorCount) in
  let* bps := get GetBytesPerSector in
  modify (fun b => set_payload
            (FillDecrementing_loop (Z.to_nat (wrap64 (startByte + bps) - startByte))
               startByte startingValue (payload b)) b) ;;
  (if endByte >? wrap64 (startByte + bps)
   then FillPattern startByte bps (wrap64 (startByte + bps)) endByte
   else ret tt) ;;
  let* usePatternMode := get _usePatternMode in
  if usePatternMode
  then FillCompressionInfo (type_value eDecrementingPattern) 1 startByte endByte
  else ret tt.

(** One iteration of the loop of [FillSectorsWithRandomData] at word index
    [i]; the state is the generator, the local array [genBuffer] and the
    payload. *)
Definition FillSectorsWithRandomData_body (usePatternMode : bool) (bps i : Z)
  (random : Random32) (genBuffer : list Z) (d : list Z)
  : Random32 * list Z * list Z :=
  let '(genBuffer, d) :=
    if usePatternMode then
      let sectorByteIndex := i mod (bps / 4) in
      if sectorByteIndex =? 0 then
        let copySize := Z.min sizeof_taus88 COMPRESSION_PATTERN_SIZE_IN_BYTE in
        (write_bytes genBuffer 0 (take (Z.to_nat copySize) (taus88_bytes (GetGen random))), d)
      else if sectorByteIndex =? 6 then
        let copySize := Z.min COMPRESSION_PATTERN_SIZE_IN_BYTE (4 * 4) in
        (genBuffer, write_bytes d (4 * (i - 4)) (take (Z.to_nat copySize) genBuffer))
      else (genBuffer, d)
    else (genBuffer, d) in
  let '(v, random) := Next random in
  (random, genBuffer, wr32 d i v).

(** The loop of [FillSectorsWithRandomData]: [n] iterations from word index
    [i]. *)
Fixpoint FillSectorsWithRandomData_loop (n : nat) (usePatternMode : bool) (bps : Z)
  (i : Z) (random : Random32) (genBuffer : list Z) (d : list Z)
  : Random32 * list Z * list Z :=
  match n with
  | O => (random, genBuffer, d)
  | S n' =>
      let '(random, genBuffer, d) :=
        FillSectorsWithRandomData_body usePatternMode bps i random genBuffer d in
      FillSectorsWithRandomData_loop n' usePatternMode bps (i + 1) random genBuffer d
  end.

(** [FillSectorsWithRandomData]; the generator is passed by reference and
    its final state is the result. The local [genBuffer] starts
    indeterminate. *)
Definition FillSectorsWithRandomData (random : Random32) (startSector sectorCount : Z)
  : M Random32 :=
  let* (startByte, endByte) :=
    check (GetStartAndStopBytesFromSectors startSector sectorCount) in
  let* usePatternMode := get _usePatternMode in
  let* bps := get _bytesPerSector in
  let* d := get payload in
  let '(random', _, d') :=
    FillSectorsWithRandomData_loop (Z.to_nat (endByte / 4 - startByte / 4))
      usePatternMode bps (startByte / 4) random
      (replicate (Z.to_nat COMPRESSION_PATTERN_SIZE_IN_BYTE) 0) d in
  modify (set_payload d') ;;
  (if usePatternMode
   then FillCompressionInfo (type_value eRandomPattern) 0 startByte endByte
   else ret tt) ;;
  ret random'.

Definition FillRandomImpl (startSector sectorCount : Z) (useSeed : bool) (seed clock : Z)
  : M unit :=
  let* bps := get GetBytesPerSector in
  if negb (bps mod 4 =? 0) then throw RuntimeError
  else
    let* r := GetRandom useSeed seed clock in
    let* r' := FillSectorsWithRandomData r startSector sectorCount in
    modify (set_random (Some r')).

(** [FillRandom]: [clock] is read only when the generator is created. *)
Definition FillRandom (startSector sectorCount clock : Z) : M unit :=
  FillRandomImpl startSector sectorCount false 0 clock.

Definition FillRandomSeeded (seed startSector sectorCount : Z) : M unit :=
  FillRandomImpl startSector sectorCount true seed 0.

(** The loop of [FillRandomSeededBySector] on the local copy [random]. *)
Fixpoint FillRandomSeededBySector_loop (n : nat) (seed startSector i : Z)
  (random : Random32) : M unit :=
  match n with
  | O => ret tt
  | S n' =>
      let random := Seed (wrap32 (seed + i - startSector)) random in
      let* random' := FillSectorsWithRandomData random i 1 in
      FillRandomSeededBySector_loop n' seed startSector (i + 1) random'
  end.

Definition FillRandomSeededBySector (seed startSector sectorCount : Z) : M unit :=
  let* bps := get GetBytesPerSector in
  if negb (bps mod 4 =? 0) then throw RuntimeError
  else
    let* sectorCount :=
      check (ValidateSectorRangeAndGetSectorCount startSector sectorCount) in
    check (fun _ => ValidateCounterMax (wrap64 (startSector + sectorCount))) ;;
    let* r := GetRandom true seed 0 in
    let random := Random32_copy r in
    check (fun _ => ValidateCounterMax (wrap64 (startSector + sectorCount))) ;;
    FillRandomSeededBySector_loop
      (Z.to_nat (wrap64 (startSector + sectorCount) - startSector))
      seed startSector startSector random.

(** The search loop of [CompareTo]: the pair [(offset, offset2)], both 0
    when no iteration breaks. *)
Fixpoint CompareTo_loop (n : nat) (left : list Z) (startByte : Z)
  (right : list Z) (startByte2 : Z) (i : Z) : Z * Z :=
  match n with
  | O => (0, 0)
  | S n' =>
      if negb (rd left (startByte + i) =? rd right (startByte2 + i))
      then (wrap64 (startByte + i), wrap64 (startByte2 + i))
      else CompareTo_loop n' left startByte right startByte2 (i + 1)
  end.

(** [this->CompareTo(buffer, startSector, startSector2, sectorCount)] *)
Definition CompareTo (buffer : Buffer) (startSector startSector2 sectorCount : Z)
  (this : Buffer) : Result CompareResult :=
  Result_bind (GetStartAndStopBytesFromSectors startSector sectorCount this)
    (fun '(startByte, endByte) =>
  Result_bind (GetStartAndStopBytesFromSectors startSector2 sectorCount buffer)
    (fun '(startByte2, endByte2) =>
  let bytesToCompare := wrap64 (endByte - startByte) in
  Result_bind
    (if sectorCount =? 0
     then Ok (Z.min bytesToCompare (wrap64 (endByte2 - startByte2)))
     else if negb (wrap64 (endByte2 - startByte2) =? bytesToCompare)
          then Throw InvalidArgumentError
          else Ok bytesToCompare)
    (fun bytesToCompare =>
  let result :=
    memcmp (payload this) startByte (payload buffer) startByte2
      (Z.to_nat bytesToCompare) in
  let '(offset, offset2) :=
    if negb (result =? 0)
    then CompareTo_loop (Z.to_nat bytesToCompare) (payload this) startByte
           (payload buffer) startByte2 0
    else (0, 0) in
  if result =? 0 then Ok CompareResult_equal
  else
    let expectedValue := rd (payload this) offset in
    let actualValue := rd (payload buffer) offset2 in
    Ok (CompareResult_unequal offset expectedValue actualValue)))).

(** [CompareTo(buffer)], [CompareTo(buffer, startSector)] and
    [CompareTo(buffer, startSector, sectorCount)]. *)
Definition CompareTo1 (buffer this : Buffer) : Result CompareResult :=
  CompareTo buffer 0 0 0 this.

(** [Resize(sectorCount, bytesPerSector)]: [delete [] _data] ends the
    lifetime of the payload bytes. *)
Definition Resize (env : Environment) (a : Allocation)
  (sectorCount bytesPerSector : Z) : M unit :=
  let* oldTotalBytes := get GetTotalBytes in
  let newTotalBytes := wrap64 (sectorCount * bytesPerSector) in
  let bytesToPreserve := Z.min oldTotalBytes newTotalBytes in
  let* oldData :=
    get (fun b => if bytesToPreserve >? 0
                  then take (Z.to_nat bytesToPreserve) (payload b) else []) in
  modify (set_payload []) ;;
  modify (set_random None) ;;
  Initialize env a sectorCount bytesPerSector ;;
  if bytesToPreserve >? 0
  then modify (fun b => set_payload (write_bytes (payload b) 0 oldData) b)
  else ret tt.

(** [Resize(sectorCount)] *)
Definition Resize1 (env : Environment) (a : Allocation) (sectorCount : Z) : M unit :=
  let* bps := get GetBytesPerSector in
  Resize env a sectorCount bps.

(** ** Well-formed buffers and valid ranges *)

(** [sectorCount x bytesPerSector], not reduced. *)
Definition total (b : Buffer) : Z := _sectorCount b * _bytesPerSector b.

(** The invariants of section 3 that the model can see: both sizes at
    least 1, the payload of [total] bytes, and [total] small enough for
    the block to exist. *)
Definition wf (b : Buffer) : Prop :=
  1 <= _sectorCount b /\ 1 <= _bytesPerSector b /\ total b < 2 ^ 63 /\
  Z.of_nat (length (payload b)) = total b.

(** The sizes [CalculateTotalBytesToAllocate] leaves in the object. *)
Definition wf_alloc (b : Buffer) : Prop :=
  total b <= _dataBufferSize b /\
  _allocatedByteCount b = _dataBufferSize b + 4095 + 4096 /\
  _allocatedByteCount b < 2 ^ 64.

(** A block of [n] bytes at the address of [a] lies in the address space. *)
Definition alloc_fits (a : Allocation) (n : Z) : Prop :=
  0 <= alloc_address a /\ alloc_address a + n < 2 ^ 64.

(** The sector range guard of section 4.4.2 on arguments of type [size_t]. *)
Definition valid_sector_range (b : Buffer) (startSector sectorCount : Z) : Prop :=
  0 <= startSector < _sectorCount b /\ 0 <= sectorCount /\
  startSector + sectorCount <= _sectorCount b.

(** The count after normalisation, and the byte range it denotes. *)
Definition range_count (b : Buffer) (startSector sectorCount : Z) : Z :=
  if sectorCount =? 0 then _sectorCount b - startSector else sectorCount.

Definition range_start (b : Buffer) (startSector : Z) : Z :=
  startSector * _bytesPerSector b.

Definition range_end (b : Buffer) (startSector sectorCount : Z) : Z :=
  (startSector + range_count b startSector sectorCount) * _bytesPerSector b.

(** Buffers of the same shape. *)
Definition same_shape (b b' : Buffer) : Prop :=
  _sectorCount b' = _sectorCount b /\ _bytesPerSector b' = _bytesPerSector b /\
  _usePatternMode b' = _usePatternMode b /\ length (payload b') = length (payload b).

(** The number of bytes [CompareTo] compares on valid ranges: with a count
    of 0 the shorter of the two spans. *)
Definition compare_length (this buffer : Buffer) (startSector startSector2 sectorCount : Z)
  : Z :=
  let span := range_end this startSector sectorCount - range_start this startSector in
  let span2 := range_end buffer startSector2 sectorCount - range_start buffer startSector2 in
  if sectorCount =? 0 then Z.min span span2 else span.

(** Both sector ranges pass the guard, and with a count the two spans have
    the same number of bytes. *)
Definition valid_compare_range (this buffer : Buffer)
  (startSector startSector2 sectorCount : Z) : Prop :=
  valid_sector_range this startSector sectorCount /\
  valid_sector_range buffer startSector2 sectorCount /\
  (sectorCount <> 0 ->
   range_end buffer startSector2 sectorCount - range_start buffer startSector2
   = range_end this startSector sectorCount - range_start this startSector).

(** What [FillCompressionInfo] leaves at index [p] of a sector-aligned
    range that starts at [sb], on sectors of [bps >= 21] bytes, in terms
    of the payload [d0] before the call: the type and length byte at sector
    offset 20, the copy of the first [len] bytes of the sector at offset 8,
    the other bytes as they were. *)
Definition record_byte (type len sb bps : Z) (d0 : list Z) (p : Z) : Z :=
  let off := (p - sb) mod bps in
  if off =? 20 then
    if (rd d0 sb =? 0) && (type =? type_value eFixPattern) then rd d0 p
    else wrap8 (Z.lor (Z.shiftl type 4) len)
  else if (8 <=? off) && (off <? 8 + len)
          && ((type =? type_value eFixPattern)
              || (type =? type_value eIncrementingPattern)
              || (type =? type_value eDecrementingPattern))
  then rd d0 (p - 8)
  else rd d0 p.

(** A computation that leaves [_usePatternMode] as it finds it, whether it
    returns or throws. *)
Definition keeps_flag {A : Type} (m : M A) : Prop :=
  forall b, _usePatternMode (snd (m b)) = _usePatternMode b.

(** *** The pattern fills *)

(** The fills that end with a fixed, incrementing or decrementing
    [FillCompressionInfo]. *)
Inductive PatternFill : Type :=
| PFill (value : Z)
| PFillBytes (lst : list Z)
| PFillIncrementing (startingValue : Z)
| PFillDecrementing (startingValue : Z).

Definition run_fill (f : PatternFill) (startSector sectorCount : Z) : M unit :=
  match f with
  | PFill value => Fill value startSector sectorCount
  | PFillBytes lst => FillBytes lst startSector sectorCount
  | PFillIncrementing v => FillIncrementing v startSector sectorCount
  | PFillDecrementing v => FillDecrementing v startSector sectorCount
  end.

(** The type and the pattern length each of them passes to
    [FillCompressionInfo]. *)
Definition fill_type (f : PatternFill) : ECompressionType :=
  match f with
  | PFill _ => eFixPattern
  | PFillBytes _ => eFixPattern
  | PFillIncrementing _ => eIncrementingPattern
  | PFillDecrementing _ => eDecrementingPattern
  end.

Definition fill_len (f : PatternFill) : Z :=
  match f with
  | PFillBytes lst => wrap8 (Z.of_nat (length lst))
  | _ => 1
  end.

(** The arguments as their C++ types allow them: a [UInt8] start value, a
    vector that is not empty. *)
Definition fill_args_ok (f : PatternFill) : Prop :=
  match f with
  | PFill value => True
  | PFillBytes lst => 0 < Z.of_nat (length lst) < 2 ^ 63
  | PFillIncrementing v => 0 <= v < 256
  | PFillDecrementing v => 0 <= v < 256
  end.

(** The byte a fill without pattern mode leaves [k] bytes after the start
    of its range, on sectors of [bps] bytes. *)
Definition fill_byte (f : PatternFill) (bps k : Z) : Z :=
  match f with
  | PFill value => value
  | PFillBytes lst => rd lst (k mod Z.of_nat (length lst))
  | PFillIncrementing v => wrap8 (v + k mod bps)
  | PFillDecrementing v => wrap8 (v - k mod bps)
  end.

(** What a fill [m] does on a valid range of [b]: it stores the bytes
    [raw], by offset from the start of the range, and then runs
    [FillCompressionInfo] when the flag is set. *)
Definition fill_result (b : Buffer) (s c : Z) (m : M unit) (type len : Z)
  (raw : Z -> Z) : Prop :=
  exists d1,
    length d1 = length (payload b) /\
    (forall p, 0 <= p ->
       rd d1 p = if (range_start b s <=? p) && (p <? range_end b s c)
                 then raw (p - range_start b s) else rd (payload b) p) /\
    m b = if _usePatternMode b
          then FillCompressionInfo type len (range_start b s) (range_end b s c)
                 (set_payload d1 b)
          else (Ok tt, set_payload d1 b).

(** The type and length byte: the type in the high nibble, the pattern
    length in the low one. *)
Definition type_and_length (t : ECompressionType) (len : Z) : Z :=
  wrap8 (Z.lor (Z.shiftl (type_value t) 4) len).

(** The byte a fill in pattern mode leaves [k] bytes after the start of its
    range, on sectors of [bps >= 21] bytes: at sector offset 20 the type
    and length byte, unless the fill is of fixed type and the first byte
    of the range is 0; at sector offsets 8 to [8 + len - 1] the bytes at
    sector offsets 0 to [len - 1]; elsewhere the byte of the fill. *)
Definition stamped (f : PatternFill) (bps k : Z) : Z :=
  let off := k mod bps in
  if off =? 20 then
    if (fill_byte f bps 0 =? 0) && (type_value (fill_type f) =? type_value eFixPattern)
    then fill_byte f bps k
    else type_and_length (fill_type f) (fill_len f)
  else if (8 <=? off) && (off <? 8 + fill_len f) then fill_byte f bps (k - 8)
  else fill_byte f bps k.

(** Two payloads agree at the indices of [P]. *)
Definition agree (P : Z -> Prop) (d1 d2 : list Z) : Prop :=
  forall p, 0 <= p -> P p -> rd d1 p = rd d2 p.

(** The twelve bytes [FillSectorsWithRandomData] saves of a generator. *)
Definition snapshot (r : Random32) : list Z :=
  take (Z.to_nat (Z.min sizeof_taus88 COMPRESSION_PATTERN_SIZE_IN_BYTE))
    (taus88_bytes (GetGen r)).

(** The state of the loop of [FillSectorsWithRandomData] in pattern mode
    before word [i], on sectors of [W >= 7] words, started at word [i0]
    with the generator [r0]: the generator has advanced once per word; in
    a sector whose first word is done [genBuffer] holds the snapshot taken
    there; in a sector whose word 6 is done the payload holds that
    snapshot at sector offsets 8 to 19. *)
Definition snapshot_inv (W i0 : Z) (r0 : Random32) (N : nat) (i : Z)
  (r : Random32) (g d : list Z) : Prop :=
  r = Next_times (Z.to_nat (i - i0)) r0 /\ length g = 12%nat /\ length d = N /\
  (forall k, 0 <= k -> i0 + k * W < i -> i <= i0 + k * W + W ->
     g = snapshot (Next_times (Z.to_nat (k * W)) r0)) /\
  (forall k j, 0 <= k -> i0 + k * W + 7 <= i -> 0 <= j < 12 ->
     rd d (4 * (i0 + k * W) + 8 + j)
     = rd (snapshot (Next_times (Z.to_nat (k * W)) r0)) j).

(** ** Sample objects *)

(** A block at address 4112 whose bytes all hold 205. *)
Definition sample_alloc : Allocation :=
  {| alloc_address := 4112; alloc_contents := fun _ => 205 |}.

(** [Buffer(2, 32)] as the constructor leaves it with the variable unset,
    and with the variable set to [1]. *)
Definition sample_plain : Buffer :=
  mkBuffer EmptyString 4112 12288 (replicate 64 0) 32 2 None 12287 4096 false.

Definition sample_pattern : Buffer :=
  mkBuffer EmptyString 4112 12288 (replicate 64 0) 32 2 None 12287 4096 true.

(** [Buffer(3, 16)] with the variable set to [1]. *)
Definition sample_pattern_small : Buffer :=
  mkBuffer EmptyString 4112 12288 (replicate 48 0) 16 3 None 12287 4096 true.

(** [Buffer(5, 512)] of the scenarios of section 8. *)
Definition scenario_buffer : Buffer :=
  mkBuffer EmptyString 4112 12288 (replicate 2560 0) 512 5 None 12287 4096 false.

(** A buffer of two sectors of 8 bytes with a name and a generator. *)
Definition sample_named : Buffer :=
  mkBuffer "A"%string 4112 12288 [1; 2; 3; 4; 5; 6; 7; 8; 9; 10; 11; 12; 13; 14; 15; 16]
    8 2 (Some (Random32_seeded 7)) 12287 4096 false.

(** [Buffer(1, 513)]. *)
Definition sample_odd : Buffer :=
  mkBuffer EmptyString 4112 12288 (replicate 513 0) 513 1 None 12287 4096 false.


(** ** Buffer.cpp: inspection of the payload *)

(** [Buffer::IsAllZeros]: when the first byte is 0, the payload is
    compared with itself one byte further,
    [!::memcmp(p, p + 1, GetTotalBytes() - 1)]. *)
Definition IsAllZeros (b : Buffer) : bool :=
  if rd (payload b) 0 =? 0
  then memcmp (payload b) 0 (payload b) 1 (Z.to_nat (wrap64 (GetTotalBytes b - 1))) =? 0
  else false.

(** The [for] loop of [CalculateChecksumByte]: [n] iterations from [i],
    [result] a [UInt8]. *)
Fixpoint CalculateChecksumByte_loop (n : nat) (i result : Z) (d : list Z) : Z :=
  match n with
  | O => result
  | S n' => CalculateChecksumByte_loop n' (i + 1) (wrap8 (result + rd d i)) d
  end.

(** [Buffer::CalculateChecksumByte]; the loop runs while
    [i < startByte + byteCount], the sum taken in [size_t]. *)
Definition CalculateChecksumByte (startByte byteCount : Z) (b : Buffer) : Result Z :=
  if byteCount =? 0 then Throw InvalidArgumentError
  else if wrap64 (startByte + byteCount) >? GetTotalBytes b then Throw OutOfRangeError
  else
    let result :=
      CalculateChecksumByte_loop (Z.to_nat (wrap64 (startByte + byteCount) - startByte))
        startByte 0 (payload b) in
    Ok (wrap8 (Z.lnot result + 1)).

(** The table [lookup] of [GetBitCount]: entry [i] is what the inner loop
    of its initialisation counts. The table is filled on the first call
    and holds the same values from then on. *)
Fixpoint lookup_loop (n : nat) (i bit count : Z) : Z :=
  match n with
  | O => count
  | S n' => lookup_loop n' i (bit + 1) (wrap64 (count + Z.land (Z.shiftr i bit) 1))
  end.

Definition lookup (i : Z) : Z := lookup_loop 8 i 0 0.

(** The counting loop of [GetBitCount]. *)
Fixpoint GetBitCount_loop (n : nat) (i invertMask bitCount : Z) (d : list Z) : Z :=
  match n with
  | O => bitCount
  | S n' =>
      let val := wrap8 (Z.lxor (rd d i) invertMask) in
      GetBitCount_loop n' (i + 1) invertMask (wrap64 (bitCount + lookup val)) d
  end.

(** [Buffer::GetBitCount(size_t, size_t, UInt8)] *)
Definition GetBitCount (startingOffset length value : Z) (b : Buffer) : Result Z :=
  Result_bind (ValidateByteRangeAndGetLength startingOffset length b)
    (fun newLength =>
       let invertMaskForCountingZeroes := if value =? 0 then 255 else 0 in
       let endByte := wrap64 (startingOffset + newLength) in
       Ok (GetBitCount_loop (Z.to_nat (endByte - startingOffset)) startingOffset
             invertMaskForCountingZeroes 0 (payload b))).

(** The sum of the [n] bytes from index [i] on. *)
Fixpoint sum_bytes (d : list Z) (i : Z) (n : nat) : Z :=
  match n with
  | O => 0
  | S n' => rd d i + sum_bytes d (i + 1) n'
  end.

(** The length a byte range denotes: a length of 0 reaches to the end. *)
Definition byte_range_length (b : Buffer) (startingOffset length : Z) : Z :=
  if length =? 0 then total b - startingOffset else length.

(** The byte range guard on arguments of type [size_t]. *)
Definition valid_byte_range (b : Buffer) (startingOffset length : Z) : Prop :=
  0 <= startingOffset < total b /\ 0 <= length /\ startingOffset + length <= total b.

(** The sum of the table entries of the [n] bytes from index [i] on, each
    byte taken through the mask. *)
Fixpoint count_bits (d : list Z) (invertMask i : Z) (n : nat) : Z :=
  match n with
  | O => 0
  | S n' => lookup (wrap8 (Z.lxor (rd d i) invertMask)) + count_bits d invertMask (i + 1) n'
  end.

(** The number of 1 bits among the 8 low bits of [v], bit by bit. *)
Definition ones_of_byte (v : Z) : Z :=
  Z.b2z (Z.testbit v 0) + Z.b2z (Z.testbit v 1) + Z.b2z (Z.testbit v 2) +
  Z.b2z (Z.testbit v 3) + Z.b2z (Z.testbit v 4) + Z.b2z (Z.testbit v 5) +
  Z.b2z (Z.testbit v 6) + Z.b2z (Z.testbit v 7).

(** The number of 1 bits in the [n] payload bytes from index [i] on. *)
Fixpoint ones_in (d : list Z) (i : Z) (n : nat) : Z :=
  match n with
  | O => 0
  | S n' => ones_of_byte (rd d i) + ones_in d (i + 1) n'
  end.


(** ** Buffer.cpp: bytes, words, double words and quad words *)

Definition wrap16 (x : Z) : Z := x mod 2 ^ 16.

(** The [UInt8] a bit test [(v & (1 << bit)) > 0] returns. *)
Definition bit_of (v bit : Z) : Z :=
  if Z.land v (Z.shiftl 1 bit) >? 0 then 1 else 0.

(** [Buffer::GetByteBit] *)
Definition GetByteBit (index bit : Z) (b : Buffer) : Result Z :=
  if bit >? 7 then Throw InvalidArgumentError
  else Result_bind (GetByte index b) (fun v => Ok (bit_of v bit)).

(** [Buffer::GetWord]: the index of the last byte is checked; the bytes
    are combined in [int] and converted to [UInt16]. *)
Definition GetWord (index : Z) (b : Buffer) : Result Z :=
  Result_bind (ValidateIndex (wrap64 (index + 1)) b)
    (fun _ =>
       let d := payload b in
       Ok (wrap16 (Z.lor (rd d index) (Z.shiftl (rd d (wrap64 (index + 1))) 8)))).

(** [Buffer::GetWordBit] *)
Definition GetWordBit (index bit : Z) (b : Buffer) : Result Z :=
  if bit >? 15 then Throw InvalidArgumentError
  else Result_bind (GetWord index b) (fun v => Ok (bit_of v bit)).

(** [Buffer::SetWord] *)
Definition SetWord (index value : Z) : M unit :=
  check (ValidateIndex (wrap64 (index + 1))) ;;
  modify (fun b =>
    let d := payload b in
    let d := wr d index (wrap8 (Z.land value 255)) in
    let d := wr d (wrap64 (index + 1)) (wrap8 (Z.shiftr value 8)) in
    set_payload d b).

(** [Buffer::GetWordBigEndian] *)
Definition GetWordBigEndian (index : Z) (b : Buffer) : Result Z :=
  Result_bind (ValidateIndex (wrap64 (index + 1)) b)
    (fun _ =>
       let d := payload b in
       Ok (wrap16 (Z.lor (Z.shiftl (rd d index) 8) (rd d (wrap64 (index + 1)))))).

(** [Buffer::GetWordBitBigEndian] *)
Definition GetWordBitBigEndian (index bit : Z) (b : Buffer) : Result Z :=
  if bit >? 15 then Throw InvalidArgumentError
  else Result_bind (GetWordBigEndian index b) (fun v => Ok (bit_of v bit)).

(** [Buffer::SetWordBigEndian] *)
Definition SetWordBigEndian (index value : Z) : M unit :=
  check (ValidateIndex (wrap64 (index + 1))) ;;
  modify (fun b =>
    let d := payload b in
    let d := wr d index (wrap8 (Z.shiftr value 8)) in
    let d := wr d (wrap64 (index + 1)) (wrap8 (Z.land value 255)) in
    set_payload d b).

(** [Buffer::GetDWord]: the shifts are taken in [int] and the result is
    converted to [UInt32]. *)
Definition GetDWord (index : Z) (b : Buffer) : Result Z :=
  Result_bind (ValidateIndex (wrap64 (index + 3)) b)
    (fun _ =>
       let d := payload b in
       Ok (wrap32
             (Z.lor (Z.lor (Z.lor (rd d index)
                                  (Z.shiftl (rd d (wrap64 (index + 1))) 8))
                           (Z.shiftl (rd d (wrap64 (index + 2))) 16))
                    (Z.shiftl (rd d (wrap64 (index + 3))) 24)))).

(** [Buffer::GetDWordBit] *)
Definition GetDWordBit (index bit : Z) (b : Buffer) : Result Z :=
  if bit >? 31 then Throw InvalidArgumentError
  else Result_bind (GetDWord index b) (fun v => Ok (bit_of v bit)).

(** [Buffer::SetDWord] *)
Definition SetDWord (index value : Z) : M unit :=
  check (ValidateIndex (wrap64 (index + 3))) ;;
  modify (fun b =>
    let d := payload b in
    let d := wr d index (wrap8 (Z.land value 255)) in
    let d := wr d (wrap64 (index + 1)) (wrap8 (Z.shiftr value 8)) in
    let d := wr d (wrap64 (index + 2)) (wrap8 (Z.shiftr value 16)) in
    let d := wr d (wrap64 (index + 3)) (wrap8 (Z.shiftr value 24)) in
    set_payload d b).

(** [Buffer::GetDWordBigEndian] *)
Definition GetDWordBigEndian (index : Z) (b : Buffer) : Result Z :=
  Result_bind (ValidateIndex (wrap64 (index + 3)) b)
    (fun _ =>
       let d := payload b in
       Ok (wrap32
             (Z.lor (Z.lor (Z.lor (Z.shiftl (rd d index) 24)
                                  (Z.shiftl (rd d (wrap64 (index + 1))) 16))
                           (Z.shiftl (rd d (wrap64 (index + 2))) 8))
                    (rd d (wrap64 (index + 3)))))).

(** [Buffer::GetDWordBitBigEndian] *)
Definition GetDWordBitBigEndian (index bit : Z) (b : Buffer) : Result Z :=
  if bit >? 31 then Throw InvalidArgumentError
  else Result_bind (GetDWordBigEndian index b) (fun v => Ok (bit_of v bit)).

(** [Buffer::SetDWordBigEndian] *)
Definition SetDWordBigEndian (index value : Z) : M unit :=
  check (ValidateIndex (wrap64 (index + 3))) ;;
  modify (fun b =>
    let d := payload b in
    let d := wr d index (wrap8 (Z.shiftr value 24)) in
    let d := wr d (wrap64 (index + 1)) (wrap8 (Z.shiftr value 16)) in
    let d := wr d (wrap64 (index + 2)) (wrap8 (Z.shiftr value 8)) in
    let d := wr d (wrap64 (index + 3)) (wrap8 (Z.land value 255)) in
    set_payload d b).

(** [Buffer::GetQWord] *)
Definition GetQWord (index : Z) (b : Buffer) : Result Z :=
  Result_bind (ValidateIndex (wrap64 (index + 7)) b)
    (fun _ =>
       let d := payload b in
       Ok (wrap64
             (Z.lor (Z.lor (Z.lor (Z.lor (Z.lor (Z.lor (Z.lor
                (rd d index)
                (Z.shiftl (rd d (wrap64 (index + 1))) 8))
                (Z.shiftl (rd d (wrap64 (index + 2))) 16))
                (Z.shiftl (rd d (wrap64 (index + 3))) 24))
                (Z.shiftl (rd d (wrap64 (index + 4))) 32))
                (Z.shiftl (rd d (wrap64 (index + 5))) 40))
                (Z.shiftl (rd d (wrap64 (index + 6))) 48))
                (Z.shiftl (rd d (wrap64 (index + 7))) 56)))).

(** [Buffer::GetQWordBit] *)
Definition GetQWordBit (index bit : Z) (b : Buffer) : Result Z :=
  if bit >? 63 then Throw InvalidArgumentError
  else Result_bind (GetQWord index b) (fun v => Ok (bit_of v bit)).

(** [Buffer::SetQWord] *)
Definition SetQWord (index value : Z) : M unit :=
  check (ValidateIndex (wrap64 (index + 7))) ;;
  modify (fun b =>
    let d := payload b in
    let d := wr d index (wrap8 value) in
    let d := wr d (wrap64 (index + 1)) (wrap8 (Z.shiftr value 8)) in
    let d := wr d (wrap64 (index + 2)) (wrap8 (Z.shiftr value 16)) in
    let d := wr d (wrap64 (index + 3)) (wrap8 (Z.shiftr value 24)) in
    let d := wr d (wrap64 (index + 4)) (wrap8 (Z.shiftr value 32)) in
    let d := wr d (wrap64 (index + 5)) (wrap8 (Z.shiftr value 40)) in
    let d := wr d (wrap64 (index + 6)) (wrap8 (Z.shiftr value 48)) in
    let d := wr d (wrap64 (index + 7)) (wrap8 (Z.shiftr value 56)) in
    set_payload d b).

(** [Buffer::GetQWordBigEndian] *)
Definition GetQWordBigEndian (index : Z) (b : Buffer) : Result Z :=
  Result_bind (ValidateIndex (wrap64 (index + 7)) b)
    (fun _ =>
       let d := payload b in
       Ok (wrap64
             (Z.lor (Z.lor (Z.lor (Z.lor (Z.lor (Z.lor (Z.lor
                (Z.shiftl (rd d index) 56)
                (Z.shiftl (rd d (wrap64 (index + 1))) 48))
                (Z.shiftl (rd d (wrap64 (index + 2))) 40))
                (Z.shiftl (rd d (wrap64 (index + 3))) 32))
                (Z.shiftl (rd d (wrap64 (index + 4))) 24))
                (Z.shiftl (rd d (wrap64 (index + 5))) 16))
                (Z.shiftl (rd d (wrap64 (index + 6))) 8))
                (rd d (wrap64 (index + 7)))))).

(** [Buffer::GetQWordBitBigEndian] *)
Definition GetQWordBitBigEndian (index bit : Z) (b : Buffer) : Result Z :=
  if bit >? 63 then Throw InvalidArgumentError
  else Result_bind (GetQWordBigEndian index b) (fun v => Ok (bit_of v bit)).

(** [Buffer::SetQWordBigEndian] *)
Definition SetQWordBigEndian (index value : Z) : M unit :=
  check (ValidateIndex (wrap64 (index + 7))) ;;
  modify (fun b =>
    let d := payload b in
    let d := wr d index (wrap8 (Z.shiftr value 56)) in
    let d := wr d (wrap64 (index + 1)) (wrap8 (Z.shiftr value 48)) in
    let d := wr d (wrap64 (index + 2)) (wrap8 (Z.shiftr value 40)) in
    let d := wr d (wrap64 (index + 3)) (wrap8 (Z.shiftr value 32)) in
    let d := wr d (wrap64 (index + 4)) (wrap8 (Z.shiftr value 24)) in
    let d := wr d (wrap64 (index + 5)) (wrap8 (Z.shiftr value 16)) in
    let d := wr d (wrap64 (index + 6)) (wrap8 (Z.shiftr value 8)) in
    let d := wr d (wrap64 (index + 7)) (wrap8 value) in
    set_payload d b).

(** Byte [k] of [value], counted from the least significant one. *)
Definition byte_of (value k : Z) : Z := (value / 2 ^ (8 * k)) mod 256.

(** What a store of [w] bytes at [index] leaves: the payload length and
    the bytes outside the [w] bytes. *)
Definition stores_at (b b' : Buffer) (index w : Z) : Prop :=
  length (payload b') = length (payload b) /\
  forall p, 0 <= p -> p < index \/ index + w <= p ->
    rd (payload b') p = rd (payload b) p.



(** ** Buffer.cpp: byte vectors and strings *)

(** [Buffer::GetBytes(size_t, size_t)]: the vector of [newLength] bytes
    that [std::copy] fills from the payload. The allocation of the vector
    is taken to succeed. *)
Definition GetBytes (startingOffset length : Z) (b : Buffer) : Result (list Z) :=
  Result_bind (ValidateByteRangeAndGetLength startingOffset length b)
    (fun newLength =>
       Ok (take (Z.to_nat newLength) (drop (Z.to_nat startingOffset) (payload b)))).

(** A [char] of a [std::string] and the [UInt8] with the same bits. *)
Definition char_of_UInt8 (v : Z) : ascii := ascii_of_nat (Z.to_nat v).
Definition UInt8_of_char (c : ascii) : Z := Z.of_nat (nat_of_ascii c).

(** [Buffer::GetString(size_t, size_t)]:
    [std::string((char* )(_dataStart + startingOffset), newLength)]. *)
Definition GetString (startingOffset length : Z) (b : Buffer) : Result string :=
  Result_bind (ValidateByteRangeAndGetLength startingOffset length b)
    (fun newLength =>
       Ok (string_of_list_ascii
             (map char_of_UInt8
                (take (Z.to_nat newLength) (drop (Z.to_nat startingOffset) (payload b)))))).

(** [Buffer::SetString] *)
Definition SetString (startingOffset : Z) (value : string) : M unit :=
  check (ValidateByteRangeAndGetLength startingOffset (Z.of_nat (String.length value))) ;;
  modify (fun b => set_payload
            (write_bytes (payload b) startingOffset
               (map UInt8_of_char (list_ascii_of_string value))) b).

(** ** Buffer.cpp: FillAddressOverlay *)

(** The value of an [Int64] that a conversion from [size_t] gives. *)
Definition to_Int64 (x : Z) : Z := (x + 2 ^ 63) mod 2 ^ 64 - 2 ^ 63.

(** The eight bytes of a 64-bit word, least significant first. *)
Definition le64 (w : Z) : list Z :=
  [ Z.land w 255; Z.land (Z.shiftr w 8) 255;
    Z.land (Z.shiftr w 16) 255; Z.land (Z.shiftr w 24) 255;
    Z.land (Z.shiftr w 32) 255; Z.land (Z.shiftr w 40) 255;
    Z.land (Z.shiftr w 48) 255; Z.land (Z.shiftr w 56) 255 ].

(** [data64BitPtr[i] = w] with [data64BitPtr = (UInt64* )_dataStart], the
    host storing the least significant byte first, as for [int32Ptr]. *)
Definition wr64 (d : list Z) (i : Z) (w : Z) : list Z :=
  write_bytes d (8 * i) (le64 w).

(** One iteration of the loop of [FillAddressOverlay] at loop variable
    [i]; the subtraction, the division and the second index are taken in
    [size_t]. *)
Definition FillAddressOverlay_body (startingValue start64bitOffset jump i : Z)
  (d : list Z) : list Z :=
  let value := wrap64 (startingValue + wrap64 (i - start64bitOffset) / jump) in
  let d := wr64 d i value in
  wr64 d (wrap64 (i + jump - 1)) value.

(** The loop of [FillAddressOverlay]: [i] is an [Int64], compared with
    [(Int64)end64bitOffset] and advanced by [jump]. *)
Fixpoint FillAddressOverlay_loop (fuel : nat)
  (startingValue start64bitOffset end64bitOffset jump : Z) (i : Z) (d : list Z)
  : option (list Z) :=
  if i <? to_Int64 end64bitOffset then
    match fuel with
    | O => None
    | S fuel' =>
        FillAddressOverlay_loop fuel' startingValue start64bitOffset end64bitOffset jump
          (to_Int64 (i + jump))
          (FillAddressOverlay_body startingValue start64bitOffset jump i d)
    end
  else Some d.

(** [Buffer::FillAddressOverlay(UInt64, size_t, size_t)] *)
Definition FillAddressOverlay (startingValue startSector sectorCount : Z) : M unit :=
  let* sectorCount :=
    check (ValidateSectorRangeAndGetSectorCount startSector sectorCount) in
  let* bps := get _bytesPerSector in
  let jump := bps / 8 in
  let start64bitOffset := wrap64 (startSector * jump) in
  let end64bitOffset := wrap64 (wrap64 (startSector + sectorCount) * jump) in
  check (fun _ => ValidateCounterMax end64bitOffset) ;;
  fun b =>
    match FillAddressOverlay_loop (Z.to_nat end64bitOffset) startingValue
            start64bitOffset end64bitOffset jump (to_Int64 start64bitOffset)
            (payload b) with
    | Some d => (Ok tt, set_payload d b)
    | None => (OutOfFuel, b)
    end.

(** The byte [FillAddressOverlay] leaves [k] bytes after the start of its
    range, on sectors of [bps] bytes, [old] being the byte before the
    call: the first eight and the last eight bytes of sector [k / bps] of
    the range hold the starting value plus [k / bps]. *)
Definition overlay_byte (startingValue bps k old : Z) : Z :=
  let value := wrap64 (startingValue + k / bps) in
  let off := k mod bps in
  if bps - 8 <=? off then byte_of value (off - (bps - 8))
  else if off <? 8 then byte_of value off
  else old.

(** A buffer of 3 sectors of 4 bytes that holds 1 to 12. *)
Definition sample_small : Buffer :=
  mkBuffer EmptyString 4112 12288 [1; 2; 3; 4; 5; 6; 7; 8; 9; 10; 11; 12] 4 3 None
    12287 4096 false.


(** ** Buffer.cpp: CopyTo and CopyFrom *)

(** [Buffer::CopyTo(Buffer&, size_t, size_t, size_t)] on a destination
    that is another object; the destination after the call is the result.
    The range of the destination is not checked: a copy that does not fit
    the payload of the destination writes outside of it, which the model
    does not follow. *)
Definition CopyTo (destinationBuffer : Buffer)
  (startSector destStartSector sectorCount : Z) (this : Buffer) : Result Buffer :=
  Result_bind (GetStartAndStopBytesFromSectors startSector sectorCount this)
    (fun '(startByte, endByte) =>
       let destStartByte := wrap64 (destStartSector * GetBytesPerSector this) in
       let bytesToCopy := wrap64 (endByte - startByte) in
       Ok (set_payload
             (write_bytes (payload destinationBuffer) destStartByte
                (take (Z.to_nat bytesToCopy) (drop (Z.to_nat startByte) (payload this))))
             destinationBuffer)).

(** [Buffer::CopyFrom(const Buffer&, size_t, size_t, size_t)] from a
    source that is another object. *)
Definition CopyFrom (sourceBuffer : Buffer)
  (startSector srcStartSector sectorCount : Z) : M unit :=
  let* (srcStartByte, srcEndByte) :=
    check (fun _ => GetStartAndStopBytesFromSectors srcStartSector sectorCount sourceBuffer) in
  let* bps := get GetBytesPerSector in
  let destStartByte := wrap64 (startSector * bps) in
  let bytesToCopy := wrap64 (srcEndByte - srcStartByte) in
  modify (fun b =>
    set_payload
      (write_bytes (payload b) destStartByte
         (take (Z.to_nat bytesToCopy) (drop (Z.to_nat srcStartByte) (payload sourceBuffer))))
      b).

(** The number of bytes of a valid sector range. *)
Definition range_bytes (b : Buffer) (startSector sectorCount : Z) : Z :=
  range_end b startSector sectorCount - range_start b startSector.


(** The payload [d'] after a fill of the sector range: the bytes [raw], by
    offset from the start of the range, inside the range, the bytes of
    [b] outside. *)
Definition filled (b : Buffer) (s c : Z) (d' : list Z) (raw : Z -> Z) : Prop :=
  length d' = length (payload b) /\
  forall p, 0 <= p ->
    rd d' p = if (range_start b s <=? p) && (p <? range_end b s c)
              then raw (p - range_start b s) else rd (payload b) p.

(** ** The random fills *)

(** The generator [GetRandom] hands to [FillRandomImpl]: a new one, seeded
    or started from the clock, when the buffer has none; else the one of
    the buffer, seeded again when a seed is given, seeded with 0 when it
    was seeded before, and as it is otherwise. *)
Definition chosen_generator (useSeed : bool) (seed clock : Z) (b : Buffer) : Random32 :=
  match _random b with
  | None => if useSeed then Random32_seeded seed else Random32_new clock
  | Some r0 =>
      if useSeed then Random32_seeded seed
      else if GetIsSeeded r0 then Random32_seeded 0 else r0
  end.

(** Byte [k] of the stream of the 32-bit outputs of [r], each stored least
    significant byte first. *)
Definition stream_byte (r : Random32) (k : Z) : Z :=
  rd (le32 (fst (Next (Next_times (Z.to_nat (k / 4)) r)))) (k mod 4).





(** ** Utils.h / Utils.cpp *)

(** The character of a hexadecimal digit on a stream with
    [std::uppercase]. *)
Definition hex_digit (d : Z) : ascii :=
  ascii_of_nat (Z.to_nat (if d <? 10 then 48 + d else 55 + d)).

(** The digits a stream with [std::hex] writes for a non-negative [int],
    most significant first; an [int] has at most 8 of them. *)
Fixpoint hex_digits (fuel : nat) (n : Z) : list ascii :=
  match fuel with
  | O => []
  | S fuel' =>
      if n <? 16 then [hex_digit n]
      else hex_digits fuel' (n / 16) ++ [hex_digit (n mod 16)]
  end.

(** [ss << std::setw(w) << std::setfill(fill) << v] on a stream prepared
    by [InitHexStringStream]: the digits, preceded by fill characters up
    to the width. *)
Definition put_hex (w : nat) (fill : ascii) (v : Z) : list ascii :=
  let digits := hex_digits 8 v in
  replicate (w - length digits) fill ++ digits.

(** [utils::ByteToHexString] *)
Definition ByteToHexString (byte : Z) : string :=
  string_of_list_ascii (put_hex 2 "0"%char byte).

(** The loop of [utils::BytesToHexString] over the bytes [data]. *)
Fixpoint BytesToHexString_loop (data : list Z) : list ascii :=
  match data with
  | [] => []
  | byte :: rest => put_hex 2 "0"%char byte ++ BytesToHexString_loop rest
  end.

(** [utils::BytesToHexString] *)
Definition BytesToHexString (data : list Z) : string :=
  string_of_list_ascii (BytesToHexString_loop data).

(** The value of a hexadecimal digit character. *)
Definition hex_value (c : ascii) : Z :=
  let n := Z.of_nat (nat_of_ascii c) in
  if n <? 58 then n - 48 else n - 55.

(** The values of an unsigned char. *)
Definition is_byte (v : Z) : Prop := 0 <= v < 256.


(** ** Calls on a buffer *)

(** [Buffer::CopyTo] seen from its destination, the object it changes:
    [sourceBuffer.CopyTo(destinationBuffer, ...)]. *)
Definition CopyTo_into (sourceBuffer : Buffer)
  (startSector destStartSector sectorCount : Z) : M unit :=
  fun destinationBuffer =>
    match CopyTo destinationBuffer startSector destStartSector sectorCount sourceBuffer with
    | Ok b => (Ok tt, b)
    | Throw e => (Throw e, destinationBuffer)
    | OutOfFuel => (OutOfFuel, destinationBuffer)
    end.

(** The calls of Buffer.cpp that change the object they are made on;
    [OpResize] and [OpResize1] carry what the process environment and the
    allocator return when they run, [OpCopyFrom] and [OpCopyTo_into] the
    other buffer of the copy. *)
Inductive Op : Type :=
| OpSetName (name : string)
| OpSetByte (index value : Z)
| OpSetWord (index value : Z)
| OpSetWordBigEndian (index value : Z)
| OpSetDWord (index value : Z)
| OpSetDWordBigEndian (index value : Z)
| OpSetQWord (index value : Z)
| OpSetQWordBigEndian (index value : Z)
| OpSetBytes (startingOffset : Z) (value : list Z)
| OpSetString (startingOffset : Z) (value : string)
| OpFill (value startSector sectorCount : Z)
| OpFillOnes (startSector sectorCount : Z)
| OpFillZeros (startSector sectorCount : Z)
| OpFillBytes (lst : list Z) (startSector sectorCount : Z)
| OpFillIncrementing (startingValue startSector sectorCount : Z)
| OpFillDecrementing (startingValue startSector sectorCount : Z)
| OpFillAddressOverlay (startingValue startSector sectorCount : Z)
| OpFillRandom (startSector sectorCount clock : Z)
| OpFillRandomSeeded (seed startSector sectorCount : Z)
| OpFillRandomSeededBySector (seed startSector sectorCount : Z)
| OpCopyFrom (sourceBuffer : Buffer) (startSector srcStartSector sectorCount : Z)
| OpCopyTo_into (sourceBuffer : Buffer) (startSector destStartSector sectorCount : Z)
| OpResize (env : Environment) (a : Allocation) (sectorCount bytesPerSector : Z)
| OpResize1 (env : Environment) (a : Allocation) (sectorCount : Z).

Definition run_op (o : Op) : M unit :=
  match o with
  | OpSetName name => SetName name
  | OpSetByte index value => SetByte index value
  | OpSetWord index value => SetWord index value
  | OpSetWordBigEndian index value => SetWordBigEndian index value
  | OpSetDWord index value => SetDWord index value
  | OpSetDWordBigEndian index value => SetDWordBigEndian index value
  | OpSetQWord index value => SetQWord index value
  | OpSetQWordBigEndian index value => SetQWordBigEndian index value
  | OpSetBytes startingOffset value => SetBytes startingOffset value
  | OpSetString startingOffset value => SetString startingOffset value
  | OpFill value startSector sectorCount => Fill value startSector sectorCount
  | OpFillOnes startSector sectorCount => FillOnes startSector sectorCount
  | OpFillZeros startSector sectorCount => FillZeros startSector sectorCount
  | OpFillBytes lst startSector sectorCount => FillBytes lst startSector sectorCount
  | OpFillIncrementing v startSector sectorCount => FillIncrementing v startSector sectorCount
  | OpFillDecrementing v startSector sectorCount => FillDecrementing v startSector sectorCount
  | OpFillAddressOverlay v startSector sectorCount =>
      FillAddressOverlay v startSector sectorCount
  | OpFillRandom startSector sectorCount clock => FillRandom startSector sectorCount clock
  | OpFillRandomSeeded seed startSector sectorCount => FillRandomSeeded seed startSector sectorCount
  | OpFillRandomSeededBySector seed startSector sectorCount =>
      FillRandomSeededBySector seed startSector sectorCount
  | OpCopyFrom sourceBuffer startSector srcStartSector sectorCount =>
      CopyFrom sourceBuffer startSector srcStartSector sectorCount
  | OpCopyTo_into sourceBuffer startSector destStartSector sectorCount =>
      CopyTo_into sourceBuffer startSector destStartSector sectorCount
  | OpResize env a sectorCount bytesPerSector => Resize env a sectorCount bytesPerSector
  | OpResize1 env a sectorCount => Resize1 env a sectorCount
  end.

Definition is_resize (o : Op) : bool :=
  match o with
  | OpResize _ _ _ _ => true
  | OpResize1 _ _ _ => true
  | _ => false
  end.

(** The object after a sequence of calls, whatever each call returns (a
    caller may catch an exception and go on). *)
Fixpoint run_ops (os : list Op) (b : Buffer) : Buffer :=
  match os with
  | [] => b
  | o :: os' => run_ops os' (snd (run_op o b))
  end.

(** The pattern-mode flag after a sequence of calls on a buffer whose flag
    is [flag]: what the last resize of the sequence read from the
    environment, or [flag] when there is none. *)
Fixpoint flag_after (os : list Op) (flag : bool) : bool :=
  match os with
  | [] => flag
  | OpResize env _ _ _ :: os' => flag_after os' (pattern_mode_of env)
  | OpResize1 env _ _ :: os' => flag_after os' (pattern_mode_of env)
  | _ :: os' => flag_after os' flag
  end.

(** * Properties *)
Section CompareResultFacts.

Lemma reachable_count_nonneg n r : reachable n r -> 0 <= n.
Proof. induction 1; lia. Qed.

Lemma reachable_count n r :
  reachable n r -> _differenceCount r = wrap64 n.
Proof.
  induction 1 as [| |n r o e a Hr IH]; try reflexivity.
  unfold AddDifference. destruct (_areEqual r) eqn:Heq; simpl.
  - inversion Hr; subst; simpl in *; try discriminate; try reflexivity.
    unfold AddDifference in Heq. destruct (_areEqual r0); discriminate.
  - rewrite IH. unfold wrap64. now rewrite Zplus_mod_idemp_l.
Qed.

Lemma reachable_equal_iff n r :
  reachable n r -> (_areEqual r = true <-> n = 0).
Proof.
  induction 1 as [| |n r o e a Hr IH]; simpl.
  - tauto.
  - split; [discriminate | lia].
  - apply reachable_count_nonneg in Hr.
    unfold AddDifference. destruct (_areEqual r); simpl; split;
      first [discriminate | lia].
Qed.

Lemma AddDifference_times_unequal n o e a r :
  _areEqual r = false ->
  _areEqual (AddDifference_times n o e a r) = false /\
  _differenceCount (AddDifference_times n o e a r)
    = wrap64 (_differenceCount r + Z.pos n).
Proof.
  intros Hr. unfold AddDifference_times.
  induction n as [|n IH] using Pos.peano_ind.
  - simpl. unfold AddDifference. rewrite Hr. simpl. auto.
  - rewrite Pos.iter_succ. destruct IH as [IH1 IH2].
    unfold AddDifference at 1 3. rewrite IH1. simpl. split; [reflexivity|].
    rewrite IH2. unfold wrap64. rewrite Zplus_mod_idemp_l.
    f_equal. lia.
Qed.

Lemma AddDifference_times_reachable n o e a m r :
  reachable m r -> reachable (m + Z.pos n) (AddDifference_times n o e a r).
Proof.
  intros Hr. unfold AddDifference_times.
  induction n as [|n IH] using Pos.peano_ind.
  - simpl. now constructor.
  - rewrite Pos.iter_succ.
    replace (m + Z.pos (Pos.succ n)) with (m + Z.pos n + 1) by lia.
    now constructor.
Qed.

End CompareResultFacts.

(** ** Machine integers *)

Lemma wrap64_small x : 0 <= x < 2 ^ 64 -> wrap64 x = x.
Proof. intros H. unfold wrap64. now apply Z.mod_small. Qed.

Lemma wrap8_small x : 0 <= x < 256 -> wrap8 x = x.
Proof. intros H. unfold wrap8. now apply Z.mod_small. Qed.

Lemma wrap8_range x : 0 <= wrap8 x < 256.
Proof. unfold wrap8. apply Z.mod_pos_bound. reflexivity. Qed.

Lemma land_4095 x : 0 <= x -> Z.land x 4095 = x mod 4096.
Proof. intros _. change 4095 with (Z.ones 12). now rewrite Z.land_ones by lia. Qed.

(** ** Bytes in memory *)

Section Memory.

Implicit Types d bs : list Z.

Lemma length_wr d i v : length (wr d i v) = length d.
Proof. unfold wr. apply length_insert. Qed.

Lemma rd_wr_eq d i v :
  0 <= i < Z.of_nat (length d) -> rd (wr d i v) i = v.
Proof.
  intros H. unfold rd, wr. apply list_lookup_total_insert_eq. lia.
Qed.

Lemma rd_wr_ne d i j v :
  0 <= i -> 0 <= j -> i <> j -> rd (wr d i v) j = rd d j.
Proof.
  intros Hi Hj Hne. unfold rd, wr. apply list_lookup_total_insert_ne. lia.
Qed.

Lemma rd_wr d i j v :
  0 <= i < Z.of_nat (length d) -> 0 <= j ->
  rd (wr d i v) j = if j =? i then v else rd d j.
Proof.
  intros Hi Hj. destruct (Z.eqb_spec j i) as [->|Hne].
  - now apply rd_wr_eq.
  - apply rd_wr_ne; lia.
Qed.

Lemma length_write_bytes d off bs :
  0 <= off -> off + Z.of_nat (length bs) <= Z.of_nat (length d) ->
  length (write_bytes d off bs) = length d.
Proof.
  intros H0 H1. unfold write_bytes.
  rewrite !length_app, length_take, length_drop. lia.
Qed.

Lemma rd_write_bytes d off bs p :
  0 <= off -> off + Z.of_nat (length bs) <= Z.of_nat (length d) -> 0 <= p ->
  rd (write_bytes d off bs) p =
    if (off <=? p) && (p <? off + Z.of_nat (length bs)) then rd bs (p - off) else rd d p.
Proof.
  intros H0 H1 Hp. unfold write_bytes, rd.
  destruct (Z.leb_spec off p) as [Hle|Hlt]; simpl.
  - rewrite lookup_total_app_r by (rewrite length_take; lia).
    rewrite length_take, Nat.min_l by lia.
    destruct (Z.ltb_spec p (off + Z.of_nat (length bs))) as [Hin|Hout].
    + rewrite lookup_total_app_l by lia. f_equal. lia.
    + rewrite lookup_total_app_r by lia. rewrite lookup_total_drop. f_equal. lia.
  - rewrite lookup_total_app_l by (rewrite length_take; lia).
    apply lookup_total_take_lt. lia.
Qed.

Lemma length_memset d dst v n :
  0 <= dst -> 0 <= n -> dst + n <= Z.of_nat (length d) ->
  length (memset d dst v n) = length d.
Proof.
  intros. unfold memset. apply length_write_bytes; rewrite ?length_replicate; lia.
Qed.

Lemma rd_memset d dst v n p :
  0 <= dst -> 0 <= n -> dst + n <= Z.of_nat (length d) -> 0 <= p ->
  rd (memset d dst v n) p = if (dst <=? p) && (p <? dst + n) then v else rd d p.
Proof.
  intros Hd Hn Hlen Hp. unfold memset.
  rewrite rd_write_bytes by (rewrite ?length_replicate; lia).
  rewrite length_replicate, Z2Nat.id by lia.
  destruct (Z.leb_spec dst p), (Z.ltb_spec p (dst + n)); simpl; try reflexivity.
  unfold rd. apply lookup_total_replicate_2. lia.
Qed.

Lemma length_memcpy d dst src n :
  0 <= dst -> 0 <= src -> 0 <= n ->
  dst + n <= Z.of_nat (length d) -> src + n <= Z.of_nat (length d) ->
  length (memcpy d dst src n) = length d.
Proof.
  intros. unfold memcpy. apply length_write_bytes; [lia|].
  rewrite length_take, length_drop. lia.
Qed.

Lemma rd_memcpy d dst src n p :
  0 <= dst -> 0 <= src -> 0 <= n ->
  dst + n <= Z.of_nat (length d) -> src + n <= Z.of_nat (length d) -> 0 <= p ->
  rd (memcpy d dst src n) p =
    if (dst <=? p) && (p <? dst + n) then rd d (src + (p - dst)) else rd d p.
Proof.
  intros Hd Hs Hn Hld Hls Hp. unfold memcpy.
  assert (Hlen : length (take (Z.to_nat n) (drop (Z.to_nat src) d)) = Z.to_nat n).
  { rewrite length_take, length_drop. lia. }
  rewrite rd_write_bytes by (rewrite ?Hlen; lia).
  rewrite Hlen, Z2Nat.id by lia.
  destruct (Z.leb_spec dst p), (Z.ltb_spec p (dst + n)); simpl; try reflexivity.
  unfold rd. rewrite lookup_total_take_lt by lia. rewrite lookup_total_drop.
  f_equal. lia.
Qed.

Lemma length_le32 w : length (le32 w) = 4%nat.
Proof. reflexivity. Qed.

Lemma length_wr32 d i w :
  0 <= i -> 4 * i + 4 <= Z.of_nat (length d) -> length (wr32 d i w) = length d.
Proof.
  intros. unfold wr32. apply length_write_bytes; rewrite ?length_le32; lia.
Qed.

Lemma rd_wr32 d i w p :
  0 <= i -> 4 * i + 4 <= Z.of_nat (length d) -> 0 <= p ->
  rd (wr32 d i w) p =
    if (4 * i <=? p) && (p <? 4 * i + 4) then rd (le32 w) (p - 4 * i) else rd d p.
Proof.
  intros. unfold wr32. rewrite rd_write_bytes by (rewrite ?length_le32; lia).
  reflexivity.
Qed.

(** Two payloads of the same length that agree at every index are equal. *)
Lemma rd_ext d1 d2 :
  length d1 = length d2 ->
  (forall p, 0 <= p < Z.of_nat (length d1) -> rd d1 p = rd d2 p) ->
  d1 = d2.
Proof.
  intros Hlen H. apply (list_eq_same_length _ _ (length d1)); [lia | reflexivity |].
  intros i x y Hi Hx Hy.
  specialize (H (Z.of_nat i) ltac:(lia)). unfold rd in H.
  rewrite Nat2Z.id in H.
  rewrite (list_lookup_total_correct _ _ _ Hx), (list_lookup_total_correct _ _ _ Hy) in H.
  exact H.
Qed.

Lemma write_bytes_nil d off : write_bytes d off [] = d.
Proof. unfold write_bytes. simpl. rewrite Nat.add_0_r. apply take_drop. Qed.

Lemma memcmp_zero_iff d1 p1 d2 p2 n :
  memcmp d1 p1 d2 p2 n = 0 <->
  (forall i, 0 <= i < Z.of_nat n -> rd d1 (p1 + i) = rd d2 (p2 + i)).
Proof.
  revert p1 p2. induction n as [|n IH]; intros p1 p2; simpl memcmp.
  - split; [intros _ i Hi; lia | reflexivity].
  - destruct (Z.eqb_spec (rd d1 p1) (rd d2 p2)) as [Heq|Hne].
    + rewrite IH. split.
      * intros H i Hi. destruct (Z.eq_dec i 0) as [->|Hi0].
        -- now rewrite !Z.add_0_r.
        -- specialize (H (i - 1) ltac:(lia)).
           now replace (p1 + 1 + (i - 1)) with (p1 + i) in H by lia;
             replace (p2 + 1 + (i - 1)) with (p2 + i) in H by lia.
      * intros H i Hi. specialize (H (i + 1) ltac:(lia)).
        now replace (p1 + (i + 1)) with (p1 + 1 + i) in H by lia;
          replace (p2 + (i + 1)) with (p2 + 1 + i) in H by lia.
    + split.
      * intros H. lia.
      * intros H. specialize (H 0 ltac:(lia)). rewrite !Z.add_0_r in H. contradiction.
Qed.

End Memory.

(** ** Validators *)

Ltac run_M := unfold bind, check, get, modify, ret, throw; simpl.

Section Validators.

Variable b : Buffer.
Hypothesis Hwf : wf b.

Lemma wf_total_nonneg : 0 < total b.
Proof. destruct Hwf as (H1 & H2 & _). unfold total. nia. Qed.

Lemma GetTotalBytes_wf : GetTotalBytes b = total b.
Proof.
  unfold GetTotalBytes. fold (total b). apply wrap64_small.
  pose proof wf_total_nonneg as Hpos. destruct Hwf as (_ & _ & H3 & _). lia.
Qed.

Lemma range_count_pos s c : valid_sector_range b s c -> 1 <= range_count b s c.
Proof.
  intros (Hs & Hc & Hsc). unfold range_count.
  destruct (Z.eqb_spec c 0); lia.
Qed.

Lemma range_count_le s c :
  valid_sector_range b s c -> s + range_count b s c <= _sectorCount b.
Proof.
  intros (Hs & Hc & Hsc). unfold range_count.
  destruct (Z.eqb_spec c 0); lia.
Qed.

Lemma range_bounds s c :
  valid_sector_range b s c ->
  0 <= range_start b s /\
  range_start b s + _bytesPerSector b <= range_end b s c /\
  range_end b s c <= total b /\
  range_end b s c = range_start b s + range_count b s c * _bytesPerSector b.
Proof.
  intros Hv. pose proof (range_count_pos s c Hv) as Hp.
  pose proof (range_count_le s c Hv) as Hl.
  destruct Hv as (Hs & Hc & Hsc). destruct Hwf as (H1 & H2 & H3 & H4).
  unfold range_start, range_end, total in *. nia.
Qed.

Lemma ValidateSectorRange_valid s c :
  valid_sector_range b s c ->
  ValidateSectorRangeAndGetSectorCount s c b = Ok (range_count b s c).
Proof.
  intros Hv. pose proof (range_count_pos s c Hv) as Hp.
  pose proof (range_count_le s c Hv) as Hl.
  destruct Hv as (Hs & Hc & Hsc). destruct Hwf as (H1 & H2 & H3 & H4).
  assert (Hsc63 : _sectorCount b < 2 ^ 63) by (unfold total in H3; nia).
  unfold ValidateSectorRangeAndGetSectorCount, GetSectorCount.
  assert (Hn : (if c =? 0 then wrap64 (_sectorCount b - s) else c) = range_count b s c).
  { unfold range_count. destruct (Z.eqb_spec c 0); [apply wrap64_small; lia | reflexivity]. }
  rewrite Hn.
  destruct (Z.geb_spec s (_sectorCount b)); [lia|].
  rewrite wrap64_small by lia.
  destruct (Z.gtb_spec (s + range_count b s c) (_sectorCount b)); [lia|reflexivity].
Qed.

Lemma GetStartAndStop_valid s c :
  valid_sector_range b s c ->
  GetStartAndStopBytesFromSectors s c b = Ok (range_start b s, range_end b s c).
Proof.
  intros Hv. unfold GetStartAndStopBytesFromSectors.
  rewrite (ValidateSectorRange_valid s c Hv). simpl.
  pose proof (range_count_pos s c Hv) as Hp.
  pose proof (range_count_le s c Hv) as Hl.
  pose proof (range_bounds s c Hv) as (Hb0 & Hb1 & Hb2 & Hb3).
  destruct Hv as (Hs & Hc & Hsc). destruct Hwf as (H1 & H2 & H3 & H4).
  assert (Hsc63 : _sectorCount b < 2 ^ 63) by (unfold total in H3; nia).
  destruct (Z.eqb_spec (range_count b s c) 0); [lia|].
  unfold GetBytesPerSector. rewrite (wrap64_small (s + _)) by lia.
  fold (range_start b s). fold (range_end b s c).
  rewrite !wrap64_small by lia. reflexivity.
Qed.

End Validators.

Lemma classic_first_mismatch d1 p1 d2 p2 (n : nat) :
  (forall i, 0 <= i < Z.of_nat n -> rd d1 (p1 + i) = rd d2 (p2 + i)) \/
  (exists i, 0 <= i < 0 + Z.of_nat n /\ rd d1 (p1 + i) <> rd d2 (p2 + i)).
Proof.
  induction n as [|n IH].
  - left. intros i Hi. lia.
  - destruct IH as [Hall|(i & Hi & Hne)].
    + destruct (Z.eq_dec (rd d1 (p1 + Z.of_nat n)) (rd d2 (p2 + Z.of_nat n))) as [Heq|Hne].
      * left. intros i Hi. destruct (Z.eq_dec i (Z.of_nat n)) as [->|]; [exact Heq|].
        apply Hall. lia.
      * right. exists (Z.of_nat n). split; [lia|exact Hne].
    + right. exists i. split; [lia|exact Hne].
Qed.

(** ** CompareTo *)

Lemma CompareTo_loop_first n left sb right sb2 i0 :
  (exists i, i0 <= i < i0 + Z.of_nat n /\ rd left (sb + i) <> rd right (sb2 + i)) ->
  exists i, i0 <= i < i0 + Z.of_nat n /\
    (forall j, i0 <= j < i -> rd left (sb + j) = rd right (sb2 + j)) /\
    rd left (sb + i) <> rd right (sb2 + i) /\
    CompareTo_loop n left sb right sb2 i0 = (wrap64 (sb + i), wrap64 (sb2 + i)).
Proof.
  revert i0. induction n as [|n IH]; intros i0 (i & Hi & Hne).
  - lia.
  - simpl CompareTo_loop.
    destruct (Z.eqb_spec (rd left (sb + i0)) (rd right (sb2 + i0))) as [Heq|Hneq]; simpl.
    + destruct (IH (i0 + 1)) as (k & Hk & Hbefore & Hat & Hloop).
      { exists i. split; [|exact Hne].
        destruct (Z.eq_dec i i0) as [->|]; [contradiction|lia]. }
      exists k. repeat split; try lia; try assumption.
      intros j Hj. destruct (Z.eq_dec j i0) as [->|]; [exact Heq|apply Hbefore; lia].
    + exists i0. repeat split; try lia; try assumption.
Qed.

(** The result of [CompareTo] on valid compare ranges. *)
Lemma CompareTo_result (this buffer : Buffer) (s s2 c : Z) :
  wf this -> wf buffer -> valid_compare_range this buffer s s2 c ->
  let n := compare_length this buffer s s2 c in
  let sb := range_start this s in
  let sb2 := range_start buffer s2 in
  exists r, CompareTo buffer s s2 c this = Ok r /\
    (_areEqual r = true <->
     forall i, 0 <= i < n -> rd (payload this) (sb + i) = rd (payload buffer) (sb2 + i)) /\
    (_areEqual r = true -> r = CompareResult_equal) /\
    (_areEqual r = false ->
     exists i, 0 <= i < n /\
       (forall j, 0 <= j < i -> rd (payload this) (sb + j) = rd (payload buffer) (sb2 + j)) /\
       rd (payload this) (sb + i) <> rd (payload buffer) (sb2 + i) /\
       _firstDifferenceOffset r = sb + i /\
       _expectedValue r = rd (payload this) (sb + i) /\
       _actualValue r = rd (payload buffer) (sb2 + i) /\
       _differenceCount r = 1).
Proof.
  intros Hwf1 Hwf2 (Hv1 & Hv2 & Hspan) n sb sb2.
  pose proof (range_bounds this Hwf1 s c Hv1) as (Ha0 & Ha1 & Ha2 & Ha3).
  pose proof (range_bounds buffer Hwf2 s2 c Hv2) as (Hb0 & Hb1 & Hb2 & Hb3).
  assert (Ht1 : total this < 2 ^ 63) by (destruct Hwf1 as (_ & _ & H & _); exact H).
  assert (Ht2 : total buffer < 2 ^ 63) by (destruct Hwf2 as (_ & _ & H & _); exact H).
  assert (Hbps1 : 1 <= _bytesPerSector this) by (destruct Hwf1 as (_ & H & _); exact H).
  assert (Hbps2 : 1 <= _bytesPerSector buffer) by (destruct Hwf2 as (_ & H & _); exact H).
  unfold CompareTo.
  rewrite (GetStartAndStop_valid this Hwf1 s c Hv1). simpl Result_bind.
  rewrite (GetStartAndStop_valid buffer Hwf2 s2 c Hv2). simpl Result_bind.
  fold sb sb2.
  set (eb := range_end this s c) in *. set (eb2 := range_end buffer s2 c) in *.
  rewrite (wrap64_small (eb - sb)) by (subst sb; lia).
  rewrite (wrap64_small (eb2 - sb2)) by (subst sb2; lia).
  assert (Hlen :
    (if c =? 0 then Ok (Z.min (eb - sb) (eb2 - sb2))
     else if negb (eb2 - sb2 =? eb - sb) then Throw InvalidArgumentError
          else Ok (eb - sb)) = Ok n).
  { subst n. unfold compare_length. fold sb sb2 eb eb2.
    destruct (Z.eqb_spec c 0) as [Hc|Hc]; [reflexivity|].
    specialize (Hspan Hc). fold sb sb2 in Hspan.
    destruct (Z.eqb_spec (eb2 - sb2) (eb - sb)); [reflexivity|contradiction]. }
  rewrite Hlen. simpl Result_bind.
  assert (Hn : 0 <= n <= eb - sb /\ n <= eb2 - sb2).
  { subst n. unfold compare_length. fold sb sb2 eb eb2.
    destruct (Z.eqb_spec c 0) as [Hc|Hc]; [subst sb sb2; lia|].
    specialize (Hspan Hc). fold sb sb2 in Hspan. subst sb sb2; lia. }
  pose proof (memcmp_zero_iff (payload this) sb (payload buffer) sb2 (Z.to_nat n)) as Hcmp.
  rewrite Z2Nat.id in Hcmp by lia.
  destruct (Z.eqb_spec (memcmp (payload this) sb (payload buffer) sb2 (Z.to_nat n)) 0)
    as [Hz|Hnz]; simpl negb; cbv iota.
  - exists CompareResult_equal. split; [reflexivity|]. split; [|split].
    + split; [intros _; apply Hcmp; exact Hz | reflexivity].
    + reflexivity.
    + discriminate.
  - assert (Hex : exists i, 0 <= i < 0 + Z.of_nat (Z.to_nat n) /\
              rd (payload this) (sb + i) <> rd (payload buffer) (sb2 + i)).
    { destruct (classic_first_mismatch (payload this) sb (payload buffer) sb2 (Z.to_nat n))
        as [Hall|Hex]; [|exact Hex].
      exfalso. apply Hnz, Hcmp. intros i Hi. apply Hall. lia. }
    destruct (CompareTo_loop_first _ _ _ _ _ _ Hex) as (i & Hi & Hbefore & Hat & Hloop).
    rewrite Hloop. rewrite !wrap64_small by (subst sb sb2; lia).
    eexists. split; [reflexivity|]. simpl. split; [|split].
    + split; [discriminate|]. intros Hall. exfalso. apply Hat, Hall. lia.
    + discriminate.
    + intros _. exists i. repeat split; try lia; try assumption.
Qed.

(** ** FillCompressionInfo *)

Lemma mod_sector k r bps : 0 <= r < bps -> (k * bps + r) mod bps = r.
Proof.
  intros H. rewrite Z.add_comm, Z.mod_add by lia. now apply Z.mod_small.
Qed.

(** The loop ends within the fuel it is given and keeps an invariant of
    its body. *)
Lemma FillCompressionInfo_loop_inv (I : Z -> list Z -> Prop) type len sb eb bps :
  1 <= bps -> eb + bps < 2 ^ 64 ->
  (forall i d, 0 <= i < eb -> I i d ->
     I (i + bps) (FillCompressionInfo_body type len sb i d)) ->
  forall fuel i d, 0 <= i -> eb - i <= Z.of_nat fuel -> I i d ->
  exists i' d',
    FillCompressionInfo_loop fuel type len sb eb bps i d = Some d' /\
    eb <= i' /\ I i' d'.
Proof.
  intros Hbps Hwrap Hbody.
  induction fuel as [|fuel IH]; intros i d Hi Hfuel HI; simpl FillCompressionInfo_loop.
  - destruct (Z.ltb_spec i eb); [lia|]. exists i, d. auto.
  - destruct (Z.ltb_spec i eb) as [Hlt|Hge].
    + rewrite wrap64_small by lia. apply IH; [lia|lia|]. apply Hbody; [lia|exact HI].
    + exists i, d. auto.
Qed.

Lemma length_FillCompressionInfo_body type len sb i d :
  0 <= len <= 8 -> 20 <= i < Z.of_nat (length d) ->
  length (FillCompressionInfo_body type len sb i d) = length d.
Proof.
  intros Hlen Hi. unfold FillCompressionInfo_body.
  set (d1 := if negb _ then _ else _).
  assert (Hd1 : length d1 = length d).
  { subst d1. destruct (negb _); [now rewrite !length_wr|reflexivity]. }
  destruct (_ || _); [|exact Hd1].
  unfold COMPRESSION_PATTERN_SIZE_IN_BYTE, COMPRESSION_LBA_SIZE_IN_BYTE.
  rewrite length_memcpy; [exact Hd1|lia..].
Qed.

(** A random-type record only stores the type byte. *)
Lemma length_FillCompressionInfo_body_random len sb i d :
  length (FillCompressionInfo_body (type_value eRandomPattern) len sb i d) = length d.
Proof.
  unfold FillCompressionInfo_body. simpl.
  destruct (negb _); [now rewrite !length_wr|reflexivity].
Qed.

Lemma FillCompressionInfo_random_ok b len sb eb :
  1 <= _bytesPerSector b -> 0 <= sb -> 0 <= eb -> eb + _bytesPerSector b < 2 ^ 64 ->
  exists d', FillCompressionInfo (type_value eRandomPattern) len sb eb b
             = (Ok tt, set_payload d' b) /\
             length d' = length (payload b).
Proof.
  intros Hbps Hsb Heb Hwrap. unfold FillCompressionInfo.
  destruct (Z.gtb_spec len COMPRESSION_MAX_PATTERN_LEN).
  - exists (payload b). split; [|reflexivity]. now destruct b.
  - destruct (FillCompressionInfo_loop_inv
                (fun _ d => length d = length (payload b))
                (type_value eRandomPattern) len sb eb (_bytesPerSector b) Hbps Hwrap)
      with (fuel := Z.to_nat eb)
           (i := wrap64 (sb + COMPRESSION_LBA_SIZE_IN_BYTE + COMPRESSION_PATTERN_SIZE_IN_BYTE))
           (d := payload b)
      as (i' & d' & Hloop & _ & Hlen).
    + intros i d Hi Hd. now rewrite length_FillCompressionInfo_body_random.
    + unfold wrap64. apply Z.mod_pos_bound. reflexivity.
    + assert (0 <= wrap64 (sb + COMPRESSION_LBA_SIZE_IN_BYTE + COMPRESSION_PATTERN_SIZE_IN_BYTE)).
      { unfold wrap64. apply Z.mod_pos_bound. reflexivity. }
      lia.
    + reflexivity.
    + rewrite Hloop. exists d'. auto.
Qed.

Lemma rd_FillCompressionInfo_body type len sb i d p :
  0 <= len <= 8 -> 0 <= sb -> sb + 20 <= i < Z.of_nat (length d) -> 0 <= p ->
  rd (FillCompressionInfo_body type len sb i d) p =
    if p =? i then
      if (rd d sb =? 0) && (type =? type_value eFixPattern) then rd d i
      else wrap8 (Z.lor (Z.shiftl type 4) len)
    else if (i - 12 <=? p) && (p <? i - 12 + len)
            && ((type =? type_value eFixPattern)
                || (type =? type_value eIncrementingPattern)
                || (type =? type_value eDecrementingPattern))
    then rd d (p - 8)
    else rd d p.
Proof.
  intros Hlen Hsb Hi Hp. unfold FillCompressionInfo_body.
  set (cond := (rd d sb =? 0) && (type =? type_value eFixPattern)).
  set (tb := wrap8 (Z.lor (Z.shiftl type 4) len)).
  set (d1 := if negb cond then wr (wr d i 0) i tb else d).
  assert (Hd1len : length d1 = length d).
  { subst d1. destruct (negb cond); [now rewrite !length_wr|reflexivity]. }
  assert (Hd1 : forall q, 0 <= q -> rd d1 q = if q =? i then (if cond then rd d i else tb) else rd d q).
  { intros q Hq. subst d1. destruct cond; simpl.
    - destruct (Z.eqb_spec q i) as [->|]; reflexivity.
    - rewrite rd_wr by (rewrite ?length_wr; lia).
      destruct (Z.eqb_spec q i); [reflexivity|].
      apply rd_wr_ne; lia. }
  unfold COMPRESSION_PATTERN_SIZE_IN_BYTE, COMPRESSION_LBA_SIZE_IN_BYTE.
  destruct (_ || _) eqn:Hty.
  - rewrite rd_memcpy by lia.
    destruct (Z.eqb_spec p i) as [->|Hne].
    + destruct (Z.leb_spec (i - 12) i), (Z.ltb_spec i (i - 12 + len)); simpl; try lia.
      all: rewrite Hd1 by lia; now rewrite Z.eqb_refl.
    + destruct (Z.leb_spec (i - 12) p), (Z.ltb_spec p (i - 12 + len)); simpl.
      * rewrite Hd1 by lia. destruct (Z.eqb_spec (i - 12 - 8 + (p - (i - 12))) i); [lia|].
        f_equal. lia.
      * rewrite Hd1 by lia. destruct (Z.eqb_spec p i); [lia|reflexivity].
      * rewrite Hd1 by lia. destruct (Z.eqb_spec p i); [lia|reflexivity].
      * rewrite Hd1 by lia. destruct (Z.eqb_spec p i); [lia|reflexivity].
  - rewrite Hd1 by lia. rewrite !andb_false_r. reflexivity.
Qed.

(** On a sector-aligned range of sectors of at least 21 bytes, with a
    pattern length of at most 8, [FillCompressionInfo] returns and leaves
    [record_byte] at every index of the range and nothing else changed. *)
Lemma FillCompressionInfo_record b type len sb cnt :
  21 <= _bytesPerSector b -> 0 <= len <= 8 -> 0 <= sb -> 0 <= cnt ->
  sb + cnt * _bytesPerSector b <= Z.of_nat (length (payload b)) ->
  Z.of_nat (length (payload b)) < 2 ^ 63 -> _bytesPerSector b < 2 ^ 63 ->
  exists d',
    FillCompressionInfo type len sb (sb + cnt * _bytesPerSector b) b
      = (Ok tt, set_payload d' b) /\
    length d' = length (payload b) /\
    forall p, 0 <= p ->
      rd d' p =
        if (sb <=? p) && (p <? sb + cnt * _bytesPerSector b)
        then record_byte type len sb (_bytesPerSector b) (payload b) p
        else rd (payload b) p.
Proof.
  intros Hbps Hlen Hsb Hcnt Hend Hsmall Hbps63.
  set (bps := _bytesPerSector b) in *. set (d0 := payload b) in *.
  set (eb := sb + cnt * bps) in *.
  unfold FillCompressionInfo. fold bps d0.
  destruct (Z.gtb_spec len COMPRESSION_MAX_PATTERN_LEN) as [Hgt|_];
    [unfold COMPRESSION_MAX_PATTERN_LEN in Hgt; lia|].
  unfold COMPRESSION_LBA_SIZE_IN_BYTE, COMPRESSION_PATTERN_SIZE_IN_BYTE.
  assert (Heb : 0 <= eb) by (subst eb; nia).
  rewrite wrap64_small by lia.
  set (I := fun (i : Z) (d : list Z) =>
    exists k, 0 <= k <= cnt /\ i = sb + 20 + k * bps /\ length d = length d0 /\
      forall p, 0 <= p ->
        rd d p = if (sb <=? p) && (p <? sb + k * bps)
                 then record_byte type len sb bps d0 p else rd d0 p).
  assert (Hbody : forall i d, 0 <= i < eb -> I i d ->
            I (i + bps) (FillCompressionInfo_body type len sb i d)).
  { (* the body keeps the invariant *)
    intros i d Hi (k & Hk & Hik & Hdlen & Hd).
    assert (Hklt : k < cnt) by (subst eb; nia).
    exists (k + 1). split; [lia|]. split; [lia|]. split.
    { rewrite length_FillCompressionInfo_body; [exact Hdlen|lia|lia]. }
    intros p Hp.
    assert (Hbase : sb + k * bps + bps <= eb) by (subst eb; nia).
    rewrite rd_FillCompressionInfo_body by lia.
    assert (Hsbd : rd d sb = rd d0 sb).
    { rewrite Hd by lia. destruct (Z.leb_spec sb sb); [|lia].
      destruct (Z.ltb_spec sb (sb + k * bps)); simpl; [|reflexivity].
      unfold record_byte. replace (sb - sb) with 0 by lia.
      rewrite Z.mod_0_l by lia. simpl. reflexivity. }
    assert (Hfresh : forall q, sb + k * bps <= q -> rd d q = rd d0 q).
    { intros q Hq. rewrite Hd by lia.
      destruct (Z.ltb_spec q (sb + k * bps)); [lia|]. now rewrite andb_false_r. }
    rewrite Hsbd.
    destruct (Z.ltb_spec p (sb + k * bps)) as [Hold|Hnew].
    + (* an earlier sector *)
      destruct (Z.eqb_spec p i); [lia|].
      destruct (Z.leb_spec (i - 12) p); [lia|]. simpl.
      rewrite Hd by lia.
      destruct (Z.leb_spec sb p); simpl; [|reflexivity].
      destruct (Z.ltb_spec p (sb + k * bps)); [|lia].
      destruct (Z.ltb_spec p (sb + (k + 1) * bps)); [reflexivity|lia].
    + destruct (Z.ltb_spec p (sb + (k + 1) * bps)) as [Hcur|Hlater].
      * (* the sector of this iteration *)
        destruct (Z.leb_spec sb p); [|lia]. simpl.
        unfold record_byte.
        replace (p - sb) with (k * bps + (p - (sb + k * bps))) by lia.
        rewrite mod_sector by lia.
        destruct (Z.eqb_spec p i) as [->|Hne].
        -- replace (i - (sb + k * bps)) with 20 by lia.
           rewrite Z.eqb_refl.
           rewrite Hfresh by lia. reflexivity.
        -- destruct (Z.eqb_spec (p - (sb + k * bps)) 20); [lia|].
           replace ((i - 12 <=? p)) with (8 <=? p - (sb + k * bps))
             by (destruct (Z.leb_spec 8 (p - (sb + k * bps))), (Z.leb_spec (i - 12) p);
                 reflexivity || lia).
           replace ((p <? i - 12 + len)) with (p - (sb + k * bps) <? 8 + len)
             by (destruct (Z.ltb_spec (p - (sb + k * bps)) (8 + len)),
                   (Z.ltb_spec p (i - 12 + len)); reflexivity || lia).
           destruct (Z.leb_spec 8 (p - (sb + k * bps))); simpl;
             [|apply Hfresh; lia].
           destruct (_ && _); [|apply Hfresh; lia].
           apply Hfresh. lia.
      * (* a later index *)
        destruct (Z.eqb_spec p i); [lia|].
        destruct (Z.ltb_spec p (i - 12 + len)); [lia|].
        rewrite andb_false_r. simpl.
        rewrite andb_false_r. apply Hfresh. lia. }
  assert (Hstart : I (sb + 8 + 12) d0).
  { exists 0. split; [lia|]. split; [lia|]. split; [reflexivity|].
    intros p Hp. destruct (Z.ltb_spec p (sb + 0 * bps)); [|now rewrite andb_false_r].
    destruct (Z.leb_spec sb p); [lia|reflexivity]. }
  destruct (FillCompressionInfo_loop_inv I type len sb eb bps ltac:(lia) ltac:(lia) Hbody
              (Z.to_nat eb) (sb + 8 + 12) d0 ltac:(lia) ltac:(lia) Hstart)
    as (i' & d' & Hloop & Hi' & (k & Hk & Hik & Hlen' & Hrd)).
  rewrite Hloop. exists d'. split; [reflexivity|]. split; [exact Hlen'|].
  assert (k = cnt) by (subst eb; nia). subst k. exact Hrd.
Qed.

Lemma FillCompressionInfo_zeros b sb eb :
  1 <= _bytesPerSector b < 2 ^ 63 -> 0 <= sb <= eb ->
  eb <= Z.of_nat (length (payload b)) -> Z.of_nat (length (payload b)) < 2 ^ 63 ->
  (forall p, 0 <= p < Z.of_nat (length (payload b)) -> rd (payload b) p = 0) ->
  exists d',
    FillCompressionInfo (type_value eFixPattern) 1 sb eb b = (Ok tt, set_payload d' b) /\
    length d' = length (payload b) /\
    forall p, 0 <= p < Z.of_nat (length (payload b)) -> rd d' p = 0.
Proof.
  intros Hbps Hsb Heb Hwrap Hzero.
  unfold FillCompressionInfo. simpl (1 >? _).
  unfold COMPRESSION_LBA_SIZE_IN_BYTE, COMPRESSION_PATTERN_SIZE_IN_BYTE.
  rewrite wrap64_small by lia.
  set (I := fun (i : Z) (d : list Z) =>
    sb + 20 <= i /\ length d = length (payload b) /\
    forall p, 0 <= p < Z.of_nat (length (payload b)) -> rd d p = 0).
  assert (Hbody : forall i d, 0 <= i < eb -> I i d ->
            I (i + _bytesPerSector b) (FillCompressionInfo_body (type_value eFixPattern) 1 sb i d)).
  { intros i d Hi (Hge & Hlen & Hz). split; [lia|]. split.
    - rewrite length_FillCompressionInfo_body; [exact Hlen|lia|lia].
    - intros p Hp. rewrite rd_FillCompressionInfo_body by lia.
      rewrite (Hz sb) by lia. simpl.
      destruct (Z.eqb_spec p i); [apply Hz; lia|].
      destruct (_ && _) eqn:Hin; [|apply Hz; lia].
      apply Hz. apply andb_prop in Hin as [Hin _]. apply andb_prop in Hin as [Hin _].
      apply Z.leb_le in Hin. lia. }
  destruct (Z.le_gt_cases eb 0) as [Hneg|Hpos].
  - (* nothing to do *)
    exists (payload b). replace (Z.to_nat eb) with 0%nat by lia. simpl.
    destruct (Z.ltb_spec (sb + 8 + 12) eb); [lia|]. auto.
  - destruct (FillCompressionInfo_loop_inv I (type_value eFixPattern) 1 sb eb
                (_bytesPerSector b) ltac:(lia) ltac:(lia) Hbody
                (Z.to_nat eb) (sb + 8 + 12) (payload b) ltac:(lia) ltac:(lia))
      as (i' & d' & Hloop & _ & (_ & Hlen & Hz)).
    { split; [lia|]. split; [reflexivity|exact Hzero]. }
    rewrite Hloop. exists d'. auto.
Qed.

Lemma Fill_unfold b v s c :
  wf b -> valid_sector_range b s c ->
  Fill v s c b =
    let b1 := set_payload (memset (payload b) (range_start b s) v
                             (range_end b s c - range_start b s)) b in
    if _usePatternMode b
    then FillCompressionInfo (type_value eFixPattern) 1 (range_start b s) (range_end b s c) b1
    else (Ok tt, b1).
Proof.
  intros Hwf Hv. unfold Fill. run_M.
  rewrite (GetStartAndStop_valid b Hwf s c Hv).
  pose proof (range_bounds b Hwf s c Hv) as (H0 & H1 & H2 & H3).
  destruct Hwf as (_ & Hbps & Ht & _).
  rewrite wrap64_small by lia.
  destruct (_usePatternMode b); reflexivity.
Qed.

Lemma length_fresh_bytes n a : 0 <= n -> Z.of_nat (length (fresh_bytes n a)) = n.
Proof.
  intros Hn. unfold fresh_bytes. rewrite length_map, length_seq. lia.
Qed.

Lemma alignment_range x :
  0 <= (if x mod 4096 =? 0 then 0 else 4096 - x mod 4096) <= 4095.
Proof.
  pose proof (Z.mod_pos_bound x 4096 ltac:(lia)).
  destruct (Z.eqb_spec (x mod 4096) 0); lia.
Qed.

Lemma Initialize_ok env a sc bps b0 :
  1 <= sc -> 1 <= bps -> sc * bps < 2 ^ 63 -> alloc_fits a (sc * bps + 12286) ->
  exists b',
    Initialize env a sc bps b0 = (Ok tt, b') /\
    wf b' /\ wf_alloc b' /\
    _sectorCount b' = sc /\ _bytesPerSector b' = bps /\
    _random b' = None /\ _usePatternMode b' = pattern_mode_of env /\
    _name b' = EmptyString /\
    (forall p, 0 <= p < sc * bps -> rd (payload b') p = 0).
Proof.
  intros Hsc Hbps Htot (Ha0 & Ha1).
  assert (Hpos : 0 < sc * bps) by nia.
  unfold Initialize. run_M.
  destruct (Z.ltb_spec sc 1); [lia|]. destruct (Z.ltb_spec bps 1); [lia|].
  unfold CalculateTotalBytesToAllocate, CalculateDataStart. run_M.
  unfold GetTotalBytes. simpl.
  rewrite (wrap64_small (sc * bps)) by lia.
  rewrite !land_4095 by lia.
  pose proof (alignment_range (sc * bps)) as Hal.
  pose proof (alignment_range (alloc_address a)) as Hal2.
  set (al := if (sc * bps) mod 4096 =? 0 then 0 else 4096 - (sc * bps) mod 4096) in *.
  set (al2 := if alloc_address a mod 4096 =? 0 then 0 else 4096 - alloc_address a mod 4096) in *.
  rewrite (wrap64_small (sc * bps + al)) by lia.
  rewrite (wrap64_small (sc * bps + al + 4095 + 4096)) by lia.
  rewrite (wrap64_small (alloc_address a + al2)) by lia.
  rewrite (wrap64_small (alloc_address a + al2 + 4096)) by lia.
  rewrite (wrap64_small (alloc_address a + al2 + 4096 + (sc * bps + al))) by lia.
  rewrite (wrap64_small (alloc_address a + (sc * bps + al + 4095 + 4096))) by lia.
  destruct (Z.gtb_spec (alloc_address a + al2 + 4096 + (sc * bps + al))
              (alloc_address a + (sc * bps + al + 4095 + 4096))) as [Hbad|_]; [lia|].
  match goal with
  | |- context [Fill 0 0 sc ?b] => set (b1 := b)
  end.
  assert (Hwf1 : wf b1).
  { subst b1. unfold wf, total. simpl. repeat split; try lia.
    apply length_fresh_bytes. lia. }
  assert (Hv : valid_sector_range b1 0 sc).
  { subst b1. unfold valid_sector_range. simpl. lia. }
  rewrite (Fill_unfold b1 0 0 sc Hwf1 Hv).
  assert (Hrs : range_start b1 0 = 0) by reflexivity.
  assert (Hre : range_end b1 0 sc = sc * bps).
  { unfold range_end, range_count. destruct (Z.eqb_spec sc 0); [lia|].
    subst b1. simpl. reflexivity. }
  rewrite Hrs, Hre. cbv zeta.
  assert (Hlen1 : Z.of_nat (length (payload b1)) = sc * bps).
  { subst b1. simpl. apply length_fresh_bytes. lia. }
  set (d2 := memset (payload b1) 0 0 (sc * bps - 0)).
  assert (Hlen2 : length d2 = length (payload b1)).
  { subst d2. apply length_memset; lia. }
  assert (Hz2 : forall p, 0 <= p < sc * bps -> rd d2 p = 0).
  { intros p Hp. subst d2. rewrite rd_memset by lia.
    destruct (Z.leb_spec 0 p), (Z.ltb_spec p (0 + (sc * bps - 0))); simpl; lia || reflexivity. }
  assert (Hflag : _usePatternMode b1 = pattern_mode_of env) by reflexivity.
  rewrite Hflag.
  destruct (pattern_mode_of env) eqn:Hmode.
  - destruct (FillCompressionInfo_zeros (set_payload d2 b1) 0 (sc * bps))
      as (d' & Hfci & Hlen' & Hz').
    + subst b1. simpl. nia.
    + lia.
    + simpl. lia.
    + simpl. lia.
    + simpl. intros p Hp. apply Hz2. lia.
    + rewrite Hfci. eexists. split; [reflexivity|].
      simpl in Hlen', Hz'.
      subst b1. unfold wf, wf_alloc, total. simpl.
      repeat split; try lia.
      intros p Hp. apply Hz'. lia.
  - eexists. split; [reflexivity|].
    subst b1. unfold wf, wf_alloc, total. simpl in *.
    repeat split; try lia. exact Hz2.
Qed.

(** C7. A resize to a valid shape returns; the leading
    [min(oldTotal, newTotal)] payload bytes keep their values, every payload
    byte after them is zero, and the generator is gone. *)
Theorem Resize_preserves_prefix env a sc bps b :
  wf b -> 1 <= sc -> 1 <= bps -> sc * bps < 2 ^ 63 ->
  alloc_fits a (sc * bps + 12286) ->
  exists b',
    Resize env a sc bps b = (Ok tt, b') /\
    _sectorCount b' = sc /\ _bytesPerSector b' = bps /\
    Z.of_nat (length (payload b')) = sc * bps /\
    (forall p, 0 <= p < Z.min (total b) (sc * bps) ->
       rd (payload b') p = rd (payload b) p) /\
    (forall p, Z.min (total b) (sc * bps) <= p < sc * bps ->
       rd (payload b') p = 0) /\
    _random b' = None.
Proof.
  intros Hwf Hsc Hbps Htot Hfit.
  pose proof (wf_total_nonneg b Hwf) as Hold.
  assert (Hnew : 0 < sc * bps) by nia.
  unfold Resize, bind, get, modify. cbv beta iota.
  rewrite (GetTotalBytes_wf b Hwf).
  rewrite (wrap64_small (sc * bps)) by lia.
  set (n := Z.min (total b) (sc * bps)).
  assert (Hn : 0 < n) by (subst n; lia).
  destruct (Z.gtb_spec n 0) as [_|Hbad]; [|lia].
  destruct (Initialize_ok env a sc bps (set_random None (set_payload [] b))
              Hsc Hbps Htot Hfit)
    as (b1 & Hinit & Hwf1 & _ & Hsc1 & Hbps1 & Hrand1 & _ & _ & Hz1).
  rewrite Hinit.
  destruct Hwf as (_ & _ & _ & Hlen).
  destruct Hwf1 as (_ & _ & _ & Hlen1). unfold total in Hlen1.
  rewrite Hsc1, Hbps1 in Hlen1.
  set (oldData := take (Z.to_nat n) (payload b)).
  assert (HoldLen : Z.of_nat (length oldData) = n).
  { subst oldData. rewrite length_take. subst n. lia. }
  eexists. split; [reflexivity|]. simpl.
  split; [exact Hsc1|]. split; [exact Hbps1|]. split; [|split; [|split]].
  - rewrite length_write_bytes; [exact Hlen1|lia|subst n; lia].
  - intros p Hp. rewrite rd_write_bytes by (subst n; lia).
    rewrite HoldLen.
    destruct (Z.leb_spec 0 p), (Z.ltb_spec p (0 + n)); simpl; try lia.
    subst oldData. unfold rd. rewrite lookup_total_take_lt by lia.
    f_equal. lia.
  - intros p Hp. rewrite rd_write_bytes by (subst n; lia).
    rewrite HoldLen.
    destruct (Z.ltb_spec p (0 + n)); [lia|]. rewrite andb_false_r.
    apply Hz1. lia.
  - exact Hrand1.
Qed.

(** ** Construction *)

Lemma Buffer_new_ok env a sc bps :
  1 <= sc -> 1 <= bps -> sc * bps < 2 ^ 63 -> alloc_fits a (sc * bps + 12286) ->
  exists b,
    Buffer_new env a sc bps = Ok b /\ wf b /\ wf_alloc b /\
    _sectorCount b = sc /\ _bytesPerSector b = bps /\ _random b = None /\
    _usePatternMode b = pattern_mode_of env /\ _name b = EmptyString /\
    (forall p, 0 <= p < sc * bps -> rd (payload b) p = 0).
Proof.
  intros Hsc Hbps Htot Hfit. unfold Buffer_new, construct.
  destruct (Initialize_ok env a sc bps blank Hsc Hbps Htot Hfit) as (b & Hinit & H).
  rewrite Hinit. exists b. split; [reflexivity|exact H].
Qed.

Lemma Buffer_new_invalid env a sc bps :
  sc < 1 \/ bps < 1 -> Buffer_new env a sc bps = Throw InvalidArgumentError.
Proof.
  intros H. unfold Buffer_new, construct, Initialize. run_M.
  destruct (Z.ltb_spec sc 1); [reflexivity|].
  destruct (Z.ltb_spec bps 1); [reflexivity|lia].
Qed.

Lemma Random32_copy_eq r : Random32_copy r = r.
Proof. now destruct r. Qed.

(** C8, as the code has it. Copy construction returns a buffer with the
    payload bytes, the generator state and the scalar fields of the
    source; its name is the empty string, whatever the name of the
    source. *)
Theorem Buffer_copy_fields a b :
  wf b -> wf_alloc b -> alloc_fits a (_allocatedByteCount b) ->
  exists c,
    Buffer_copy a b = Ok c /\
    payload c = payload b /\
    _random c = _random b /\
    _sectorCount c = _sectorCount b /\
    _bytesPerSector c = _bytesPerSector b /\
    _usePatternMode c = _usePatternMode b /\
    _name c = EmptyString.
Proof.
  intros Hwf (Hdbs & Hal & Hal64) (Ha0 & Ha1).
  pose proof (wf_total_nonneg b Hwf) as Hpos.
  pose proof (GetTotalBytes_wf b Hwf) as Htot.
  destruct Hwf as (Hsc & Hbps & Ht & Hlen).
  unfold Buffer_copy, CalculateDataStart. run_M.
  rewrite land_4095 by lia.
  pose proof (alignment_range (alloc_address a)) as Hal2.
  set (al2 := if alloc_address a mod 4096 =? 0 then 0 else 4096 - alloc_address a mod 4096) in *.
  rewrite (wrap64_small (alloc_address a + al2)) by lia.
  rewrite (wrap64_small (alloc_address a + al2 + 4096)) by lia.
  rewrite (wrap64_small (alloc_address a + al2 + 4096 + _dataBufferSize b)) by lia.
  rewrite (wrap64_small (alloc_address a + _allocatedByteCount b)) by lia.
  destruct (Z.gtb_spec (alloc_address a + al2 + 4096 + _dataBufferSize b)
              (alloc_address a + _allocatedByteCount b)) as [Hbad|_]; [lia|].
  eexists. split; [reflexivity|]. simpl.
  assert (Hgt2 : forall r,
    GetTotalBytes
      (set_dataBufferSize (_dataBufferSize b)
         (set_allocatedByteCount (_allocatedByteCount b)
            match r with
            | Some r0 => set_random (Some (Random32_copy r0))
                (set_usePatternMode (_usePatternMode b)
                   (set_random None
                      (set_sectorCount (_sectorCount b)
                         (set_bytesPerSector (_bytesPerSector b) blank))))
            | None => set_usePatternMode (_usePatternMode b)
                   (set_random None
                      (set_sectorCount (_sectorCount b)
                         (set_bytesPerSector (_bytesPerSector b) blank)))
            end)) = total b).
  { intros r. rewrite <- Htot. destruct r; reflexivity. }
  split; [|split; [|split; [|split; [|split]]]].
  - rewrite Hgt2, Htot.
    rewrite take_ge by lia.
    unfold write_bytes. simpl.
    rewrite drop_ge; [apply app_nil_r|].
    pose proof (length_fresh_bytes (total b) a ltac:(lia)). lia.
  - destruct (_random b) as [r|]; simpl; [now rewrite Random32_copy_eq|reflexivity].
  - destruct (_random b); reflexivity.
  - destruct (_random b); reflexivity.
  - destruct (_random b); reflexivity.
  - destruct (_random b); reflexivity.
Qed.

(** ** The pattern-mode flag *)

Create HintDb keeps.

Lemma keeps_flag_ret {A} (a : A) : keeps_flag (ret a).
Proof. intros b. reflexivity. Qed.

Lemma keeps_flag_throw {A} e : keeps_flag (@throw A e).
Proof. intros b. reflexivity. Qed.

Lemma keeps_flag_check {A} (f : Buffer -> Result A) : keeps_flag (check f).
Proof. intros b. reflexivity. Qed.

Lemma keeps_flag_get {A} (f : Buffer -> A) : keeps_flag (get f).
Proof. intros b. reflexivity. Qed.

Lemma keeps_flag_modify f :
  (forall b, _usePatternMode (f b) = _usePatternMode b) -> keeps_flag (modify f).
Proof. intros H b. apply H. Qed.

Lemma keeps_flag_bind {A B} (m : M A) (k : A -> M B) :
  keeps_flag m -> (forall a, keeps_flag (k a)) -> keeps_flag (bind m k).
Proof.
  intros Hm Hk b. unfold bind. specialize (Hm b).
  destruct (m b) as [[x| |] b1]; simpl in *; try exact Hm.
  rewrite <- Hm. apply Hk.
Qed.

Lemma keeps_flag_if {A} (c : bool) (m1 m2 : M A) :
  keeps_flag m1 -> keeps_flag m2 -> keeps_flag (if c then m1 else m2).
Proof. now destruct c. Qed.

#[local] Hint Resolve keeps_flag_ret keeps_flag_throw keeps_flag_check keeps_flag_get
  keeps_flag_bind keeps_flag_if : keeps.

Lemma keeps_flag_FillCompressionInfo type len sb eb :
  keeps_flag (FillCompressionInfo type len sb eb).
Proof.
  intros b. unfold FillCompressionInfo.
  destruct (len >? _); [reflexivity|].
  destruct (FillCompressionInfo_loop _ _ _ _ _ _ _ _); reflexivity.
Qed.

Lemma keeps_flag_FillPattern ps len sb eb : keeps_flag (FillPattern ps len sb eb).
Proof.
  intros b. unfold FillPattern. destruct (FillPattern_loop _ _ _ _ _ _); reflexivity.
Qed.

Lemma keeps_flag_GetRandom useSeed seed clock : keeps_flag (GetRandom useSeed seed clock).
Proof. intros b. unfold GetRandom. destruct (_random b); reflexivity. Qed.

#[local] Hint Resolve keeps_flag_FillCompressionInfo keeps_flag_FillPattern
  keeps_flag_GetRandom : keeps.

Ltac keeps_flag_tac :=
  repeat first
    [ apply keeps_flag_bind; [|intros]
    | apply keeps_flag_if
    | apply keeps_flag_modify; intros; reflexivity
    | solve [auto with keeps]
    | match goal with |- keeps_flag (let (_, _) := ?x in _) => destruct x end
    | match goal with |- keeps_flag (match ?x with _ => _ end) => destruct x end ].

Lemma keeps_flag_Fill v s c : keeps_flag (Fill v s c).
Proof. unfold Fill. keeps_flag_tac. Qed.

Lemma keeps_flag_FillBytes lst s c : keeps_flag (FillBytes lst s c).
Proof. unfold FillBytes. keeps_flag_tac. Qed.

Lemma keeps_flag_FillIncrementing v s c : keeps_flag (FillIncrementing v s c).
Proof. unfold FillIncrementing. keeps_flag_tac. Qed.

Lemma keeps_flag_FillDecrementing v s c : keeps_flag (FillDecrementing v s c).
Proof. unfold FillDecrementing. keeps_flag_tac. Qed.

Lemma keeps_flag_FillSectorsWithRandomData r s c :
  keeps_flag (FillSectorsWithRandomData r s c).
Proof. unfold FillSectorsWithRandomData. keeps_flag_tac. Qed.

#[local] Hint Resolve keeps_flag_FillSectorsWithRandomData : keeps.

Lemma keeps_flag_FillRandomImpl s c useSeed seed clock :
  keeps_flag (FillRandomImpl s c useSeed seed clock).
Proof. unfold FillRandomImpl. keeps_flag_tac. Qed.

Lemma keeps_flag_FillRandomSeededBySector_loop n seed s i r :
  keeps_flag (FillRandomSeededBySector_loop n seed s i r).
Proof.
  revert i r. induction n as [|n IH]; intros i r; simpl.
  - auto with keeps.
  - apply keeps_flag_bind; [auto with keeps|]. intros r'. apply IH.
Qed.

Lemma keeps_flag_FillRandomSeededBySector seed s c :
  keeps_flag (FillRandomSeededBySector seed s c).
Proof.
  unfold FillRandomSeededBySector.
  apply keeps_flag_bind; [auto with keeps|]. intros bps.
  apply keeps_flag_if; [auto with keeps|].
  apply keeps_flag_bind; [auto with keeps|]. intros cnt.
  apply keeps_flag_bind; [auto with keeps|]. intros _.
  apply keeps_flag_bind; [auto with keeps|]. intros r.
  apply keeps_flag_bind; [auto with keeps|]. intros _.
  apply keeps_flag_FillRandomSeededBySector_loop.
Qed.

Lemma keeps_flag_FillAddressOverlay v s c : keeps_flag (FillAddressOverlay v s c).
Proof.
  unfold FillAddressOverlay.
  apply keeps_flag_bind; [auto with keeps|]. intros cnt.
  apply keeps_flag_bind; [auto with keeps|]. intros bps.
  apply keeps_flag_bind; [auto with keeps|]. intros _.
  intros b. destruct (FillAddressOverlay_loop _ _ _ _ _ _ _); reflexivity.
Qed.

Lemma keeps_flag_CopyTo_into src s ds c : keeps_flag (CopyTo_into src s ds c).
Proof.
  intros b. unfold CopyTo_into, CopyTo.
  destruct (GetStartAndStopBytesFromSectors s c src) as [[sb eb]| |]; reflexivity.
Qed.

Lemma keeps_flag_run_op o : is_resize o = false -> keeps_flag (run_op o).
Proof.
  destruct o; simpl; intros Hr; try discriminate.
  - unfold SetName. keeps_flag_tac.
  - unfold SetByte. keeps_flag_tac.
  - unfold SetWord. keeps_flag_tac.
  - unfold SetWordBigEndian. keeps_flag_tac.
  - unfold SetDWord. keeps_flag_tac.
  - unfold SetDWordBigEndian. keeps_flag_tac.
  - unfold SetQWord. keeps_flag_tac.
  - unfold SetQWordBigEndian. keeps_flag_tac.
  - unfold SetBytes. keeps_flag_tac.
  - unfold SetString. keeps_flag_tac.
  - apply keeps_flag_Fill.
  - apply keeps_flag_Fill.
  - apply keeps_flag_Fill.
  - apply keeps_flag_FillBytes.
  - apply keeps_flag_FillIncrementing.
  - apply keeps_flag_FillDecrementing.
  - apply keeps_flag_FillAddressOverlay.
  - apply keeps_flag_FillRandomImpl.
  - apply keeps_flag_FillRandomImpl.
  - apply keeps_flag_FillRandomSeededBySector.
  - unfold CopyFrom. keeps_flag_tac.
  - apply keeps_flag_CopyTo_into.
Qed.

(** [Initialize] assigns the flag from the environment before anything can
    throw, and nothing after assigns it again. *)
Lemma Initialize_flag env a sc bps b :
  _usePatternMode (snd (Initialize env a sc bps b)) = pattern_mode_of env.
Proof.
  unfold Initialize.
  unfold bind at 1. unfold modify at 1. cbv beta iota.
  unfold bind at 1. unfold modify at 1. cbv beta iota.
  match goal with
  | |- _usePatternMode (snd (?m ?b1)) = _ =>
      assert (Hk : keeps_flag m); [|rewrite (Hk b1); reflexivity]
  end.
  unfold CalculateTotalBytesToAllocate, CalculateDataStart.
  keeps_flag_tac.
Qed.

Lemma Resize_flag env a sc bps b :
  _usePatternMode (snd (Resize env a sc bps b)) = pattern_mode_of env.
Proof.
  unfold Resize, bind, get, modify. cbv beta iota.
  pose proof (Initialize_flag env a sc bps (set_random None (set_payload [] b))) as H.
  destruct (Initialize env a sc bps (set_random None (set_payload [] b)))
    as [[[]| |] b1]; simpl in *; try exact H.
  destruct (_ >? 0); simpl; exact H.
Qed.

Lemma Resize1_flag env a sc b :
  _usePatternMode (snd (Resize1 env a sc b)) = pattern_mode_of env.
Proof. unfold Resize1, bind, get. cbv beta iota. apply Resize_flag. Qed.

Lemma run_ops_flag os b :
  _usePatternMode (run_ops os b) = flag_after os (_usePatternMode b).
Proof.
  revert b. induction os as [|o os IH]; intros b; simpl; [reflexivity|].
  rewrite IH. destruct (is_resize o) eqn:Hr.
  - destruct o; try discriminate; cbn [run_op flag_after].
    + now rewrite Resize_flag.
    + now rewrite Resize1_flag.
  - rewrite (keeps_flag_run_op o Hr b). destruct o; try discriminate; reflexivity.
Qed.

Lemma flag_after_no_resize os flag :
  forallb (fun o => negb (is_resize o)) os = true -> flag_after os flag = flag.
Proof.
  induction os as [|o os IH]; simpl; [reflexivity|].
  intros H. apply andb_prop in H as [Ho Hos].
  destruct o; simpl in *; try discriminate; now apply IH.
Qed.

Lemma Buffer_new_flag env a sc bps b :
  Buffer_new env a sc bps = Ok b -> _usePatternMode b = pattern_mode_of env.
Proof.
  unfold Buffer_new, construct. intros H.
  pose proof (Initialize_flag env a sc bps blank) as Hf.
  destruct (Initialize env a sc bps blank) as [[[]| |] b1]; simpl in *;
    try discriminate.
  now inversion H; subst.
Qed.

Lemma Buffer_copy_flag a b c :
  Buffer_copy a b = Ok c -> _usePatternMode c = _usePatternMode b.
Proof.
  unfold Buffer_copy, CalculateDataStart. cbv zeta. intros H.
  match type of H with
  | match ?m ?x with _ => _ end = _ => destruct (m x) as [[v| |] b1] eqn:E
  end; try discriminate.
  revert E. unfold bind, get, ret, throw. cbv beta.
  repeat match goal with
         | |- context [if ?c then _ else _] => destruct c
         end; intros E; inversion E; subst; inversion H; subst;
    destruct (_random b); reflexivity.
Qed.

(** C9, as the code has it. A sizing constructor leaves the flag the
    environment gives when it runs; the copy constructor takes the flag of
    its source and does not look at the environment. On every buffer, a
    call other than a resize never changes the flag, whether it returns or
    throws; a resize runs [Initialize] again, which reads the environment
    again, so after a sequence of calls the flag is what the last resize
    of the sequence read, or the flag before the sequence when there is
    none. *)
Theorem pattern_mode_lifetime env a sc bps b os :
  (forall b0, Buffer_new env a sc bps = Ok b0 -> _usePatternMode b0 = pattern_mode_of env) /\
  (forall b0, Buffer_new1 env a sc = Ok b0 -> _usePatternMode b0 = pattern_mode_of env) /\
  (forall b0, Buffer_new0 env a = Ok b0 -> _usePatternMode b0 = pattern_mode_of env) /\
  (forall c, Buffer_copy a b = Ok c -> _usePatternMode c = _usePatternMode b) /\
  _usePatternMode (run_ops os b) = flag_after os (_usePatternMode b) /\
  (forallb (fun o => negb (is_resize o)) os = true ->
   _usePatternMode (run_ops os b) = _usePatternMode b) /\
  (forall env' a' sc' bps',
     _usePatternMode (snd (Resize env' a' sc' bps' (run_ops os b)))
     = pattern_mode_of env') /\
  (forall env' a' sc',
     _usePatternMode (snd (Resize1 env' a' sc' (run_ops os b)))
     = pattern_mode_of env').
Proof.
  split; [intros b0; apply Buffer_new_flag|].
  split; [intros b0; apply Buffer_new_flag|].
  split; [intros b0; apply Buffer_new_flag|].
  split; [intros c; apply Buffer_copy_flag|].
  split; [apply run_ops_flag|]. split; [|split].
  - intros Hno. rewrite run_ops_flag. now apply flag_after_no_resize.
  - intros. apply Resize_flag.
  - intros. apply Resize1_flag.
Qed.

(** ** CompareResult: the invariant *)

(** Once a result is unequal, [AddDifference] keeps the first difference
    and adds one to the counter, modulo 2^64. *)
Lemma AddDifference_unequal o e a r :
  _areEqual r = false ->
  _areEqual (AddDifference o e a r) = false /\
  _firstDifferenceOffset (AddDifference o e a r) = _firstDifferenceOffset r /\
  _expectedValue (AddDifference o e a r) = _expectedValue r /\
  _actualValue (AddDifference o e a r) = _actualValue r /\
  _differenceCount (AddDifference o e a r) = wrap64 (_differenceCount r + 1).
Proof.
  intros Hr. unfold AddDifference. rewrite Hr. simpl. auto.
Qed.

(** C10, as the code has it. For a result built by either constructor and
    then [AddDifference] calls, with [n] differences recorded in all:
    [areEqual] implies a counter of 0, and the converse holds while
    [n < 2^64]; the counter is [n] modulo 2^64; once the result is unequal
    a further [AddDifference] keeps the first-difference triple and adds
    one to the counter modulo 2^64, which is an increment by one while
    [n + 1 < 2^64]. *)
Theorem CompareResult_invariant n r :
  reachable n r ->
  (_areEqual r = true -> _differenceCount r = 0) /\
  (n < 2 ^ 64 -> (_areEqual r = true <-> _differenceCount r = 0)) /\
  _differenceCount r = wrap64 n /\
  (forall o e a,
     _areEqual r = false ->
     let r' := AddDifference o e a r in
     _areEqual r' = false /\
     _firstDifferenceOffset r' = _firstDifferenceOffset r /\
     _expectedValue r' = _expectedValue r /\
     _actualValue r' = _actualValue r /\
     _differenceCount r' = wrap64 (_differenceCount r + 1) /\
     (n + 1 < 2 ^ 64 -> _differenceCount r' = _differenceCount r + 1)).
Proof.
  intros Hr.
  pose proof (reachable_count_nonneg n r Hr) as Hn.
  pose proof (reachable_count n r Hr) as Hc.
  pose proof (reachable_equal_iff n r Hr) as He.
  split; [|split; [|split]].
  - intros Heq. apply He in Heq. subst n. rewrite Hc. reflexivity.
  - intros Hlt. rewrite Hc, wrap64_small by lia. exact He.
  - exact Hc.
  - intros o e a Hne r'.
    destruct (AddDifference_unequal o e a r Hne) as (H1 & H2 & H3 & H4 & H5).
    repeat split; try assumption.
    intros Hlt. subst r'. rewrite H5, Hc.
    rewrite (wrap64_small n) by lia. apply wrap64_small. lia.
Qed.

(** The invariant on the result of one constructor call and one
    [AddDifference]. *)
Lemma CompareResult_invariant_witness :
  let r := AddDifference 9 1 2 (CompareResult_unequal 7 3 4) in
  reachable 2 r /\
  (_areEqual r = true <-> _differenceCount r = 0) /\
  _differenceCount r = 2 /\
  _firstDifferenceOffset (AddDifference 11 5 6 r) = 7 /\
  _differenceCount (AddDifference 11 5 6 r) = 3.
Proof.
  intros r.
  assert (Hr : reachable 2 r).
  { subst r. apply (reach_add 1). apply reach_unequal. }
  destruct (CompareResult_invariant 2 r Hr) as (_ & Hiff & Hcnt & Hadd).
  split; [exact Hr|]. split; [apply Hiff; reflexivity|]. split; [exact Hcnt|].
  destruct (Hadd 11 5 6 eq_refl) as (_ & Hoff & _ & _ & _ & Hinc).
  split; [exact Hoff|]. rewrite (Hinc eq_refl). reflexivity.
Defined.

(** ** FillPattern: the doubling copier *)

Lemma FillPattern_loop_done fuel ps plen cur eb d :
  eb <= cur -> FillPattern_loop fuel ps plen cur eb d = Some d.
Proof.
  intros H. destruct fuel; simpl; destruct (Z.ltb_spec cur eb); try lia; reflexivity.
Qed.

(** With a pattern of [L >= 1] bytes at [ps] and the cursor [L]-aligned
    behind it, the loop ends within its fuel and leaves the range up to
    [eb] a repetition of the pattern. *)
Lemma FillPattern_loop_spec L ps eb d0 :
  1 <= L -> 0 <= ps -> eb <= Z.of_nat (length d0) -> Z.of_nat (length d0) < 2 ^ 63 ->
  forall fuel m j d,
    1 <= j <= m -> ps + m * L <= eb -> eb - (ps + m * L) <= Z.of_nat fuel ->
    length d = length d0 ->
    (forall p, 0 <= p ->
       rd d p = if (ps + L <=? p) && (p <? ps + m * L)
                then rd d0 (ps + (p - ps) mod L) else rd d0 p) ->
    exists d',
      FillPattern_loop fuel ps (j * L) (ps + m * L) eb d = Some d' /\
      length d' = length d0 /\
      forall p, 0 <= p ->
        rd d' p = if (ps + L <=? p) && (p <? eb)
                  then rd d0 (ps + (p - ps) mod L) else rd d0 p.
Proof.
  intros HL Hps Heb Hsmall.
  induction fuel as [|fuel IH]; intros m j d Hj Hcur Hfuel Hlen Hd.
  - assert (eb = ps + m * L) by lia. subst eb.
    rewrite FillPattern_loop_done by lia. exists d. auto.
  - simpl FillPattern_loop.
    destruct (Z.ltb_spec (ps + m * L) eb) as [Hlt|Hge].
    2:{ assert (eb = ps + m * L) by lia. subst eb. exists d. auto. }
    set (cur := ps + m * L) in *. set (plen := j * L) in *.
    assert (Hplen : 1 <= plen <= cur - ps) by (subst plen cur; nia).
    rewrite (wrap64_small (eb - cur)) by lia.
    set (copyLen := Z.min plen (eb - cur)).
    assert (HcopyLen : 1 <= copyLen <= eb - cur /\ copyLen <= plen) by (subst copyLen; lia).
    rewrite (wrap64_small (cur + copyLen)) by lia.
    set (d1 := memcpy d cur ps copyLen).
    assert (Hlen1 : length d1 = length d0).
    { subst d1. rewrite length_memcpy; lia. }
    (* every byte before the cursor is a byte of the pattern *)
    assert (Hsrc : forall q, ps <= q < cur -> rd d q = rd d0 (ps + (q - ps) mod L)).
    { intros q Hq. rewrite Hd by lia. fold cur.
      destruct (Z.leb_spec (ps + L) q), (Z.ltb_spec q cur); simpl; try lia; try reflexivity.
      rewrite Z.mod_small by lia. f_equal. lia. }
    assert (Hd1 : forall p, 0 <= p ->
       rd d1 p = if (ps + L <=? p) && (p <? cur + copyLen)
                 then rd d0 (ps + (p - ps) mod L) else rd d0 p).
    { intros p Hp. subst d1. rewrite rd_memcpy by lia.
      destruct (Z.leb_spec cur p), (Z.ltb_spec p (cur + copyLen)); simpl.
      - destruct (Z.leb_spec (ps + L) p); [|subst cur; nia]. simpl.
        rewrite Hsrc by lia. f_equal. f_equal.
        replace (ps + (p - cur) - ps) with (p - cur) by lia.
        replace (p - ps) with ((p - cur) + m * L) by (subst cur; lia).
        now rewrite Z.mod_add by lia.
      - rewrite Hd by lia. fold cur.
        destruct (Z.ltb_spec p cur); [lia|]. now rewrite !andb_false_r.
      - rewrite Hd by lia. fold cur.
        destruct (Z.ltb_spec p cur); [|lia]. reflexivity.
      - lia. }
    destruct (Z.lt_ge_cases plen (eb - cur)) as [Hfull|Hlast].
    + (* a whole copy of [plen] bytes; the length doubles up to 4096 *)
      assert (Hc : copyLen = plen) by (subst copyLen; lia).
      rewrite Hc in *.
      destruct (Z.geb_spec plen 4096) as [Hbig|Hsmallp].
      * replace (cur + plen) with (ps + (m + j) * L) by (subst cur plen; lia).
        apply IH; [lia | subst cur plen; nia | subst cur plen; nia | exact Hlen1 |].
        intros p Hp. rewrite Hd1 by lia.
        replace (ps + (m + j) * L) with (cur + plen) by (subst cur plen; lia).
        reflexivity.
      * rewrite (wrap64_small (plen * 2)) by lia.
        replace (cur + plen) with (ps + (m + j) * L) by (subst cur plen; lia).
        replace (plen * 2) with ((2 * j) * L) by (subst plen; lia).
        apply IH; [lia | subst cur plen; nia | subst cur plen; nia | exact Hlen1 |].
        intros p Hp. rewrite Hd1 by lia.
        replace (ps + (m + j) * L) with (cur + plen) by (subst cur plen; lia).
        reflexivity.
    + (* the last copy reaches [eb] *)
      assert (Hc : cur + copyLen = eb) by (subst copyLen; lia).
      rewrite Hc in *. rewrite FillPattern_loop_done by lia.
      exists d1. auto.
Qed.

Lemma FillPattern_spec b ps L eb :
  1 <= L -> 0 <= ps -> ps + L <= eb -> eb <= Z.of_nat (length (payload b)) ->
  Z.of_nat (length (payload b)) < 2 ^ 63 ->
  exists d',
    FillPattern ps L (ps + L) eb b = (Ok tt, set_payload d' b) /\
    length d' = length (payload b) /\
    forall p, 0 <= p ->
      rd d' p = if (ps + L <=? p) && (p <? eb)
                then rd (payload b) (ps + (p - ps) mod L) else rd (payload b) p.
Proof.
  intros HL Hps Hle Heb Hsmall. unfold FillPattern.
  destruct (FillPattern_loop_spec L ps eb (payload b) HL Hps Heb Hsmall
              (Z.to_nat (eb - (ps + L))) 1 1 (payload b))
    as (d' & Hloop & Hlen & Hrd); try lia.
  - intros p Hp. destruct (Z.leb_spec (ps + L) p), (Z.ltb_spec p (ps + 1 * L));
      simpl; try lia; reflexivity.
  - rewrite !Z.mul_1_l in Hloop. rewrite Hloop. exists d'. auto.
Qed.

(** ** The fills without pattern mode *)

Lemma FillIncrementing_loop_spec n i v d :
  0 <= i -> i + Z.of_nat n <= Z.of_nat (length d) -> 0 <= v < 256 ->
  length (FillIncrementing_loop n i v d) = length d /\
  forall p, 0 <= p ->
    rd (FillIncrementing_loop n i v d) p =
      if (i <=? p) && (p <? i + Z.of_nat n) then wrap8 (v + (p - i)) else rd d p.
Proof.
  revert i v d. induction n as [|n IH]; intros i v d Hi Hlen Hv; simpl FillIncrementing_loop.
  - split; [reflexivity|]. intros p Hp.
    destruct (Z.leb_spec i p), (Z.ltb_spec p (i + Z.of_nat 0)); simpl; lia || reflexivity.
  - destruct (IH (i + 1) (wrap8 (v + 1)) (wr d i v)) as (Hl & Hr).
    { lia. } { rewrite length_wr. lia. } { apply wrap8_range. }
    split; [now rewrite Hl, length_wr|].
    intros p Hp. rewrite Hr by lia.
    destruct (Z.leb_spec (i + 1) p), (Z.ltb_spec p (i + 1 + Z.of_nat n)); simpl.
    + destruct (Z.leb_spec i p), (Z.ltb_spec p (i + Z.of_nat (S n))); simpl; try lia.
      unfold wrap8. rewrite Zplus_mod_idemp_l. f_equal. lia.
    + destruct (Z.ltb_spec p (i + Z.of_nat (S n))); [lia|]. rewrite andb_false_r.
      apply rd_wr_ne; lia.
    + destruct (Z.eq_dec p i) as [->|Hne].
      * rewrite rd_wr_eq by lia.
        destruct (Z.leb_spec i i), (Z.ltb_spec i (i + Z.of_nat (S n))); simpl; try lia.
        replace (v + (i - i)) with v by lia. now rewrite wrap8_small.
      * rewrite rd_wr_ne by lia.
        destruct (Z.leb_spec i p); [lia|]. reflexivity.
    + lia.
Qed.

Lemma FillDecrementing_loop_spec n i v d :
  0 <= i -> i + Z.of_nat n <= Z.of_nat (length d) -> 0 <= v < 256 ->
  length (FillDecrementing_loop n i v d) = length d /\
  forall p, 0 <= p ->
    rd (FillDecrementing_loop n i v d) p =
      if (i <=? p) && (p <? i + Z.of_nat n) then wrap8 (v - (p - i)) else rd d p.
Proof.
  revert i v d. induction n as [|n IH]; intros i v d Hi Hlen Hv; simpl FillDecrementing_loop.
  - split; [reflexivity|]. intros p Hp.
    destruct (Z.leb_spec i p), (Z.ltb_spec p (i + Z.of_nat 0)); simpl; lia || reflexivity.
  - destruct (IH (i + 1) (wrap8 (v - 1)) (wr d i v)) as (Hl & Hr).
    { lia. } { rewrite length_wr. lia. } { apply wrap8_range. }
    split; [now rewrite Hl, length_wr|].
    intros p Hp. rewrite Hr by lia.
    destruct (Z.leb_spec (i + 1) p), (Z.ltb_spec p (i + 1 + Z.of_nat n)); simpl.
    + destruct (Z.leb_spec i p), (Z.ltb_spec p (i + Z.of_nat (S n))); simpl; try lia.
      unfold wrap8. rewrite Zminus_mod_idemp_l. f_equal. lia.
    + destruct (Z.ltb_spec p (i + Z.of_nat (S n))); [lia|]. rewrite andb_false_r.
      apply rd_wr_ne; lia.
    + destruct (Z.eq_dec p i) as [->|Hne].
      * rewrite rd_wr_eq by lia.
        destruct (Z.leb_spec i i), (Z.ltb_spec i (i + Z.of_nat (S n))); simpl; try lia.
        replace (v - (i - i)) with v by lia. now rewrite wrap8_small.
      * rewrite rd_wr_ne by lia.
        destruct (Z.leb_spec i p); [lia|]. reflexivity.
    + lia.
Qed.

Lemma FillBytes_loop_spec n lst L sb i d :
  0 <= sb <= i -> i + Z.of_nat n <= Z.of_nat (length d) ->
  Z.of_nat (length d) < 2 ^ 63 ->
  length (FillBytes_loop n lst L sb i d) = length d /\
  forall p, 0 <= p ->
    rd (FillBytes_loop n lst L sb i d) p =
      if (i <=? p) && (p <? i + Z.of_nat n) then rd lst ((p - sb) mod L) else rd d p.
Proof.
  revert i d. induction n as [|n IH]; intros i d Hi Hlen Hsmall; simpl FillBytes_loop.
  - split; [reflexivity|]. intros p Hp.
    destruct (Z.leb_spec i p), (Z.ltb_spec p (i + Z.of_nat 0)); simpl; lia || reflexivity.
  - destruct (IH (i + 1) (wr d i (rd lst (wrap64 (i - sb) mod L)))) as (Hl & Hr).
    { lia. } { rewrite length_wr. lia. } { rewrite length_wr. lia. }
    split; [now rewrite Hl, length_wr|].
    intros p Hp. rewrite Hr by lia.
    destruct (Z.leb_spec (i + 1) p), (Z.ltb_spec p (i + 1 + Z.of_nat n)); simpl.
    + destruct (Z.leb_spec i p), (Z.ltb_spec p (i + Z.of_nat (S n))); simpl; lia.
    + destruct (Z.ltb_spec p (i + Z.of_nat (S n))); [lia|]. rewrite andb_false_r.
      apply rd_wr_ne; lia.
    + destruct (Z.eq_dec p i) as [->|Hne].
      * rewrite rd_wr_eq by lia.
        destruct (Z.leb_spec i i), (Z.ltb_spec i (i + Z.of_nat (S n))); simpl; try lia.
        now rewrite wrap64_small by lia.
      * rewrite rd_wr_ne by lia.
        destruct (Z.leb_spec i p); [lia|]. reflexivity.
    + lia.
Qed.

(** A pattern of [L] bytes written at [sb], then the doubling copier: the
    range is the pattern repeated. *)
Lemma pattern_then_FillPattern b d1 sb L eb (g : Z -> Z) :
  1 <= L -> 0 <= sb -> sb + L < eb -> eb <= Z.of_nat (length (payload b)) ->
  Z.of_nat (length (payload b)) < 2 ^ 63 ->
  length d1 = length (payload b) ->
  (forall p, 0 <= p ->
     rd d1 p = if (sb <=? p) && (p <? sb + L) then g (p - sb) else rd (payload b) p) ->
  exists d',
    FillPattern sb L (sb + L) eb (set_payload d1 b) = (Ok tt, set_payload d' b) /\
    length d' = length (payload b) /\
    forall p, 0 <= p ->
      rd d' p = if (sb <=? p) && (p <? eb) then g ((p - sb) mod L) else rd (payload b) p.
Proof.
  intros HL Hsb Hlt Heb Hsmall Hlen1 Hd1.
  destruct (FillPattern_spec (set_payload d1 b) sb L eb) as (d' & Hfp & Hlen' & Hrd);
    simpl; try lia.
  simpl in *. exists d'. split; [exact Hfp|]. split; [lia|].
  intros p Hp. rewrite Hrd by lia.
  pose proof (Z.mod_pos_bound (p - sb) L ltac:(lia)) as Hmod.
  destruct (Z.leb_spec (sb + L) p), (Z.ltb_spec p eb); simpl.
  - rewrite Hd1 by lia.
    destruct (Z.leb_spec sb (sb + (p - sb) mod L)),
      (Z.ltb_spec (sb + (p - sb) mod L) (sb + L)); simpl; try lia.
    destruct (Z.leb_spec sb p); [|lia]. simpl. f_equal. lia.
  - rewrite Hd1 by lia.
    destruct (Z.ltb_spec p (sb + L)); [lia|]. rewrite andb_false_r.
    destruct (Z.leb_spec sb p); reflexivity.
  - rewrite Hd1 by lia.
    destruct (Z.leb_spec sb p); simpl; [|reflexivity].
    destruct (Z.ltb_spec p (sb + L)); [|lia].
    rewrite Z.mod_small by lia. reflexivity.
  - lia.
Qed.

Lemma full_result_facts :
  reachable (2 ^ 64 - 1) full_result /\
  _areEqual full_result = false /\
  _differenceCount full_result = 2 ^ 64 - 1.
Proof.
  pose proof (AddDifference_times_reachable (2 ^ 64 - 2) 0 1 2 1
                (CompareResult_unequal 0 1 2) (reach_unequal 0 1 2)) as Hr.
  pose proof (AddDifference_times_unequal (2 ^ 64 - 2) 0 1 2
                (CompareResult_unequal 0 1 2) eq_refl) as [Hne Hcnt].
  split; [exact Hr|]. split; [exact Hne|].
  etransitivity; [exact Hcnt|]. reflexivity.
Qed.

(** C10 as stated fails: after 2^64 recorded differences the counter of an
    unequal result is 0 again, and the call that wraps it does not
    increment it. *)
Lemma CompareResult_counter_wraps :
  reachable (2 ^ 64) (AddDifference 0 1 2 full_result) /\
  _areEqual (AddDifference 0 1 2 full_result) = false /\
  _differenceCount (AddDifference 0 1 2 full_result) = 0 /\
  ~ (_areEqual (AddDifference 0 1 2 full_result) = true <->
     _differenceCount (AddDifference 0 1 2 full_result) = 0) /\
  _differenceCount (AddDifference 0 1 2 full_result)
    <> _differenceCount full_result + 1.
Proof.
  destruct full_result_facts as (Hr & Hne & Hcnt).
  destruct (AddDifference_unequal 0 1 2 full_result Hne) as (Hne' & _ & _ & _ & Hcnt').
  rewrite Hcnt in Hcnt'.
  assert (H0 : _differenceCount (AddDifference 0 1 2 full_result) = 0).
  { etransitivity; [exact Hcnt'|]. reflexivity. }
  split; [|split; [exact Hne'|split; [exact H0|split]]].
  - exact (reach_add (2 ^ 64 - 1) full_result 0 1 2 Hr).
  - intros [_ H]. rewrite (H H0) in Hne'. discriminate Hne'.
  - rewrite H0, Hcnt. discriminate.
Qed.

Section RawFills.

Variable b : Buffer.
Hypothesis Hwf : wf b.
Variables s c : Z.
Hypothesis Hv : valid_sector_range b s c.

Let sb := range_start b s.
Let eb := range_end b s c.
Let bps := _bytesPerSector b.

Lemma Fill_raw v : fill_result b s c (Fill v s c) (type_value eFixPattern) 1 (fun _ => v).
Proof.
  pose proof (range_bounds b Hwf s c Hv) as (H0 & H1 & H2 & H3).
  destruct Hwf as (Hsc & Hbps & Ht & Hlen).
  unfold fill_result. fold sb eb.
  exists (memset (payload b) sb v (eb - sb)). split; [|split].
  - apply length_memset; subst sb eb; lia.
  - intros p Hp. rewrite rd_memset by (subst sb eb; lia).
    replace (sb + (eb - sb)) with eb by lia. reflexivity.
  - apply (Fill_unfold b v s c Hwf Hv).
Qed.

Lemma FillIncrementing_raw v :
  0 <= v < 256 ->
  fill_result b s c (FillIncrementing v s c) (type_value eIncrementingPattern) 1
    (fun k => wrap8 (v + k mod bps)).
Proof.
  intros Hval.
  pose proof (range_bounds b Hwf s c Hv) as (H0 & H1 & H2 & H3).
  fold sb eb bps in H0, H1, H2, H3.
  pose proof Hwf as (Hsc & Hbps & Ht & Hlen). fold bps in Hbps.
  unfold fill_result, FillIncrementing. fold sb eb. run_M.
  rewrite (GetStartAndStop_valid b Hwf s c Hv). fold sb eb bps.
  unfold GetBytesPerSector. fold bps.
  rewrite (wrap64_small (sb + bps)) by lia.
  replace (Z.to_nat (sb + bps - sb)) with (Z.to_nat bps) by lia.
  destruct (FillIncrementing_loop_spec (Z.to_nat bps) sb v (payload b)) as (Hl1 & Hr1);
    [lia|lia|lia|].
  set (d1 := FillIncrementing_loop (Z.to_nat bps) sb v (payload b)) in *.
  rewrite Z2Nat.id in Hr1 by lia.
  destruct (Z.gtb_spec eb (sb + bps)) as [Hmore|Hone].
  - destruct (pattern_then_FillPattern b d1 sb bps eb (fun k => wrap8 (v + k)))
      as (d' & Hfp & Hlen' & Hrd'); try lia.
    { intros p Hp. apply Hr1. exact Hp. }
    rewrite Hfp. exists d'. split; [exact Hlen'|]. split; [exact Hrd'|].
    simpl. destruct (_usePatternMode b); reflexivity.
  - exists d1. split; [exact Hl1|]. split.
    + intros p Hp. rewrite Hr1 by lia. assert (eb = sb + bps) by lia.
      destruct (Z.leb_spec sb p), (Z.ltb_spec p (sb + bps)), (Z.ltb_spec p eb);
        simpl; try lia; try reflexivity.
      rewrite Z.mod_small by lia. reflexivity.
    + simpl. destruct (_usePatternMode b); reflexivity.
Qed.

Lemma FillDecrementing_raw v :
  0 <= v < 256 ->
  fill_result b s c (FillDecrementing v s c) (type_value eDecrementingPattern) 1
    (fun k => wrap8 (v - k mod bps)).
Proof.
  intros Hval.
  pose proof (range_bounds b Hwf s c Hv) as (H0 & H1 & H2 & H3).
  fold sb eb bps in H0, H1, H2, H3.
  pose proof Hwf as (Hsc & Hbps & Ht & Hlen). fold bps in Hbps.
  unfold fill_result, FillDecrementing. fold sb eb. run_M.
  rewrite (GetStartAndStop_valid b Hwf s c Hv). fold sb eb bps.
  unfold GetBytesPerSector. fold bps.
  rewrite (wrap64_small (sb + bps)) by lia.
  replace (Z.to_nat (sb + bps - sb)) with (Z.to_nat bps) by lia.
  destruct (FillDecrementing_loop_spec (Z.to_nat bps) sb v (payload b)) as (Hl1 & Hr1);
    [lia|lia|lia|].
  set (d1 := FillDecrementing_loop (Z.to_nat bps) sb v (payload b)) in *.
  rewrite Z2Nat.id in Hr1 by lia.
  destruct (Z.gtb_spec eb (sb + bps)) as [Hmore|Hone].
  - destruct (pattern_then_FillPattern b d1 sb bps eb (fun k => wrap8 (v - k)))
      as (d' & Hfp & Hlen' & Hrd'); try lia.
    { intros p Hp. apply Hr1. exact Hp. }
    rewrite Hfp. exists d'. split; [exact Hlen'|]. split; [exact Hrd'|].
    simpl. destruct (_usePatternMode b); reflexivity.
  - exists d1. split; [exact Hl1|]. split.
    + intros p Hp. rewrite Hr1 by lia. assert (eb = sb + bps) by lia.
      destruct (Z.leb_spec sb p), (Z.ltb_spec p (sb + bps)), (Z.ltb_spec p eb);
        simpl; try lia; try reflexivity.
      rewrite Z.mod_small by lia. reflexivity.
    + simpl. destruct (_usePatternMode b); reflexivity.
Qed.

Lemma FillBytes_raw lst :
  0 < Z.of_nat (length lst) < 2 ^ 63 ->
  fill_result b s c (FillBytes lst s c) (type_value eFixPattern)
    (wrap8 (Z.of_nat (length lst)))
    (fun k => rd lst (k mod Z.of_nat (length lst))).
Proof.
  intros HL.
  pose proof (range_bounds b Hwf s c Hv) as (H0 & H1 & H2 & H3).
  fold sb eb bps in H0, H1, H2, H3.
  pose proof Hwf as (Hsc & Hbps & Ht & Hlen). fold bps in Hbps.
  set (L := Z.of_nat (length lst)) in *.
  unfold fill_result, FillBytes. fold sb eb L.
  destruct (Z.eqb_spec L 0) as [HL0|_]; [lia|]. simpl negb. cbv iota.
  run_M.
  rewrite (GetStartAndStop_valid b Hwf s c Hv). fold sb eb bps.
  rewrite (wrap64_small (sb + L)) by lia.
  set (n := Z.to_nat (Z.min (sb + L) eb - sb)).
  destruct (FillBytes_loop_spec n lst L sb sb (payload b)) as (Hl1 & Hr1);
    [lia|subst n; lia|lia|].
  set (d1 := FillBytes_loop n lst L sb sb (payload b)) in *.
  destruct (Z.gtb_spec eb (sb + L)) as [Hmore|Hall].
  - replace (sb + Z.of_nat n) with (sb + L) in Hr1 by (subst n; lia).
    destruct (pattern_then_FillPattern b d1 sb L eb (fun k => rd lst (k mod L)))
      as (d' & Hfp & Hlen' & Hrd'); try lia.
    { intros p Hp. rewrite Hr1 by lia. reflexivity. }
    rewrite Hfp. exists d'. split; [exact Hlen'|]. split.
    + intros p Hp. rewrite Hrd' by lia.
      destruct (_ && _); [|reflexivity].
      now rewrite Z.mod_mod by lia.
    + simpl. destruct (_usePatternMode b); reflexivity.
  - replace (sb + Z.of_nat n) with eb in Hr1 by (subst n; lia).
    exists d1. split; [exact Hl1|]. split.
    + exact Hr1.
    + simpl. destruct (_usePatternMode b); reflexivity.
Qed.

End RawFills.

Lemma run_fill_raw b s c f :
  wf b -> valid_sector_range b s c -> fill_args_ok f ->
  fill_result b s c (run_fill f s c) (type_value (fill_type f)) (fill_len f)
    (fill_byte f (_bytesPerSector b)).
Proof.
  intros Hwf Hv Hok. destruct f as [v|lst|v|v]; simpl in *.
  - apply Fill_raw; assumption.
  - apply FillBytes_raw; assumption.
  - apply FillIncrementing_raw; assumption.
  - apply FillDecrementing_raw; assumption.
Qed.

(** ** The fills in pattern mode *)

Lemma fill_type_copies f :
  (type_value (fill_type f) =? type_value eFixPattern)
  || (type_value (fill_type f) =? type_value eIncrementingPattern)
  || (type_value (fill_type f) =? type_value eDecrementingPattern) = true.
Proof. now destruct f. Qed.

Lemma pattern_fill_final b s c f :
  wf b -> _usePatternMode b = true -> 21 <= _bytesPerSector b ->
  valid_sector_range b s c -> fill_args_ok f -> 0 <= fill_len f <= 8 ->
  exists d',
    run_fill f s c b = (Ok tt, set_payload d' b) /\
    length d' = length (payload b) /\
    forall p, 0 <= p ->
      rd d' p = if (range_start b s <=? p) && (p <? range_end b s c)
                then stamped f (_bytesPerSector b) (p - range_start b s)
                else rd (payload b) p.
Proof.
  intros Hwf Hflag Hbps Hv Hok Hlen.
  destruct (run_fill_raw b s c f Hwf Hv Hok) as (d1 & Hl1 & Hr1 & Hrun).
  rewrite Hflag in Hrun.
  pose proof (range_bounds b Hwf s c Hv) as (H0 & H1 & H2 & H3).
  pose proof (range_count_pos b s c Hv) as Hcnt.
  destruct Hwf as (Hsc & _ & Ht & Hlenb).
  set (sb := range_start b s) in *. set (eb := range_end b s c) in *.
  set (bps := _bytesPerSector b) in *.
  destruct (FillCompressionInfo_record (set_payload d1 b) (type_value (fill_type f))
              (fill_len f) sb (range_count b s c))
    as (d' & Hfci & Hlen' & Hrd'); simpl; fold bps; try lia.
  simpl in Hfci, Hlen', Hrd'. fold bps in Hfci, Hrd'. rewrite <- H3 in Hfci, Hrd'.
  exists d'. split; [rewrite Hrun; exact Hfci|]. split; [lia|].
  intros p Hp. rewrite Hrd' by lia.
  destruct (Z.leb_spec sb p), (Z.ltb_spec p eb); simpl.
  - (* inside the range *)
    unfold record_byte, stamped. rewrite fill_type_copies, andb_true_r.
    pose proof (Z.mod_pos_bound (p - sb) bps ltac:(lia)) as Hmod.
    assert (Hraw : forall q, sb <= q < eb -> rd d1 q = fill_byte f bps (q - sb)).
    { intros q Hq. rewrite Hr1 by lia.
      destruct (Z.leb_spec sb q), (Z.ltb_spec q eb); simpl; lia || reflexivity. }
    rewrite (Hraw sb) by lia. replace (sb - sb) with 0 by lia.
    destruct (Z.eqb_spec ((p - sb) mod bps) 20).
    + now rewrite Hraw by lia.
    + destruct (_ && _) eqn:Hin.
      * apply andb_prop in Hin as [Hge _]. apply Z.leb_le in Hge.
        assert (8 <= p - sb).
        { pose proof (Z.mod_le (p - sb) bps ltac:(lia) ltac:(lia)). lia. }
        rewrite Hraw by lia. f_equal. lia.
      * now rewrite Hraw by lia.
  - rewrite Hr1 by lia. destruct (Z.ltb_spec p eb); [lia|]. now rewrite andb_false_r.
  - rewrite Hr1 by lia. destruct (Z.leb_spec sb p); [lia|]. reflexivity.
  - rewrite Hr1 by lia. destruct (Z.leb_spec sb p); [lia|]. reflexivity.
Qed.

Lemma stamped_mod f bps k :
  1 <= bps -> 0 <= k ->
  (forall j, fill_byte f bps j = fill_byte f bps (j mod bps)) ->
  stamped f bps k = stamped f bps (k mod bps).
Proof.
  intros Hbps Hk Hper. unfold stamped.
  pose proof (Z.mod_pos_bound k bps ltac:(lia)) as Hmod.
  rewrite Z.mod_mod by lia.
  destruct (Z.eqb_spec (k mod bps) 20).
  - destruct (_ && _); [apply Hper|reflexivity].
  - destruct (Z.leb_spec 8 (k mod bps)); simpl; [|apply Hper].
    destruct (Z.ltb_spec (k mod bps) (8 + fill_len f)); [|apply Hper].
    rewrite (Hper (k - 8)). f_equal.
    rewrite (Z.div_mod k bps) at 1 by lia.
    replace (bps * (k / bps) + k mod bps - 8) with ((k / bps) * bps + (k mod bps - 8)) by lia.
    rewrite mod_sector by lia. reflexivity.
Qed.

(** [FillIncrementing] without pattern mode, or in pattern mode on
    sectors of at least 21 bytes: the range repeats its first sector. *)
Lemma FillIncrementing_regular b start s c :
  wf b -> valid_sector_range b s c -> 0 <= start < 256 ->
  (_usePatternMode b = true -> 21 <= _bytesPerSector b) ->
  let sb := range_start b s in
  let eb := range_end b s c in
  let bps := _bytesPerSector b in
  exists b',
    FillIncrementing start s c b = (Ok tt, b') /\
    length (payload b') = length (payload b) /\
    (forall p, 0 <= p -> p < sb \/ eb <= p -> rd (payload b') p = rd (payload b) p) /\
    (forall k, bps <= k < eb - sb ->
       rd (payload b') (sb + k) = rd (payload b') (sb + k mod bps)) /\
    (_usePatternMode b = false ->
     forall j, 0 <= j < bps -> rd (payload b') (sb + j) = wrap8 (start + j)) /\
    (_usePatternMode b = true ->
     (forall j, 0 <= j < bps -> j <> 8 -> j <> 20 ->
        rd (payload b') (sb + j) = wrap8 (start + j)) /\
     rd (payload b') (sb + 8) = start /\
     rd (payload b') (sb + 20) = 17).
Proof.
  intros Hwf Hv Hstart Hpm sb eb bps.
  pose proof (range_bounds b Hwf s c Hv) as (H0 & H1 & H2 & H3).
  fold sb eb bps in H0, H1, H2, H3.
  assert (Hbps : 1 <= bps) by (destruct Hwf as (_ & H & _); exact H).
  assert (Hper : forall j, fill_byte (PFillIncrementing start) bps j
                           = fill_byte (PFillIncrementing start) bps (j mod bps)).
  { intros j. simpl. now rewrite Z.mod_mod by lia. }
  destruct (_usePatternMode b) eqn:Hflag.
  - (* pattern mode *)
    specialize (Hpm eq_refl). fold bps in Hpm.
    destruct (pattern_fill_final b s c (PFillIncrementing start) Hwf Hflag Hpm Hv Hstart)
      as (d' & Hrun & Hlen & Hrd); [simpl; lia|].
    fold sb eb bps in Hrd.
    assert (Hin : forall k, 0 <= k < eb - sb ->
              rd d' (sb + k) = stamped (PFillIncrementing start) bps k).
    { intros k Hk. rewrite Hrd by lia.
      destruct (Z.leb_spec sb (sb + k)), (Z.ltb_spec (sb + k) eb); simpl; try lia.
      f_equal. lia. }
    exists (set_payload d' b). split; [exact Hrun|]. simpl.
    split; [exact Hlen|]. split; [|split; [|split]].
    + intros p Hp Hout. rewrite Hrd by lia.
      destruct (Z.leb_spec sb p), (Z.ltb_spec p eb); simpl; lia || reflexivity.
    + intros k Hk. pose proof (Z.mod_pos_bound k bps ltac:(lia)) as Hmod.
      rewrite !Hin by lia. apply stamped_mod; [lia|lia|exact Hper].
    + discriminate.
    + intros _. split; [|split].
      * intros j Hj Hj8 Hj20. rewrite Hin by lia. unfold stamped.
        rewrite Z.mod_small by lia.
        destruct (Z.eqb_spec j 20); [lia|].
        cbn [fill_len].
        destruct (Z.leb_spec 8 j), (Z.ltb_spec j (8 + 1)); simpl; try lia;
          now rewrite Z.mod_small by lia.
      * rewrite Hin by lia. unfold stamped. rewrite Z.mod_small by lia.
        simpl. rewrite Z.mod_0_l by lia. rewrite Z.add_0_r. now apply wrap8_small.
      * rewrite Hin by lia. unfold stamped. rewrite Z.mod_small by lia.
        simpl. rewrite andb_false_r. reflexivity.
  - (* no pattern mode *)
    destruct (run_fill_raw b s c (PFillIncrementing start) Hwf Hv Hstart)
      as (d1 & Hl1 & Hr1 & Hrun).
    rewrite Hflag in Hrun. simpl in Hrun. fold sb eb bps in Hr1.
    assert (Hin : forall k, 0 <= k < eb - sb ->
              rd d1 (sb + k) = wrap8 (start + k mod bps)).
    { intros k Hk. rewrite Hr1 by lia.
      destruct (Z.leb_spec sb (sb + k)), (Z.ltb_spec (sb + k) eb); simpl; try lia.
      do 3 f_equal. lia. }
    exists (set_payload d1 b). split; [exact Hrun|]. simpl.
    split; [exact Hl1|]. split; [|split; [|split]].
    + intros p Hp Hout. rewrite Hr1 by lia.
      destruct (Z.leb_spec sb p), (Z.ltb_spec p eb); simpl; lia || reflexivity.
    + intros k Hk. pose proof (Z.mod_pos_bound k bps ltac:(lia)) as Hmod.
      rewrite !Hin by lia. now rewrite Z.mod_mod by lia.
    + intros _ j Hj. rewrite Hin by lia. now rewrite Z.mod_small by lia.
    + discriminate.
Qed.

(** On sectors of any size, with a pattern length of at most 8,
    [FillCompressionInfo] returns and changes no byte but the type bytes,
    20 bytes after the start of the range and then one sector further each
    time while inside the range, and the [len] bytes 12 bytes before each
    of them. *)
Lemma FillCompressionInfo_frame b type len sb eb :
  1 <= _bytesPerSector b -> 0 <= len <= 8 -> 0 <= sb <= eb ->
  eb <= Z.of_nat (length (payload b)) ->
  Z.of_nat (length (payload b)) < 2 ^ 63 -> _bytesPerSector b < 2 ^ 63 ->
  exists d',
    FillCompressionInfo type len sb eb b = (Ok tt, set_payload d' b) /\
    length d' = length (payload b) /\
    forall p, 0 <= p ->
      (forall m, 0 <= m -> sb + 20 + m * _bytesPerSector b < eb ->
         p <> sb + 20 + m * _bytesPerSector b /\
         ~ (sb + 8 + m * _bytesPerSector b <= p < sb + 8 + m * _bytesPerSector b + len)) ->
      rd d' p = rd (payload b) p.
Proof.
  intros Hbps Hlen (Hsb & Heb) Hend Hsmall Hbps63.
  set (bps := _bytesPerSector b) in *. set (d0 := payload b) in *.
  unfold FillCompressionInfo. fold bps d0.
  destruct (Z.gtb_spec len COMPRESSION_MAX_PATTERN_LEN) as [Hgt|_];
    [unfold COMPRESSION_MAX_PATTERN_LEN in Hgt; lia|].
  unfold COMPRESSION_LBA_SIZE_IN_BYTE, COMPRESSION_PATTERN_SIZE_IN_BYTE.
  rewrite wrap64_small by lia.
  set (I := fun (i : Z) (d : list Z) =>
    exists k, 0 <= k /\ i = sb + 20 + k * bps /\ length d = length d0 /\
      (k = 0 \/ sb + 20 + (k - 1) * bps < eb) /\
      forall p, 0 <= p ->
        (forall m, 0 <= m < k ->
           p <> sb + 20 + m * bps /\ ~ (sb + 8 + m * bps <= p < sb + 8 + m * bps + len)) ->
        rd d p = rd d0 p).
  assert (Hbody : forall i d, 0 <= i < eb -> I i d ->
            I (i + bps) (FillCompressionInfo_body type len sb i d)).
  { intros i d Hi (k & Hk & Hik & Hdlen & Hlast & Hd).
    assert (Hkb : 0 <= k * bps) by (apply Z.mul_nonneg_nonneg; lia).
    exists (k + 1). split; [lia|]. split; [lia|]. split.
    { rewrite length_FillCompressionInfo_body; [exact Hdlen|lia|lia]. }
    split; [right; replace (k + 1 - 1) with k by lia; lia|].
    intros p Hp Hex.
    rewrite rd_FillCompressionInfo_body by lia.
    destruct (Hex k ltac:(lia)) as (Hne & Hnin).
    destruct (Z.eqb_spec p i); [lia|].
    destruct (Z.leb_spec (i - 12) p), (Z.ltb_spec p (i - 12 + len)); simpl;
      try lia; apply Hd; try lia; intros m Hm; apply Hex; lia. }
  assert (Hstart : I (sb + 8 + 12) d0).
  { exists 0. split; [lia|]. split; [lia|]. split; [reflexivity|].
    split; [now left|]. reflexivity. }
  destruct (FillCompressionInfo_loop_inv I type len sb eb bps ltac:(lia) ltac:(lia) Hbody
              (Z.to_nat eb) (sb + 8 + 12) d0 ltac:(lia) ltac:(lia) Hstart)
    as (i' & d' & Hloop & Hi' & (k & Hk & Hik & Hlen' & Hlast & Hrd)).
  rewrite Hloop. exists d'. split; [reflexivity|]. split; [exact Hlen'|].
  intros p Hp Hex. apply Hrd; [exact Hp|]. intros m Hm. apply Hex; [lia|].
  destruct Hlast as [->|Hlast]; [lia|].
  assert (m * bps <= (k - 1) * bps) by (apply Z.mul_le_mono_nonneg_r; lia).
  lia.
Qed.

(** [FillIncrementing] in pattern mode on sectors of any size: outside the
    bytes [FillCompressionInfo] stores, the range holds the sequence. *)
Lemma FillIncrementing_pattern_any b start s c :
  wf b -> _usePatternMode b = true -> valid_sector_range b s c -> 0 <= start < 256 ->
  exists d',
    FillIncrementing start s c b = (Ok tt, set_payload d' b) /\
    length d' = length (payload b) /\
    forall p, 0 <= p ->
      (forall m, 0 <= m ->
         range_start b s + 20 + m * _bytesPerSector b < range_end b s c ->
         p <> range_start b s + 20 + m * _bytesPerSector b /\
         p <> range_start b s + 8 + m * _bytesPerSector b) ->
      rd d' p = if (range_start b s <=? p) && (p <? range_end b s c)
                then wrap8 (start + (p - range_start b s) mod _bytesPerSector b)
                else rd (payload b) p.
Proof.
  intros Hwf Hflag Hv Hstart.
  destruct (run_fill_raw b s c (PFillIncrementing start) Hwf Hv Hstart)
    as (d1 & Hl1 & Hr1 & Hrun).
  rewrite Hflag in Hrun. cbn [run_fill fill_type fill_len fill_byte] in Hrun, Hr1.
  pose proof (range_bounds b Hwf s c Hv) as (H0 & H1 & H2 & H3).
  destruct Hwf as (Hsc & Hb1 & Ht & Hlenb).
  set (sb := range_start b s) in *. set (eb := range_end b s c) in *.
  set (bps := _bytesPerSector b) in *.
  destruct (FillCompressionInfo_frame (set_payload d1 b) (type_value eIncrementingPattern)
              1 sb eb)
    as (d' & Hfci & Hlen' & Hrd'); simpl; fold bps; try lia.
  simpl in Hfci, Hlen', Hrd'. fold bps in Hrd'.
  exists d'. split; [rewrite Hrun; exact Hfci|]. split; [lia|].
  intros p Hp Hex. rewrite Hrd'; [apply Hr1; exact Hp|exact Hp|].
  intros m Hm Hin. destruct (Hex m Hm Hin). lia.
Qed.

(** C3, as the code has it. On a valid range [FillIncrementing] returns
    and leaves the bytes outside the range as they were. Without pattern
    mode the first sector of the range is [start], [start + 1], ... modulo
    256 and every later byte of the range equals the byte of the first
    sector at the same sector offset. In pattern mode every byte of the
    range holds its value of that sequence, except the bytes 8 and 20
    bytes after the start of the range and every whole number of sectors
    further, as long as the second of the two is inside the range. On
    sectors of at least 21 bytes these are the sector offsets 8, which
    holds [start], and 20, which holds 0x11, of every sector, and the
    repetition holds as well. *)
Theorem FillIncrementing_repeats b start s c :
  wf b -> valid_sector_range b s c -> 0 <= start < 256 ->
  let sb := range_start b s in
  let eb := range_end b s c in
  let bps := _bytesPerSector b in
  exists b',
    FillIncrementing start s c b = (Ok tt, b') /\
    length (payload b') = length (payload b) /\
    (forall p, 0 <= p -> p < sb \/ eb <= p -> rd (payload b') p = rd (payload b) p) /\
    ((_usePatternMode b = true -> 21 <= bps) ->
     forall k, bps <= k < eb - sb ->
       rd (payload b') (sb + k) = rd (payload b') (sb + k mod bps)) /\
    (_usePatternMode b = false ->
     forall j, 0 <= j < bps -> rd (payload b') (sb + j) = wrap8 (start + j)) /\
    (_usePatternMode b = true -> 21 <= bps ->
     (forall j, 0 <= j < bps -> j <> 8 -> j <> 20 ->
        rd (payload b') (sb + j) = wrap8 (start + j)) /\
     rd (payload b') (sb + 8) = start /\
     rd (payload b') (sb + 20) = 17) /\
    (_usePatternMode b = true ->
     forall k, 0 <= k < eb - sb ->
       (forall m, 0 <= m -> 20 + m * bps < eb - sb ->
          k <> 8 + m * bps /\ k <> 20 + m * bps) ->
       rd (payload b') (sb + k) = wrap8 (start + k mod bps)).
Proof.
  intros Hwf Hv Hstart sb eb bps.
  pose proof (range_bounds b Hwf s c Hv) as (H0 & H1 & H2 & H3).
  fold sb eb bps in H0, H1, H2, H3.
  assert (Hbps : 1 <= bps) by (destruct Hwf as (_ & H & _); exact H).
  destruct (_usePatternMode b) eqn:Hflag.
  - (* pattern mode *)
    destruct (FillIncrementing_pattern_any b start s c Hwf Hflag Hv Hstart)
      as (d' & Hrun & Hlen & Hrd).
    fold sb eb bps in Hrd.
    assert (Hlarge : 21 <= bps ->
              (forall k, bps <= k < eb - sb ->
                 rd d' (sb + k) = rd d' (sb + k mod bps)) /\
              (forall j, 0 <= j < bps -> j <> 8 -> j <> 20 ->
                 rd d' (sb + j) = wrap8 (start + j)) /\
              rd d' (sb + 8) = start /\ rd d' (sb + 20) = 17).
    { intros Hbig.
      destruct (FillIncrementing_regular b start s c Hwf Hv Hstart (fun _ => Hbig))
        as (b2 & Hrun2 & _ & _ & Hrep & _ & Hfirst).
      rewrite Hrun in Hrun2. injection Hrun2 as <-. simpl in Hrep, Hfirst.
      rewrite Hflag in Hfirst. split; [exact Hrep|]. exact (Hfirst eq_refl). }
    exists (set_payload d' b). split; [exact Hrun|]. simpl.
    split; [exact Hlen|]. split; [|split; [|split; [|split]]].
    + intros p Hp Hout. rewrite Hrd; [|exact Hp|].
      2:{ intros m Hm Hin. pose proof (Z.mul_nonneg_nonneg m bps Hm ltac:(lia)). lia. }
      destruct (Z.leb_spec sb p), (Z.ltb_spec p eb); simpl; lia || reflexivity.
    + intros Hbig. exact (proj1 (Hlarge (Hbig eq_refl))).
    + discriminate.
    + intros _ Hbig. exact (proj2 (Hlarge Hbig)).
    + intros _ k Hk Hex. rewrite Hrd; [|lia|].
      * destruct (Z.leb_spec sb (sb + k)), (Z.ltb_spec (sb + k) eb); simpl; try lia.
        do 3 f_equal. lia.
      * intros m Hm Hin. destruct (Hex m Hm ltac:(lia)). lia.
  - (* no pattern mode *)
    destruct (FillIncrementing_regular b start s c Hwf Hv Hstart)
      as (b' & Hrun & Hlen & Hframe & Hrep & Hfirst & _);
      [rewrite Hflag; discriminate|].
    rewrite Hflag in Hfirst.
    exists b'. split; [exact Hrun|]. split; [exact Hlen|]. split; [exact Hframe|].
    split; [intros _; exact Hrep|]. split; [exact Hfirst|].
    split; discriminate.
Qed.

(** C2, as the code has it. A fixed-pattern fill ([Fill], [FillBytes] with
    at most 8 bytes) in pattern mode, on sectors of at least 21 bytes:
    [FillCompressionInfo] tests the first byte of the range, once for all
    sectors. When that byte is 0 the byte at sector offset 20 of every
    sector of the range keeps the value of the fill; otherwise it holds
    the type and length byte in every sector of the range. *)
Theorem fixed_fill_type_byte b s c f :
  wf b -> _usePatternMode b = true -> 21 <= _bytesPerSector b ->
  valid_sector_range b s c -> fill_args_ok f ->
  fill_type f = eFixPattern -> 0 <= fill_len f <= 8 ->
  let sb := range_start b s in
  let bps := _bytesPerSector b in
  exists b',
    run_fill f s c b = (Ok tt, b') /\
    rd (payload b') sb = fill_byte f bps 0 /\
    forall k, 0 <= k < range_count b s c ->
      rd (payload b') (sb + k * bps + 20) =
        if fill_byte f bps 0 =? 0
        then fill_byte f bps (k * bps + 20)
        else type_and_length eFixPattern (fill_len f).
Proof.
  intros Hwf Hflag Hbps Hv Hok Hfix Hlen sb bps.
  pose proof (range_bounds b Hwf s c Hv) as (H0 & H1 & H2 & H3).
  fold sb bps in H0, H1, H2, H3.
  destruct (pattern_fill_final b s c f Hwf Hflag Hbps Hv Hok Hlen)
    as (d' & Hrun & Hlen' & Hrd).
  fold sb bps in Hrd. fold bps in Hbps.
  exists (set_payload d' b). split; [exact Hrun|]. simpl. split.
  - rewrite Hrd by lia.
    destruct (Z.leb_spec sb sb), (Z.ltb_spec sb (range_end b s c)); simpl; try lia.
    replace (sb - sb) with 0 by lia. unfold stamped.
    rewrite Z.mod_0_l by lia. simpl.
    destruct (Z.ltb_spec 0 (8 + fill_len f)); reflexivity.
  - intros k Hk. rewrite Hrd by lia.
    assert (sb + k * bps + 20 < range_end b s c) by nia.
    destruct (Z.leb_spec sb (sb + k * bps + 20)),
      (Z.ltb_spec (sb + k * bps + 20) (range_end b s c)); simpl; try nia.
    replace (sb + k * bps + 20 - sb) with (k * bps + 20) by lia.
    unfold stamped. rewrite mod_sector by lia. simpl (20 =? 20). cbv iota.
    rewrite Hfix. simpl (type_value eFixPattern =? _). now rewrite andb_true_r.
Qed.

(** ** Random fills *)

Lemma length_taus88_bytes g : length (taus88_bytes g) = 12%nat.
Proof. reflexivity. Qed.

Lemma length_snapshot r : length (snapshot r) = 12%nat.
Proof. reflexivity. Qed.

Lemma write_bytes_all d bs : length bs = length d -> write_bytes d 0 bs = bs.
Proof.
  intros H. unfold write_bytes. simpl. rewrite drop_ge by lia. apply app_nil_r.
Qed.

Lemma Next_times_S n r : Next_times (S n) r = Next_times n (snd (Next r)).
Proof. reflexivity. Qed.

Lemma Next_times_snoc n r : Next_times (S n) r = snd (Next (Next_times n r)).
Proof.
  revert r. induction n as [|n IH]; intros r; [reflexivity|].
  rewrite Next_times_S, IH. reflexivity.
Qed.

Lemma Next_times_add n m r : Next_times (n + m) r = Next_times m (Next_times n r).
Proof.
  revert r. induction n as [|n IH]; intros r; [reflexivity|].
  simpl. apply IH.
Qed.

(** One iteration: the generator advances once, [genBuffer] takes the
    snapshot at the first word of a sector, the payload takes the saved
    snapshot at word 6 of a sector and then the random word. *)
Lemma FillSectorsWithRandomData_body_eq mode bps i r g d :
  length g = 12%nat ->
  FillSectorsWithRandomData_body mode bps i r g d =
    (snd (Next r),
     (if mode && (i mod (bps / 4) =? 0) then snapshot r else g),
     wr32 (if mode && negb (i mod (bps / 4) =? 0) && (i mod (bps / 4) =? 6)
           then write_bytes d (4 * (i - 4)) g else d)
       i (fst (Next r))).
Proof.
  intros Hg. unfold FillSectorsWithRandomData_body.
  destruct (Next r) as [v r'] eqn:HN. simpl fst. simpl snd.
  destruct mode; simpl andb; [|reflexivity].
  destruct (i mod (bps / 4) =? 0); simpl.
  - rewrite write_bytes_all by (rewrite Hg; reflexivity).
    reflexivity.
  - destruct (i mod (bps / 4) =? 6); [|reflexivity].
    unfold COMPRESSION_PATTERN_SIZE_IN_BYTE. simpl Z.to_nat.
    rewrite take_ge by lia. reflexivity.
Qed.

Lemma mod_six_ge i W : 0 <= i -> 1 <= W -> i mod W = 6 -> 6 <= i.
Proof.
  intros Hi HW H. pose proof (Z.mod_le i W Hi ltac:(lia)). lia.
Qed.

Lemma FillSectorsWithRandomData_body_length mode bps i r g d :
  1 <= bps / 4 -> 0 <= i -> 4 * i + 4 <= Z.of_nat (length d) -> length g = 12%nat ->
  length (snd (FillSectorsWithRandomData_body mode bps i r g d)) = length d /\
  length (snd (fst (FillSectorsWithRandomData_body mode bps i r g d))) = 12%nat.
Proof.
  intros HW Hi Hlen Hg. rewrite FillSectorsWithRandomData_body_eq by exact Hg.
  simpl. split.
  - destruct (mode && negb (i mod (bps / 4) =? 0) && (i mod (bps / 4) =? 6)) eqn:Hc.
    + apply andb_prop in Hc as [_ H6]. apply Z.eqb_eq in H6.
      pose proof (mod_six_ge i (bps / 4) Hi HW H6).
      rewrite length_wr32; rewrite ?length_write_bytes; lia.
    + apply length_wr32; lia.
  - destruct (mode && _); [apply length_snapshot|exact Hg].
Qed.

Lemma FillSectorsWithRandomData_loop_facts n mode bps i r g d :
  1 <= bps / 4 -> 0 <= i -> 4 * (i + Z.of_nat n) <= Z.of_nat (length d) ->
  length g = 12%nat ->
  fst (fst (FillSectorsWithRandomData_loop n mode bps i r g d)) = Next_times n r /\
  length (snd (FillSectorsWithRandomData_loop n mode bps i r g d)) = length d.
Proof.
  intros HW. revert i r g d. induction n as [|n IH]; intros i r g d Hi Hlen Hg.
  - simpl. auto.
  - simpl FillSectorsWithRandomData_loop.
    pose proof (FillSectorsWithRandomData_body_length mode bps i r g d HW Hi
                  ltac:(lia) Hg) as (Hl & Hgl).
    rewrite FillSectorsWithRandomData_body_eq in * by exact Hg.
    cbn [fst snd] in Hl, Hgl. cbv beta iota.
    match goal with
    | |- context [FillSectorsWithRandomData_loop n mode bps (i + 1) ?r1 ?g1 ?d1] =>
        destruct (IH (i + 1) r1 g1 d1 ltac:(lia) ltac:(lia) Hgl) as (IH1 & IH2)
    end.
    rewrite IH1, IH2. split; [reflexivity|exact Hl].
Qed.

(** Two runs of the loop that differ only in the payload they start from:
    the generators agree, and the payloads agree on the words written and
    wherever they agreed before. *)
Lemma FillSectorsWithRandomData_loop_agree n mode bps i r g d1 d2 (P : Z -> Prop) :
  1 <= bps / 4 -> 0 <= i -> 4 * (i + Z.of_nat n) <= Z.of_nat (length d1) ->
  length d1 = length d2 -> length g = 12%nat -> agree P d1 d2 ->
  agree (fun p => P p \/ 4 * i <= p < 4 * (i + Z.of_nat n))
    (snd (FillSectorsWithRandomData_loop n mode bps i r g d1))
    (snd (FillSectorsWithRandomData_loop n mode bps i r g d2)).
Proof.
  intros HW. revert i r g d1 d2 P.
  induction n as [|n IH]; intros i r g d1 d2 P Hi Hlen Hlen12 Hg Hag.
  - simpl. intros p Hp [HP|Hr]; [now apply Hag|lia].
  - simpl FillSectorsWithRandomData_loop.
    pose proof (FillSectorsWithRandomData_body_length mode bps i r g d1 HW Hi
                  ltac:(lia) Hg) as (Hl1 & Hgl1).
    pose proof (FillSectorsWithRandomData_body_length mode bps i r g d2 HW Hi
                  ltac:(lia) Hg) as (Hl2 & _).
    rewrite !FillSectorsWithRandomData_body_eq in * by exact Hg.
    cbn [fst snd] in Hl1, Hl2, Hgl1. cbv beta iota.
    set (c := mode && negb (i mod (bps / 4) =? 0) && (i mod (bps / 4) =? 6)) in *.
    set (e1 := if c then write_bytes d1 (4 * (i - 4)) g else d1) in *.
    set (e2 := if c then write_bytes d2 (4 * (i - 4)) g else d2) in *.
    assert (Hc6 : c = true -> 6 <= i).
    { intros Hc. subst c. apply andb_prop in Hc as [_ H6]. apply Z.eqb_eq in H6.
      exact (mod_six_ge i (bps / 4) Hi HW H6). }
    assert (He : length e1 = length d1 /\ length e2 = length d2 /\ agree P e1 e2).
    { subst e1 e2. destruct c.
      - specialize (Hc6 eq_refl).
        rewrite !length_write_bytes by lia. split; [reflexivity|]. split; [reflexivity|].
        intros p Hp HP. rewrite !rd_write_bytes by lia.
        match goal with |- (if ?t then _ else _) = _ => destruct t end;
          [reflexivity|now apply Hag].
      - split; [reflexivity|]. split; [reflexivity|exact Hag]. }
    destruct He as (He1 & He2 & Hage).
    eapply (IH (i + 1) _ _ _ _ (fun p => P p \/ 4 * i <= p < 4 * (i + 1)))
      in Hgl1 as Hnext; [| lia | rewrite Hl1; lia | rewrite Hl1, Hl2; lia |].
    + intros p Hp HP. apply Hnext; [exact Hp|].
      destruct HP as [HP|HP]; [left; left; exact HP|].
      destruct (Z.lt_ge_cases p (4 * (i + 1))); [left; right; lia|right; lia].
    + intros p Hp HP. rewrite !rd_wr32 by lia.
      match goal with |- (if ?t then _ else _) = _ => destruct t eqn:Hin end;
        [reflexivity|].
      destruct HP as [HP|HP]; [now apply Hage|].
      apply andb_false_iff in Hin as [Hin|Hin];
        [apply Z.leb_gt in Hin|apply Z.ltb_ge in Hin]; lia.
Qed.

Lemma sector_words k bps :
  bps mod 4 = 0 -> (k * bps) / 4 = k * (bps / 4) /\ k * bps = 4 * (k * (bps / 4)).
Proof.
  intros H. pose proof (Z.div_mod bps 4 ltac:(lia)) as Hd. rewrite H in Hd.
  assert (Hk : k * bps = k * (bps / 4) * 4) by lia.
  split; [|lia]. rewrite Hk. apply Z.div_mul. lia.
Qed.

Lemma words_per_sector_pos bps : 1 <= bps -> bps mod 4 = 0 -> 1 <= bps / 4.
Proof.
  intros H1 H. pose proof (Z.div_mod bps 4 ltac:(lia)) as Hd. rewrite H in Hd. lia.
Qed.

(** On a valid range of a buffer whose sector size is a multiple of 4,
    [FillSectorsWithRandomData] returns the generator advanced by one call
    per word of the range, and a payload of the same length. *)
Lemma FillSectorsWithRandomData_ok b r s c :
  wf b -> valid_sector_range b s c -> _bytesPerSector b mod 4 = 0 ->
  exists d',
    FillSectorsWithRandomData r s c b =
      (Ok (Next_times (Z.to_nat (range_count b s c * (_bytesPerSector b / 4))) r),
       set_payload d' b) /\
    length d' = length (payload b).
Proof.
  intros Hwf Hv Hmod.
  pose proof (range_bounds b Hwf s c Hv) as (H0 & H1 & H2 & H3).
  pose proof (range_count_pos b s c Hv) as Hcnt.
  pose proof Hwf as (Hsc & Hbps & Ht & Hlen).
  pose proof (words_per_sector_pos _ Hbps Hmod) as HW.
  set (sb := range_start b s) in *. set (eb := range_end b s c) in *.
  set (bps := _bytesPerSector b) in *. set (W := bps / 4) in *.
  assert (Hsb : sb / 4 = s * W /\ sb = 4 * (s * W)) by (apply sector_words; exact Hmod).
  assert (Heb : eb / 4 = (s + range_count b s c) * W /\
                eb = 4 * ((s + range_count b s c) * W))
    by (apply sector_words; exact Hmod).
  destruct Hsb as (Hsb4 & Hsb'), Heb as (Heb4 & Heb').
  assert (Hs : 0 <= s) by (destruct Hv; lia).
  unfold FillSectorsWithRandomData. run_M.
  rewrite (GetStartAndStop_valid b Hwf s c Hv). fold sb eb bps.
  rewrite Hsb4, Heb4.
  replace ((s + range_count b s c) * W - s * W) with (range_count b s c * W) by lia.
  set (n := Z.to_nat (range_count b s c * W)).
  match goal with
  | |- context [FillSectorsWithRandomData_loop ?n0 ?m0 ?b0 ?i0 ?r0 ?g0 ?d0] =>
      destruct (FillSectorsWithRandomData_loop_facts n0 m0 b0 i0 r0 g0 d0)
        as (Hr' & Hlen'); [exact HW|nia|subst n; nia|reflexivity|];
      destruct (FillSectorsWithRandomData_loop n0 m0 b0 i0 r0 g0 d0) as [[r' g'] d']
  end.
  simpl in Hr', Hlen'. subst r'. cbv beta iota.
  change (FillCompressionInfo 3) with (FillCompressionInfo (type_value eRandomPattern)).
  destruct (_usePatternMode b) eqn:Hflag.
  - destruct (FillCompressionInfo_random_ok (set_payload d' b) 0 sb eb)
      as (d'' & Hfci & Hlen''); simpl; try lia.
    change (FillCompressionInfo 3) with (FillCompressionInfo (type_value eRandomPattern)).
    rewrite Hfci. simpl. exists d''. split; [reflexivity|].
    simpl in Hlen''. lia.
  - exists d'. split; [reflexivity|exact Hlen'].
Qed.

Lemma wf_set_payload b d :
  wf b -> length d = length (payload b) -> wf (set_payload d b).
Proof.
  intros (H1 & H2 & H3 & H4) Hd. unfold wf, total in *. simpl. repeat split; try lia.
Qed.

Lemma wf_set_random b r : wf b -> wf (set_random r b).
Proof. intros H. exact H. Qed.

Lemma GetRandom_eq useSeed seed clock b :
  exists r, GetRandom useSeed seed clock b = (Ok r, set_random (Some r) b) /\
            (useSeed = true -> r = Random32_seeded seed).
Proof.
  unfold GetRandom. destruct (_random b) as [r0|]; eexists; split; try reflexivity.
  - intros ->. reflexivity.
  - intros ->. reflexivity.
Qed.

Lemma FillRandomImpl_ok b s c useSeed seed clock :
  wf b -> valid_sector_range b s c -> _bytesPerSector b mod 4 = 0 ->
  exists d' r',
    FillRandomImpl s c useSeed seed clock b
      = (Ok tt, set_random (Some r') (set_payload d' b)) /\
    length d' = length (payload b).
Proof.
  intros Hwf Hv Hmod. unfold FillRandomImpl.
  unfold bind at 1. unfold get at 1. cbv beta iota.
  unfold GetBytesPerSector. rewrite Hmod.
  change (negb (0 =? 0)) with false. cbv beta iota.
  destruct (GetRandom_eq useSeed seed clock b) as (r & Hget & _).
  unfold bind at 1. rewrite Hget.
  destruct (FillSectorsWithRandomData_ok (set_random (Some r) b) r s c
              (wf_set_random b _ Hwf) Hv Hmod) as (d' & Hfill & Hlen).
  unfold bind. rewrite Hfill. unfold modify.
  eexists d', _. split; [|exact Hlen]. reflexivity.
Qed.

Lemma FillRandomImpl_bad_sector_size b s c useSeed seed clock :
  _bytesPerSector b mod 4 <> 0 ->
  FillRandomImpl s c useSeed seed clock b = (Throw RuntimeError, b).
Proof.
  intros Hmod. unfold FillRandomImpl, bind, get, throw, GetBytesPerSector.
  destruct (Z.eqb_spec (_bytesPerSector b mod 4) 0); [contradiction|reflexivity].
Qed.

Lemma FillRandomSeededBySector_bad_sector_size b s c seed :
  _bytesPerSector b mod 4 <> 0 ->
  FillRandomSeededBySector seed s c b = (Throw RuntimeError, b).
Proof.
  intros Hmod. unfold FillRandomSeededBySector, bind, get, throw, GetBytesPerSector.
  destruct (Z.eqb_spec (_bytesPerSector b mod 4) 0); [contradiction|reflexivity].
Qed.

Lemma FillRandomSeededBySector_loop_ok n seed s i r b :
  wf b -> _bytesPerSector b mod 4 = 0 -> 0 <= i ->
  i + Z.of_nat n <= _sectorCount b ->
  exists b',
    FillRandomSeededBySector_loop n seed s i r b = (Ok tt, b') /\
    wf b' /\ same_shape b b'.
Proof.
  revert i r b. induction n as [|n IH]; intros i r b Hwf Hmod Hi Hle.
  - simpl. exists b. split; [reflexivity|]. split; [exact Hwf|].
    unfold same_shape. auto.
  - simpl FillRandomSeededBySector_loop.
    assert (Hv : valid_sector_range b i 1) by (unfold valid_sector_range; lia).
    destruct (FillSectorsWithRandomData_ok b (Seed (wrap32 (seed + i - s)) r) i 1
                Hwf Hv Hmod) as (d' & Hfill & Hlen).
    unfold bind. rewrite Hfill.
    destruct (IH (i + 1)
                (Next_times (Z.to_nat (range_count b i 1 * (_bytesPerSector b / 4)))
                   (Seed (wrap32 (seed + i - s)) r))
                (set_payload d' b) (wf_set_payload b d' Hwf Hlen) Hmod ltac:(lia)
                ltac:(simpl; lia))
      as (b' & Hloop & Hwf' & (S1 & S2 & S3 & S4)).
    exists b'. split; [exact Hloop|]. split; [exact Hwf'|].
    unfold same_shape. simpl in *. repeat split; congruence.
Qed.

Lemma FillRandomSeededBySector_ok b s c seed :
  wf b -> valid_sector_range b s c -> _bytesPerSector b mod 4 = 0 ->
  exists b', FillRandomSeededBySector seed s c b = (Ok tt, b') /\ same_shape b b'.
Proof.
  intros Hwf Hv Hmod.
  pose proof (range_count_pos b s c Hv) as Hcnt.
  pose proof (range_count_le b s c Hv) as Hle.
  pose proof Hwf as (Hsc & Hbps & Ht & Hlen).
  assert (Hsc63 : _sectorCount b < 2 ^ 63) by (unfold total in Ht; nia).
  assert (Hs : 0 <= s) by (destruct Hv; lia).
  unfold FillRandomSeededBySector.
  unfold bind at 1. unfold get at 1. cbv beta iota.
  unfold GetBytesPerSector. rewrite Hmod.
  change (negb (0 =? 0)) with false. cbv beta iota.
  unfold bind at 1. unfold check at 1.
  rewrite (ValidateSectorRange_valid b Hwf s c Hv). cbv beta iota.
  rewrite !(wrap64_small (s + range_count b s c)) by lia.
  assert (Hmax : ValidateCounterMax (s + range_count b s c) = Ok tt).
  { unfold ValidateCounterMax, LLONG_MAX.
    destruct (Z.gtb_spec (s + range_count b s c) (2 ^ 63 - 1)); [lia|reflexivity]. }
  unfold bind at 1. unfold check at 1. rewrite Hmax. cbv beta iota.
  destruct (GetRandom_eq true seed 0 b) as (r & Hget & _).
  unfold bind at 1. rewrite Hget. cbv beta iota.
  unfold bind at 1. unfold check at 1. cbv beta iota.
  replace (s + range_count b s c - s) with (range_count b s c) by lia.
  destruct (FillRandomSeededBySector_loop_ok (Z.to_nat (range_count b s c)) seed s s
              (Random32_copy r) (set_random (Some r) b)
              (wf_set_random b _ Hwf) Hmod Hs ltac:(simpl; lia))
    as (b' & Hloop & _ & Hshape).
  exists b'. split; [exact Hloop|exact Hshape].
Qed.

(** C6. With a sector size that is not a multiple of 4, [FillRandom],
    [FillRandomSeeded] and [FillRandomSeededBySector] throw the runtime
    error and leave the object as it was; with a sector size that is a
    multiple of 4 and a valid sector range all three return. *)
Theorem random_fill_sector_size (b b' : Buffer) (s c s' c' seed clock : Z) :
  _bytesPerSector b mod 4 <> 0 ->
  wf b' -> _bytesPerSector b' mod 4 = 0 -> valid_sector_range b' s' c' ->
  (FillRandom s c clock b = (Throw RuntimeError, b) /\
   FillRandomSeeded seed s c b = (Throw RuntimeError, b) /\
   FillRandomSeededBySector seed s c b = (Throw RuntimeError, b)) /\
  (exists b1 b2 b3,
     FillRandom s' c' clock b' = (Ok tt, b1) /\
     FillRandomSeeded seed s' c' b' = (Ok tt, b2) /\
     FillRandomSeededBySector seed s' c' b' = (Ok tt, b3)).
Proof.
  intros Hbad Hwf Hmod Hv. split.
  - unfold FillRandom, FillRandomSeeded.
    rewrite !FillRandomImpl_bad_sector_size by exact Hbad.
    rewrite FillRandomSeededBySector_bad_sector_size by exact Hbad. auto.
  - destruct (FillRandomImpl_ok b' s' c' false 0 clock Hwf Hv Hmod) as (d1 & r1 & H1 & _).
    destruct (FillRandomImpl_ok b' s' c' true seed 0 Hwf Hv Hmod) as (d2 & r2 & H2 & _).
    destruct (FillRandomSeededBySector_ok b' s' c' seed Hwf Hv Hmod) as (b3 & H3 & _).
    eexists _, _, b3. unfold FillRandom, FillRandomSeeded.
    split; [exact H1|]. split; [exact H2|exact H3].
Qed.

(** C5. On valid compare ranges [CompareTo] returns a result and never
    throws; the result is the equal one exactly when the two spans hold
    the same bytes; otherwise it carries the offset in the calling buffer
    of the first mismatch, with the byte of the calling buffer as expected
    value and the byte of the other buffer as actual value. *)
Theorem CompareTo_first_difference (this buffer : Buffer) (s s2 c : Z) :
  wf this -> wf buffer -> valid_compare_range this buffer s s2 c ->
  let n := compare_length this buffer s s2 c in
  let sb := range_start this s in
  let sb2 := range_start buffer s2 in
  exists r, CompareTo buffer s s2 c this = Ok r /\
    (_areEqual r = true <->
     forall i, 0 <= i < n -> rd (payload this) (sb + i) = rd (payload buffer) (sb2 + i)) /\
    (_areEqual r = true -> r = CompareResult_equal) /\
    (_areEqual r = false ->
     exists i, 0 <= i < n /\
       (forall j, 0 <= j < i -> rd (payload this) (sb + j) = rd (payload buffer) (sb2 + j)) /\
       rd (payload this) (sb + i) <> rd (payload buffer) (sb2 + i) /\
       _firstDifferenceOffset r = sb + i /\
       _expectedValue r = rd (payload this) (sb + i) /\
       _actualValue r = rd (payload buffer) (sb2 + i) /\
       _differenceCount r = 1).
Proof. exact (CompareTo_result this buffer s s2 c). Qed.

(** ** Seeded fills are deterministic *)

Lemma FillCompressionInfo_congr type len sb eb b1 b2 :
  payload b1 = payload b2 -> _bytesPerSector b1 = _bytesPerSector b2 ->
  fst (FillCompressionInfo type len sb eb b1) = fst (FillCompressionInfo type len sb eb b2) /\
  payload (snd (FillCompressionInfo type len sb eb b1))
  = payload (snd (FillCompressionInfo type len sb eb b2)).
Proof.
  intros Hp Hb. unfold FillCompressionInfo. rewrite Hp, Hb.
  destruct (len >? _); [simpl; auto|].
  destruct (FillCompressionInfo_loop _ _ _ _ _ _ _ _); simpl; auto.
Qed.

(** A fill of the whole buffer from the same generator leaves the same
    payload in two buffers of the same shape. *)
Lemma FillSectorsWithRandomData_congr r b1 b2 :
  wf b1 -> wf b2 ->
  _sectorCount b1 = _sectorCount b2 -> _bytesPerSector b1 = _bytesPerSector b2 ->
  _usePatternMode b1 = _usePatternMode b2 -> _bytesPerSector b1 mod 4 = 0 ->
  payload (snd (FillSectorsWithRandomData r 0 0 b1))
  = payload (snd (FillSectorsWithRandomData r 0 0 b2)).
Proof.
  intros Hwf1 Hwf2 Hsc Hbps Hflag Hmod.
  assert (Hv1 : valid_sector_range b1 0 0).
  { destruct Hwf1 as (H & _). unfold valid_sector_range. lia. }
  assert (Hv2 : valid_sector_range b2 0 0).
  { destruct Hwf2 as (H & _). unfold valid_sector_range. lia. }
  pose proof Hwf1 as (Hsc1 & Hbps1 & Ht1 & Hlen1).
  pose proof Hwf2 as (Hsc2 & Hbps2 & Ht2 & Hlen2).
  pose proof (words_per_sector_pos _ Hbps1 Hmod) as HW.
  assert (Htot : total b1 = total b2) by (unfold total; congruence).
  assert (Hrs : range_start b2 0 = range_start b1 0) by reflexivity.
  assert (Hre : range_end b2 0 0 = range_end b1 0 0).
  { unfold range_end, range_count. simpl. congruence. }
  assert (Hre1 : range_end b1 0 0 = total b1).
  { unfold range_end, range_count, total. simpl. f_equal. lia. }
  assert (Hrs1 : range_start b1 0 = 0) by reflexivity.
  destruct (sector_words (_sectorCount b1) (_bytesPerSector b1) Hmod) as (Hw1 & Hw2).
  fold (total b1) in Hw1, Hw2.
  unfold FillSectorsWithRandomData. run_M.
  rewrite (GetStartAndStop_valid b1 Hwf1 0 0 Hv1).
  rewrite (GetStartAndStop_valid b2 Hwf2 0 0 Hv2).
  rewrite Hrs, Hre, Hre1, Hrs1, <- Hflag, <- Hbps.
  change (0 / 4) with 0. rewrite Hw1, Z.sub_0_r.
  set (n := Z.to_nat (_sectorCount b1 * (_bytesPerSector b1 / 4))).
  set (g0 := [0; 0; 0; 0; 0; 0; 0; 0; 0; 0; 0; 0]).
  pose proof (FillSectorsWithRandomData_loop_facts n (_usePatternMode b1)
                (_bytesPerSector b1) 0 r g0 (payload b1) HW ltac:(lia)
                ltac:(subst n; nia) eq_refl) as (Hr1 & Hl1).
  pose proof (FillSectorsWithRandomData_loop_facts n (_usePatternMode b1)
                (_bytesPerSector b1) 0 r g0 (payload b2) HW ltac:(lia)
                ltac:(subst n; nia) eq_refl) as (Hr2 & Hl2).
  pose proof (FillSectorsWithRandomData_loop_agree n (_usePatternMode b1)
                (_bytesPerSector b1) 0 r g0 (payload b1) (payload b2) (fun _ => False)
                HW ltac:(lia) ltac:(subst n; nia) ltac:(lia) eq_refl
                ltac:(intros p _ [])) as Hag.
  destruct (FillSectorsWithRandomData_loop n (_usePatternMode b1) (_bytesPerSector b1)
              0 r g0 (payload b1)) as [[ra ga] da].
  destruct (FillSectorsWithRandomData_loop n (_usePatternMode b1) (_bytesPerSector b1)
              0 r g0 (payload b2)) as [[rb gb] db].
  simpl in Hr1, Hr2, Hl1, Hl2, Hag.
  assert (Hd : da = db).
  { apply rd_ext; [lia|]. intros p Hp. apply Hag; [lia|]. right. subst n. nia. }
  subst db. cbv beta iota.
  destruct (_usePatternMode b1).
  - destruct (FillCompressionInfo_congr 3 0 0 (total b1) (set_payload da b1)
                (set_payload da b2) eq_refl Hbps) as (Hf & Hp).
    destruct (FillCompressionInfo 3 0 0 (total b1) (set_payload da b1)) as [[]x1];
      destruct (FillCompressionInfo 3 0 0 (total b1) (set_payload da b2)) as [[]x2];
      simpl in *; congruence.
  - reflexivity.
Qed.

Lemma FillRandomImpl_unfold b s c useSeed seed clock :
  _bytesPerSector b mod 4 = 0 ->
  exists r,
    GetRandom useSeed seed clock b = (Ok r, set_random (Some r) b) /\
    (useSeed = true -> r = Random32_seeded seed) /\
    FillRandomImpl s c useSeed seed clock b =
      match FillSectorsWithRandomData r s c (set_random (Some r) b) with
      | (Ok r', b') => (Ok tt, set_random (Some r') b')
      | (Throw e, b') => (Throw e, b')
      | (OutOfFuel, b') => (OutOfFuel, b')
      end.
Proof.
  intros Hmod. destruct (GetRandom_eq useSeed seed clock b) as (r & Hget & Hr).
  exists r. split; [exact Hget|]. split; [exact Hr|].
  unfold FillRandomImpl.
  unfold bind at 1. unfold get at 1. cbv beta iota.
  unfold GetBytesPerSector. rewrite Hmod.
  change (negb (0 =? 0)) with false. cbv beta iota.
  unfold bind at 1. rewrite Hget. unfold bind, modify.
  destruct (FillSectorsWithRandomData r s c (set_random (Some r) b)) as [[]x]; reflexivity.
Qed.

Lemma FillRandomSeeded_congr seed b1 b2 :
  wf b1 -> wf b2 ->
  _sectorCount b1 = _sectorCount b2 -> _bytesPerSector b1 = _bytesPerSector b2 ->
  _usePatternMode b1 = _usePatternMode b2 -> _bytesPerSector b1 mod 4 = 0 ->
  payload (snd (FillRandomSeeded seed 0 0 b1))
  = payload (snd (FillRandomSeeded seed 0 0 b2)).
Proof.
  intros Hwf1 Hwf2 Hsc Hbps Hflag Hmod.
  assert (Hmod2 : _bytesPerSector b2 mod 4 = 0) by (rewrite <- Hbps; exact Hmod).
  unfold FillRandomSeeded.
  destruct (FillRandomImpl_unfold b1 0 0 true seed 0 Hmod) as (ra & _ & Hra & Heq1).
  destruct (FillRandomImpl_unfold b2 0 0 true seed 0 Hmod2) as (rb & _ & Hrb & Heq2).
  rewrite Heq1, Heq2, (Hra eq_refl), (Hrb eq_refl).
  pose proof (FillSectorsWithRandomData_congr (Random32_seeded seed)
                (set_random (Some (Random32_seeded seed)) b1)
                (set_random (Some (Random32_seeded seed)) b2)
                (wf_set_random _ _ Hwf1) (wf_set_random _ _ Hwf2) Hsc Hbps Hflag Hmod)
    as Hcong.
  destruct (FillSectorsWithRandomData (Random32_seeded seed) 0 0
              (set_random (Some (Random32_seeded seed)) b1)) as [[]x1];
    destruct (FillSectorsWithRandomData (Random32_seeded seed) 0 0
                (set_random (Some (Random32_seeded seed)) b2)) as [[]x2];
    simpl in *; exact Hcong.
Qed.

(** The sample buffers are what the constructor builds. *)
Lemma sample_buffers_constructed :
  Buffer_new None sample_alloc 2 32 = Ok sample_plain /\
  Buffer_new (Some "1"%string) sample_alloc 2 32 = Ok sample_pattern /\
  Buffer_new None sample_alloc 5 512 = Ok scenario_buffer /\
  Buffer_new None sample_alloc 1 513 = Ok sample_odd.
Proof. repeat split; vm_compute; reflexivity. Qed.

Lemma wf_sample_plain : wf sample_plain.
Proof. unfold wf, total. simpl. lia. Qed.

Lemma wf_sample_pattern : wf sample_pattern.
Proof. unfold wf, total. simpl. lia. Qed.

Lemma wf_scenario_buffer : wf scenario_buffer.
Proof. unfold wf, total. simpl. lia. Qed.

Lemma wf_sample_named : wf sample_named.
Proof. unfold wf, total. simpl. lia. Qed.

(** Scenario 4 of section 8: [Buffer(5, 512)] filled with seed 12345 twice
    compares equal; filled with seed 54321 it differs at the first byte. *)
Lemma seeded_scenario :
  exists x y,
    FillRandomSeeded 12345 0 0 scenario_buffer = (Ok tt, x) /\
    FillRandomSeeded 54321 0 0 scenario_buffer = (Ok tt, y) /\
    CompareTo x 0 0 0 x = Ok CompareResult_equal /\
    CompareTo y 0 0 0 x = Ok (CompareResult_unequal 0 118 158).
Proof.
  eexists _, _. split; [vm_compute; reflexivity|].
  split; [vm_compute; reflexivity|]. split; vm_compute; reflexivity.
Qed.

(** C4, as the code has it. Two buffers of the same sector count, sector
    size (a multiple of 4) and pattern-mode flag hold the same payload
    after [FillRandomSeeded] with the same seed, and [CompareTo] returns
    the equal result. For the seeds 12345 and 54321 of the scenario the
    payloads differ. *)
Theorem FillRandomSeeded_deterministic seed b1 b2 :
  wf b1 -> wf b2 ->
  _sectorCount b1 = _sectorCount b2 -> _bytesPerSector b1 = _bytesPerSector b2 ->
  _usePatternMode b1 = _usePatternMode b2 -> _bytesPerSector b1 mod 4 = 0 ->
  (exists b1' b2',
     FillRandomSeeded seed 0 0 b1 = (Ok tt, b1') /\
     FillRandomSeeded seed 0 0 b2 = (Ok tt, b2') /\
     payload b1' = payload b2' /\
     CompareTo b2' 0 0 0 b1' = Ok CompareResult_equal) /\
  (exists x y,
     FillRandomSeeded 12345 0 0 scenario_buffer = (Ok tt, x) /\
     FillRandomSeeded 54321 0 0 scenario_buffer = (Ok tt, y) /\
     CompareTo x 0 0 0 x = Ok CompareResult_equal /\
     CompareTo y 0 0 0 x = Ok (CompareResult_unequal 0 118 158)).
Proof.
  intros Hwf1 Hwf2 Hsc Hbps Hflag Hmod. split; [|exact seeded_scenario].
  assert (Hmod2 : _bytesPerSector b2 mod 4 = 0) by (rewrite <- Hbps; exact Hmod).
  assert (Hv1 : valid_sector_range b1 0 0).
  { destruct Hwf1 as (H & _). unfold valid_sector_range. lia. }
  assert (Hv2 : valid_sector_range b2 0 0).
  { destruct Hwf2 as (H & _). unfold valid_sector_range. lia. }
  pose proof (FillRandomSeeded_congr seed b1 b2 Hwf1 Hwf2 Hsc Hbps Hflag Hmod) as Hcong.
  unfold FillRandomSeeded in *.
  destruct (FillRandomImpl_ok b1 0 0 true seed 0 Hwf1 Hv1 Hmod) as (d1 & r1 & H1 & Hl1).
  destruct (FillRandomImpl_ok b2 0 0 true seed 0 Hwf2 Hv2 Hmod2) as (d2 & r2 & H2 & Hl2).
  rewrite H1, H2 in Hcong. simpl in Hcong. subst d2.
  eexists _, _. split; [exact H1|]. split; [exact H2|]. split; [reflexivity|].
  set (x1 := set_random (Some r1) (set_payload d1 b1)).
  set (x2 := set_random (Some r2) (set_payload d1 b2)).
  assert (Hwx1 : wf x1) by (apply wf_set_random, wf_set_payload; assumption).
  assert (Hwx2 : wf x2) by (apply wf_set_random, wf_set_payload; assumption).
  assert (Hvc : valid_compare_range x1 x2 0 0 0).
  { unfold valid_compare_range. split; [exact Hv1|]. split; [exact Hv2|]. intros H. lia. }
  destruct (CompareTo_result x1 x2 0 0 0 Hwx1 Hwx2 Hvc) as (r & Hr & Hiff & Heq & _).
  rewrite Hr. f_equal. apply Heq, Hiff. intros i Hi. reflexivity.
Qed.

(** ** The generator snapshot of a random fill in pattern mode *)

Lemma snapshot_inv_step W s0 r0 N i r g d :
  7 <= W -> 0 <= s0 -> s0 * W <= i -> 4 * i + 4 <= Z.of_nat N ->
  snapshot_inv W (s0 * W) r0 N i r g d ->
  snapshot_inv W (s0 * W) r0 N (i + 1)
    (snd (Next r))
    (if i mod W =? 0 then snapshot r else g)
    (wr32 (if negb (i mod W =? 0) && (i mod W =? 6)
           then write_bytes d (4 * (i - 4)) g else d) i (fst (Next r))).
Proof.
  intros HW Hs0 Hi HN (Hr & Hg & Hd & Hgen & Hsnap).
  set (i0 := s0 * W) in *.
  pose proof (Z.div_mod (i - i0) W ltac:(lia)) as Hdm.
  pose proof (Z.mod_pos_bound (i - i0) W ltac:(lia)) as Hm.
  assert (Hq : 0 <= (i - i0) / W) by (apply Z.div_pos; lia).
  set (q := (i - i0) / W) in *. set (m := (i - i0) mod W) in *.
  clearbody q m.
  assert (Hmod : i mod W = m).
  { replace i with ((s0 + q) * W + m) by (subst i0; lia). apply mod_sector. lia. }
  rewrite Hmod.
  set (e := if negb (m =? 0) && (m =? 6) then write_bytes d (4 * (i - 4)) g else d).
  assert (He : length e = N /\
    forall p, 0 <= p ->
      rd e p = if negb (m =? 0) && (m =? 6) && (4 * (i - 4) <=? p) && (p <? 4 * (i - 4) + 12)
               then rd g (p - 4 * (i - 4)) else rd d p).
  { subst e. destruct (Z.eqb_spec m 0); simpl; [auto|].
    destruct (Z.eqb_spec m 6); simpl; [|auto].
    assert (6 <= i) by lia.
    split; [rewrite length_write_bytes; lia|].
    intros p Hp. rewrite rd_write_bytes by lia. rewrite Hg.
    change (Z.of_nat 12) with 12.
    destruct (4 * (i - 4) <=? p); reflexivity. }
  destruct He as (Hel & Her).
  unfold snapshot_inv. split; [|split; [|split; [|split]]].
  - rewrite Hr. replace (Z.to_nat (i + 1 - i0)) with (S (Z.to_nat (i - i0))) by lia.
    now rewrite Next_times_snoc.
  - destruct (m =? 0); [apply length_snapshot|exact Hg].
  - rewrite length_wr32; lia.
  - intros k Hk Hlo Hhi. destruct (Z.eqb_spec m 0) as [Hm0|Hm0].
    + assert (k = q) by nia. subst k.
      replace (q * W) with (i - i0) by lia.
      rewrite Hr. reflexivity.
    + assert (Hkq1 : k <= q) by nia. assert (Hkq2 : q <= k) by nia.
      assert (k = q) by lia. subst k.
      apply Hgen; lia.
  - intros k j Hk Hge Hj.
    rewrite rd_wr32 by lia.
    assert (Hp : 4 * (i0 + k * W) + 8 + j < 4 * i) by lia.
    destruct (Z.leb_spec (4 * i) (4 * (i0 + k * W) + 8 + j)); [lia|]. simpl.
    rewrite Her by (subst i0; nia).
    destruct (Z.eq_dec (i0 + k * W + 7) (i + 1)) as [Hnow|Hbefore].
    + (* word 6 of sector [k] is the word of this iteration *)
      assert (Hkq1 : k <= q) by nia. assert (Hkq2 : q <= k) by nia.
      assert (Hkq : k = q /\ m = 6) by nia. destruct Hkq as (-> & Hm6).
      rewrite Hm6. simpl.
      destruct (Z.leb_spec (4 * (i - 4)) (4 * (i0 + q * W) + 8 + j)); [|lia].
      destruct (Z.ltb_spec (4 * (i0 + q * W) + 8 + j) (4 * (i - 4) + 12)); [|lia].
      simpl. rewrite (Hgen q) by lia. f_equal. lia.
    + (* an earlier sector: a snapshot stored now lies behind it *)
      destruct (negb (m =? 0) && (m =? 6)) eqn:Hc; simpl.
      * apply andb_prop in Hc as [_ Hm6]. apply Z.eqb_eq in Hm6.
        assert (k < q) by nia.
        destruct (Z.leb_spec (4 * (i - 4)) (4 * (i0 + k * W) + 8 + j)); [nia|].
        simpl. apply Hsnap; lia.
      * apply Hsnap; lia.
Qed.

Lemma snapshot_inv_loop W s0 r0 N n :
  7 <= W -> 0 <= s0 ->
  forall i r g d,
    s0 * W <= i -> 4 * (i + Z.of_nat n) <= Z.of_nat N ->
    snapshot_inv W (s0 * W) r0 N i r g d ->
    let '(r', g', d') := FillSectorsWithRandomData_loop n true (4 * W) i r g d in
    snapshot_inv W (s0 * W) r0 N (i + Z.of_nat n) r' g' d'.
Proof.
  intros HW Hs0. induction n as [|n IH]; intros i r g d Hi HN Hinv.
  - simpl. now rewrite Z.add_0_r.
  - simpl FillSectorsWithRandomData_loop.
    pose proof Hinv as (_ & Hg & _).
    rewrite FillSectorsWithRandomData_body_eq by exact Hg.
    replace (4 * W / 4) with W by (rewrite Z.mul_comm, Z.div_mul; lia).
    simpl andb.
    apply (snapshot_inv_step W s0 r0 N i r g d HW Hs0 Hi) in Hinv; [|lia].
    apply IH in Hinv; [|lia|lia].
    replace (i + Z.of_nat (S n)) with (i + 1 + Z.of_nat n) by lia.
    exact Hinv.
Qed.

Lemma type_and_length_random : type_and_length eRandomPattern 0 = 48.
Proof. reflexivity. Qed.

(** In pattern mode, on sectors of at least 28 bytes, a random fill leaves
    in every sector of its range the snapshot of the generator taken at
    the start of the sector at sector offsets 8 to 19, and the type and
    length byte of a random pattern at sector offset 20. *)
Lemma FillSectorsWithRandomData_snapshot b r s c :
  wf b -> _usePatternMode b = true -> _bytesPerSector b mod 4 = 0 ->
  28 <= _bytesPerSector b -> valid_sector_range b s c ->
  exists r' d',
    FillSectorsWithRandomData r s c b = (Ok r', set_payload d' b) /\
    length d' = length (payload b) /\
    forall k, 0 <= k < range_count b s c ->
      (forall j, 0 <= j < 12 ->
         rd d' (range_start b s + k * _bytesPerSector b + 8 + j)
         = rd (snapshot (Next_times (Z.to_nat (k * (_bytesPerSector b / 4))) r)) j) /\
      rd d' (range_start b s + k * _bytesPerSector b + 20)
      = type_and_length eRandomPattern 0.
Proof.
  intros Hwf Hflag Hmod H28 Hv.
  pose proof (range_bounds b Hwf s c Hv) as (H0 & H1 & H2 & H3).
  pose proof (range_count_pos b s c Hv) as Hcnt.
  pose proof Hwf as (Hsc & Hbps & Ht & Hlen).
  set (sb := range_start b s) in *. set (eb := range_end b s c) in *.
  set (bps := _bytesPerSector b) in *. set (W := bps / 4) in *.
  set (cnt := range_count b s c) in *.
  assert (HbW : bps = 4 * W).
  { pose proof (Z.div_mod bps 4 ltac:(lia)) as Hd. rewrite Hmod in Hd. subst W. lia. }
  assert (HW : 7 <= W) by lia.
  assert (Hsb : sb / 4 = s * W /\ sb = 4 * (s * W)) by (apply sector_words; exact Hmod).
  assert (Heb : eb / 4 = (s + cnt) * W /\ eb = 4 * ((s + cnt) * W))
    by (apply sector_words; exact Hmod).
  destruct Hsb as (Hsb4 & Hsb'), Heb as (Heb4 & Heb').
  assert (Hs : 0 <= s) by (destruct Hv; lia).
  unfold FillSectorsWithRandomData. run_M.
  rewrite (GetStartAndStop_valid b Hwf s c Hv). fold sb eb bps.
  rewrite Hsb4, Heb4, Hflag.
  replace ((s + cnt) * W - s * W) with (cnt * W) by lia.
  set (n := Z.to_nat (cnt * W)).
  set (g0 := [0; 0; 0; 0; 0; 0; 0; 0; 0; 0; 0; 0]).
  assert (Hinit : snapshot_inv W (s * W) r (length (payload b)) (s * W) r g0 (payload b)).
  { unfold snapshot_inv. rewrite Z.sub_diag. simpl Z.to_nat.
    split; [reflexivity|]. split; [reflexivity|]. split; [reflexivity|].
    split; intros; nia. }
  pose proof (snapshot_inv_loop W s r (length (payload b)) n HW Hs (s * W) r g0
                (payload b) ltac:(lia) ltac:(subst n; nia) Hinit) as Hfin.
  assert (Hloop_eq :
    FillSectorsWithRandomData_loop n true bps (s * W) r g0 (payload b)
    = FillSectorsWithRandomData_loop n true (4 * W) (s * W) r g0 (payload b))
    by (now rewrite <- HbW).
  rewrite Hloop_eq. clear Hloop_eq.
  destruct (FillSectorsWithRandomData_loop n true (4 * W) (s * W) r g0 (payload b))
    as [[r' g'] d1].
  destruct Hfin as (_ & _ & Hl1 & _ & Hsnap).
  cbv beta iota.
  destruct (FillCompressionInfo_record (set_payload d1 b) (type_value eRandomPattern)
              0 sb cnt) as (d' & Hfci & Hlen' & Hrd');
    [simpl; fold bps; lia | lia | lia | lia | simpl; fold bps; lia | simpl; lia
    | simpl; fold bps; lia |].
  simpl in Hfci, Hlen', Hrd'. fold bps in Hfci, Hrd'. rewrite <- H3 in Hfci, Hrd'.
  rewrite Hfci.
  exists r', d'. split; [reflexivity|]. split; [lia|].
  intros k Hk.
  assert (Hbase : sb + k * bps + bps <= eb) by nia.
  split.
  - intros j Hj. rewrite Hrd' by lia.
    destruct (Z.leb_spec sb (sb + k * bps + 8 + j)); [|nia].
    destruct (Z.ltb_spec (sb + k * bps + 8 + j) eb); [|lia]. simpl.
    unfold record_byte.
    replace (sb + k * bps + 8 + j - sb) with (k * bps + (8 + j)) by lia.
    rewrite mod_sector by lia.
    destruct (Z.eqb_spec (8 + j) 20); [lia|].
    replace (8 + j <? 8 + 0) with false by (symmetry; apply Z.ltb_ge; lia).
    rewrite andb_false_r. simpl.
    replace (sb + k * bps + 8 + j) with (4 * (s * W + k * W) + 8 + j) by lia.
    rewrite Hsnap by nia. reflexivity.
  - rewrite Hrd' by nia.
    destruct (Z.leb_spec sb (sb + k * bps + 20)); [|nia].
    destruct (Z.ltb_spec (sb + k * bps + 20) eb); [|lia]. simpl.
    unfold record_byte.
    replace (sb + k * bps + 20 - sb) with (k * bps + 20) by lia.
    rewrite mod_sector by lia. simpl. rewrite andb_false_r. reflexivity.
Qed.

Lemma stamped_at f bps k j :
  1 <= bps -> 0 <= j < bps ->
  stamped f bps (k * bps + j) =
    if j =? 20 then
      if (fill_byte f bps 0 =? 0) && (type_value (fill_type f) =? type_value eFixPattern)
      then fill_byte f bps (k * bps + j)
      else type_and_length (fill_type f) (fill_len f)
    else if (8 <=? j) && (j <? 8 + fill_len f) then fill_byte f bps (k * bps + j - 8)
    else fill_byte f bps (k * bps + j).
Proof.
  intros Hbps Hj. unfold stamped. rewrite mod_sector by lia. reflexivity.
Qed.

(** In pattern mode, on sectors of at least 7 words, the loop of
    [FillSectorsWithRandomData] started in a sector that begins at word
    [s0 * W] or later writes nothing before that sector and nothing after
    its last word. *)
Lemma FillSectorsWithRandomData_loop_frame W s0 n :
  7 <= W -> 0 <= s0 ->
  forall i r g d,
    s0 * W <= i -> 4 * (i + Z.of_nat n) <= Z.of_nat (length d) -> length g = 12%nat ->
    length (snd (FillSectorsWithRandomData_loop n true (4 * W) i r g d)) = length d /\
    forall p, 0 <= p -> p < 4 * (s0 * W) \/ 4 * (i + Z.of_nat n) <= p ->
      rd (snd (FillSectorsWithRandomData_loop n true (4 * W) i r g d)) p = rd d p.
Proof.
  intros HW Hs0. induction n as [|n IH]; intros i r g d Hi HN Hg.
  - simpl. auto.
  - simpl FillSectorsWithRandomData_loop.
    assert (Hi0 : 0 <= i) by nia.
    pose proof (FillSectorsWithRandomData_body_length true (4 * W) i r g d) as Hbl.
    rewrite FillSectorsWithRandomData_body_eq in * by exact Hg.
    replace (4 * W / 4) with W in * by (rewrite Z.mul_comm, Z.div_mul; lia).
    destruct Hbl as (Hl1 & Hg1); [lia|lia|lia|exact Hg|].
    cbn [fst snd andb] in Hl1, Hg1 |- *.
    set (c := negb (i mod W =? 0) && (i mod W =? 6)) in *.
    set (e := if c then write_bytes d (4 * (i - 4)) g else d) in *.
    assert (He : length e = length d /\
              forall p, 0 <= p -> p < 4 * (s0 * W) \/ 4 * (i + 1) <= p -> rd e p = rd d p).
    { subst e. destruct c eqn:Hc; [|auto].
      apply andb_prop in Hc as [_ H6]. apply Z.eqb_eq in H6.
      assert (H6' : (i - s0 * W) mod W = 6).
      { replace (i - s0 * W) with (i + (- s0) * W) by lia. now rewrite Z.mod_add by lia. }
      pose proof (mod_six_ge (i - s0 * W) W ltac:(lia) ltac:(lia) H6').
      split; [apply length_write_bytes; lia|].
      intros p Hp Hout. rewrite rd_write_bytes by lia. rewrite Hg.
      destruct (Z.leb_spec (4 * (i - 4)) p), (Z.ltb_spec p (4 * (i - 4) + Z.of_nat 12));
        cbn [andb]; try reflexivity; lia. }
    destruct He as (Hel & Her).
    match goal with
    | |- context [FillSectorsWithRandomData_loop n true (4 * W) (i + 1) ?r1 ?g1 ?d1] =>
        destruct (IH (i + 1) r1 g1 d1 ltac:(lia) ltac:(rewrite Hl1; lia) Hg1)
          as (IH1 & IH2)
    end.
    split; [rewrite IH1; exact Hl1|].
    intros p Hp Hout. rewrite IH2 by lia.
    rewrite rd_wr32 by lia.
    destruct (Z.leb_spec (4 * i) p), (Z.ltb_spec p (4 * i + 4)); cbn [andb];
      try (apply Her; lia); lia.
Qed.

(** In pattern mode, on sectors of at least 28 bytes, a random fill
    changes no byte outside its range. *)
Lemma FillSectorsWithRandomData_frame b r s c :
  wf b -> _usePatternMode b = true -> _bytesPerSector b mod 4 = 0 ->
  28 <= _bytesPerSector b -> valid_sector_range b s c ->
  exists r' d',
    FillSectorsWithRandomData r s c b = (Ok r', set_payload d' b) /\
    forall p, 0 <= p -> p < range_start b s \/ range_end b s c <= p ->
      rd d' p = rd (payload b) p.
Proof.
  intros Hwf Hflag Hmod H28 Hv.
  pose proof (range_bounds b Hwf s c Hv) as (H0 & H1 & H2 & H3).
  pose proof (range_count_pos b s c Hv) as Hcnt.
  pose proof Hwf as (Hsc & Hbps & Ht & Hlen).
  set (sb := range_start b s) in *. set (eb := range_end b s c) in *.
  set (bps := _bytesPerSector b) in *. set (W := bps / 4) in *.
  set (cnt := range_count b s c) in *.
  assert (HbW : bps = 4 * W).
  { pose proof (Z.div_mod bps 4 ltac:(lia)) as Hd. rewrite Hmod in Hd. subst W. lia. }
  assert (HW : 7 <= W) by lia.
  assert (Hsb : sb / 4 = s * W /\ sb = 4 * (s * W)) by (apply sector_words; exact Hmod).
  assert (Heb : eb / 4 = (s + cnt) * W /\ eb = 4 * ((s + cnt) * W))
    by (apply sector_words; exact Hmod).
  destruct Hsb as (Hsb4 & Hsb'), Heb as (Heb4 & Heb').
  assert (Hs : 0 <= s) by (destruct Hv; lia).
  unfold FillSectorsWithRandomData. run_M.
  rewrite (GetStartAndStop_valid b Hwf s c Hv). fold sb eb bps.
  rewrite Hsb4, Heb4, Hflag.
  replace ((s + cnt) * W - s * W) with (cnt * W) by lia.
  set (n := Z.to_nat (cnt * W)).
  set (g0 := [0; 0; 0; 0; 0; 0; 0; 0; 0; 0; 0; 0]).
  pose proof (FillSectorsWithRandomData_loop_frame W s n HW Hs (s * W) r g0 (payload b)
                ltac:(lia) ltac:(subst n; nia) eq_refl) as (Hl1 & Hfr).
  assert (Hloop_eq :
    FillSectorsWithRandomData_loop n true bps (s * W) r g0 (payload b)
    = FillSectorsWithRandomData_loop n true (4 * W) (s * W) r g0 (payload b))
    by (now rewrite <- HbW).
  rewrite Hloop_eq. clear Hloop_eq.
  destruct (FillSectorsWithRandomData_loop n true (4 * W) (s * W) r g0 (payload b))
    as [[r' g'] d1].
  cbn [snd] in Hl1, Hfr. cbv beta iota.
  destruct (FillCompressionInfo_frame (set_payload d1 b) (type_value eRandomPattern)
              0 sb eb) as (d' & Hfci & Hlen' & Hrd');
    [simpl; fold bps; lia | lia | lia | simpl; lia | simpl; lia
    | simpl; fold bps; lia |].
  simpl in Hfci, Hlen', Hrd'. fold bps in Hfci, Hrd'.
  rewrite Hfci.
  exists r', d'. split; [reflexivity|].
  intros p Hp Hout. rewrite Hrd'.
  - apply Hfr; [exact Hp|]. subst n. rewrite Z2Nat.id by nia. lia.
  - exact Hp.
  - intros m Hm Hin. pose proof (Z.mul_nonneg_nonneg m bps Hm ltac:(lia)). lia.
Qed.

(** [FillRandomSeededBySector] in pattern mode: each turn of its loop
    seeds the generator again and fills one sector, which takes the
    snapshot of the generator so seeded; later turns leave it alone. *)
Lemma FillRandomSeededBySector_loop_pattern seed s n : forall i random b,
  wf b -> _usePatternMode b = true -> _bytesPerSector b mod 4 = 0 ->
  28 <= _bytesPerSector b -> 0 <= i -> i + Z.of_nat n <= _sectorCount b ->
  exists d',
    FillRandomSeededBySector_loop n seed s i random b = (Ok tt, set_payload d' b) /\
    length d' = length (payload b) /\
    (forall k, i <= k < i + Z.of_nat n ->
       (forall j, 0 <= j < 12 ->
          rd d' (k * _bytesPerSector b + 8 + j)
          = rd (snapshot (Random32_seeded (wrap32 (seed + k - s)))) j) /\
       rd d' (k * _bytesPerSector b + 20) = type_and_length eRandomPattern 0) /\
    (forall p, 0 <= p ->
       p < i * _bytesPerSector b \/ (i + Z.of_nat n) * _bytesPerSector b <= p ->
       rd d' p = rd (payload b) p).
Proof.
  induction n as [|n IH]; intros i random b Hwf Hflag Hmod H28 Hi Hfit.
  - exists (payload b). cbn [FillRandomSeededBySector_loop]. unfold ret.
    split; [destruct b; reflexivity|]. split; [reflexivity|].
    split; [intros k Hk; lia|reflexivity].
  - pose proof Hwf as (Hsc & Hbps & Ht & Hlen).
    assert (Hv : valid_sector_range b i 1) by (unfold valid_sector_range; lia).
    cbn [FillRandomSeededBySector_loop]. unfold bind.
    destruct (FillSectorsWithRandomData_snapshot b
                (Seed (wrap32 (seed + i - s)) random) i 1 Hwf Hflag Hmod H28 Hv)
      as (r1 & d1 & Hrun & Hl1 & Hsnap).
    destruct (FillSectorsWithRandomData_frame b
                (Seed (wrap32 (seed + i - s)) random) i 1 Hwf Hflag Hmod H28 Hv)
      as (r2 & d2 & Hrun2 & Hfr).
    rewrite Hrun in Hrun2. injection Hrun2 as Hr12 Hd12. subst r2 d2.
    rewrite Hrun.
    assert (Hwf1 : wf (set_payload d1 b)) by (apply wf_set_payload; assumption).
    destruct (IH (i + 1) r1 (set_payload d1 b) Hwf1 Hflag Hmod H28 ltac:(lia)
                ltac:(cbn [set_payload _sectorCount]; lia))
      as (d' & Hloop & Hl' & Hrec & Hfr').
    rewrite Hloop.
    exists d'. split; [reflexivity|].
    cbn [set_payload payload _bytesPerSector] in Hl', Hrec, Hfr'.
    split; [congruence|].
    set (bps := _bytesPerSector b) in *.
    assert (Hrs : range_start b i = i * bps) by reflexivity.
    assert (Hre : range_end b i 1 = (i + 1) * bps) by reflexivity.
    rewrite Hrs in Hsnap, Hfr. rewrite Hre in Hfr.
    assert (Hib : 0 <= i * bps) by (apply Z.mul_nonneg_nonneg; lia).
    split.
    + intros k Hk. destruct (Z.eq_dec k i) as [->|Hne].
      * destruct (Hsnap 0 ltac:(unfold range_count; simpl; lia)) as (Hs0 & Ht0).
        rewrite Z.mul_0_l, Z.add_0_r in Hs0, Ht0. simpl Z.to_nat in Hs0.
        cbn [Next_times] in Hs0.
        split.
        -- intros j Hj. rewrite Hfr' by lia. exact (Hs0 j Hj).
        -- rewrite Hfr' by lia. exact Ht0.
      * apply Hrec. lia.
    + intros p Hp Hout.
      replace ((i + Z.of_nat (S n)) * bps) with ((i + 1 + Z.of_nat n) * bps) in Hout by lia.
      assert ((i + 1) * bps <= (i + 1 + Z.of_nat n) * bps)
        by (apply Z.mul_le_mono_nonneg_r; lia).
      rewrite Hfr' by lia. apply Hfr; lia.
Qed.

(** [FillRandomSeededBySector] in pattern mode, on sectors of at least 28
    bytes: sector [k] of the range holds at sector offsets 8 to 19 the
    snapshot of a generator seeded with [seed + k] modulo 2^32, and at
    sector offset 20 the type and length byte of a random pattern. *)
Lemma FillRandomSeededBySector_snapshot b seed s c :
  wf b -> _usePatternMode b = true -> _bytesPerSector b mod 4 = 0 ->
  28 <= _bytesPerSector b -> valid_sector_range b s c ->
  exists b',
    FillRandomSeededBySector seed s c b = (Ok tt, b') /\
    length (payload b') = length (payload b) /\
    (forall k, 0 <= k < range_count b s c ->
       (forall j, 0 <= j < 12 ->
          rd (payload b') (range_start b s + k * _bytesPerSector b + 8 + j)
          = rd (snapshot (Random32_seeded (wrap32 (seed + k)))) j) /\
       rd (payload b') (range_start b s + k * _bytesPerSector b + 20)
       = type_and_length eRandomPattern 0) /\
    (forall p, 0 <= p -> p < range_start b s \/ range_end b s c <= p ->
       rd (payload b') p = rd (payload b) p).
Proof.
  intros Hwf Hflag Hmod H28 Hv.
  pose proof (range_bounds b Hwf s c Hv) as (H0 & H1 & H2 & H3).
  pose proof (range_count_pos b s c Hv) as Hcnt.
  pose proof (range_count_le b s c Hv) as Hcle.
  pose proof Hwf as (Hsc & Hbps & Ht & Hlen).
  assert (Hs : 0 <= s) by (destruct Hv; lia).
  assert (Hsc63 : _sectorCount b < 2 ^ 63) by (unfold total in Ht; nia).
  set (n := range_count b s c) in *.
  unfold FillRandomSeededBySector.
  unfold bind at 1. unfold get at 1. cbv beta iota.
  unfold GetBytesPerSector. rewrite Hmod.
  change (negb (0 =? 0)) with false. cbv beta iota.
  unfold bind at 1. unfold check at 1.
  rewrite (ValidateSectorRange_valid b Hwf s c Hv). fold n. cbv beta iota.
  rewrite !(wrap64_small (s + n)) by lia.
  assert (Hmax : ValidateCounterMax (s + n) = Ok tt).
  { unfold ValidateCounterMax, LLONG_MAX.
    destruct (Z.gtb_spec (s + n) (2 ^ 63 - 1)); [lia|reflexivity]. }
  unfold bind at 1. unfold check at 1. rewrite Hmax. cbv beta iota.
  destruct (GetRandom_eq true seed 0 b) as (r & Hget & _).
  unfold bind at 1. rewrite Hget. cbv beta iota.
  unfold bind at 1. unfold check at 1. cbv beta iota.
  replace (s + n - s) with n by lia.
  set (b1 := set_random (Some r) b).
  destruct (FillRandomSeededBySector_loop_pattern seed s (Z.to_nat n) s
              (Random32_copy r) b1 (wf_set_random b _ Hwf) Hflag Hmod H28 Hs
              ltac:(cbn [b1 set_random _sectorCount]; lia))
    as (d' & Hloop & Hl' & Hrec & Hfr).
  rewrite Hloop. exists (set_payload d' b1). split; [reflexivity|].
  cbn [b1 set_random set_payload payload _bytesPerSector] in Hl', Hrec, Hfr |- *.
  rewrite Z2Nat.id in Hrec, Hfr by lia.
  set (bps := _bytesPerSector b) in *.
  unfold range_start, range_end in *. fold bps n in H0, H1, H2, H3 |- *.
  split; [exact Hl'|]. split.
  - intros k Hk. destruct (Hrec (s + k) ltac:(lia)) as (Hs' & Ht').
    replace ((s + k) * bps) with (s * bps + k * bps) in Hs', Ht' by lia.
    replace (seed + (s + k) - s) with (seed + k) in Hs' by lia.
    split; [exact Hs'|exact Ht'].
  - intros p Hp Hout. apply Hfr; [exact Hp|]. lia.
Qed.

(** ** The theorems on sample objects *)

Ltac side :=
  first [ unfold range_count, range_end, range_start; simpl; lia
        | vm_compute; repeat split; first [discriminate | reflexivity] ].

Lemma valid_whole_sample_pattern : valid_sector_range sample_pattern 0 0.
Proof. unfold valid_sector_range. simpl. lia. Qed.

Lemma valid_whole_sample_plain : valid_sector_range sample_plain 0 0.
Proof. unfold valid_sector_range. simpl. lia. Qed.

(** C1 as stated fails on [Buffer(1, 32)]-sized sectors in pattern mode:
    after [FillIncrementing(0)] the type and length byte 0x11 is at sector
    offset 20 and offset S - 1 = 31 holds 31; after [FillRandomSeeded(16)]
    the snapshot of the generator is at offsets 8 to 19 and not at offsets
    S - 13 = 19 to 30. *)
Lemma compression_record_not_at_sector_end :
  (exists b',
     FillIncrementing 0 0 0 sample_pattern = (Ok tt, b') /\
     rd (payload b') 20 = type_and_length eIncrementingPattern 1 /\
     rd (payload b') (32 - 1) = 31 /\
     rd (payload b') (32 - 1) <> type_and_length eIncrementingPattern 1) /\
  (exists b',
     FillRandomSeeded 16 0 0 sample_pattern = (Ok tt, b') /\
     take 12 (drop 8 (payload b')) = snapshot (Random32_seeded 16) /\
     take 12 (drop (32 - 13) (payload b')) <> snapshot (Random32_seeded 16)).
Proof.
  split.
  - eexists. split; [vm_compute; reflexivity|].
    split; [vm_compute; reflexivity|]. split; [vm_compute; reflexivity|].
    vm_compute. discriminate.
  - eexists. split; [vm_compute; reflexivity|].
    split; [vm_compute; reflexivity|]. vm_compute. discriminate.
Qed.

(** C2 on [Buffer(2, 32)] in pattern mode: [FillOnes] and [FillZeros]. *)
Lemma fixed_fill_type_byte_witness :
  wf sample_pattern /\ _usePatternMode sample_pattern = true /\
  21 <= _bytesPerSector sample_pattern /\ valid_sector_range sample_pattern 0 0 /\
  (exists b',
     Fill 255 0 0 sample_pattern = (Ok tt, b') /\
     rd (payload b') 20 = 1 /\ rd (payload b') (32 + 20) = 1) /\
  (exists b',
     Fill 0 0 0 sample_pattern = (Ok tt, b') /\
     rd (payload b') 20 = 0 /\ rd (payload b') (32 + 20) = 0).
Proof.
  assert (H21 : 21 <= _bytesPerSector sample_pattern) by (simpl; lia).
  split; [exact wf_sample_pattern|]. split; [reflexivity|]. split; [exact H21|].
  split; [exact valid_whole_sample_pattern|].
  destruct (fixed_fill_type_byte sample_pattern 0 0 (PFill 255) wf_sample_pattern eq_refl
              H21 valid_whole_sample_pattern I eq_refl ltac:(side))
    as (b1 & Hrun1 & _ & Hk1).
  destruct (fixed_fill_type_byte sample_pattern 0 0 (PFill 0) wf_sample_pattern eq_refl
              H21 valid_whole_sample_pattern I eq_refl ltac:(side))
    as (b0 & Hrun0 & _ & Hk0).
  split.
  - exists b1. split; [exact Hrun1|].
    split; [exact (Hk1 0 ltac:(side))|exact (Hk1 1 ltac:(side))].
  - exists b0. split; [exact Hrun0|].
    split; [exact (Hk0 0 ltac:(side))|exact (Hk0 1 ltac:(side))].
Defined.

(** C2 as stated fails for [FillBytes] on [Buffer(2, 32)] in pattern mode.
    With the pattern [0; 7; 7; 7; 7] the second sector starts with 7, yet
    its byte at offset 20 is not the type and length byte 0x05: it keeps
    the 7 of the fill. With [7; 0; 0; 0; 0] the second sector starts with
    0, yet its byte at offset 20 is the type and length byte. *)
Lemma type_byte_follows_first_byte_of_range :
  (exists b',
     FillBytes [0; 7; 7; 7; 7] 0 0 sample_pattern = (Ok tt, b') /\
     rd (payload b') 32 = 7 /\
     rd (payload b') (32 + 20) = 7 /\
     rd (payload b') (32 + 20) <> type_and_length eFixPattern 5) /\
  (exists b',
     FillBytes [7; 0; 0; 0; 0] 0 0 sample_pattern = (Ok tt, b') /\
     rd (payload b') 32 = 0 /\
     rd (payload b') (32 + 20) = type_and_length eFixPattern 5 /\
     rd (payload (snd (FillBytes [7; 0; 0; 0; 0] 0 0 sample_plain))) (32 + 20) = 0).
Proof.
  split.
  - eexists. split; [vm_compute; reflexivity|].
    split; [vm_compute; reflexivity|]. split; [vm_compute; reflexivity|].
    vm_compute. discriminate.
  - eexists. split; [vm_compute; reflexivity|].
    split; [vm_compute; reflexivity|]. split; vm_compute; reflexivity.
Qed.

(** C3 on [Buffer(2, 32)] without pattern mode: [FillIncrementing(250)]. *)
Lemma FillIncrementing_repeats_witness :
  wf sample_plain /\ valid_sector_range sample_plain 0 0 /\ 0 <= 250 < 256 /\
  exists b',
    FillIncrementing 250 0 0 sample_plain = (Ok tt, b') /\
    rd (payload b') 6 = 0 /\ rd (payload b') (32 + 6) = rd (payload b') 6.
Proof.
  split; [exact wf_sample_plain|]. split; [exact valid_whole_sample_plain|].
  split; [lia|].
  destruct (FillIncrementing_repeats sample_plain 250 0 0 wf_sample_plain
              valid_whole_sample_plain ltac:(lia))
    as (b' & Hrun & _ & _ & Hrep & Hseq & _).
  exists b'. split; [exact Hrun|]. split.
  - exact (Hseq eq_refl 6 ltac:(side)).
  - exact (Hrep ltac:(discriminate) 38 ltac:(side)).
Defined.

(** C3 as stated fails in pattern mode: after [FillIncrementing(0)] on
    [Buffer(2, 32)] byte 8 of the first sector is 0 and byte 20 is 0x11,
    not 8 and 20. On [Buffer(3, 16)] the repetition fails too: byte 20,
    in the second sector, is 0x11 and byte 4 of the first sector is 4. *)
Lemma FillIncrementing_pattern_mode_first_sector :
  (exists b',
     FillIncrementing 0 0 0 sample_pattern = (Ok tt, b') /\
     rd (payload b') 8 = 0 /\ rd (payload b') 8 <> wrap8 (0 + 8) /\
     rd (payload b') 20 = 17 /\ rd (payload b') 20 <> wrap8 (0 + 20)) /\
  (exists b',
     FillIncrementing 0 0 0 sample_pattern_small = (Ok tt, b') /\
     rd (payload b') (16 + 4) = 17 /\ rd (payload b') (4 mod 16) = 4 /\
     rd (payload b') (16 + 4) <> rd (payload b') (4 mod 16)).
Proof.
  split.
  - eexists. split; [vm_compute; reflexivity|].
    split; [vm_compute; reflexivity|]. split; [vm_compute; discriminate|].
    split; [vm_compute; reflexivity|]. vm_compute. discriminate.
  - eexists. split; [vm_compute; reflexivity|].
    split; [vm_compute; reflexivity|]. split; [vm_compute; reflexivity|].
    vm_compute. discriminate.
Qed.

(** C4 on two [Buffer(2, 32)] with seed 12345. *)
Lemma FillRandomSeeded_deterministic_witness :
  wf sample_plain /\ _bytesPerSector sample_plain mod 4 = 0 /\
  exists b1' b2',
    FillRandomSeeded 12345 0 0 sample_plain = (Ok tt, b1') /\
    FillRandomSeeded 12345 0 0 sample_plain = (Ok tt, b2') /\
    payload b1' = payload b2' /\
    CompareTo b2' 0 0 0 b1' = Ok CompareResult_equal.
Proof.
  split; [exact wf_sample_plain|]. split; [reflexivity|].
  exact (proj1 (FillRandomSeeded_deterministic 12345 sample_plain sample_plain
                  wf_sample_plain wf_sample_plain eq_refl eq_refl eq_refl eq_refl)).
Defined.

(** C4 as stated fails twice on [Buffer(2, 32)]. The seeds 16 and 17 give
    the same payload: the generator ignores the low bit of such a seed.
    And two buffers of the same sector count and sector size, one in
    pattern mode, hold different payloads after the same seeded fill. *)
Lemma seeded_fill_counterexamples :
  (exists x y,
     FillRandomSeeded 16 0 0 sample_plain = (Ok tt, x) /\
     FillRandomSeeded 17 0 0 sample_plain = (Ok tt, y) /\
     16 <> 17 /\ payload x = payload y /\
     CompareTo y 0 0 0 x = Ok CompareResult_equal) /\
  (exists x y,
     _sectorCount sample_plain = _sectorCount sample_pattern /\
     _bytesPerSector sample_plain = _bytesPerSector sample_pattern /\
     FillRandomSeeded 16 0 0 sample_plain = (Ok tt, x) /\
     FillRandomSeeded 16 0 0 sample_pattern = (Ok tt, y) /\
     payload x <> payload y /\
     CompareTo y 0 0 0 x = Ok (CompareResult_unequal 8 48 16)).
Proof.
  split.
  - eexists _, _. split; [vm_compute; reflexivity|].
    split; [vm_compute; reflexivity|]. split; [discriminate|].
    split; vm_compute; reflexivity.
  - eexists _, _. split; [reflexivity|]. split; [reflexivity|].
    split; [vm_compute; reflexivity|]. split; [vm_compute; reflexivity|].
    split; [vm_compute; discriminate|vm_compute; reflexivity].
Qed.

(** C5 on a buffer of 2 sectors of 8 bytes against [Buffer(2, 32)]. *)
Lemma CompareTo_first_difference_witness :
  wf sample_named /\ wf sample_plain /\
  valid_compare_range sample_named sample_plain 0 0 0 /\
  exists r,
    CompareTo sample_plain 0 0 0 sample_named = Ok r /\
    _areEqual r = false /\ _firstDifferenceOffset r = 0 /\
    _expectedValue r = 1 /\ _actualValue r = 0.
Proof.
  assert (Hv : valid_compare_range sample_named sample_plain 0 0 0).
  { unfold valid_compare_range, valid_sector_range. simpl. lia. }
  split; [exact wf_sample_named|]. split; [exact wf_sample_plain|]. split; [exact Hv|].
  destruct (CompareTo_first_difference sample_named sample_plain 0 0 0
              wf_sample_named wf_sample_plain Hv) as (r & Hr & _ & _ & _).
  exists r. split; [exact Hr|].
  assert (Hc : CompareTo sample_plain 0 0 0 sample_named
               = Ok (CompareResult_unequal 0 1 0)) by (vm_compute; reflexivity).
  rewrite Hc in Hr. inversion Hr. repeat split.
Defined.

(** C6 on [Buffer(1, 513)] and [Buffer(2, 32)]. *)
Lemma random_fill_sector_size_witness :
  _bytesPerSector sample_odd mod 4 <> 0 /\ wf sample_plain /\
  _bytesPerSector sample_plain mod 4 = 0 /\ valid_sector_range sample_plain 1 1 /\
  FillRandom 0 0 99 sample_odd = (Throw RuntimeError, sample_odd) /\
  FillRandomSeeded 5 0 0 sample_odd = (Throw RuntimeError, sample_odd) /\
  FillRandomSeededBySector 5 0 0 sample_odd = (Throw RuntimeError, sample_odd) /\
  exists b1 b2 b3,
    FillRandom 1 1 99 sample_plain = (Ok tt, b1) /\
    FillRandomSeeded 5 1 1 sample_plain = (Ok tt, b2) /\
    FillRandomSeededBySector 5 1 1 sample_plain = (Ok tt, b3).
Proof.
  assert (Hodd : _bytesPerSector sample_odd mod 4 <> 0) by (vm_compute; discriminate).
  assert (Hv : valid_sector_range sample_plain 1 1)
    by (unfold valid_sector_range; simpl; lia).
  destruct (random_fill_sector_size sample_odd sample_plain 0 0 1 1 5 99
              Hodd wf_sample_plain eq_refl Hv) as ((H1 & H2 & H3) & Hok).
  split; [exact Hodd|]. split; [exact wf_sample_plain|]. split; [reflexivity|].
  split; [exact Hv|]. split; [exact H1|]. split; [exact H2|]. split; [exact H3|exact Hok].
Defined.

Lemma sample_alloc_fits n : 0 <= n < 2 ^ 63 -> alloc_fits sample_alloc n.
Proof. intros H. unfold alloc_fits. simpl. lia. Qed.

(** C7 on a buffer of 2 sectors of 8 bytes resized to 3 sectors of 8. *)
Lemma Resize_preserves_prefix_witness :
  wf sample_named /\ alloc_fits sample_alloc (3 * 8 + 12286) /\
  exists b',
    Resize None sample_alloc 3 8 sample_named = (Ok tt, b') /\
    rd (payload b') 15 = 16 /\ rd (payload b') 16 = 0 /\ rd (payload b') 23 = 0 /\
    _random b' = None.
Proof.
  assert (Hfit : alloc_fits sample_alloc (3 * 8 + 12286)) by (apply sample_alloc_fits; lia).
  split; [exact wf_sample_named|]. split; [exact Hfit|].
  destruct (Resize_preserves_prefix None sample_alloc 3 8 sample_named wf_sample_named
              ltac:(lia) ltac:(lia) ltac:(lia) Hfit)
    as (b' & Hrun & _ & _ & _ & Hkeep & Hzero & Hrand).
  exists b'. split; [exact Hrun|].
  split; [exact (Hkeep 15 ltac:(side))|].
  split; [exact (Hzero 16 ltac:(side))|].
  split; [exact (Hzero 23 ltac:(side))|exact Hrand].
Defined.

Lemma wf_alloc_sample_named : wf_alloc sample_named.
Proof. unfold wf_alloc, total. simpl. lia. Qed.

(** C8 on a buffer named [A] that owns a generator. *)
Lemma Buffer_copy_fields_witness :
  wf sample_named /\ wf_alloc sample_named /\
  alloc_fits sample_alloc (_allocatedByteCount sample_named) /\
  exists c,
    Buffer_copy sample_alloc sample_named = Ok c /\
    payload c = payload sample_named /\ _random c = _random sample_named /\
    _sectorCount c = 2 /\ _bytesPerSector c = 8 /\ _usePatternMode c = false /\
    _name c = EmptyString.
Proof.
  assert (Hfit : alloc_fits sample_alloc (_allocatedByteCount sample_named))
    by (apply sample_alloc_fits; simpl; lia).
  split; [exact wf_sample_named|]. split; [exact wf_alloc_sample_named|].
  split; [exact Hfit|].
  exact (Buffer_copy_fields sample_alloc sample_named wf_sample_named
           wf_alloc_sample_named Hfit).
Defined.

(** C8 as stated fails: the copy of a buffer named [A] has the empty
    name. *)
Lemma Buffer_copy_drops_name :
  exists c,
    Buffer_copy sample_alloc sample_named = Ok c /\
    _name sample_named = "A"%string /\ _name c = EmptyString /\
    _name c <> _name sample_named.
Proof.
  eexists. split; [vm_compute; reflexivity|]. split; [reflexivity|].
  split; [reflexivity|]. discriminate.
Qed.

(** C9 on [Buffer(2, 32)] built with the variable unset: fills and a store
    keep the flag, a resize while the variable is [1] sets it; a copy of a
    buffer in pattern mode is in pattern mode. *)
Lemma pattern_mode_lifetime_witness :
  Buffer_new None sample_alloc 2 32 = Ok sample_plain /\
  _usePatternMode sample_plain = false /\
  _usePatternMode
    (run_ops [OpFill 1 0 0; OpSetQWord 8 7; OpFillAddressOverlay 0 0 0;
              OpFillRandomSeeded 3 0 0] sample_plain) = false /\
  _usePatternMode
    (run_ops [OpFill 1 0 0; OpResize (Some "1"%string) sample_alloc 2 32] sample_plain)
  = true /\
  exists c, Buffer_copy sample_alloc sample_pattern = Ok c /\ _usePatternMode c = true.
Proof.
  assert (Hnew : Buffer_new None sample_alloc 2 32 = Ok sample_plain)
    by (vm_compute; reflexivity).
  split; [exact Hnew|].
  destruct (pattern_mode_lifetime None sample_alloc 2 32 sample_plain
              [OpFill 1 0 0; OpSetQWord 8 7; OpFillAddressOverlay 0 0 0;
               OpFillRandomSeeded 3 0 0])
    as (H0 & _ & _ & _ & _ & Hno & _).
  destruct (pattern_mode_lifetime None sample_alloc 2 32 sample_plain
              [OpFill 1 0 0; OpResize (Some "1"%string) sample_alloc 2 32])
    as (_ & _ & _ & _ & Hafter & _).
  destruct (pattern_mode_lifetime None sample_alloc 2 32 sample_pattern [])
    as (_ & _ & _ & Hcopy & _).
  split; [exact (H0 _ Hnew)|]. split; [exact (Hno eq_refl)|]. split; [exact Hafter|].
  destruct (Buffer_copy sample_alloc sample_pattern) as [c| |] eqn:E;
    [|vm_compute in E; discriminate..].
  exists c. split; [reflexivity|exact (Hcopy c eq_refl)].
Defined.

(** C9 as stated fails: a buffer built with the variable unset is in
    pattern mode after a resize made while the variable holds [1]; the
    resize read the environment again and changed the flag. And a copy of
    a buffer in pattern mode is in pattern mode whatever the variable
    holds when the copy is made: the copy constructor does not read it. *)
Lemma Resize_rereads_environment :
  (exists b b',
     Buffer_new None sample_alloc 2 32 = Ok b /\
     _usePatternMode b = pattern_mode_of None /\
     Resize (Some "1"%string) sample_alloc 2 32 b = (Ok tt, b') /\
     _usePatternMode b' = true /\
     _usePatternMode b' <> _usePatternMode b /\
     _usePatternMode b' <> pattern_mode_of None) /\
  (exists b c,
     Buffer_new (Some "1"%string) sample_alloc 2 32 = Ok b /\
     Buffer_copy sample_alloc b = Ok c /\
     _usePatternMode c = true /\
     _usePatternMode c <> pattern_mode_of None).
Proof.
  split.
  - eexists _, _. split; [vm_compute; reflexivity|]. split; [reflexivity|].
    split; [vm_compute; reflexivity|]. split; [reflexivity|].
    split; discriminate.
  - eexists _, _. split; [vm_compute; reflexivity|].
    split; [vm_compute; reflexivity|]. split; [reflexivity|]. discriminate.
Qed.

(** The modelled generator meets the validation value that Boost
    publishes for [taus88]: the 10000th output of the generator seeded
    with the default seed 341 is 3535848941. *)
Lemma taus88_validation :
  fst (Next (Next_times (Z.to_nat 9999) (Random32_seeded 341))) = 3535848941.
Proof. vm_compute. reflexivity. Qed.

(** ** Inspection of the payload *)

Lemma ValidateByteRange_valid b off len :
  wf b -> valid_byte_range b off len ->
  ValidateByteRangeAndGetLength off len b = Ok (byte_range_length b off len).
Proof.
  intros Hwf (Hoff & Hlen & Hsum).
  pose proof (GetTotalBytes_wf b Hwf) as Ht.
  destruct Hwf as (H1 & H2 & H3 & H4).
  unfold ValidateByteRangeAndGetLength, byte_range_length. rewrite Ht.
  destruct (Z.eqb_spec len 0) as [->|Hne].
  - rewrite (wrap64_small (total b - off)) by lia.
    destruct (Z.geb_spec off (total b)); [lia|].
    rewrite wrap64_small by lia.
    destruct (Z.gtb_spec (off + (total b - off)) (total b)); [lia|reflexivity].
  - destruct (Z.geb_spec off (total b)); [lia|].
    rewrite wrap64_small by lia.
    destruct (Z.gtb_spec (off + len) (total b)); [lia|reflexivity].
Qed.

Lemma byte_range_bounds b off len :
  valid_byte_range b off len ->
  1 <= byte_range_length b off len /\ off + byte_range_length b off len <= total b.
Proof.
  intros (Hoff & Hlen & Hsum). unfold byte_range_length.
  destruct (Z.eqb_spec len 0); lia.
Qed.

(** X1. [IsAllZeros] returns [true] exactly when every payload byte is 0. *)
Theorem IsAllZeros_iff b :
  wf b ->
  IsAllZeros b = true <-> (forall i, 0 <= i < total b -> rd (payload b) i = 0).
Proof.
  intros Hwf. pose proof (GetTotalBytes_wf b Hwf) as Ht.
  pose proof (wf_total_nonneg b Hwf) as Hpos.
  destruct Hwf as (H1 & H2 & H3 & H4).
  unfold IsAllZeros. rewrite Ht, wrap64_small by lia.
  destruct (Z.eqb_spec (rd (payload b) 0) 0) as [H0|H0].
  - rewrite Z.eqb_eq, memcmp_zero_iff. rewrite Z2Nat.id by lia. split.
    + intros Hstep i Hi.
      assert (Hall : forall k : nat, Z.of_nat k < total b -> rd (payload b) (Z.of_nat k) = 0).
      { induction k as [|k IH]; intros Hk; [exact H0|].
        rewrite Nat2Z.inj_succ. unfold Z.succ.
        replace (Z.of_nat k + 1) with (1 + Z.of_nat k) by lia.
        rewrite <- Hstep by lia. simpl. apply IH. lia. }
      rewrite <- (Z2Nat.id i) by lia. apply Hall. lia.
    + intros Hall i Hi. rewrite !Hall by lia. reflexivity.
  - split; [discriminate|]. intros Hall. exfalso. apply H0. apply Hall. lia.
Qed.

Lemma IsAllZeros_iff_witness :
  wf sample_plain /\
  (IsAllZeros sample_plain = true <->
   forall i, 0 <= i < total sample_plain -> rd (payload sample_plain) i = 0).
Proof.
  split; [exact wf_sample_plain|exact (IsAllZeros_iff sample_plain wf_sample_plain)].
Defined.

Lemma CalculateChecksumByte_loop_sum n : forall i r d,
  0 <= r < 256 ->
  CalculateChecksumByte_loop n i r d = wrap8 (r + sum_bytes d i n).
Proof.
  induction n as [|n IH]; intros i r d Hr; simpl.
  - unfold wrap8. rewrite Z.add_0_r, Z.mod_small by lia. reflexivity.
  - rewrite IH by (unfold wrap8; apply Z.mod_pos_bound; lia).
    unfold wrap8. rewrite Z.add_mod_idemp_l by lia. f_equal. lia.
Qed.

Lemma sum_bytes_ext n : forall d1 d2 i,
  (forall k, i <= k < i + Z.of_nat n -> rd d1 k = rd d2 k) ->
  sum_bytes d1 i n = sum_bytes d2 i n.
Proof.
  induction n as [|n IH]; intros d1 d2 i H; simpl; [reflexivity|].
  rewrite H by lia. f_equal. apply IH. intros k Hk. apply H. lia.
Qed.

Lemma sum_bytes_snoc n : forall d i,
  sum_bytes d i (S n) = sum_bytes d i n + rd d (i + Z.of_nat n).
Proof.
  induction n as [|n IH]; intros d i.
  - simpl. rewrite !Z.add_0_r. lia.
  - change (sum_bytes d i (S (S n))) with (rd d i + sum_bytes d (i + 1) (S n)).
    rewrite IH. simpl sum_bytes. rewrite Nat2Z.inj_succ.
    replace (i + 1 + Z.of_nat n) with (i + Z.succ (Z.of_nat n)) by lia. lia.
Qed.

Lemma wrap8_lnot r : wrap8 (Z.lnot (wrap8 r) + 1) = wrap8 (- r).
Proof.
  unfold wrap8, Z.lnot. change (2 ^ 8) with 256.
  pose proof (Z.div_mod r 256 ltac:(lia)) as H.
  replace (Z.pred (- (r mod 256)) + 1) with (- r + (r / 256) * 256) by lia.
  apply Z.mod_add. lia.
Qed.

Lemma CalculateChecksumByte_ok b startByte byteCount :
  wf b -> 0 <= startByte -> 1 <= byteCount -> startByte + byteCount <= total b ->
  CalculateChecksumByte startByte byteCount b
  = Ok (wrap8 (- sum_bytes (payload b) startByte (Z.to_nat byteCount))).
Proof.
  intros Hwf Hs Hc Hfit. pose proof (GetTotalBytes_wf b Hwf) as Ht.
  destruct Hwf as (H1 & H2 & H3 & H4).
  unfold CalculateChecksumByte. rewrite Ht.
  destruct (Z.eqb_spec byteCount 0); [lia|].
  rewrite wrap64_small by lia.
  destruct (Z.gtb_spec (startByte + byteCount) (total b)); [lia|].
  replace (startByte + byteCount - startByte) with byteCount by lia.
  rewrite CalculateChecksumByte_loop_sum by lia. rewrite Z.add_0_l.
  f_equal. apply wrap8_lnot.
Qed.

(** X2. On a range inside the payload [CalculateChecksumByte] returns a
    byte that makes the sum of the bytes of the range plus the checksum a
    multiple of 256. *)
Theorem CalculateChecksumByte_sum b startByte byteCount :
  wf b -> 0 <= startByte -> 1 <= byteCount -> startByte + byteCount <= total b ->
  exists cs,
    CalculateChecksumByte startByte byteCount b = Ok cs /\
    0 <= cs < 256 /\
    (sum_bytes (payload b) startByte (Z.to_nat byteCount) + cs) mod 256 = 0.
Proof.
  intros Hwf Hs Hc Hfit.
  rewrite (CalculateChecksumByte_ok b startByte byteCount Hwf Hs Hc Hfit).
  eexists. split; [reflexivity|]. unfold wrap8.
  split; [apply Z.mod_pos_bound; lia|].
  change (2 ^ 8) with 256. rewrite Z.add_mod_idemp_r by lia.
  rewrite Z.add_opp_diag_r. reflexivity.
Qed.

Lemma CalculateChecksumByte_sum_witness :
  wf sample_named /\
  exists cs,
    CalculateChecksumByte 0 16 sample_named = Ok cs /\ 0 <= cs < 256 /\
    (sum_bytes (payload sample_named) 0 16 + cs) mod 256 = 0.
Proof.
  split; [exact wf_sample_named|].
  exact (CalculateChecksumByte_sum sample_named 0 16 wf_sample_named
           ltac:(lia) ltac:(lia) ltac:(vm_compute; discriminate)).
Defined.

Lemma CalculateChecksumByte_out_of_range b startByte byteCount :
  wf b -> 0 <= startByte -> 1 <= byteCount -> startByte + byteCount < 2 ^ 64 ->
  total b < startByte + byteCount ->
  CalculateChecksumByte startByte 0 b = Throw InvalidArgumentError /\
  CalculateChecksumByte startByte byteCount b = Throw OutOfRangeError.
Proof.
  intros Hwf Hs Hc Hno Hout. pose proof (GetTotalBytes_wf b Hwf) as Ht.
  split; [reflexivity|].
  unfold CalculateChecksumByte. rewrite Ht.
  destruct (Z.eqb_spec byteCount 0); [lia|].
  rewrite wrap64_small by lia.
  destruct (Z.gtb_spec (startByte + byteCount) (total b)); [reflexivity|lia].
Qed.


(** X4. The use the source documents: once the checksum of the first [n]
    bytes is stored in byte [n], the checksum of the first [n + 1] bytes
    is 0. *)
Theorem checksum_then_SetByte b n :
  wf b -> 1 <= n < total b ->
  exists cs b',
    CalculateChecksumByte 0 n b = Ok cs /\
    SetByte n cs b = (Ok tt, b') /\
    CalculateChecksumByte 0 (n + 1) b' = Ok 0.
Proof.
  intros Hwf Hn. pose proof (GetTotalBytes_wf b Hwf) as Ht.
  pose proof Hwf as (H1 & H2 & H3 & H4).
  rewrite (CalculateChecksumByte_ok b 0 n Hwf) by lia.
  eexists _, _. split; [reflexivity|].
  unfold SetByte, ValidateIndex. run_M. rewrite Ht.
  destruct (Z.geb_spec n (total b)); [lia|]. split; [reflexivity|].
  set (cs := wrap8 (- sum_bytes (payload b) 0 (Z.to_nat n))).
  set (b' := set_payload (wr (payload b) n cs) b).
  assert (Hwf' : wf b').
  { unfold wf, b', total. simpl. rewrite length_wr. exact Hwf. }
  rewrite (CalculateChecksumByte_ok b' 0 (n + 1) Hwf') by (unfold b', total; simpl; unfold total in *; lia).
  f_equal. replace (Z.to_nat (n + 1)) with (S (Z.to_nat n)) by lia.
  rewrite sum_bytes_snoc. unfold b'. simpl payload.
  rewrite Z2Nat.id by lia. rewrite Z.add_0_l, rd_wr_eq by lia.
  rewrite (sum_bytes_ext (Z.to_nat n) (wr (payload b) n cs) (payload b) 0).
  2:{ intros k Hk. apply rd_wr_ne; lia. }
  unfold cs, wrap8. change (2 ^ 8) with 256.
  rewrite Z.opp_add_distr.
  set (S := sum_bytes (payload b) 0 (Z.to_nat n)).
  pose proof (Z.div_mod (- S) 256 ltac:(lia)) as Hdm.
  pose proof (Z.mod_pos_bound (- S) 256 ltac:(lia)) as Hb.
  replace (- S + - ((- S) mod 256)) with ((- S / 256) * 256) by lia.
  rewrite Z.mod_mul by lia. reflexivity.
Qed.

Lemma checksum_then_SetByte_witness :
  1 <= 15 < total sample_named /\
  exists cs b',
    CalculateChecksumByte 0 15 sample_named = Ok cs /\
    SetByte 15 cs sample_named = (Ok tt, b') /\
    CalculateChecksumByte 0 (15 + 1) b' = Ok 0.
Proof.
  assert (H : 1 <= 15 < total sample_named) by (vm_compute; split; [discriminate|reflexivity]).
  split; [exact H|exact (checksum_then_SetByte sample_named 15 wf_sample_named H)].
Defined.

Lemma CalculateChecksumByte_wrapped b startByte byteCount :
  wf b -> 0 <= startByte < 2 ^ 64 -> 1 <= byteCount < 2 ^ 64 ->
  2 ^ 64 <= startByte + byteCount -> startByte + byteCount - 2 ^ 64 <= total b ->
  CalculateChecksumByte startByte byteCount b = Ok 0.
Proof.
  intros Hwf Hs Hc Hwrap Hin. pose proof (GetTotalBytes_wf b Hwf) as Ht.
  unfold CalculateChecksumByte. rewrite Ht.
  destruct (Z.eqb_spec byteCount 0); [lia|].
  assert (Hw : wrap64 (startByte + byteCount) = startByte + byteCount - 2 ^ 64).
  { unfold wrap64. symmetry. apply (Z.mod_unique _ _ 1); lia. }
  rewrite Hw.
  destruct (Z.gtb_spec (startByte + byteCount - 2 ^ 64) (total b)); [lia|].
  replace (Z.to_nat (startByte + byteCount - 2 ^ 64 - startByte)) with 0%nat by lia.
  reflexivity.
Qed.

(** X3. The checks of [CalculateChecksumByte]. A byte count of 0 is an
    invalid argument, whatever the start. A range that ends after the
    payload is out of range. A range whose end [startByte + byteCount]
    wraps around in [size_t] passes the check when the wrapped end lies in
    the payload; the loop then runs no iteration and the checksum is 0. *)
Theorem CalculateChecksumByte_checks b startByte byteCount :
  wf b -> 0 <= startByte < 2 ^ 64 -> 0 <= byteCount < 2 ^ 64 ->
  (byteCount = 0 ->
   CalculateChecksumByte startByte byteCount b = Throw InvalidArgumentError) /\
  (1 <= byteCount -> startByte + byteCount < 2 ^ 64 ->
   total b < startByte + byteCount ->
   CalculateChecksumByte startByte byteCount b = Throw OutOfRangeError) /\
  (1 <= byteCount -> 2 ^ 64 <= startByte + byteCount ->
   startByte + byteCount - 2 ^ 64 <= total b ->
   CalculateChecksumByte startByte byteCount b = Ok 0).
Proof.
  intros Hwf Hs Hc. split; [|split].
  - intros ->. reflexivity.
  - intros H1 Hno Hout.
    exact (proj2 (CalculateChecksumByte_out_of_range b startByte byteCount Hwf
                    ltac:(lia) H1 Hno Hout)).
  - intros H1 Hwrap Hin.
    exact (CalculateChecksumByte_wrapped b startByte byteCount Hwf Hs ltac:(lia) Hwrap Hin).
Qed.

Lemma CalculateChecksumByte_checks_witness :
  CalculateChecksumByte 10 0 sample_named = Throw InvalidArgumentError /\
  CalculateChecksumByte 10 7 sample_named = Throw OutOfRangeError /\
  CalculateChecksumByte (2 ^ 64 - 1) 2 sample_named = Ok 0.
Proof.
  split; [exact (proj1 (CalculateChecksumByte_checks sample_named 10 0 wf_sample_named
                          ltac:(lia) ltac:(lia)) eq_refl)|].
  split; [exact (proj1 (proj2 (CalculateChecksumByte_checks sample_named 10 7
                                 wf_sample_named ltac:(lia) ltac:(lia)))
                   ltac:(lia) ltac:(lia) ltac:(vm_compute; reflexivity))|].
  exact (proj2 (proj2 (CalculateChecksumByte_checks sample_named (2 ^ 64 - 1) 2
                         wf_sample_named ltac:(lia) ltac:(lia)))
           ltac:(lia) ltac:(lia) ltac:(vm_compute; discriminate)).
Defined.

Lemma wrap8_land x : wrap8 x = Z.land x 255.
Proof. unfold wrap8. rewrite <- (Z.land_ones x 8) by lia. reflexivity. Qed.

Lemma wrap8_lxor x m : wrap8 (Z.lxor x m) = wrap8 (Z.lxor (wrap8 x) m).
Proof.
  rewrite !wrap8_land. apply Z.bits_inj'. intros n Hn.
  rewrite !Z.land_spec, !Z.lxor_spec, !Z.land_spec.
  destruct (Z.testbit x n), (Z.testbit m n), (Z.testbit 255 n); reflexivity.
Qed.

Lemma lookup_table :
  forallb (fun w => (0 <=? lookup w) && (lookup w + lookup (wrap8 (Z.lxor w 255)) =? 8)
                    && (wrap8 (Z.lxor w 0) =? w))
    (seqZ 0 256) = true.
Proof. vm_compute. reflexivity. Qed.

Lemma lookup_byte w :
  0 <= w < 256 ->
  0 <= lookup w /\ lookup w + lookup (wrap8 (Z.lxor w 255)) = 8 /\ wrap8 (Z.lxor w 0) = w.
Proof.
  intros Hw. pose proof lookup_table as Hall. rewrite forallb_forall in Hall.
  assert (Hin : In w (seqZ 0 256)) by (apply list_elem_of_In, elem_of_seqZ; lia).
  specialize (Hall w Hin). apply andb_true_iff in Hall as (Hall & H3).
  apply andb_true_iff in Hall as (H1 & H2). lia.
Qed.

Lemma lookup_complement x :
  0 <= lookup (wrap8 (Z.lxor x 0)) /\ 0 <= lookup (wrap8 (Z.lxor x 255)) /\
  lookup (wrap8 (Z.lxor x 0)) + lookup (wrap8 (Z.lxor x 255)) = 8.
Proof.
  assert (Hw : 0 <= wrap8 x < 256) by (apply Z.mod_pos_bound; lia).
  destruct (lookup_byte (wrap8 x) Hw) as (H0 & H8 & Hid).
  rewrite (wrap8_lxor x 0), (wrap8_lxor x 255), Hid.
  assert (Hw' : 0 <= wrap8 (Z.lxor (wrap8 x) 255) < 256) by (apply Z.mod_pos_bound; lia).
  destruct (lookup_byte _ Hw') as (H0' & _ & _). lia.
Qed.

Lemma count_bits_bounds d n : forall i,
  (0 <= count_bits d 0 i n) /\ (0 <= count_bits d 255 i n) /\
  (count_bits d 0 i n + count_bits d 255 i n = 8 * Z.of_nat n).
Proof.
  induction n as [|n IH]; intros i; [simpl; lia|].
  cbn [count_bits]. destruct (IH (i + 1)) as (A & B & C).
  destruct (lookup_complement (rd d i)) as (A' & B' & C'). lia.
Qed.

Lemma GetBitCount_loop_count n : forall i m acc d,
  m = 0 \/ m = 255 -> 0 <= acc -> acc + 8 * Z.of_nat n < 2 ^ 64 ->
  GetBitCount_loop n i m acc d = acc + count_bits d m i n.
Proof.
  induction n as [|n IH]; intros i m acc d Hm Ha Hlt.
  - simpl. lia.
  - cbn [GetBitCount_loop count_bits]. cbv zeta.
    destruct (lookup_complement (rd d i)) as (A & B & C).
    assert (Hl : 0 <= lookup (wrap8 (Z.lxor (rd d i) m)) <= 8)
      by (destruct Hm as [-> | ->]; lia).
    rewrite Nat2Z.inj_succ in Hlt.
    rewrite wrap64_small by lia. rewrite IH by lia. lia.
Qed.

Lemma lookup_ones_table :
  forallb (fun w => lookup w =? ones_of_byte w) (seqZ 0 256) = true.
Proof. vm_compute. reflexivity. Qed.

Lemma ones_of_byte_wrap8 v : ones_of_byte (wrap8 v) = ones_of_byte v.
Proof.
  unfold ones_of_byte, wrap8. change 256 with (2 ^ 8).
  rewrite !Z.mod_pow2_bits_low by lia. reflexivity.
Qed.

Lemma lookup_ones v : lookup (wrap8 (Z.lxor v 0)) = ones_of_byte v.
Proof.
  rewrite Z.lxor_0_r. rewrite <- (ones_of_byte_wrap8 v).
  assert (Hw : 0 <= wrap8 v < 256) by (apply Z.mod_pos_bound; lia).
  pose proof lookup_ones_table as Hall. rewrite forallb_forall in Hall.
  assert (Hin : In (wrap8 v) (seqZ 0 256)) by (apply list_elem_of_In, elem_of_seqZ; lia).
  specialize (Hall _ Hin). lia.
Qed.

Lemma count_bits_ones d n : forall i, count_bits d 0 i n = ones_in d i n.
Proof.
  induction n as [|n IH]; intros i; [reflexivity|].
  cbn [count_bits ones_in]. now rewrite lookup_ones, IH.
Qed.

(** X6. For a byte range, [GetBitCount] with a [value] other than 0
    returns the number of 1 bits of the bytes of the range, and with
    [value] 0 the number of their 0 bits, 8 times the length of the range
    less the number of 1 bits. *)
Theorem GetBitCount_complement b off len value :
  wf b -> total b < 2 ^ 61 -> valid_byte_range b off len -> value <> 0 ->
  exists ones zeros,
    GetBitCount off len value b = Ok ones /\
    GetBitCount off len 0 b = Ok zeros /\
    0 <= ones /\ 0 <= zeros /\
    ones + zeros = 8 * byte_range_length b off len /\
    ones = ones_in (payload b) off (Z.to_nat (byte_range_length b off len)).
Proof.
  intros Hwf Hsmall Hv Hvalue.
  pose proof (byte_range_bounds b off len Hv) as (Hl1 & Hl2).
  pose proof Hv as (Hoff & _).
  unfold GetBitCount. rewrite (ValidateByteRange_valid b off len Hwf Hv).
  cbn [Result_bind]. set (n := byte_range_length b off len) in *.
  rewrite wrap64_small by lia.
  replace (off + n - off) with n by lia.
  destruct (Z.eqb_spec value 0); [contradiction|]. change (0 =? 0) with true. cbv iota.
  destruct (count_bits_bounds (payload b) (Z.to_nat n) off) as (A & B & C).
  rewrite Z2Nat.id in C by lia.
  rewrite (GetBitCount_loop_count _ _ 0) by (rewrite ?Z2Nat.id; lia).
  rewrite (GetBitCount_loop_count _ _ 255) by (rewrite ?Z2Nat.id; lia).
  eexists _, _. split; [reflexivity|]. split; [reflexivity|].
  rewrite <- count_bits_ones. lia.
Qed.

Lemma GetBitCount_complement_witness :
  valid_byte_range sample_named 0 0 /\
  GetBitCount 0 0 1 sample_named = Ok 33 /\
  GetBitCount 0 0 0 sample_named = Ok 95.
Proof.
  assert (Hv : valid_byte_range sample_named 0 0)
    by (vm_compute; repeat split; discriminate).
  split; [exact Hv|].
  destruct (GetBitCount_complement sample_named 0 0 1 wf_sample_named
              ltac:(vm_compute; reflexivity) Hv ltac:(discriminate))
    as (ones & zeros & H1 & H0 & _ & _ & Hsum & Hones).
  vm_compute in Hones. subst ones.
  replace (byte_range_length sample_named 0 0) with 16 in Hsum by reflexivity.
  assert (zeros = 95) as -> by lia.
  split; assumption.
Defined.

(** ** Bytes, words, double words and quad words *)

Lemma testbit_byte v k s n :
  0 <= n -> 0 <= k -> 0 <= s ->
  Z.testbit (Z.shiftl (wrap8 (Z.shiftr v k)) s) n
  = (s <=? n) && (n <? s + 8) && Z.testbit v (n - s + k).
Proof.
  intros Hn Hk Hs. rewrite Z.shiftl_spec by lia.
  destruct (Z.leb_spec s n).
  - unfold wrap8. rewrite Z.testbit_mod_pow2 by lia. rewrite Z.shiftr_spec by lia.
    simpl. destruct (Z.ltb_spec (n - s) 8), (Z.ltb_spec n (s + 8)); try lia; reflexivity.
  - rewrite Z.testbit_neg_r by lia. reflexivity.
Qed.

Lemma wrap8_land_255 v : wrap8 (Z.land v 255) = wrap8 (Z.shiftr v 0).
Proof.
  rewrite Z.shiftr_0_r. rewrite <- wrap8_land. unfold wrap8. apply Z.mod_mod. lia.
Qed.

Lemma wrap8_shiftr_0 v : wrap8 v = wrap8 (Z.shiftr v 0).
Proof. rewrite Z.shiftr_0_r. reflexivity. Qed.

Lemma testbit_above v w n : 0 <= v < 2 ^ w -> 0 <= w <= n -> Z.testbit v n = false.
Proof.
  intros Hv Hn. rewrite <- (Z.mod_small v (2 ^ w)) by lia.
  apply Z.mod_pow2_bits_high. lia.
Qed.

Lemma byte_of_shiftr v k : 0 <= k -> wrap8 (Z.shiftr v (8 * k)) = byte_of v k.
Proof. intros Hk. unfold wrap8, byte_of. rewrite Z.shiftr_div_pow2 by lia. reflexivity. Qed.

(** Case analysis on the position of a bit among the bytes of a value. *)
Ltac bit_cases :=
  repeat match goal with
         | |- context [?a <=? ?b] => destruct (Z.leb_spec a b); try (exfalso; lia)
         | |- context [?a <? ?b] => destruct (Z.ltb_spec a b); try (exfalso; lia)
         end;
  cbn [andb orb];
  rewrite ?orb_false_r;
  try reflexivity;
  try (f_equal; lia).

Ltac bytes_to_bits w :=
  apply Z.bits_inj'; intros n Hn;
  rewrite (Z.testbit_mod_pow2 _ w) by lia;
  rewrite !Z.lor_spec;
  rewrite ?wrap8_land_255;
  repeat match goal with
         | |- context [Z.testbit (wrap8 ?x) n] =>
             rewrite <- (Z.shiftl_0_r (wrap8 x))
         end;
  rewrite !testbit_byte by lia.

Lemma combine_word v :
  0 <= v < 2 ^ 16 ->
  wrap16 (Z.lor (wrap8 (Z.land v 255)) (Z.shiftl (wrap8 (Z.shiftr v 8)) 8)) = v /\
  wrap16 (Z.lor (Z.shiftl (wrap8 (Z.shiftr v 8)) 8) (wrap8 (Z.land v 255))) = v.
Proof.
  intros Hv. unfold wrap16. split.
  - bytes_to_bits 16.
    destruct (Z.ltb_spec n 16); [|rewrite (testbit_above v 16 n) by lia; reflexivity].
    bit_cases.
  - bytes_to_bits 16.
    destruct (Z.ltb_spec n 16); [|rewrite (testbit_above v 16 n) by lia; reflexivity].
    bit_cases.
Qed.

Lemma combine_dword v :
  0 <= v < 2 ^ 32 ->
  wrap32 (Z.lor (Z.lor (Z.lor (wrap8 (Z.land v 255))
                              (Z.shiftl (wrap8 (Z.shiftr v 8)) 8))
                       (Z.shiftl (wrap8 (Z.shiftr v 16)) 16))
                (Z.shiftl (wrap8 (Z.shiftr v 24)) 24)) = v /\
  wrap32 (Z.lor (Z.lor (Z.lor (Z.shiftl (wrap8 (Z.shiftr v 24)) 24)
                              (Z.shiftl (wrap8 (Z.shiftr v 16)) 16))
                       (Z.shiftl (wrap8 (Z.shiftr v 8)) 8))
                (wrap8 (Z.land v 255))) = v.
Proof.
  intros Hv. unfold wrap32. split.
  - bytes_to_bits 32.
    destruct (Z.ltb_spec n 32); [|rewrite (testbit_above v 32 n) by lia; reflexivity].
    bit_cases.
  - bytes_to_bits 32.
    destruct (Z.ltb_spec n 32); [|rewrite (testbit_above v 32 n) by lia; reflexivity].
    bit_cases.
Qed.

Lemma combine_qword v :
  0 <= v < 2 ^ 64 ->
  wrap64 (Z.lor (Z.lor (Z.lor (Z.lor (Z.lor (Z.lor (Z.lor
     (wrap8 v)
     (Z.shiftl (wrap8 (Z.shiftr v 8)) 8))
     (Z.shiftl (wrap8 (Z.shiftr v 16)) 16))
     (Z.shiftl (wrap8 (Z.shiftr v 24)) 24))
     (Z.shiftl (wrap8 (Z.shiftr v 32)) 32))
     (Z.shiftl (wrap8 (Z.shiftr v 40)) 40))
     (Z.shiftl (wrap8 (Z.shiftr v 48)) 48))
     (Z.shiftl (wrap8 (Z.shiftr v 56)) 56)) = v /\
  wrap64 (Z.lor (Z.lor (Z.lor (Z.lor (Z.lor (Z.lor (Z.lor
     (Z.shiftl (wrap8 (Z.shiftr v 56)) 56)
     (Z.shiftl (wrap8 (Z.shiftr v 48)) 48))
     (Z.shiftl (wrap8 (Z.shiftr v 40)) 40))
     (Z.shiftl (wrap8 (Z.shiftr v 32)) 32))
     (Z.shiftl (wrap8 (Z.shiftr v 24)) 24))
     (Z.shiftl (wrap8 (Z.shiftr v 16)) 16))
     (Z.shiftl (wrap8 (Z.shiftr v 8)) 8))
     (wrap8 v)) = v.
Proof.
  intros Hv. unfold wrap64. split.
  - rewrite (wrap8_shiftr_0 v) at 1. bytes_to_bits 64.
    destruct (Z.ltb_spec n 64); [|rewrite (testbit_above v 64 n) by lia; reflexivity].
    bit_cases.
  - rewrite (wrap8_shiftr_0 v) at 1. bytes_to_bits 64.
    destruct (Z.ltb_spec n 64); [|rewrite (testbit_above v 64 n) by lia; reflexivity].
    bit_cases.
Qed.

Lemma ValidateIndex_ok b i : wf b -> 0 <= i < total b -> ValidateIndex i b = Ok tt.
Proof.
  intros Hwf Hi. unfold ValidateIndex. rewrite (GetTotalBytes_wf b Hwf).
  destruct (Z.geb_spec i (total b)); [lia|reflexivity].
Qed.

Lemma ValidateIndex_throw b i :
  wf b -> total b <= i -> ValidateIndex i b = Throw OutOfRangeError.
Proof.
  intros Hwf Hi. unfold ValidateIndex. rewrite (GetTotalBytes_wf b Hwf).
  destruct (Z.geb_spec i (total b)); [reflexivity|lia].
Qed.

Ltac rd_wr_simpl :=
  repeat (rewrite rd_wr by (rewrite ?length_wr; lia));
  repeat match goal with
         | |- context [?a =? ?b] => destruct (Z.eqb_spec a b); try (exfalso; lia)
         end.

(** The index arithmetic of an accessor of [w + 1] bytes at a valid
    index. *)
Ltac valid_index Hwf w :=
  let H1 := fresh in let H2 := fresh in let H3 := fresh in let H4 := fresh in
  pose proof Hwf as (H1 & H2 & H3 & H4);
  repeat match goal with
         | |- context [wrap64 (?i + ?k)] => rewrite (wrap64_small (i + k)) by lia
         end.

Lemma ValidateIndex_set_payload b i d :
  wf b -> 0 <= i < total b -> length d = length (payload b) ->
  ValidateIndex i (set_payload d b) = Ok tt.
Proof.
  intros Hwf Hi Hd. apply ValidateIndex_ok; [|exact Hi].
  unfold wf, total in *. cbn [set_payload _sectorCount _bytesPerSector payload].
  rewrite Hd. exact Hwf.
Qed.

Ltac accessor_start Hwf :=
  unfold bind, check, get, modify, ret, throw; cbv beta zeta;
  valid_index Hwf 1;
  rewrite (ValidateIndex_ok _ _ Hwf) by lia;
  eexists; split; [reflexivity|];
  cbn [payload set_payload];
  rewrite (ValidateIndex_set_payload _ _ _ Hwf) by (rewrite ?length_wr; first [lia|reflexivity]);
  unfold stores_at; cbn [Result_bind payload set_payload].

Ltac byte_layout :=
  rd_wr_simpl; rewrite <- byte_of_shiftr by lia;
  rewrite ?wrap8_land_255, ?Z.shiftr_0_r; reflexivity.

Lemma SetWord_GetWord b index value :
  wf b -> 0 <= index -> index + 1 < total b -> 0 <= value < 2 ^ 16 ->
  exists b1,
    SetWord index value b = (Ok tt, b1) /\
    GetWord index b1 = Ok value /\
    (forall k, 0 <= k < 2 -> rd (payload b1) (index + k) = byte_of value k) /\
    stores_at b b1 index 2.
Proof.
  intros Hwf Hi Hfit Hv.
  destruct (combine_word value Hv) as (Hle & Hbe).
  unfold SetWord, GetWord. accessor_start Hwf.
  split; [|split; [|split]].
  - f_equal. rd_wr_simpl. exact Hle.
  - intros k Hk. assert (Hc : k = 0 \/ k = 1) by lia.
    destruct Hc as [-> | ->]; byte_layout.
  - rewrite !length_wr. reflexivity.
  - intros p Hp Hout. rd_wr_simpl. reflexivity.
Qed.

Lemma SetWordBigEndian_GetWordBigEndian b index value :
  wf b -> 0 <= index -> index + 1 < total b -> 0 <= value < 2 ^ 16 ->
  exists b1,
    SetWordBigEndian index value b = (Ok tt, b1) /\
    GetWordBigEndian index b1 = Ok value /\
    (forall k, 0 <= k < 2 -> rd (payload b1) (index + k) = byte_of value (1 - k)) /\
    stores_at b b1 index 2.
Proof.
  intros Hwf Hi Hfit Hv.
  destruct (combine_word value Hv) as (Hle & Hbe).
  unfold SetWordBigEndian, GetWordBigEndian. accessor_start Hwf.
  split; [|split; [|split]].
  - f_equal. rd_wr_simpl. exact Hbe.
  - intros k Hk. assert (Hc : k = 0 \/ k = 1) by lia.
    destruct Hc as [-> | ->]; byte_layout.
  - rewrite !length_wr. reflexivity.
  - intros p Hp Hout. rd_wr_simpl. reflexivity.
Qed.

Lemma SetDWord_GetDWord b index value :
  wf b -> 0 <= index -> index + 3 < total b -> 0 <= value < 2 ^ 32 ->
  exists b1,
    SetDWord index value b = (Ok tt, b1) /\
    GetDWord index b1 = Ok value /\
    (forall k, 0 <= k < 4 -> rd (payload b1) (index + k) = byte_of value (k)) /\
    stores_at b b1 index 4.
Proof.
  intros Hwf Hi Hfit Hv.
  destruct (combine_dword value Hv) as (Hle & Hbe).
  unfold SetDWord, GetDWord. accessor_start Hwf.
  split; [|split; [|split]].
  - f_equal. rd_wr_simpl. exact Hle.
  - intros k Hk. assert (Hc : k = 0 \/ k = 1 \/ k = 2 \/ k = 3) by lia.
    destruct Hc as [-> | [-> | [-> | ->]]]; byte_layout.
  - rewrite !length_wr. reflexivity.
  - intros p Hp Hout. rd_wr_simpl. reflexivity.
Qed.

Lemma SetDWordBigEndian_GetDWordBigEndian b index value :
  wf b -> 0 <= index -> index + 3 < total b -> 0 <= value < 2 ^ 32 ->
  exists b1,
    SetDWordBigEndian index value b = (Ok tt, b1) /\
    GetDWordBigEndian index b1 = Ok value /\
    (forall k, 0 <= k < 4 -> rd (payload b1) (index + k) = byte_of value (3 - k)) /\
    stores_at b b1 index 4.
Proof.
  intros Hwf Hi Hfit Hv.
  destruct (combine_dword value Hv) as (Hle & Hbe).
  unfold SetDWordBigEndian, GetDWordBigEndian. accessor_start Hwf.
  split; [|split; [|split]].
  - f_equal. rd_wr_simpl. exact Hbe.
  - intros k Hk. assert (Hc : k = 0 \/ k = 1 \/ k = 2 \/ k = 3) by lia.
    destruct Hc as [-> | [-> | [-> | ->]]]; byte_layout.
  - rewrite !length_wr. reflexivity.
  - intros p Hp Hout. rd_wr_simpl. reflexivity.
Qed.

Lemma SetQWord_GetQWord b index value :
  wf b -> 0 <= index -> index + 7 < total b -> 0 <= value < 2 ^ 64 ->
  exists b1,
    SetQWord index value b = (Ok tt, b1) /\
    GetQWord index b1 = Ok value /\
    (forall k, 0 <= k < 8 -> rd (payload b1) (index + k) = byte_of value (k)) /\
    stores_at b b1 index 8.
Proof.
  intros Hwf Hi Hfit Hv.
  destruct (combine_qword value Hv) as (Hle & Hbe).
  unfold SetQWord, GetQWord. accessor_start Hwf.
  split; [|split; [|split]].
  - f_equal. rd_wr_simpl. exact Hle.
  - intros k Hk. assert (Hc : k = 0 \/ k = 1 \/ k = 2 \/ k = 3 \/ k = 4 \/ k = 5 \/ k = 6 \/ k = 7) by lia.
    destruct Hc as [-> | [-> | [-> | [-> | [-> | [-> | [-> | ->]]]]]]]; byte_layout.
  - rewrite !length_wr. reflexivity.
  - intros p Hp Hout. rd_wr_simpl. reflexivity.
Qed.

Lemma SetQWordBigEndian_GetQWordBigEndian b index value :
  wf b -> 0 <= index -> index + 7 < total b -> 0 <= value < 2 ^ 64 ->
  exists b1,
    SetQWordBigEndian index value b = (Ok tt, b1) /\
    GetQWordBigEndian index b1 = Ok value /\
    (forall k, 0 <= k < 8 -> rd (payload b1) (index + k) = byte_of value (7 - k)) /\
    stores_at b b1 index 8.
Proof.
  intros Hwf Hi Hfit Hv.
  destruct (combine_qword value Hv) as (Hle & Hbe).
  unfold SetQWordBigEndian, GetQWordBigEndian. accessor_start Hwf.
  split; [|split; [|split]].
  - f_equal. rd_wr_simpl. exact Hbe.
  - intros k Hk. assert (Hc : k = 0 \/ k = 1 \/ k = 2 \/ k = 3 \/ k = 4 \/ k = 5 \/ k = 6 \/ k = 7) by lia.
    destruct Hc as [-> | [-> | [-> | [-> | [-> | [-> | [-> | ->]]]]]]]; byte_layout.
  - rewrite !length_wr. reflexivity.
  - intros p Hp Hout. rd_wr_simpl. reflexivity.
Qed.

(** X7. 16-bit words. [SetWord] stores the value least significant byte
    first and [GetWord] reads it back; [SetWordBigEndian] stores it most
    significant byte first and [GetWordBigEndian] reads it back; no byte
    outside the two changes. *)
Theorem Word_round_trip b index value :
  wf b -> 0 <= index -> index + 1 < total b -> 0 <= value < 2 ^ 16 ->
  (exists b1,
     SetWord index value b = (Ok tt, b1) /\
     GetWord index b1 = Ok value /\
     (forall k, 0 <= k < 2 -> rd (payload b1) (index + k) = byte_of value k) /\
     stores_at b b1 index 2) /\
  (exists b2,
     SetWordBigEndian index value b = (Ok tt, b2) /\
     GetWordBigEndian index b2 = Ok value /\
     (forall k, 0 <= k < 2 -> rd (payload b2) (index + k) = byte_of value (1 - k)) /\
     stores_at b b2 index 2).
Proof.
  intros Hwf Hi Hfit Hv. split.
  - exact (SetWord_GetWord b index value Hwf Hi Hfit Hv).
  - exact (SetWordBigEndian_GetWordBigEndian b index value Hwf Hi Hfit Hv).
Qed.

Lemma Word_round_trip_witness :
  (exists b1,
     SetWord 3 43981 sample_named = (Ok tt, b1) /\
     GetWord 3 b1 = Ok 43981 /\
     (forall k, 0 <= k < 2 -> rd (payload b1) (3 + k) = byte_of 43981 k) /\
     stores_at sample_named b1 3 2) /\
  (exists b2,
     SetWordBigEndian 3 43981 sample_named = (Ok tt, b2) /\
     GetWordBigEndian 3 b2 = Ok 43981 /\
     (forall k, 0 <= k < 2 -> rd (payload b2) (3 + k) = byte_of 43981 (1 - k)) /\
     stores_at sample_named b2 3 2).
Proof.
  exact (Word_round_trip sample_named 3 43981 wf_sample_named
           ltac:(lia) ltac:(vm_compute; reflexivity) ltac:(lia)).
Defined.

(** X8. 32-bit double words. [SetDWord] stores the value least significant
    byte first and [GetDWord] reads it back; [SetDWordBigEndian] stores it
    most significant byte first and [GetDWordBigEndian] reads it back; no
    byte outside the four changes. *)
Theorem DWord_round_trip b index value :
  wf b -> 0 <= index -> index + 3 < total b -> 0 <= value < 2 ^ 32 ->
  (exists b1,
     SetDWord index value b = (Ok tt, b1) /\
     GetDWord index b1 = Ok value /\
     (forall k, 0 <= k < 4 -> rd (payload b1) (index + k) = byte_of value k) /\
     stores_at b b1 index 4) /\
  (exists b2,
     SetDWordBigEndian index value b = (Ok tt, b2) /\
     GetDWordBigEndian index b2 = Ok value /\
     (forall k, 0 <= k < 4 -> rd (payload b2) (index + k) = byte_of value (3 - k)) /\
     stores_at b b2 index 4).
Proof.
  intros Hwf Hi Hfit Hv. split.
  - exact (SetDWord_GetDWord b index value Hwf Hi Hfit Hv).
  - exact (SetDWordBigEndian_GetDWordBigEndian b index value Hwf Hi Hfit Hv).
Qed.

Lemma DWord_round_trip_witness :
  (exists b1,
     SetDWord 4 305419896 sample_named = (Ok tt, b1) /\
     GetDWord 4 b1 = Ok 305419896 /\
     (forall k, 0 <= k < 4 -> rd (payload b1) (4 + k) = byte_of 305419896 k) /\
     stores_at sample_named b1 4 4) /\
  (exists b2,
     SetDWordBigEndian 4 305419896 sample_named = (Ok tt, b2) /\
     GetDWordBigEndian 4 b2 = Ok 305419896 /\
     (forall k, 0 <= k < 4 -> rd (payload b2) (4 + k) = byte_of 305419896 (3 - k)) /\
     stores_at sample_named b2 4 4).
Proof.
  exact (DWord_round_trip sample_named 4 305419896 wf_sample_named
           ltac:(lia) ltac:(vm_compute; reflexivity) ltac:(lia)).
Defined.

(** X9. 64-bit quad words. [SetQWord] stores the value least significant
    byte first and [GetQWord] reads it back; [SetQWordBigEndian] stores it
    most significant byte first and [GetQWordBigEndian] reads it back; no
    byte outside the eight changes. *)
Theorem QWord_round_trip b index value :
  wf b -> 0 <= index -> index + 7 < total b -> 0 <= value < 2 ^ 64 ->
  (exists b1,
     SetQWord index value b = (Ok tt, b1) /\
     GetQWord index b1 = Ok value /\
     (forall k, 0 <= k < 8 -> rd (payload b1) (index + k) = byte_of value k) /\
     stores_at b b1 index 8) /\
  (exists b2,
     SetQWordBigEndian index value b = (Ok tt, b2) /\
     GetQWordBigEndian index b2 = Ok value /\
     (forall k, 0 <= k < 8 -> rd (payload b2) (index + k) = byte_of value (7 - k)) /\
     stores_at b b2 index 8).
Proof.
  intros Hwf Hi Hfit Hv. split.
  - exact (SetQWord_GetQWord b index value Hwf Hi Hfit Hv).
  - exact (SetQWordBigEndian_GetQWordBigEndian b index value Hwf Hi Hfit Hv).
Qed.

Lemma QWord_round_trip_witness :
  (exists b1,
     SetQWord 8 72623859790382856 sample_named = (Ok tt, b1) /\
     GetQWord 8 b1 = Ok 72623859790382856 /\
     (forall k, 0 <= k < 8 -> rd (payload b1) (8 + k) = byte_of 72623859790382856 k) /\
     stores_at sample_named b1 8 8) /\
  (exists b2,
     SetQWordBigEndian 8 72623859790382856 sample_named = (Ok tt, b2) /\
     GetQWordBigEndian 8 b2 = Ok 72623859790382856 /\
     (forall k, 0 <= k < 8 -> rd (payload b2) (8 + k) = byte_of 72623859790382856 (7 - k)) /\
     stores_at sample_named b2 8 8).
Proof.
  exact (QWord_round_trip sample_named 8 72623859790382856 wf_sample_named
           ltac:(lia) ltac:(vm_compute; reflexivity) ltac:(lia)).
Defined.

Lemma bit_of_testbit v bit : 0 <= bit -> bit_of v bit = Z.b2z (Z.testbit v bit).
Proof.
  intros Hb. unfold bit_of. rewrite Z.shiftl_1_l.
  assert (Hl : Z.land v (2 ^ bit) = if Z.testbit v bit then 2 ^ bit else 0).
  { apply Z.bits_inj'. intros n Hn. rewrite Z.land_spec, Z.pow2_bits_eqb by lia.
    destruct (Z.eqb_spec bit n) as [<-|Hne].
    - destruct (Z.testbit v bit) eqn:E; simpl.
      + symmetry. apply Z.pow2_bits_true. lia.
      + rewrite Z.bits_0. reflexivity.
    - rewrite andb_false_r.
      destruct (Z.testbit v bit); [now rewrite Z.pow2_bits_false|now rewrite Z.bits_0]. }
  rewrite Hl. pose proof (Z.pow_pos_nonneg 2 bit ltac:(lia) Hb) as Hpos.
  destruct (Z.testbit v bit); simpl.
  - destruct (Z.gtb_spec (2 ^ bit) 0); [reflexivity|lia].
  - reflexivity.
Qed.

(** X10. Every accessor checks one index, that of the last byte it
    touches, computed in [size_t]: when that index is not inside the
    payload the getter is out of range, and a refused store leaves the
    object as it was; when it is inside, the check passes. So an index at
    the top of [size_t], whose last byte index wraps around to a small
    one, is not refused; what the accessor then reads or writes before
    the payload is not stated here. *)
Theorem accessors_out_of_range b index value :
  wf b -> 0 <= index < 2 ^ 64 ->
  (total b <= index ->
   GetByte index b = Throw OutOfRangeError /\
   SetByte index value b = (Throw OutOfRangeError, b)) /\
  (total b <= wrap64 (index + 1) ->
   GetWord index b = Throw OutOfRangeError /\
   GetWordBigEndian index b = Throw OutOfRangeError /\
   SetWord index value b = (Throw OutOfRangeError, b) /\
   SetWordBigEndian index value b = (Throw OutOfRangeError, b)) /\
  (total b <= wrap64 (index + 3) ->
   GetDWord index b = Throw OutOfRangeError /\
   GetDWordBigEndian index b = Throw OutOfRangeError /\
   SetDWord index value b = (Throw OutOfRangeError, b) /\
   SetDWordBigEndian index value b = (Throw OutOfRangeError, b)) /\
  (total b <= wrap64 (index + 7) ->
   GetQWord index b = Throw OutOfRangeError /\
   GetQWordBigEndian index b = Throw OutOfRangeError /\
   SetQWord index value b = (Throw OutOfRangeError, b) /\
   SetQWordBigEndian index value b = (Throw OutOfRangeError, b)) /\
  (index < total b ->
   (exists v, GetByte index b = Ok v) /\
   fst (SetByte index value b) = Ok tt) /\
  (wrap64 (index + 1) < total b ->
   (exists v, GetWord index b = Ok v) /\
   (exists v, GetWordBigEndian index b = Ok v) /\
   fst (SetWord index value b) = Ok tt /\
   fst (SetWordBigEndian index value b) = Ok tt) /\
  (wrap64 (index + 3) < total b ->
   (exists v, GetDWord index b = Ok v) /\
   (exists v, GetDWordBigEndian index b = Ok v) /\
   fst (SetDWord index value b) = Ok tt /\
   fst (SetDWordBigEndian index value b) = Ok tt) /\
  (wrap64 (index + 7) < total b ->
   (exists v, GetQWord index b = Ok v) /\
   (exists v, GetQWordBigEndian index b = Ok v) /\
   fst (SetQWord index value b) = Ok tt /\
   fst (SetQWordBigEndian index value b) = Ok tt).
Proof.
  intros Hwf Hi.
  assert (Hw : forall k, 0 <= wrap64 (index + k))
    by (intros k; apply Z.mod_pos_bound; lia).
  repeat match goal with |- _ /\ _ => split end; intros Hlast;
    repeat match goal with |- _ /\ _ => split end;
    unfold GetByte, SetByte, GetWord, GetWordBigEndian, SetWord, SetWordBigEndian,
      GetDWord, GetDWordBigEndian, SetDWord, SetDWordBigEndian,
      GetQWord, GetQWordBigEndian, SetQWord, SetQWordBigEndian;
    unfold bind, check, get, modify, ret, throw; cbv beta zeta;
    first
      [ rewrite (ValidateIndex_throw _ _ Hwf) by lia; reflexivity
      | rewrite (ValidateIndex_ok _ _ Hwf) by (split; [apply Hw || lia | lia]);
        cbn [Result_bind fst]; first [reflexivity | eexists; reflexivity] ].
Qed.

Lemma accessors_out_of_range_witness :
  GetWord 15 sample_named = Throw OutOfRangeError /\
  SetDWord 13 7 sample_named = (Throw OutOfRangeError, sample_named) /\
  GetQWordBigEndian 9 sample_named = Throw OutOfRangeError /\
  SetByte 16 7 sample_named = (Throw OutOfRangeError, sample_named) /\
  (exists v, GetWord (2 ^ 64 - 1) sample_named = Ok v) /\
  fst (SetQWord (2 ^ 64 - 3) 7 sample_named) = Ok tt.
Proof.
  pose proof (accessors_out_of_range sample_named 15 7 wf_sample_named ltac:(lia))
    as (_ & Hw & _).
  pose proof (accessors_out_of_range sample_named 13 7 wf_sample_named ltac:(lia))
    as (_ & _ & Hd & _).
  pose proof (accessors_out_of_range sample_named 9 7 wf_sample_named ltac:(lia))
    as (_ & _ & _ & Hq & _).
  pose proof (accessors_out_of_range sample_named 16 7 wf_sample_named ltac:(lia))
    as (Hb & _).
  pose proof (accessors_out_of_range sample_named (2 ^ 64 - 1) 7 wf_sample_named ltac:(lia))
    as (_ & _ & _ & _ & _ & Hw' & _).
  pose proof (accessors_out_of_range sample_named (2 ^ 64 - 3) 7 wf_sample_named ltac:(lia))
    as (_ & _ & _ & _ & _ & _ & _ & Hq').
  split; [exact (proj1 (Hw ltac:(vm_compute; discriminate)))|].
  split; [exact (proj1 (proj2 (proj2 (Hd ltac:(vm_compute; discriminate)))))|].
  split; [exact (proj1 (proj2 (Hq ltac:(vm_compute; discriminate))))|].
  split; [exact (proj2 (Hb ltac:(vm_compute; discriminate)))|].
  split; [exact (proj1 (Hw' ltac:(vm_compute; reflexivity)))|].
  exact (proj1 (proj2 (proj2 (Hq' ltac:(vm_compute; reflexivity))))).
Defined.

(** X11. A bit getter refuses a bit number beyond the width before it
    looks at the index; otherwise it returns, as 0 or 1, that bit of the
    value the getter of the same width returns. *)
Theorem bit_getters b index bit :
  0 <= bit ->
  (7 < bit -> GetByteBit index bit b = Throw InvalidArgumentError) /\
  (15 < bit ->
   GetWordBit index bit b = Throw InvalidArgumentError /\
   GetWordBitBigEndian index bit b = Throw InvalidArgumentError) /\
  (31 < bit ->
   GetDWordBit index bit b = Throw InvalidArgumentError /\
   GetDWordBitBigEndian index bit b = Throw InvalidArgumentError) /\
  (63 < bit ->
   GetQWordBit index bit b = Throw InvalidArgumentError /\
   GetQWordBitBigEndian index bit b = Throw InvalidArgumentError) /\
  (forall v, bit <= 7 -> GetByte index b = Ok v ->
     GetByteBit index bit b = Ok (Z.b2z (Z.testbit v bit))) /\
  (forall v, bit <= 15 -> GetWord index b = Ok v ->
     GetWordBit index bit b = Ok (Z.b2z (Z.testbit v bit))) /\
  (forall v, bit <= 15 -> GetWordBigEndian index b = Ok v ->
     GetWordBitBigEndian index bit b = Ok (Z.b2z (Z.testbit v bit))) /\
  (forall v, bit <= 31 -> GetDWord index b = Ok v ->
     GetDWordBit index bit b = Ok (Z.b2z (Z.testbit v bit))) /\
  (forall v, bit <= 31 -> GetDWordBigEndian index b = Ok v ->
     GetDWordBitBigEndian index bit b = Ok (Z.b2z (Z.testbit v bit))) /\
  (forall v, bit <= 63 -> GetQWord index b = Ok v ->
     GetQWordBit index bit b = Ok (Z.b2z (Z.testbit v bit))) /\
  (forall v, bit <= 63 -> GetQWordBigEndian index b = Ok v ->
     GetQWordBitBigEndian index bit b = Ok (Z.b2z (Z.testbit v bit))).
Proof.
  intros Hb.
  unfold GetByteBit, GetWordBit, GetWordBitBigEndian, GetDWordBit, GetDWordBitBigEndian,
    GetQWordBit, GetQWordBitBigEndian.
  assert (Hthrow : forall m, m < bit -> (bit >? m) = true)
    by (intros m Hm; destruct (Z.gtb_spec bit m); [reflexivity|lia]).
  assert (Hpass : forall m, bit <= m -> (bit >? m) = false)
    by (intros m Hm; destruct (Z.gtb_spec bit m); [lia|reflexivity]).
  repeat match goal with
         | |- _ /\ _ => split
         | |- _ < bit -> _ => intros Hbig; rewrite !Hthrow by exact Hbig
         | |- Throw _ = Throw _ => reflexivity
         | |- forall v, bit <= _ -> _ =>
             intros v Hsmall Hget; rewrite Hget, Hpass by exact Hsmall;
             cbn [Result_bind]; rewrite bit_of_testbit by lia; reflexivity
         end.
Qed.

Lemma bit_getters_witness :
  GetDWordBit 0 32 sample_named = Throw InvalidArgumentError /\
  GetDWordBit 100 32 sample_named = Throw InvalidArgumentError /\
  GetByteBit 2 1 sample_named = Ok (Z.b2z (Z.testbit 3 1)) /\
  GetWordBigEndian 0 sample_named = Ok 258 /\
  GetWordBitBigEndian 0 8 sample_named = Ok (Z.b2z (Z.testbit 258 8)).
Proof.
  split; [exact (proj1 (proj1 (proj2 (proj2 (bit_getters sample_named 0 32 ltac:(lia))))
                          ltac:(lia)))|].
  split; [exact (proj1 (proj1 (proj2 (proj2 (bit_getters sample_named 100 32 ltac:(lia))))
                          ltac:(lia)))|].
  split; [exact (proj1 (proj2 (proj2 (proj2 (proj2 (bit_getters sample_named 2 1 ltac:(lia))))))
                   3 ltac:(lia) eq_refl)|].
  split; [reflexivity|].
  exact (proj1 (proj2 (proj2 (proj2 (proj2 (proj2 (proj2
           (bit_getters sample_named 0 8 ltac:(lia))))))))
           258 ltac:(lia) eq_refl).
Defined.

(** ** Byte vectors and strings *)

Lemma set_payload_same b : set_payload (payload b) b = b.
Proof. destruct b. reflexivity. Qed.

Lemma take_drop_write_bytes d off bs :
  0 <= off -> off + Z.of_nat (length bs) <= Z.of_nat (length d) ->
  take (length bs) (drop (Z.to_nat off) (write_bytes d off bs)) = bs.
Proof.
  intros Hoff Hfit. unfold write_bytes.
  rewrite drop_app_length' by (rewrite length_take; lia).
  rewrite take_app_length. reflexivity.
Qed.

Lemma wf_set_payload_length b d :
  wf b -> length d = length (payload b) -> wf (set_payload d b).
Proof.
  intros Hwf Hd. unfold wf, total in *.
  cbn [set_payload _sectorCount _bytesPerSector payload]. rewrite Hd. exact Hwf.
Qed.

Lemma stores_at_write_bytes b off bs :
  0 <= off -> off + Z.of_nat (length bs) <= Z.of_nat (length (payload b)) ->
  stores_at b (set_payload (write_bytes (payload b) off bs) b) off (Z.of_nat (length bs)).
Proof.
  intros Hoff Hfit. unfold stores_at. cbn [payload set_payload]. split.
  - apply length_write_bytes; lia.
  - intros p Hp Hout. rewrite rd_write_bytes by lia.
    destruct (Z.leb_spec off p), (Z.ltb_spec p (off + Z.of_nat (length bs)));
      cbn [andb]; try reflexivity; lia.
Qed.

(** X12. [SetBytes] stores a non-empty vector that fits the payload,
    [GetBytes] with the same offset and length returns it, and no byte
    outside the range changes. *)
Theorem SetBytes_GetBytes b off value :
  wf b -> value <> [] -> 0 <= off -> off + Z.of_nat (length value) <= total b ->
  exists b',
    SetBytes off value b = (Ok tt, b') /\
    GetBytes off (Z.of_nat (length value)) b' = Ok value /\
    stores_at b b' off (Z.of_nat (length value)).
Proof.
  intros Hwf Hne Hoff Hfit. pose proof Hwf as (H1 & H2 & H3 & H4).
  assert (Hlen : 1 <= Z.of_nat (length value)) by (destruct value; [congruence|simpl; lia]).
  assert (Hv : valid_byte_range b off (Z.of_nat (length value)))
    by (unfold valid_byte_range; lia).
  assert (Hbl : byte_range_length b off (Z.of_nat (length value)) = Z.of_nat (length value))
    by (unfold byte_range_length; destruct (Z.eqb_spec (Z.of_nat (length value)) 0); lia).
  unfold SetBytes, GetBytes. unfold bind, check, modify. cbv beta.
  rewrite (ValidateByteRange_valid b off _ Hwf Hv).
  eexists. split; [reflexivity|].
  assert (Hwf' : wf (set_payload (write_bytes (payload b) off value) b))
    by (apply wf_set_payload_length; [exact Hwf|apply length_write_bytes; lia]).
  rewrite (ValidateByteRange_valid _ off _ Hwf') by exact Hv.
  split.
  - cbn [Result_bind payload set_payload].
    unfold byte_range_length, total. cbn [set_payload _sectorCount _bytesPerSector].
    fold (total b). fold (byte_range_length b off (Z.of_nat (length value))).
    rewrite Hbl, Nat2Z.id. f_equal. apply take_drop_write_bytes; lia.
  - apply stores_at_write_bytes; lia.
Qed.

Lemma SetBytes_GetBytes_witness :
  exists b',
    SetBytes 5 [9; 8; 7] sample_named = (Ok tt, b') /\
    GetBytes 5 (Z.of_nat (length [9; 8; 7])) b' = Ok [9; 8; 7] /\
    stores_at sample_named b' 5 (Z.of_nat (length [9; 8; 7])).
Proof.
  exact (SetBytes_GetBytes sample_named 5 [9; 8; 7] wf_sample_named
           ltac:(discriminate) ltac:(lia) ltac:(vm_compute; discriminate)).
Defined.

Lemma length_list_ascii_of_string s :
  length (list_ascii_of_string s) = String.length s.
Proof. induction s as [|c s IH]; simpl; [reflexivity|now rewrite IH]. Qed.

Lemma chars_of_bytes_of_chars s :
  string_of_list_ascii (map char_of_UInt8 (map UInt8_of_char (list_ascii_of_string s))) = s.
Proof.
  rewrite <- (string_of_list_ascii_of_string s) at 2. f_equal.
  rewrite map_map. rewrite <- (map_id (list_ascii_of_string s)) at 2.
  apply map_ext. intros c. unfold char_of_UInt8, UInt8_of_char.
  rewrite Nat2Z.id. apply ascii_nat_embedding.
Qed.

(** X13. [SetString] stores the characters of a non-empty string that fits
    the payload, [GetString] with the same offset and length returns the
    string, and no byte outside the range changes. *)
Theorem SetString_GetString b off value :
  wf b -> value <> EmptyString -> 0 <= off ->
  off + Z.of_nat (String.length value) <= total b ->
  exists b',
    SetString off value b = (Ok tt, b') /\
    GetString off (Z.of_nat (String.length value)) b' = Ok value /\
    stores_at b b' off (Z.of_nat (String.length value)).
Proof.
  intros Hwf Hne Hoff Hfit. pose proof Hwf as (H1 & H2 & H3 & H4).
  set (bs := map UInt8_of_char (list_ascii_of_string value)).
  assert (Hbs : length bs = String.length value)
    by (unfold bs; rewrite length_map; apply length_list_ascii_of_string).
  assert (Hlen : 1 <= Z.of_nat (String.length value))
    by (destruct value; [congruence|simpl; lia]).
  assert (Hv : valid_byte_range b off (Z.of_nat (String.length value)))
    by (unfold valid_byte_range; lia).
  assert (Hbl : byte_range_length b off (Z.of_nat (String.length value))
                = Z.of_nat (String.length value))
    by (unfold byte_range_length;
        destruct (Z.eqb_spec (Z.of_nat (String.length value)) 0); lia).
  unfold SetString, GetString. unfold bind, check, modify. cbv beta.
  rewrite (ValidateByteRange_valid b off _ Hwf Hv). fold bs.
  eexists. split; [reflexivity|].
  assert (Hwf' : wf (set_payload (write_bytes (payload b) off bs) b))
    by (apply wf_set_payload_length; [exact Hwf|apply length_write_bytes; lia]).
  rewrite (ValidateByteRange_valid _ off _ Hwf') by exact Hv.
  split.
  - cbn [Result_bind payload set_payload].
    unfold byte_range_length, total. cbn [set_payload _sectorCount _bytesPerSector].
    fold (total b). fold (byte_range_length b off (Z.of_nat (String.length value))).
    rewrite Hbl, Nat2Z.id, <- Hbs. rewrite take_drop_write_bytes by lia.
    unfold bs. rewrite chars_of_bytes_of_chars. reflexivity.
  - rewrite <- Hbs. apply stores_at_write_bytes; lia.
Qed.

Lemma SetString_GetString_witness :
  exists b',
    SetString 2 "hi" sample_named = (Ok tt, b') /\
    GetString 2 (Z.of_nat (String.length "hi")) b' = Ok "hi"%string /\
    stores_at sample_named b' 2 (Z.of_nat (String.length "hi")).
Proof.
  exact (SetString_GetString sample_named 2 "hi" wf_sample_named
           ltac:(discriminate) ltac:(lia) ltac:(vm_compute; discriminate)).
Defined.

(** X14. A length of 0 means up to the end of the payload. [GetBytes] and
    [GetString] with length 0 return everything from the offset on; a
    [SetBytes] of an empty vector and a [SetString] of an empty string
    write nothing, and yet are refused when the offset is not inside the
    payload. *)
Theorem zero_length_reaches_the_end b off :
  wf b -> 0 <= off < 2 ^ 64 ->
  (off < total b ->
   GetBytes off 0 b = Ok (drop (Z.to_nat off) (payload b)) /\
   GetString off 0 b
   = Ok (string_of_list_ascii (map char_of_UInt8 (drop (Z.to_nat off) (payload b)))) /\
   SetBytes off [] b = (Ok tt, b) /\
   SetString off EmptyString b = (Ok tt, b)) /\
  (total b <= off ->
   GetBytes off 0 b = Throw OutOfRangeError /\
   GetString off 0 b = Throw OutOfRangeError /\
   SetBytes off [] b = (Throw OutOfRangeError, b) /\
   SetString off EmptyString b = (Throw OutOfRangeError, b)).
Proof.
  intros Hwf Hoff. pose proof Hwf as (H1 & H2 & H3 & H4).
  pose proof (GetTotalBytes_wf b Hwf) as Ht.
  unfold GetBytes, GetString, SetBytes, SetString, bind, check, modify. cbv beta.
  cbn [length String.length list_ascii_of_string map].
  change (Z.of_nat 0) with 0.
  split; intros Hin.
  - assert (Hv : valid_byte_range b off 0) by (unfold valid_byte_range; lia).
    rewrite (ValidateByteRange_valid b off 0 Hwf Hv).
    unfold byte_range_length. cbn [Z.eqb Result_bind].
    rewrite write_bytes_nil, set_payload_same.
    rewrite take_ge by (rewrite length_drop; lia).
    repeat split.
  - assert (Hthrow : ValidateByteRangeAndGetLength off 0 b = Throw OutOfRangeError).
    { unfold ValidateByteRangeAndGetLength. rewrite Ht.
      destruct (Z.geb_spec off (total b)); [reflexivity|lia]. }
    rewrite Hthrow. repeat split.
Qed.

Lemma zero_length_reaches_the_end_witness :
  GetBytes 13 0 sample_named = Ok [14; 15; 16] /\
  SetBytes 13 [] sample_named = (Ok tt, sample_named) /\
  SetBytes 16 [] sample_named = (Throw OutOfRangeError, sample_named) /\
  SetString 16 EmptyString sample_named = (Throw OutOfRangeError, sample_named).
Proof.
  destruct (zero_length_reaches_the_end sample_named 13 wf_sample_named ltac:(lia))
    as (Hin & _).
  destruct (zero_length_reaches_the_end sample_named 16 wf_sample_named ltac:(lia))
    as (_ & Hout).
  destruct (Hin ltac:(vm_compute; reflexivity)) as (Hg & _ & Hs & _).
  destruct (Hout ltac:(vm_compute; discriminate)) as (_ & _ & Hs' & Hs'').
  split; [exact Hg|]. split; [exact Hs|]. split; [exact Hs'|exact Hs''].
Defined.

(** ** FillAddressOverlay *)

Lemma to_Int64_small x : 0 <= x < 2 ^ 63 -> to_Int64 x = x.
Proof.
  intros Hx. unfold to_Int64. rewrite Z.mod_small by lia. lia.
Qed.

Lemma rd_le64 w j : 0 <= j < 8 -> rd (le64 w) j = byte_of w j.
Proof.
  intros Hj. unfold byte_of.
  assert (Hc : j = 0 \/ j = 1 \/ j = 2 \/ j = 3 \/ j = 4 \/ j = 5 \/ j = 6 \/ j = 7) by lia.
  destruct Hc as [-> | [-> | [-> | [-> | [-> | [-> | [-> | ->]]]]]]];
    cbn [rd le64 Z.to_nat Pos.to_nat Pos.iter_op Nat.add lookup_total list_lookup_total];
    unfold rd, le64; simpl lookup_total;
    rewrite <- ?wrap8_land; unfold wrap8;
    rewrite <- ?Z.shiftr_div_pow2 by lia; rewrite ?Z.shiftr_0_r; reflexivity.
Qed.

Lemma length_le64 w : length (le64 w) = 8%nat.
Proof. reflexivity. Qed.

Lemma length_wr64 d i w :
  0 <= i -> 8 * i + 8 <= Z.of_nat (length d) -> length (wr64 d i w) = length d.
Proof.
  intros Hi Hfit. unfold wr64. apply length_write_bytes; rewrite ?length_le64; lia.
Qed.

Lemma rd_wr64 d i w p :
  0 <= i -> 8 * i + 8 <= Z.of_nat (length d) -> 0 <= p ->
  rd (wr64 d i w) p =
    if (8 * i <=? p) && (p <? 8 * i + 8) then byte_of w (p - 8 * i) else rd d p.
Proof.
  intros Hi Hfit Hp. unfold wr64.
  rewrite rd_write_bytes by (rewrite ?length_le64; lia). rewrite length_le64.
  change (Z.of_nat 8) with 8.
  destruct (Z.leb_spec (8 * i) p), (Z.ltb_spec p (8 * i + 8)); cbn [andb]; try reflexivity.
  apply rd_le64. lia.
Qed.

Lemma div_sector k r bps : 0 <= r < bps -> (k * bps + r) / bps = k.
Proof.
  intros H. rewrite Z.div_add_l by lia. rewrite Z.div_small by lia. lia.
Qed.

Lemma FillAddressOverlay_body_spec v s jump k d :
  1 <= jump -> 0 <= s -> 0 <= k ->
  8 * ((s + k + 1) * jump) <= Z.of_nat (length d) -> (s + k + 1) * jump < 2 ^ 63 ->
  let base := 8 * ((s + k) * jump) in
  let value := wrap64 (v + k) in
  let d' := FillAddressOverlay_body v (s * jump) jump ((s + k) * jump) d in
  length d' = length d /\
  forall p, 0 <= p ->
    rd d' p =
      if (base + 8 * jump - 8 <=? p) && (p <? base + 8 * jump)
      then byte_of value (p - (base + 8 * jump - 8))
      else if (base <=? p) && (p <? base + 8) then byte_of value (p - base)
      else rd d p.
Proof.
  intros Hj Hs Hk Hfit Hsmall base value d'.
  assert (Hi : 0 <= (s + k) * jump) by nia.
  assert (Hi2 : (s + k) * jump + jump = (s + k + 1) * jump) by lia.
  assert (Hval : wrap64 (v + wrap64 ((s + k) * jump - s * jump) / jump) = value).
  { unfold value. f_equal. f_equal.
    replace ((s + k) * jump - s * jump) with (k * jump) by lia.
    rewrite wrap64_small by nia. apply Z.div_mul. lia. }
  unfold d', FillAddressOverlay_body. cbv zeta. rewrite Hval.
  rewrite (wrap64_small ((s + k) * jump + jump - 1)) by lia.
  assert (Hl1 : length (wr64 d ((s + k) * jump) value) = length d)
    by (apply length_wr64; lia).
  split.
  - rewrite length_wr64 by lia. exact Hl1.
  - intros p Hp. rewrite rd_wr64 by lia. rewrite rd_wr64 by lia.
    replace (8 * ((s + k) * jump + jump - 1)) with (base + 8 * jump - 8) by (unfold base; lia).
    replace (base + 8 * jump - 8 + 8) with (base + 8 * jump) by lia.
    fold base. reflexivity.
Qed.

Lemma FillAddressOverlay_loop_spec v s count jump bps d0 :
  1 <= jump -> bps = 8 * jump -> 0 <= s -> 0 <= count ->
  (s + count) * bps <= Z.of_nat (length d0) -> Z.of_nat (length d0) < 2 ^ 63 ->
  forall fuel k d,
    0 <= k <= count -> count - k <= Z.of_nat fuel ->
    length d = length d0 ->
    (forall p, 0 <= p ->
       rd d p = if (s * bps <=? p) && (p <? (s + k) * bps)
                then overlay_byte v bps (p - s * bps) (rd d0 p) else rd d0 p) ->
    exists d',
      FillAddressOverlay_loop fuel v (s * jump) ((s + count) * jump) jump
        ((s + k) * jump) d = Some d' /\
      length d' = length d0 /\
      (forall p, 0 <= p ->
         rd d' p = if (s * bps <=? p) && (p <? (s + count) * bps)
                   then overlay_byte v bps (p - s * bps) (rd d0 p) else rd d0 p).
Proof.
  intros Hj Hbps Hs Hc Hfit Hsmall.
  assert (Hend : 0 <= (s + count) * jump < 2 ^ 63) by nia.
  induction fuel as [|fuel IH]; intros k d Hk Hfuel Hlen Hrd;
    cbn [FillAddressOverlay_loop]; rewrite (to_Int64_small _ Hend).
  - assert (k = count) by lia. subst k.
    destruct (Z.ltb_spec ((s + count) * jump) ((s + count) * jump)); [lia|].
    exists d. auto.
  - destruct (Z.ltb_spec ((s + k) * jump) ((s + count) * jump)) as [Hlt|Hge].
    + assert (Hk' : k < count) by nia.
      assert (Hnext : (s + k) * jump + jump = (s + (k + 1)) * jump) by lia.
      rewrite to_Int64_small by nia. rewrite Hnext.
      destruct (FillAddressOverlay_body_spec v s jump k d) as (Hl' & Hr'); try lia; try nia.
      apply IH; [lia|lia|congruence|].
      intros p Hp. rewrite Hr' by lia. rewrite Hrd by lia.
      replace (8 * ((s + k) * jump)) with ((s + k) * bps) by lia.
      replace (8 * jump) with bps by lia.
      destruct (Z.leb_spec (s * bps) p) as [Hsb|Hsb]; cbn [andb].
      * destruct (Z.ltb_spec p ((s + k) * bps)) as [Hin|Hout].
        -- destruct (Z.ltb_spec p ((s + (k + 1)) * bps)); [|nia].
           destruct (Z.leb_spec ((s + k) * bps + bps - 8) p); [lia|]. cbn [andb].
           destruct (Z.leb_spec ((s + k) * bps) p); [lia|]. reflexivity.
        -- destruct (Z.ltb_spec p ((s + (k + 1)) * bps)) as [Hin'|Hout'].
           ++ set (off := p - (s + k) * bps).
              assert (Hoff : 0 <= off < bps) by (unfold off; lia).
              assert (Hp' : p - s * bps = k * bps + off) by (unfold off; lia).
              unfold overlay_byte. cbv zeta. rewrite Hp', mod_sector, div_sector by lia.
              destruct (Z.leb_spec ((s + k) * bps + bps - 8) p),
                       (Z.leb_spec (bps - 8) off); try (unfold off in *; lia); cbn [andb].
              ** destruct (Z.ltb_spec p ((s + k) * bps + bps)); [|lia].
                 f_equal. unfold off. lia.
              ** destruct (Z.leb_spec ((s + k) * bps) p); [|lia]. cbn [andb].
                 destruct (Z.ltb_spec p ((s + k) * bps + 8)), (Z.ltb_spec off 8);
                   try (unfold off in *; lia); reflexivity.
           ++ destruct (Z.leb_spec ((s + k) * bps + bps - 8) p); cbn [andb].
              ** destruct (Z.ltb_spec p ((s + k) * bps + bps)); [lia|].
                 destruct (Z.leb_spec ((s + k) * bps) p); cbn [andb]; [|reflexivity].
                 destruct (Z.ltb_spec p ((s + k) * bps + 8)); [lia|reflexivity].
              ** destruct (Z.leb_spec ((s + k) * bps) p); [lia|reflexivity].
      * destruct (Z.leb_spec ((s + k) * bps + bps - 8) p); [nia|]. cbn [andb].
        destruct (Z.leb_spec ((s + k) * bps) p); [nia|]. reflexivity.
    + assert (k = count) by nia. subst k. exists d. auto.
Qed.

Lemma FillAddressOverlay_spec b v s c :
  wf b -> _bytesPerSector b mod 8 = 0 -> valid_sector_range b s c ->
  exists d',
    FillAddressOverlay v s c b = (Ok tt, set_payload d' b) /\
    length d' = length (payload b) /\
    forall p, 0 <= p ->
      rd d' p = if (range_start b s <=? p) && (p <? range_end b s c)
                then overlay_byte v (_bytesPerSector b) (p - range_start b s)
                       (rd (payload b) p)
                else rd (payload b) p.
Proof.
  intros Hwf Hmod Hv.
  pose proof (range_bounds b Hwf s c Hv) as (H0 & H1 & H2 & H3).
  pose proof (range_count_pos b s c Hv) as Hcnt.
  pose proof (range_count_le b s c Hv) as Hcle.
  pose proof Hwf as (Hsc & Hbps & Ht & Hlen).
  pose proof Hv as ((Hs & _) & _).
  unfold FillAddressOverlay, bind, check, get. cbv beta.
  rewrite (ValidateSectorRange_valid b Hwf s c Hv).
  unfold range_start, range_end, total in *.
  remember (_bytesPerSector b) as bps eqn:Ebps.
  remember (range_count b s c) as n eqn:En.
  remember (_sectorCount b) as sc eqn:Esc.
  remember (bps / 8) as jump eqn:Ejump.
  assert (Hb8 : bps = 8 * jump) by (subst jump; apply Z.div_exact in Hmod; lia).
  assert (Hj : 1 <= jump) by lia.
  clear Ejump Ebps En Esc Hmod.
  assert (Hsn : (s + n) * jump <= sc * jump) by (apply Z.mul_le_mono_nonneg_r; lia).
  assert (Hscj : sc * jump * 8 = sc * bps) by (rewrite Hb8; ring).
  assert (Hsj : 0 <= s * jump) by (apply Z.mul_nonneg_nonneg; lia).
  assert (Hsj2 : s * jump <= (s + n) * jump) by (apply Z.mul_le_mono_nonneg_r; lia).
  assert (Hscsc : sc <= sc * jump) by nia.
  rewrite (wrap64_small (s + n)) by lia.
  rewrite (wrap64_small (s * jump)) by lia.
  rewrite (wrap64_small ((s + n) * jump)) by lia.
  unfold ValidateCounterMax, LLONG_MAX.
  destruct (Z.gtb_spec ((s + n) * jump) (2 ^ 63 - 1)); [lia|].
  rewrite (to_Int64_small (s * jump)) by lia.
  destruct (FillAddressOverlay_loop_spec v s n jump bps (payload b) Hj Hb8 ltac:(lia)
              ltac:(lia) ltac:(lia) ltac:(lia) (Z.to_nat ((s + n) * jump)) 0 (payload b))
    as (d' & Hloop & Hl' & Hr').
  - lia.
  - assert (n <= (s + n) * jump) by nia. lia.
  - reflexivity.
  - intros p Hp. rewrite Z.add_0_r.
    destruct (Z.leb_spec (s * bps) p), (Z.ltb_spec p (s * bps)); cbn [andb];
      try reflexivity; lia.
  - rewrite Z.add_0_r in Hloop. rewrite Hloop.
    exists d'. split; [reflexivity|]. split; [exact Hl'|exact Hr'].
Qed.

(** X15. On sectors whose size is a multiple of 8, [FillAddressOverlay]
    stores the starting value plus the index of the sector within the
    range, least significant byte first, in the first eight and in the
    last eight bytes of every sector of the range; the bytes between them
    and the bytes outside the range keep their values, and so do the other
    members, in pattern mode as well. *)
Theorem FillAddressOverlay_sectors b v s c :
  wf b -> _bytesPerSector b mod 8 = 0 -> valid_sector_range b s c ->
  let sb := range_start b s in
  let bps := _bytesPerSector b in
  exists d',
    FillAddressOverlay v s c b = (Ok tt, set_payload d' b) /\
    length d' = length (payload b) /\
    (forall k j, 0 <= k < range_count b s c -> 0 <= j < 8 ->
       rd d' (sb + k * bps + j) = byte_of (wrap64 (v + k)) j /\
       rd d' (sb + k * bps + (bps - 8) + j) = byte_of (wrap64 (v + k)) j) /\
    (forall k j, 0 <= k < range_count b s c -> 8 <= j < bps - 8 ->
       rd d' (sb + k * bps + j) = rd (payload b) (sb + k * bps + j)) /\
    (forall p, 0 <= p -> p < sb \/ range_end b s c <= p ->
       rd d' p = rd (payload b) p).
Proof.
  intros Hwf Hmod Hv sb bps.
  destruct (FillAddressOverlay_spec b v s c Hwf Hmod Hv) as (d' & Hrun & Hlen & Hrd).
  pose proof (range_bounds b Hwf s c Hv) as (H0 & H1 & H2 & H3).
  fold sb bps in H0, H1, H3, Hrd.
  assert (Hq : exists q, bps = 8 * q).
  { exists (bps / 8). apply Z.div_exact in Hmod; [|lia]. exact Hmod. }
  destruct Hq as (q & Hq).
  assert (Hb8 : 8 <= bps).
  { destruct Hwf as (_ & Hb & _). fold bps in Hb. lia. }
  assert (Hin : forall k off, 0 <= k < range_count b s c -> 0 <= off < bps ->
            rd d' (sb + k * bps + off)
            = overlay_byte v bps (k * bps + off) (rd (payload b) (sb + k * bps + off))).
  { intros k off Hk Hoff. rewrite Hrd by nia.
    destruct (Z.leb_spec sb (sb + k * bps + off)); [|nia].
    destruct (Z.ltb_spec (sb + k * bps + off) (range_end b s c)); [|nia].
    cbn [andb]. f_equal. lia. }
  exists d'. split; [exact Hrun|]. split; [exact Hlen|].
  split; [|split].
  - intros k j Hk Hj. split.
    + rewrite Hin by lia. unfold overlay_byte. cbv zeta.
      rewrite mod_sector, div_sector by lia.
      destruct (Z.leb_spec (bps - 8) j).
      * f_equal. lia.
      * destruct (Z.ltb_spec j 8); [reflexivity|lia].
    + replace (sb + k * bps + (bps - 8) + j) with (sb + k * bps + (bps - 8 + j)) by lia.
      rewrite Hin by lia. unfold overlay_byte. cbv zeta.
      rewrite mod_sector, div_sector by lia.
      destruct (Z.leb_spec (bps - 8) (bps - 8 + j)); [|lia]. f_equal. lia.
  - intros k j Hk Hj. rewrite Hin by lia. unfold overlay_byte. cbv zeta.
    rewrite mod_sector by lia.
    destruct (Z.leb_spec (bps - 8) j); [lia|].
    destruct (Z.ltb_spec j 8); [lia|reflexivity].
  - intros p Hp Hout. rewrite Hrd by lia.
    destruct (Z.leb_spec sb p), (Z.ltb_spec p (range_end b s c)); cbn [andb];
      try reflexivity; lia.
Qed.

Lemma FillAddressOverlay_sectors_witness :
  exists d',
    FillAddressOverlay 1000 0 0 sample_plain = (Ok tt, set_payload d' sample_plain) /\
    length d' = length (payload sample_plain) /\
    (rd d' (0 + 1 * 32 + 0) = byte_of (wrap64 (1000 + 1)) 0 /\
     rd d' (0 + 1 * 32 + (32 - 8) + 0) = byte_of (wrap64 (1000 + 1)) 0) /\
    rd d' (0 + 1 * 32 + 8) = rd (payload sample_plain) (0 + 1 * 32 + 8).
Proof.
  destruct (FillAddressOverlay_sectors sample_plain 1000 0 0 wf_sample_plain
              eq_refl valid_whole_sample_plain)
    as (d' & Hrun & Hlen & Hends & Hmid & _).
  exists d'. split; [exact Hrun|]. split; [exact Hlen|].
  split.
  - exact (Hends 1 0 ltac:(vm_compute; split; [discriminate|reflexivity]) ltac:(lia)).
  - exact (Hmid 1 8 ltac:(vm_compute; split; [discriminate|reflexivity])
             ltac:(vm_compute; split; [discriminate|reflexivity])).
Defined.

(** X16. On sectors of fewer than 8 bytes [FillAddressOverlay] checks the
    sector range and writes nothing. *)
Theorem FillAddressOverlay_small_sectors b v s c :
  wf b -> _bytesPerSector b < 8 -> valid_sector_range b s c ->
  FillAddressOverlay v s c b = (Ok tt, b).
Proof.
  intros Hwf Hsmall Hv. pose proof Hwf as (Hsc & Hbps & Ht & Hlen).
  unfold FillAddressOverlay, bind, check, get. cbv beta.
  rewrite (ValidateSectorRange_valid b Hwf s c Hv).
  rewrite (Z.div_small (_bytesPerSector b) 8) by lia.
  rewrite !Z.mul_0_r. change (wrap64 0) with 0.
  cbn [ValidateCounterMax Z.to_nat FillAddressOverlay_loop].
  change (ValidateCounterMax 0) with (@Ok unit tt).
  replace (FillAddressOverlay_loop (Z.to_nat 0) v 0 0 0 (to_Int64 0) (payload b))
    with (Some (payload b)) by reflexivity.
  rewrite set_payload_same. reflexivity.
Qed.

Lemma wf_sample_small : wf sample_small.
Proof. unfold wf, total. simpl. lia. Qed.

Lemma FillAddressOverlay_small_sectors_witness :
  _bytesPerSector sample_small < 8 /\
  FillAddressOverlay 1000 1 2 sample_small = (Ok tt, sample_small).
Proof.
  split; [reflexivity|].
  exact (FillAddressOverlay_small_sectors sample_small 1000 1 2 wf_sample_small
           eq_refl ltac:(unfold valid_sector_range; simpl; lia)).
Defined.

(** ** Range checks *)

Lemma ValidateSectorRange_invalid b s c :
  wf b -> 0 <= s -> 0 <= c -> s + c < 2 ^ 64 -> ~ valid_sector_range b s c ->
  ValidateSectorRangeAndGetSectorCount s c b = Throw OutOfRangeError.
Proof.
  intros Hwf Hs Hc Hno Hinv. pose proof Hwf as (Hsc & Hbps & Ht & Hlen).
  unfold valid_sector_range in Hinv.
  unfold ValidateSectorRangeAndGetSectorCount, GetSectorCount.
  destruct (Z.geb_spec s (_sectorCount b)) as [Hge|Hlt]; [reflexivity|].
  destruct (Z.eqb_spec c 0) as [->|Hne]; [lia|].
  rewrite wrap64_small by lia.
  destruct (Z.gtb_spec (s + c) (_sectorCount b)); [reflexivity|lia].
Qed.

Lemma GetStartAndStop_invalid b s c :
  wf b -> 0 <= s -> 0 <= c -> s + c < 2 ^ 64 -> ~ valid_sector_range b s c ->
  GetStartAndStopBytesFromSectors s c b = Throw OutOfRangeError.
Proof.
  intros Hwf Hs Hc Hno Hinv. unfold GetStartAndStopBytesFromSectors.
  rewrite (ValidateSectorRange_invalid b s c Hwf Hs Hc Hno Hinv). reflexivity.
Qed.

Lemma GetRandom_seeded seed clock b :
  GetRandom true seed clock b
  = (Ok (Random32_seeded seed), set_random (Some (Random32_seeded seed)) b).
Proof. unfold GetRandom. destruct (_random b); reflexivity. Qed.

(** X17. A fill whose sector range fails the check throws the
    out-of-range error and leaves the payload as it was. [FillBytes] with
    an empty vector returns without a check. [FillRandomSeeded] has by
    then seeded the generator of the buffer; [FillRandomSeededBySector]
    has not. *)
Theorem fills_out_of_range b s c :
  wf b -> 0 <= s -> 0 <= c -> s + c < 2 ^ 64 -> ~ valid_sector_range b s c ->
  (forall v, Fill v s c b = (Throw OutOfRangeError, b)) /\
  (forall v, FillIncrementing v s c b = (Throw OutOfRangeError, b)) /\
  (forall v, FillDecrementing v s c b = (Throw OutOfRangeError, b)) /\
  (forall v, FillAddressOverlay v s c b = (Throw OutOfRangeError, b)) /\
  (forall lst, lst <> [] -> FillBytes lst s c b = (Throw OutOfRangeError, b)) /\
  FillBytes [] s c b = (Ok tt, b) /\
  (_bytesPerSector b mod 4 = 0 ->
   forall seed,
     FillRandomSeededBySector seed s c b = (Throw OutOfRangeError, b) /\
     FillRandomSeeded seed s c b
     = (Throw OutOfRangeError, set_random (Some (Random32_seeded seed)) b)).
Proof.
  intros Hwf Hs Hc Hno Hinv.
  pose proof (ValidateSectorRange_invalid b s c Hwf Hs Hc Hno Hinv) as Hval.
  pose proof (GetStartAndStop_invalid b s c Hwf Hs Hc Hno Hinv) as Hget.
  split; [|split; [|split; [|split; [|split; [|split]]]]].
  - intros v. unfold Fill, bind, check. rewrite Hget. reflexivity.
  - intros v. unfold FillIncrementing, bind, check. rewrite Hget. reflexivity.
  - intros v. unfold FillDecrementing, bind, check. rewrite Hget. reflexivity.
  - intros v. unfold FillAddressOverlay, bind, check. rewrite Hval. reflexivity.
  - intros lst Hne. unfold FillBytes.
    destruct (Z.eqb_spec (Z.of_nat (length lst)) 0) as [H0|H0].
    + destruct lst; [congruence|simpl in H0; lia].
    + cbn [negb]. unfold bind, check. rewrite Hget. reflexivity.
  - reflexivity.
  - intros Hmod seed. split.
    + unfold FillRandomSeededBySector, bind, check, get, GetBytesPerSector. cbv beta.
      rewrite Hmod. change (negb (0 =? 0)) with false. cbv beta iota.
      rewrite Hval. reflexivity.
    + unfold FillRandomSeeded, FillRandomImpl, bind, get, GetBytesPerSector. cbv beta.
      rewrite Hmod. change (negb (0 =? 0)) with false. cbv beta iota.
      rewrite GetRandom_seeded.
      unfold FillSectorsWithRandomData, bind, check. cbv beta.
      assert (Hget' : GetStartAndStopBytesFromSectors s c
                        (set_random (Some (Random32_seeded seed)) b)
                      = Throw OutOfRangeError) by exact Hget.
      rewrite Hget'. reflexivity.
Qed.

Lemma fills_out_of_range_witness :
  ~ valid_sector_range sample_plain 1 2 /\
  Fill 7 1 2 sample_plain = (Throw OutOfRangeError, sample_plain) /\
  FillBytes [] 1 2 sample_plain = (Ok tt, sample_plain) /\
  FillRandomSeeded 5 1 2 sample_plain
  = (Throw OutOfRangeError, set_random (Some (Random32_seeded 5)) sample_plain).
Proof.
  assert (Hinv : ~ valid_sector_range sample_plain 1 2)
    by (unfold valid_sector_range; simpl; lia).
  destruct (fills_out_of_range sample_plain 1 2 wf_sample_plain
              ltac:(lia) ltac:(lia) ltac:(lia) Hinv)
    as (Hfill & _ & _ & _ & _ & Hempty & Hrandom).
  split; [exact Hinv|]. split; [exact (Hfill 7)|]. split; [exact Hempty|].
  exact (proj2 (Hrandom eq_refl 5)).
Defined.

(** X18. The range checks add in [size_t]: a sector range, or a byte
    range, whose end wraps around passes the check when the wrapped end
    lies inside the buffer, although the range does not. *)
Theorem range_checks_wrap b start count :
  wf b -> 0 <= start < 2 ^ 64 -> 1 <= count < 2 ^ 64 -> 2 ^ 64 <= start + count ->
  (start < _sectorCount b -> start + count - 2 ^ 64 <= _sectorCount b ->
   ~ valid_sector_range b start count /\
   ValidateSectorRangeAndGetSectorCount start count b = Ok count) /\
  (start < total b -> start + count - 2 ^ 64 <= total b ->
   ~ valid_byte_range b start count /\
   ValidateByteRangeAndGetLength start count b = Ok count).
Proof.
  intros Hwf Hs Hc Hwrap. pose proof Hwf as (Hsc & Hbps & Ht & Hlen).
  pose proof (GetTotalBytes_wf b Hwf) as Htot.
  assert (Hscb : _sectorCount b <= total b).
  { unfold total. rewrite <- (Z.mul_1_r (_sectorCount b)) at 1.
    apply Z.mul_le_mono_nonneg_l; lia. }
  assert (Hw : wrap64 (start + count) = start + count - 2 ^ 64).
  { unfold wrap64. symmetry. apply (Z.mod_unique _ _ 1); lia. }
  split; intros Hlt Hin.
  - split; [unfold valid_sector_range; lia|].
    unfold ValidateSectorRangeAndGetSectorCount, GetSectorCount.
    destruct (Z.eqb_spec count 0); [lia|].
    destruct (Z.geb_spec start (_sectorCount b)); [lia|].
    rewrite Hw. destruct (Z.gtb_spec (start + count - 2 ^ 64) (_sectorCount b)); [lia|].
    reflexivity.
  - split; [unfold valid_byte_range; lia|].
    unfold ValidateByteRangeAndGetLength. rewrite Htot.
    destruct (Z.eqb_spec count 0); [lia|].
    destruct (Z.geb_spec start (total b)); [lia|].
    rewrite Hw. destruct (Z.gtb_spec (start + count - 2 ^ 64) (total b)); [lia|].
    reflexivity.
Qed.

Lemma range_checks_wrap_witness :
  ~ valid_sector_range sample_plain 1 (2 ^ 64 - 1) /\
  ValidateSectorRangeAndGetSectorCount 1 (2 ^ 64 - 1) sample_plain = Ok (2 ^ 64 - 1) /\
  ~ valid_byte_range sample_plain 1 (2 ^ 64 - 1) /\
  ValidateByteRangeAndGetLength 1 (2 ^ 64 - 1) sample_plain = Ok (2 ^ 64 - 1).
Proof.
  destruct (range_checks_wrap sample_plain 1 (2 ^ 64 - 1) wf_sample_plain
              ltac:(lia) ltac:(lia) ltac:(lia)) as (Hsec & Hbyte).
  destruct (Hsec ltac:(vm_compute; reflexivity) ltac:(vm_compute; discriminate))
    as (H1 & H2).
  destruct (Hbyte ltac:(vm_compute; reflexivity) ltac:(vm_compute; discriminate))
    as (H3 & H4).
  split; [exact H1|]. split; [exact H2|]. split; [exact H3|exact H4].
Defined.

(** ** CopyTo and CopyFrom *)

Lemma rd_take_drop (d : list Z) off n k :
  0 <= off -> 0 <= k < n -> rd (take (Z.to_nat n) (drop (Z.to_nat off) d)) k = rd d (off + k).
Proof.
  intros Hoff Hk. unfold rd.
  rewrite lookup_total_take_lt by lia. rewrite lookup_total_drop.
  f_equal. lia.
Qed.

Lemma length_take_drop (d : list Z) off n :
  0 <= off -> 0 <= n -> off + n <= Z.of_nat (length d) ->
  Z.of_nat (length (take (Z.to_nat n) (drop (Z.to_nat off) d))) = n.
Proof.
  intros Hoff Hn Hfit. rewrite length_take, length_drop. lia.
Qed.

(** What a copy of the [n] bytes at [src] of [from] to [dst] leaves in
    the payload. *)
Lemma copy_between d from dst src n :
  0 <= dst -> 0 <= src -> 0 <= n ->
  dst + n <= Z.of_nat (length d) -> src + n <= Z.of_nat (length from) ->
  let d' := write_bytes d dst (take (Z.to_nat n) (drop (Z.to_nat src) from)) in
  length d' = length d /\
  (forall k, 0 <= k < n -> rd d' (dst + k) = rd from (src + k)) /\
  (forall p, 0 <= p -> p < dst \/ dst + n <= p -> rd d' p = rd d p).
Proof.
  intros Hdst Hsrc Hn Hfd Hfs d'.
  pose proof (length_take_drop from src n Hsrc Hn Hfs) as Hl.
  split; [|split].
  - unfold d'. apply length_write_bytes; lia.
  - intros k Hk. unfold d'. rewrite rd_write_bytes by lia. rewrite Hl.
    destruct (Z.leb_spec dst (dst + k)); [|lia].
    destruct (Z.ltb_spec (dst + k) (dst + n)); [|lia]. cbn [andb].
    replace (dst + k - dst) with k by lia. apply rd_take_drop; lia.
  - intros p Hp Hout. unfold d'. rewrite rd_write_bytes by lia. rewrite Hl.
    destruct (Z.leb_spec dst p), (Z.ltb_spec p (dst + n)); cbn [andb];
      try reflexivity; lia.
Qed.

Lemma CopyTo_spec this dest s ds c :
  wf this -> wf dest -> valid_sector_range this s c -> 0 <= ds ->
  ds * _bytesPerSector this + range_bytes this s c <= total dest ->
  let dst := ds * _bytesPerSector this in
  exists d',
    CopyTo dest s ds c this = Ok (set_payload d' dest) /\
    length d' = length (payload dest) /\
    (forall k, 0 <= k < range_bytes this s c ->
       rd d' (dst + k) = rd (payload this) (range_start this s + k)) /\
    (forall p, 0 <= p -> p < dst \/ dst + range_bytes this s c <= p ->
       rd d' p = rd (payload dest) p).
Proof.
  intros Hwf Hwfd Hv Hds Hfit dst.
  pose proof (range_bounds this Hwf s c Hv) as (H0 & H1 & H2 & H3).
  pose proof Hwf as (Hsc & Hbps & Ht & Hlen).
  pose proof Hwfd as (Hsc' & Hbps' & Ht' & Hlen').
  unfold range_bytes in *.
  assert (Hdst : 0 <= dst) by (unfold dst; nia).
  unfold CopyTo. rewrite (GetStartAndStop_valid this Hwf s c Hv).
  cbn [Result_bind]. unfold GetBytesPerSector. fold dst.
  rewrite (wrap64_small dst) by lia.
  rewrite (wrap64_small (range_end this s c - range_start this s)) by lia.
  eexists. split; [reflexivity|].
  apply copy_between; lia.
Qed.

(** X19. [CopyTo] checks the sector range of the source only and places
    the bytes in the destination at the destination sector times the
    sector size of the source. When they fit the payload of the
    destination, they are the bytes of the source range, and no other
    byte and no other member of the destination changes. *)
Theorem CopyTo_copies this dest s ds c :
  wf this -> wf dest -> valid_sector_range this s c -> 0 <= ds ->
  ds * _bytesPerSector this + range_bytes this s c <= total dest ->
  let dst := ds * _bytesPerSector this in
  exists d',
    CopyTo dest s ds c this = Ok (set_payload d' dest) /\
    length d' = length (payload dest) /\
    (forall k, 0 <= k < range_bytes this s c ->
       rd d' (dst + k) = rd (payload this) (range_start this s + k)) /\
    (forall p, 0 <= p -> p < dst \/ dst + range_bytes this s c <= p ->
       rd d' p = rd (payload dest) p).
Proof. exact (CopyTo_spec this dest s ds c). Qed.

Lemma valid_sample_named_1_1 : valid_sector_range sample_named 1 1.
Proof. unfold valid_sector_range. simpl. lia. Qed.

Lemma valid_whole_sample_named : valid_sector_range sample_named 0 0.
Proof. unfold valid_sector_range. simpl. lia. Qed.

Lemma CopyTo_copies_witness :
  exists d',
    CopyTo sample_plain 1 3 1 sample_named = Ok (set_payload d' sample_plain) /\
    length d' = length (payload sample_plain) /\
    rd d' (3 * 8 + 7) = rd (payload sample_named) (range_start sample_named 1 + 7) /\
    rd d' (3 * 32) = rd (payload sample_plain) (3 * 32).
Proof.
  destruct (CopyTo_copies sample_named sample_plain 1 3 1 wf_sample_named wf_sample_plain
              valid_sample_named_1_1 ltac:(lia) ltac:(vm_compute; discriminate))
    as (d' & Hrun & Hlen & Hin & Hout).
  exists d'. split; [exact Hrun|]. split; [exact Hlen|]. split.
  - exact (Hin 7 ltac:(vm_compute; split; [discriminate|reflexivity])).
  - exact (Hout (3 * 32) ltac:(lia) ltac:(right; vm_compute; discriminate)).
Defined.

(** X20. [CopyFrom] checks the sector range in the source only and
    places the bytes at the start sector times the sector size of the
    receiving buffer. When they fit its payload, they are the bytes of
    the source range, and no other byte and no other member changes. *)
Theorem CopyFrom_copies this src s ss c :
  wf this -> wf src -> valid_sector_range src ss c -> 0 <= s ->
  s * _bytesPerSector this + range_bytes src ss c <= total this ->
  let dst := s * _bytesPerSector this in
  exists d',
    CopyFrom src s ss c this = (Ok tt, set_payload d' this) /\
    length d' = length (payload this) /\
    (forall k, 0 <= k < range_bytes src ss c ->
       rd d' (dst + k) = rd (payload src) (range_start src ss + k)) /\
    (forall p, 0 <= p -> p < dst \/ dst + range_bytes src ss c <= p ->
       rd d' p = rd (payload this) p).
Proof.
  intros Hwf Hwfs Hv Hs Hfit dst.
  pose proof (range_bounds src Hwfs ss c Hv) as (H0 & H1 & H2 & H3).
  pose proof Hwf as (Hsc & Hbps & Ht & Hlen).
  pose proof Hwfs as (Hsc' & Hbps' & Ht' & Hlen').
  unfold range_bytes in *.
  assert (Hdst : 0 <= dst) by (unfold dst; nia).
  unfold CopyFrom, bind, check, get, modify. cbv beta.
  rewrite (GetStartAndStop_valid src Hwfs ss c Hv). cbv beta iota.
  unfold GetBytesPerSector. fold dst.
  rewrite (wrap64_small dst) by lia.
  rewrite (wrap64_small (range_end src ss c - range_start src ss)) by lia.
  eexists. split; [reflexivity|].
  apply copy_between; lia.
Qed.

Lemma CopyFrom_copies_witness :
  exists d',
    CopyFrom sample_named 1 0 0 sample_plain = (Ok tt, set_payload d' sample_plain) /\
    length d' = length (payload sample_plain) /\
    rd d' (1 * 32 + 15) = rd (payload sample_named) (range_start sample_named 0 + 15) /\
    rd d' 8 = rd (payload sample_plain) 8.
Proof.
  destruct (CopyFrom_copies sample_plain sample_named 1 0 0 wf_sample_plain wf_sample_named
              valid_whole_sample_named ltac:(lia) ltac:(vm_compute; discriminate))
    as (d' & Hrun & Hlen & Hin & Hout).
  exists d'. split; [exact Hrun|]. split; [exact Hlen|]. split.
  - exact (Hin 15 ltac:(vm_compute; split; [discriminate|reflexivity])).
  - exact (Hout 8 ltac:(lia) ltac:(left; vm_compute; reflexivity)).
Defined.

(** X21. Between buffers of the same sector size, a [CopyTo] followed by
    a [CompareTo] of the same sectors reports the two buffers equal. *)
Theorem CopyTo_then_CompareTo this dest s ds c :
  wf this -> wf dest -> _bytesPerSector dest = _bytesPerSector this ->
  valid_sector_range this s c -> valid_sector_range dest ds c ->
  ds + range_count this s c <= _sectorCount dest ->
  exists dest',
    CopyTo dest s ds c this = Ok dest' /\
    CompareTo dest' s ds c this = Ok CompareResult_equal.
Proof.
  intros Hwf Hwfd Hbps Hv Hvd Hfit.
  pose proof (range_bounds this Hwf s c Hv) as (H0 & H1 & H2 & H3).
  pose proof (range_bounds dest Hwfd ds c Hvd) as (G0 & G1 & G2 & G3).
  pose proof (range_count_pos this s c Hv) as Hcnt.
  pose proof Hwfd as (Hsc' & Hbps' & Ht' & Hlen').
  pose proof Hvd as ((Hds & _) & _).
  assert (Hbytes : range_bytes this s c = range_count this s c * _bytesPerSector this)
    by (unfold range_bytes; lia).
  assert (Hroom : ds * _bytesPerSector this + range_bytes this s c <= total dest).
  { rewrite Hbytes. unfold total. rewrite Hbps.
    replace (ds * _bytesPerSector this + range_count this s c * _bytesPerSector this)
      with ((ds + range_count this s c) * _bytesPerSector this) by ring.
    apply Z.mul_le_mono_nonneg_r; [destruct Hwf as (_ & ? & _); lia|exact Hfit]. }
  destruct (CopyTo_spec this dest s ds c Hwf Hwfd Hv ltac:(lia) Hroom)
    as (d' & Hcopy & Hlen & Hsame & _).
  exists (set_payload d' dest). split; [exact Hcopy|].
  assert (Hwfd' : wf (set_payload d' dest)) by (apply wf_set_payload_length; assumption).
  assert (Hvc : valid_compare_range this (set_payload d' dest) s ds c).
  { split; [exact Hv|]. split; [exact Hvd|]. intros Hc.
    unfold range_end, range_start, range_count.
    cbn [set_payload _sectorCount _bytesPerSector]. rewrite Hbps.
    destruct (Z.eqb_spec c 0); [contradiction|]. ring. }
  destruct (CompareTo_result this (set_payload d' dest) s ds c Hwf Hwfd' Hvc)
    as (r & Hr & Hiff & Heq & _).
  rewrite Hr. f_equal. apply Heq. apply Hiff. intros i Hi.
  assert (Hle : compare_length this (set_payload d' dest) s ds c <= range_bytes this s c).
  { unfold compare_length, range_bytes. destruct (c =? 0); lia. }
  replace (range_start (set_payload d' dest) ds) with (ds * _bytesPerSector this)
    by (unfold range_start; cbn [set_payload _bytesPerSector]; rewrite Hbps; reflexivity).
  cbn [payload set_payload]. symmetry. apply Hsame. lia.
Qed.

Lemma CopyTo_then_CompareTo_witness :
  exists dest',
    CopyTo sample_pattern 0 0 0 sample_plain = Ok dest' /\
    CompareTo dest' 0 0 0 sample_plain = Ok CompareResult_equal.
Proof.
  exact (CopyTo_then_CompareTo sample_plain sample_pattern 0 0 0 wf_sample_plain
           wf_sample_pattern eq_refl valid_whole_sample_plain valid_whole_sample_pattern
           ltac:(vm_compute; discriminate)).
Defined.

(** ** The fills without pattern mode *)

Lemma run_fill_plain b s c f :
  wf b -> _usePatternMode b = false -> valid_sector_range b s c -> fill_args_ok f ->
  exists d',
    run_fill f s c b = (Ok tt, set_payload d' b) /\
    filled b s c d' (fill_byte f (_bytesPerSector b)).
Proof.
  intros Hwf Hflag Hv Hok.
  destruct (run_fill_raw b s c f Hwf Hv Hok) as (d1 & Hl1 & Hr1 & Hrun).
  rewrite Hflag in Hrun. exists d1. split; [exact Hrun|]. split; assumption.
Qed.

(** X22. Without pattern mode, on a valid sector range: [Fill] stores the
    value in every byte of the range ([FillZeros] 0, [FillOnes] 0xFF);
    [FillBytes] repeats the vector from the start of the range to its
    end, across sector borders; [FillDecrementing] stores in every sector
    the start value minus the offset in the sector, modulo 256. The bytes
    outside the range and the other members keep their values. *)
Theorem fills_without_pattern_mode b s c :
  wf b -> _usePatternMode b = false -> valid_sector_range b s c ->
  (forall v, exists d',
     Fill v s c b = (Ok tt, set_payload d' b) /\ filled b s c d' (fun _ => v)) /\
  (exists d',
     FillZeros s c b = (Ok tt, set_payload d' b) /\ filled b s c d' (fun _ => 0)) /\
  (exists d',
     FillOnes s c b = (Ok tt, set_payload d' b) /\ filled b s c d' (fun _ => 255)) /\
  (forall lst, 0 < Z.of_nat (length lst) < 2 ^ 63 -> exists d',
     FillBytes lst s c b = (Ok tt, set_payload d' b) /\
     filled b s c d' (fun k => rd lst (k mod Z.of_nat (length lst)))) /\
  (forall v, 0 <= v < 256 -> exists d',
     FillDecrementing v s c b = (Ok tt, set_payload d' b) /\
     filled b s c d' (fun k => wrap8 (v - k mod _bytesPerSector b))).
Proof.
  intros Hwf Hflag Hv.
  split; [|split; [|split; [|split]]].
  - intros v. exact (run_fill_plain b s c (PFill v) Hwf Hflag Hv I).
  - exact (run_fill_plain b s c (PFill 0) Hwf Hflag Hv I).
  - exact (run_fill_plain b s c (PFill 255) Hwf Hflag Hv I).
  - intros lst Hlst. exact (run_fill_plain b s c (PFillBytes lst) Hwf Hflag Hv Hlst).
  - intros v Hvv. exact (run_fill_plain b s c (PFillDecrementing v) Hwf Hflag Hv Hvv).
Qed.

Lemma fills_without_pattern_mode_witness :
  (exists d',
     Fill 7 1 1 sample_plain = (Ok tt, set_payload d' sample_plain) /\
     filled sample_plain 1 1 d' (fun _ => 7)) /\
  (exists d',
     FillBytes [1; 2; 3] 0 0 sample_plain = (Ok tt, set_payload d' sample_plain) /\
     filled sample_plain 0 0 d' (fun k => rd [1; 2; 3] (k mod Z.of_nat (length [1; 2; 3])))) /\
  (exists d',
     FillDecrementing 3 0 0 sample_plain = (Ok tt, set_payload d' sample_plain) /\
     filled sample_plain 0 0 d' (fun k => wrap8 (3 - k mod _bytesPerSector sample_plain))).
Proof.
  assert (Hv11 : valid_sector_range sample_plain 1 1)
    by (unfold valid_sector_range; simpl; lia).
  destruct (fills_without_pattern_mode sample_plain 1 1 wf_sample_plain eq_refl Hv11)
    as (Hfill & _).
  destruct (fills_without_pattern_mode sample_plain 0 0 wf_sample_plain eq_refl
              valid_whole_sample_plain) as (_ & _ & _ & Hbytes & Hdec).
  split; [exact (Hfill 7)|].
  split; [exact (Hbytes [1; 2; 3] ltac:(simpl; lia))|exact (Hdec 3 ltac:(lia))].
Defined.

(** ** The random fills without pattern mode *)

Lemma GetRandom_chosen useSeed seed clock b :
  GetRandom useSeed seed clock b
  = (Ok (chosen_generator useSeed seed clock b),
     set_random (Some (chosen_generator useSeed seed clock b)) b).
Proof.
  unfold GetRandom, chosen_generator.
  destruct (_random b) as [r0|]; [|reflexivity].
  destruct useSeed; [reflexivity|]. destruct (GetIsSeeded r0); reflexivity.
Qed.

Lemma FillSectorsWithRandomData_loop_plain n : forall bps i r g d,
  0 <= i -> 4 * (i + Z.of_nat n) <= Z.of_nat (length d) -> length g = 12%nat ->
  let res := FillSectorsWithRandomData_loop n false bps i r g d in
  fst (fst res) = Next_times n r /\
  length (snd res) = length d /\
  forall p, 0 <= p ->
    rd (snd res) p =
      if (4 * i <=? p) && (p <? 4 * (i + Z.of_nat n))
      then stream_byte r (p - 4 * i) else rd d p.
Proof.
  induction n as [|n IH]; intros bps i r g d Hi Hfit Hg res.
  - subst res. cbn [FillSectorsWithRandomData_loop fst snd Next_times].
    split; [reflexivity|]. split; [reflexivity|]. intros p Hp.
    destruct (Z.leb_spec (4 * i) p), (Z.ltb_spec p (4 * (i + Z.of_nat 0)));
      cbn [andb]; try reflexivity; lia.
  - subst res. cbn [FillSectorsWithRandomData_loop].
    rewrite FillSectorsWithRandomData_body_eq by exact Hg. cbn [andb negb].
    assert (Hl1 : length (wr32 d i (fst (Next r))) = length d)
      by (apply length_wr32; lia).
    destruct (IH bps (i + 1) (snd (Next r)) g (wr32 d i (fst (Next r))))
      as (Hr & Hl & Hrd); [lia|rewrite Hl1; lia|exact Hg|].
    split; [rewrite Hr; reflexivity|]. split; [congruence|].
    intros p Hp. rewrite Hrd by lia. rewrite rd_wr32 by lia.
    replace (4 * (i + 1 + Z.of_nat n)) with (4 * (i + Z.of_nat (S n))) by lia.
    destruct (Z.leb_spec (4 * (i + 1)) p) as [Hge|Hlt]; cbn [andb].
    + destruct (Z.leb_spec (4 * i) p); [|lia]. cbn [andb].
      destruct (Z.ltb_spec p (4 * (i + Z.of_nat (S n)))); [|
        destruct (Z.leb_spec (4 * i) p), (Z.ltb_spec p (4 * i + 4)); cbn [andb];
          try reflexivity; lia].
      unfold stream_byte.
      replace (p - 4 * i) with ((p - 4 * (i + 1)) + 1 * 4) by lia.
      rewrite Z.div_add, Z.mod_add by lia.
      replace (Z.to_nat ((p - 4 * (i + 1)) / 4 + 1))
        with (S (Z.to_nat ((p - 4 * (i + 1)) / 4)))
        by (assert (0 <= (p - 4 * (i + 1)) / 4) by (apply Z.div_pos; lia); lia).
      rewrite Next_times_S. reflexivity.
    + destruct (Z.leb_spec (4 * i) p) as [Hin|Hout]; cbn [andb].
      * destruct (Z.ltb_spec p (4 * i + 4)); [|lia].
        destruct (Z.ltb_spec p (4 * (i + Z.of_nat (S n)))); [|lia].
        unfold stream_byte. rewrite Z.div_small, Z.mod_small by lia. reflexivity.
      * reflexivity.
Qed.

Lemma FillSectorsWithRandomData_plain b r s c :
  wf b -> _usePatternMode b = false -> _bytesPerSector b mod 4 = 0 ->
  valid_sector_range b s c ->
  exists d',
    FillSectorsWithRandomData r s c b
    = (Ok (Next_times (Z.to_nat (range_bytes b s c / 4)) r), set_payload d' b) /\
    filled b s c d' (stream_byte r).
Proof.
  intros Hwf Hflag Hmod Hv.
  pose proof (range_bounds b Hwf s c Hv) as (H0 & H1 & H2 & H3).
  pose proof (range_count_pos b s c Hv) as Hcnt.
  pose proof Hwf as (Hsc & Hbps & Ht & Hlen).
  pose proof Hv as ((Hs & _) & _).
  destruct (sector_words s (_bytesPerSector b) Hmod) as (Hsd & Hsm).
  destruct (sector_words (s + range_count b s c) (_bytesPerSector b) Hmod) as (Hed & Hem).
  destruct (sector_words (range_count b s c) (_bytesPerSector b) Hmod) as (Hnd & Hnm).
  assert (Hw : 0 <= _bytesPerSector b / 4) by (apply Z.div_pos; lia).
  unfold FillSectorsWithRandomData, bind, check, get, modify. cbv beta.
  rewrite (GetStartAndStop_valid b Hwf s c Hv). cbv beta iota. rewrite Hflag.
  unfold range_bytes, range_start, range_end in *.
  rewrite Hsd, Hed.
  set (W := _bytesPerSector b / 4) in *. set (n := range_count b s c) in *.
  replace (Z.to_nat ((s + n) * W - s * W)) with (Z.to_nat (n * W)) by (f_equal; lia).
  assert (Hnw : 0 <= n * W) by (apply Z.mul_nonneg_nonneg; lia).
  assert (Hsw : 0 <= s * W) by (apply Z.mul_nonneg_nonneg; lia).
  pose proof (FillSectorsWithRandomData_loop_plain (Z.to_nat (n * W)) (_bytesPerSector b)
                (s * W) r (replicate (Z.to_nat COMPRESSION_PATTERN_SIZE_IN_BYTE) 0)
                (payload b) Hsw ltac:(lia) eq_refl) as Hloop.
  cbv zeta in Hloop.
  destruct (FillSectorsWithRandomData_loop (Z.to_nat (n * W)) false (_bytesPerSector b)
              (s * W) r (replicate (Z.to_nat COMPRESSION_PATTERN_SIZE_IN_BYTE) 0)
              (payload b)) as [[r' g'] d'] eqn:E.
  cbn [fst snd] in Hloop. destruct Hloop as (Hr & Hl & Hrd).
  exists d'. split.
  - cbv beta iota. unfold ret. rewrite Hr.
    replace ((s + n) * _bytesPerSector b - s * _bytesPerSector b)
      with (n * _bytesPerSector b) by lia.
    rewrite Hnd. reflexivity.
  - split; [exact Hl|]. intros p Hp. rewrite Hrd by lia.
    rewrite Z2Nat.id by lia.
    replace (4 * (s * W)) with (s * _bytesPerSector b) by lia.
    replace (4 * (s * W + n * W)) with ((s + n) * _bytesPerSector b) by lia.
    reflexivity.
Qed.

Lemma FillRandomImpl_plain b s c useSeed seed clock :
  wf b -> _usePatternMode b = false -> _bytesPerSector b mod 4 = 0 ->
  valid_sector_range b s c ->
  let r := chosen_generator useSeed seed clock b in
  exists d',
    FillRandomImpl s c useSeed seed clock b
    = (Ok tt,
       set_random (Some (Next_times (Z.to_nat (range_bytes b s c / 4)) r))
         (set_payload d' b)) /\
    filled b s c d' (stream_byte r).
Proof.
  intros Hwf Hflag Hmod Hv r.
  set (b1 := set_random (Some r) b).
  assert (Hwf1 : wf b1) by exact Hwf.
  destruct (FillSectorsWithRandomData_plain b1 r s c Hwf1 Hflag Hmod Hv)
    as (d' & Hrun & Hfilled).
  exists d'. split; [|exact Hfilled].
  unfold FillRandomImpl, bind, get, GetBytesPerSector. cbv beta.
  rewrite Hmod. change (negb (0 =? 0)) with false. cbv beta iota.
  rewrite GetRandom_chosen. fold r. fold b1. rewrite Hrun.
  unfold modify. reflexivity.
Qed.

(** X23. Without pattern mode a random fill of a valid sector range
    stores the successive 32-bit outputs of its generator, least
    significant byte first, from the start of the range to its end, and
    leaves that generator, advanced by one output per word, in the
    buffer. [FillRandomSeeded] uses a generator seeded with its seed.
    [FillRandom] uses a new generator started from the clock when the
    buffer has none, the generator of the buffer seeded with 0 when it
    has been seeded before, and the generator of the buffer as it is
    otherwise. *)
Theorem random_fill_stream b s c seed clock :
  wf b -> _usePatternMode b = false -> _bytesPerSector b mod 4 = 0 ->
  valid_sector_range b s c ->
  let words := Z.to_nat (range_bytes b s c / 4) in
  (exists d',
     FillRandomSeeded seed s c b
     = (Ok tt,
        set_random (Some (Next_times words (Random32_seeded seed))) (set_payload d' b)) /\
     filled b s c d' (stream_byte (Random32_seeded seed))) /\
  (let r := match _random b with
            | None => Random32_new clock
            | Some r0 => if _isSeeded r0 then Random32_seeded 0 else r0
            end in
   exists d',
     FillRandom s c clock b
     = (Ok tt, set_random (Some (Next_times words r)) (set_payload d' b)) /\
     filled b s c d' (stream_byte r)).
Proof.
  intros Hwf Hflag Hmod Hv words. split.
  - destruct (FillRandomImpl_plain b s c true seed 0 Hwf Hflag Hmod Hv)
      as (d' & Hrun & Hfilled).
    replace (chosen_generator true seed 0 b) with (Random32_seeded seed) in *
      by (unfold chosen_generator; destruct (_random b); reflexivity).
    exists d'. split; [exact Hrun|exact Hfilled].
  - intros r.
    destruct (FillRandomImpl_plain b s c false 0 clock Hwf Hflag Hmod Hv)
      as (d' & Hrun & Hfilled).
    replace (chosen_generator false 0 clock b) with r in *
      by (unfold chosen_generator, GetIsSeeded, r; destruct (_random b); reflexivity).
    exists d'. split; [exact Hrun|exact Hfilled].
Qed.

Lemma random_fill_stream_witness :
  (exists d',
     FillRandomSeeded 5 0 1 sample_plain
     = (Ok tt,
        set_random
          (Some (Next_times (Z.to_nat (range_bytes sample_plain 0 1 / 4)) (Random32_seeded 5)))
          (set_payload d' sample_plain)) /\
     filled sample_plain 0 1 d' (stream_byte (Random32_seeded 5))) /\
  (exists d',
     FillRandom 0 1 99 sample_plain
     = (Ok tt,
        set_random
          (Some (Next_times (Z.to_nat (range_bytes sample_plain 0 1 / 4)) (Random32_new 99)))
          (set_payload d' sample_plain)) /\
     filled sample_plain 0 1 d' (stream_byte (Random32_new 99))).
Proof.
  exact (random_fill_stream sample_plain 0 1 5 99 wf_sample_plain eq_refl eq_refl
           ltac:(unfold valid_sector_range; simpl; lia)).
Defined.

Lemma set_payload_set_payload d d' b :
  set_payload d' (set_payload d b) = set_payload d' b.
Proof. reflexivity. Qed.

Lemma FillRandomSeededBySector_loop_plain seed s n : forall i random b,
  wf b -> _usePatternMode b = false -> _bytesPerSector b mod 4 = 0 ->
  0 <= i -> i + Z.of_nat n <= _sectorCount b ->
  exists d',
    FillRandomSeededBySector_loop n seed s i random b = (Ok tt, set_payload d' b) /\
    length d' = length (payload b) /\
    forall p, 0 <= p ->
      rd d' p =
        if (i * _bytesPerSector b <=? p) && (p <? (i + Z.of_nat n) * _bytesPerSector b)
        then stream_byte (Random32_seeded (wrap32 (seed + p / _bytesPerSector b - s)))
               (p mod _bytesPerSector b)
        else rd (payload b) p.
Proof.
  induction n as [|n IH]; intros i random b Hwf Hflag Hmod Hi Hfit.
  - exists (payload b). cbn [FillRandomSeededBySector_loop]. unfold ret.
    rewrite set_payload_same. split; [reflexivity|]. split; [reflexivity|].
    intros p Hp. rewrite Z.add_0_r.
    destruct (Z.leb_spec (i * _bytesPerSector b) p),
             (Z.ltb_spec p (i * _bytesPerSector b)); cbn [andb]; try reflexivity; lia.
  - pose proof Hwf as (Hsc & Hbps & Ht & Hlen).
    assert (Hv : valid_sector_range b i 1) by (unfold valid_sector_range; lia).
    cbn [FillRandomSeededBySector_loop]. unfold bind.
    destruct (FillSectorsWithRandomData_plain b
                (Seed (wrap32 (seed + i - s)) random) i 1 Hwf Hflag Hmod Hv)
      as (d1 & Hrun & Hl1 & Hr1).
    rewrite Hrun.
    assert (Hwf1 : wf (set_payload d1 b)) by (apply wf_set_payload_length; assumption).
    destruct (IH (i + 1)
                (Next_times (Z.to_nat (range_bytes b i 1 / 4))
                   (Seed (wrap32 (seed + i - s)) random))
                (set_payload d1 b) Hwf1 Hflag Hmod ltac:(lia)
                ltac:(cbn [set_payload _sectorCount]; lia))
      as (d' & Hloop & Hl' & Hr').
    rewrite Hloop. rewrite set_payload_set_payload.
    exists d'. split; [reflexivity|].
    cbn [set_payload payload _bytesPerSector] in Hl', Hr'.
    split; [congruence|].
    intros p Hp. rewrite Hr' by lia. rewrite Hr1 by lia.
    unfold range_start, range_end, range_count. cbn [Z.eqb].
    set (bps := _bytesPerSector b) in *.
    replace ((i + 1 + Z.of_nat n) * bps) with ((i + Z.of_nat (S n)) * bps) by lia.
    destruct (Z.leb_spec ((i + 1) * bps) p) as [Hge|Hlt]; cbn [andb].
    + destruct (Z.leb_spec (i * bps) p); [|lia]. cbn [andb].
      destruct (Z.ltb_spec p ((i + Z.of_nat (S n)) * bps)); [reflexivity|].
      destruct (Z.ltb_spec p ((i + 1) * bps)); [lia|reflexivity].
    + destruct (Z.leb_spec (i * bps) p) as [Hin|Hout]; cbn [andb]; [|reflexivity].
      destruct (Z.ltb_spec p ((i + 1) * bps)); [|lia].
      destruct (Z.ltb_spec p ((i + Z.of_nat (S n)) * bps)); [|nia].
      assert (Hd : p / bps = i)
        by (replace p with (i * bps + (p - i * bps)) by lia; apply div_sector; lia).
      assert (Hm : p mod bps = p - i * bps)
        by (replace p with (i * bps + (p - i * bps)) at 1 by lia; apply mod_sector; lia).
      rewrite Hd, Hm. reflexivity.
Qed.

(** X24. Without pattern mode [FillRandomSeededBySector] fills sector [k]
    of a valid range with the outputs of a generator seeded with
    [seed + k] modulo 2^32, whatever the other sectors hold; the bytes
    outside the range keep their values, and the buffer keeps a generator
    seeded with [seed]. *)
Theorem FillRandomSeededBySector_sectors b seed s c :
  wf b -> _usePatternMode b = false -> _bytesPerSector b mod 4 = 0 ->
  valid_sector_range b s c ->
  let sb := range_start b s in
  let bps := _bytesPerSector b in
  exists d',
    FillRandomSeededBySector seed s c b
    = (Ok tt, set_payload d' (set_random (Some (Random32_seeded seed)) b)) /\
    length d' = length (payload b) /\
    (forall k j, 0 <= k < range_count b s c -> 0 <= j < bps ->
       rd d' (sb + k * bps + j)
       = stream_byte (Random32_seeded (wrap32 (seed + k))) j) /\
    (forall p, 0 <= p -> p < sb \/ range_end b s c <= p ->
       rd d' p = rd (payload b) p).
Proof.
  intros Hwf Hflag Hmod Hv sb bps.
  pose proof (range_bounds b Hwf s c Hv) as (H0 & H1 & H2 & H3).
  pose proof (range_count_pos b s c Hv) as Hcnt.
  pose proof (range_count_le b s c Hv) as Hcle.
  pose proof Hwf as (Hsc & Hbps & Ht & Hlen).
  pose proof Hv as ((Hs & _) & _).
  assert (Hscb : _sectorCount b <= total b).
  { unfold total. rewrite <- (Z.mul_1_r (_sectorCount b)) at 1.
    apply Z.mul_le_mono_nonneg_l; lia. }
  set (n := range_count b s c) in *.
  unfold FillRandomSeededBySector, bind, check, get, GetBytesPerSector. cbv beta.
  rewrite Hmod. change (negb (0 =? 0)) with false. cbv beta iota.
  rewrite (ValidateSectorRange_valid b Hwf s c Hv). fold n.
  rewrite (wrap64_small (s + n)) by lia.
  unfold ValidateCounterMax, LLONG_MAX.
  destruct (Z.gtb_spec (s + n) (2 ^ 63 - 1)); [lia|].
  rewrite GetRandom_seeded.
  assert (Hgt : (s + n >? 2 ^ 63 - 1) = false)
    by (destruct (Z.gtb_spec (s + n) (2 ^ 63 - 1)); [lia|reflexivity]).
  rewrite ?Hgt.
  set (b1 := set_random (Some (Random32_seeded seed)) b).
  assert (Hwf1 : wf b1) by exact Hwf.
  replace (Z.to_nat (s + n - s)) with (Z.to_nat n) by (f_equal; lia).
  destruct (FillRandomSeededBySector_loop_plain seed s (Z.to_nat n) s
              (Random32_copy (Random32_seeded seed)) b1 Hwf1 Hflag Hmod Hs
              ltac:(cbn [b1 set_random _sectorCount]; lia))
    as (d' & Hloop & Hl' & Hr').
  rewrite Hloop. exists d'. split; [reflexivity|]. split; [exact Hl'|].
  cbn [b1 set_random payload _bytesPerSector] in Hr'. fold bps in Hr'.
  rewrite Z2Nat.id in Hr' by lia.
  unfold range_start, range_end in *. fold bps n sb in H0, H1, H2, H3 |- *.
  split.
  - intros k j Hk Hj.
    assert (Hkb : 0 <= k * bps) by (apply Z.mul_nonneg_nonneg; lia).
    assert (Hkn : (k + 1) * bps <= n * bps) by (apply Z.mul_le_mono_nonneg_r; lia).
    rewrite Hr' by lia.
    destruct (Z.leb_spec (s * bps) (sb + k * bps + j)); [|unfold sb in *; lia].
    destruct (Z.ltb_spec (sb + k * bps + j) ((s + n) * bps)); [|unfold sb in *; lia].
    cbn [andb].
    assert (Hd : (sb + k * bps + j) / bps = s + k)
      by (replace (sb + k * bps + j) with ((s + k) * bps + j) by (unfold sb; lia);
          apply div_sector; lia).
    assert (Hm : (sb + k * bps + j) mod bps = j)
      by (replace (sb + k * bps + j) with ((s + k) * bps + j) by (unfold sb; lia);
          apply mod_sector; lia).
    rewrite Hd, Hm. do 3 f_equal. lia.
  - intros p Hp Hout. rewrite Hr' by lia.
    destruct (Z.leb_spec (s * bps) p), (Z.ltb_spec p ((s + n) * bps)); cbn [andb];
      try reflexivity; lia.
Qed.

Lemma FillRandomSeededBySector_sectors_witness :
  exists d',
    FillRandomSeededBySector 40 0 0 sample_plain
    = (Ok tt, set_payload d' (set_random (Some (Random32_seeded 40)) sample_plain)) /\
    length d' = length (payload sample_plain) /\
    rd d' (range_start sample_plain 0 + 1 * 32 + 5)
    = stream_byte (Random32_seeded (wrap32 (40 + 1))) 5.
Proof.
  destruct (FillRandomSeededBySector_sectors sample_plain 40 0 0 wf_sample_plain
              eq_refl eq_refl valid_whole_sample_plain)
    as (d' & Hrun & Hlen & Hin & _).
  exists d'. split; [exact Hrun|]. split; [exact Hlen|].
  exact (Hin 1 5 ltac:(vm_compute; split; [discriminate|reflexivity])
           ltac:(vm_compute; split; [discriminate|reflexivity])).
Defined.

(** ** Construction *)

Lemma aligned_up k x :
  (x + (if x mod 4096 =? 0 then 0 else 4096 - x mod 4096) + k * 4096) mod 4096 = 0.
Proof.
  pose proof (Z.div_mod x 4096 ltac:(lia)) as Hdm.
  destruct (Z.eqb_spec (x mod 4096) 0) as [H0|H0].
  - replace (x + 0 + k * 4096) with ((x / 4096 + k) * 4096) by lia. apply Z.mod_mul. lia.
  - replace (x + (4096 - x mod 4096) + k * 4096) with ((x / 4096 + 1 + k) * 4096) by lia.
    apply Z.mod_mul. lia.
Qed.

Lemma aligned_up_4096 x :
  (x + (if x mod 4096 =? 0 then 0 else 4096 - x mod 4096) + 4096) mod 4096 = 0.
Proof. exact (aligned_up 1 x). Qed.

Lemma Initialize_layout env a sc bps b0 :
  1 <= sc -> 1 <= bps -> sc * bps < 2 ^ 63 -> alloc_fits a (sc * bps + 12286) ->
  exists b',
    Initialize env a sc bps b0 = (Ok tt, b') /\
    _data b' = alloc_address a /\
    _dataStart b' mod 4096 = 0 /\
    _data b' + 4096 <= _dataStart b' /\
    _dataBufferSize b' mod 4096 = 0 /\
    sc * bps <= _dataBufferSize b' < sc * bps + 4096 /\
    _allocatedByteCount b' = _dataBufferSize b' + 4095 + 4096 /\
    _dataStart b' + _dataBufferSize b' <= _data b' + _allocatedByteCount b'.
Proof.
  intros Hsc Hbps Htot (Ha0 & Ha1).
  assert (Hpos : 0 < sc * bps) by nia.
  unfold Initialize. run_M.
  destruct (Z.ltb_spec sc 1); [lia|]. destruct (Z.ltb_spec bps 1); [lia|].
  unfold CalculateTotalBytesToAllocate, CalculateDataStart. run_M.
  unfold GetTotalBytes. simpl.
  rewrite (wrap64_small (sc * bps)) by lia.
  rewrite !land_4095 by lia.
  pose proof (alignment_range (sc * bps)) as Hal.
  pose proof (alignment_range (alloc_address a)) as Hal2.
  set (al := if (sc * bps) mod 4096 =? 0 then 0 else 4096 - (sc * bps) mod 4096) in *.
  set (al2 := if alloc_address a mod 4096 =? 0 then 0 else 4096 - alloc_address a mod 4096) in *.
  rewrite (wrap64_small (sc * bps + al)) by lia.
  rewrite (wrap64_small (sc * bps + al + 4095 + 4096)) by lia.
  rewrite (wrap64_small (alloc_address a + al2)) by lia.
  rewrite (wrap64_small (alloc_address a + al2 + 4096)) by lia.
  rewrite (wrap64_small (alloc_address a + al2 + 4096 + (sc * bps + al))) by lia.
  rewrite (wrap64_small (alloc_address a + (sc * bps + al + 4095 + 4096))) by lia.
  destruct (Z.gtb_spec (alloc_address a + al2 + 4096 + (sc * bps + al))
              (alloc_address a + (sc * bps + al + 4095 + 4096))) as [Hbad|_]; [lia|].
  match goal with
  | |- context [Fill 0 0 sc ?b] => set (b1 := b)
  end.
  assert (Hlayout :
    _data b1 = alloc_address a /\
    _dataStart b1 mod 4096 = 0 /\
    _data b1 + 4096 <= _dataStart b1 /\
    _dataBufferSize b1 mod 4096 = 0 /\
    sc * bps <= _dataBufferSize b1 < sc * bps + 4096 /\
    _allocatedByteCount b1 = _dataBufferSize b1 + 4095 + 4096 /\
    _dataStart b1 + _dataBufferSize b1 <= _data b1 + _allocatedByteCount b1).
  { subst b1. simpl.
    split; [reflexivity|]. split; [apply aligned_up_4096|]. split; [lia|].
    split; [rewrite <- (Z.add_0_r (sc * bps + al)); apply (aligned_up 0)|].
    split; [lia|]. split; [reflexivity|lia]. }
  assert (Hwf1 : wf b1).
  { subst b1. unfold wf, total. simpl. repeat split; try lia.
    apply length_fresh_bytes. lia. }
  assert (Hv : valid_sector_range b1 0 sc).
  { subst b1. unfold valid_sector_range. simpl. lia. }
  rewrite (Fill_unfold b1 0 0 sc Hwf1 Hv).
  assert (Hrs : range_start b1 0 = 0) by reflexivity.
  assert (Hre : range_end b1 0 sc = sc * bps).
  { unfold range_end, range_count. destruct (Z.eqb_spec sc 0); [lia|].
    subst b1. simpl. reflexivity. }
  rewrite Hrs, Hre. cbv zeta.
  assert (Hlen1 : Z.of_nat (length (payload b1)) = sc * bps).
  { subst b1. simpl. apply length_fresh_bytes. lia. }
  set (d2 := memset (payload b1) 0 0 (sc * bps - 0)).
  assert (Hlen2 : length d2 = length (payload b1)).
  { subst d2. apply length_memset; lia. }
  assert (Hz2 : forall p, 0 <= p < sc * bps -> rd d2 p = 0).
  { intros p Hp. subst d2. rewrite rd_memset by lia.
    destruct (Z.leb_spec 0 p), (Z.ltb_spec p (0 + (sc * bps - 0))); simpl; lia || reflexivity. }
  assert (Hflag : _usePatternMode b1 = pattern_mode_of env) by reflexivity.
  rewrite Hflag.
  destruct (pattern_mode_of env) eqn:Hmode.
  - destruct (FillCompressionInfo_zeros (set_payload d2 b1) 0 (sc * bps))
      as (d' & Hfci & Hlen' & Hz').
    + subst b1. simpl. nia.
    + lia.
    + simpl. lia.
    + simpl. lia.
    + simpl. intros p Hp. apply Hz2. lia.
    + rewrite Hfci. eexists. split; [reflexivity|].
      subst b1. cbn [set_payload _data _dataStart _dataBufferSize _allocatedByteCount].
      exact Hlayout.
  - eexists. split; [reflexivity|].
    subst b1. cbn [set_payload _data _dataStart _dataBufferSize _allocatedByteCount].
    exact Hlayout.
Qed.

Lemma IsAllZeros_zero b :
  wf b -> (forall i, 0 <= i < total b -> rd (payload b) i = 0) -> IsAllZeros b = true.
Proof.
  intros Hwf Hz. pose proof (GetTotalBytes_wf b Hwf) as Ht.
  pose proof (wf_total_nonneg b Hwf) as Hpos.
  destruct Hwf as (H1 & H2 & H3 & H4).
  unfold IsAllZeros. rewrite Ht, wrap64_small by lia.
  rewrite (Hz 0) by lia. cbn [Z.eqb]. rewrite Z.eqb_eq, memcmp_zero_iff.
  rewrite Z2Nat.id by lia. intros i Hi. rewrite !Hz by lia. reflexivity.
Qed.

(** X25. A constructor refuses a sector count or a sector size of 0 as an
    invalid argument. With sizes of at least 1 it returns a buffer of that
    shape whose payload is all zeros, in pattern mode as well, with no
    generator, the empty name, and the pattern flag the environment gives.
    The constructors with fewer arguments take 512 bytes per sector and
    65536 sectors. *)
Theorem Buffer_new_result env a sc bps :
  (sc < 1 \/ bps < 1 -> Buffer_new env a sc bps = Throw InvalidArgumentError) /\
  (1 <= sc -> 1 <= bps -> sc * bps < 2 ^ 63 -> alloc_fits a (sc * bps + 12286) ->
   exists b,
     Buffer_new env a sc bps = Ok b /\
     _sectorCount b = sc /\ _bytesPerSector b = bps /\
     Z.of_nat (length (payload b)) = sc * bps /\
     IsAllZeros b = true /\
     _random b = None /\ _name b = EmptyString /\
     _usePatternMode b = pattern_mode_of env) /\
  Buffer_new1 env a sc = Buffer_new env a sc 512 /\
  Buffer_new0 env a = Buffer_new env a 65536 512.
Proof.
  split; [exact (Buffer_new_invalid env a sc bps)|].
  split; [|split; reflexivity].
  intros Hsc Hbps Htot Hfit.
  destruct (Buffer_new_ok env a sc bps Hsc Hbps Htot Hfit)
    as (b & Hnew & Hwf & _ & Hs & Hb & Hr & Hf & Hn & Hz).
  exists b. split; [exact Hnew|]. split; [exact Hs|]. split; [exact Hb|].
  pose proof Hwf as (_ & _ & _ & Hlen). unfold total in Hlen. rewrite Hs, Hb in Hlen.
  split; [exact Hlen|].
  split; [|split; [exact Hr|split; [exact Hn|exact Hf]]].
  apply (IsAllZeros_zero b Hwf). intros i Hi. apply Hz. unfold total in Hi.
  rewrite Hs, Hb in Hi. exact Hi.
Qed.

Lemma Buffer_new_result_witness :
  Buffer_new None sample_alloc 0 32 = Throw InvalidArgumentError /\
  Buffer_new None sample_alloc 2 0 = Throw InvalidArgumentError /\
  exists b,
    Buffer_new (Some "1"%string) sample_alloc 2 32 = Ok b /\
    _sectorCount b = 2 /\ _bytesPerSector b = 32 /\
    Z.of_nat (length (payload b)) = 2 * 32 /\
    IsAllZeros b = true /\
    _random b = None /\ _name b = EmptyString /\
    _usePatternMode b = pattern_mode_of (Some "1"%string).
Proof.
  split; [exact (proj1 (Buffer_new_result None sample_alloc 0 32) ltac:(left; lia))|].
  split; [exact (proj1 (Buffer_new_result None sample_alloc 2 0) ltac:(right; lia))|].
  exact (proj1 (proj2 (Buffer_new_result (Some "1"%string) sample_alloc 2 32))
           ltac:(lia) ltac:(lia) ltac:(lia) (sample_alloc_fits (2 * 32 + 12286) ltac:(lia))).
Defined.

(** X26. The payload of a constructed buffer starts on a 4096-byte
    boundary, at least 4096 bytes after the start of the allocated block,
    and the payload, rounded up to a multiple of 4096 bytes, ends inside
    the block. *)
Theorem Buffer_new_layout env a sc bps :
  1 <= sc -> 1 <= bps -> sc * bps < 2 ^ 63 -> alloc_fits a (sc * bps + 12286) ->
  exists b,
    Buffer_new env a sc bps = Ok b /\
    _data b = alloc_address a /\
    _dataStart b mod 4096 = 0 /\
    _data b + 4096 <= _dataStart b /\
    GetDataBufferSize b mod 4096 = 0 /\
    sc * bps <= GetDataBufferSize b < sc * bps + 4096 /\
    _allocatedByteCount b = GetDataBufferSize b + 4095 + 4096 /\
    _dataStart b + GetDataBufferSize b <= _data b + _allocatedByteCount b.
Proof.
  intros Hsc Hbps Htot Hfit.
  destruct (Initialize_layout env a sc bps blank Hsc Hbps Htot Hfit)
    as (b & Hinit & Hlayout).
  exists b. split; [|exact Hlayout].
  unfold Buffer_new, construct. rewrite Hinit. reflexivity.
Qed.

Lemma Buffer_new_layout_witness :
  exists b,
    Buffer_new None sample_alloc 2 32 = Ok b /\
    _data b = alloc_address sample_alloc /\
    _dataStart b mod 4096 = 0 /\
    _data b + 4096 <= _dataStart b /\
    GetDataBufferSize b mod 4096 = 0 /\
    2 * 32 <= GetDataBufferSize b < 2 * 32 + 4096 /\
    _allocatedByteCount b = GetDataBufferSize b + 4095 + 4096 /\
    _dataStart b + GetDataBufferSize b <= _data b + _allocatedByteCount b.
Proof.
  exact (Buffer_new_layout None sample_alloc 2 32 ltac:(lia) ltac:(lia) ltac:(lia)
           (sample_alloc_fits (2 * 32 + 12286) ltac:(lia))).
Defined.

(** ** CompareTo: errors and symmetry *)

(** X27. [CompareTo] throws the out-of-range error when the sector range
    fails the check in either buffer, the calling buffer first. With a
    sector count other than 0 and buffers of different sector sizes the
    two spans differ in length, and it throws the invalid-argument
    error. *)
Theorem CompareTo_errors this buffer s s2 c :
  wf this -> wf buffer -> 0 <= s -> 0 <= s2 -> 0 <= c ->
  s + c < 2 ^ 64 -> s2 + c < 2 ^ 64 ->
  (~ valid_sector_range this s c ->
   CompareTo buffer s s2 c this = Throw OutOfRangeError) /\
  (valid_sector_range this s c -> ~ valid_sector_range buffer s2 c ->
   CompareTo buffer s s2 c this = Throw OutOfRangeError) /\
  (valid_sector_range this s c -> valid_sector_range buffer s2 c -> c <> 0 ->
   _bytesPerSector buffer <> _bytesPerSector this ->
   CompareTo buffer s s2 c this = Throw InvalidArgumentError).
Proof.
  intros Hwf Hwf2 Hs Hs2 Hc Hno Hno2.
  split; [|split].
  - intros Hinv. unfold CompareTo.
    rewrite (GetStartAndStop_invalid this s c Hwf Hs Hc Hno Hinv). reflexivity.
  - intros Hv Hinv. unfold CompareTo.
    rewrite (GetStartAndStop_valid this Hwf s c Hv). cbn [Result_bind].
    rewrite (GetStartAndStop_invalid buffer s2 c Hwf2 Hs2 Hc Hno2 Hinv). reflexivity.
  - intros Hv Hv2 Hc0 Hbps. unfold CompareTo.
    pose proof (range_bounds this Hwf s c Hv) as (H0 & H1 & H2 & H3).
    pose proof (range_bounds buffer Hwf2 s2 c Hv2) as (G0 & G1 & G2 & G3).
    pose proof Hwf as (_ & Hb1 & Ht & _). pose proof Hwf2 as (_ & Hb2 & Ht2 & _).
    rewrite (GetStartAndStop_valid this Hwf s c Hv). cbn [Result_bind].
    rewrite (GetStartAndStop_valid buffer Hwf2 s2 c Hv2). cbn [Result_bind].
    destruct (Z.eqb_spec c 0); [contradiction|].
    rewrite (wrap64_small (range_end this s c - range_start this s)) by lia.
    rewrite (wrap64_small (range_end buffer s2 c - range_start buffer s2)) by lia.
    assert (Hr1 : range_count this s c = c)
      by (unfold range_count; destruct (Z.eqb_spec c 0); [contradiction|reflexivity]).
    assert (Hr2 : range_count buffer s2 c = c)
      by (unfold range_count; destruct (Z.eqb_spec c 0); [contradiction|reflexivity]).
    rewrite Hr1 in H3. rewrite Hr2 in G3.
    destruct (Z.eqb_spec (range_end buffer s2 c - range_start buffer s2)
                (range_end this s c - range_start this s)) as [Heq|Hne].
    + exfalso. apply Hbps. rewrite H3, G3 in Heq.
      assert (Hcc : c * _bytesPerSector buffer = c * _bytesPerSector this) by lia.
      apply Z.mul_reg_l in Hcc; [exact Hcc|exact Hc0].
    + reflexivity.
Qed.

Lemma CompareTo_errors_witness :
  CompareTo sample_plain 2 0 0 sample_named = Throw OutOfRangeError /\
  CompareTo sample_plain 0 2 0 sample_named = Throw OutOfRangeError /\
  CompareTo sample_plain 0 0 1 sample_named = Throw InvalidArgumentError.
Proof.
  destruct (CompareTo_errors sample_named sample_plain 2 0 0 wf_sample_named wf_sample_plain
              ltac:(lia) ltac:(lia) ltac:(lia) ltac:(lia) ltac:(lia)) as (H1 & _).
  destruct (CompareTo_errors sample_named sample_plain 0 2 0 wf_sample_named wf_sample_plain
              ltac:(lia) ltac:(lia) ltac:(lia) ltac:(lia) ltac:(lia)) as (_ & H2 & _).
  destruct (CompareTo_errors sample_named sample_plain 0 0 1 wf_sample_named wf_sample_plain
              ltac:(lia) ltac:(lia) ltac:(lia) ltac:(lia) ltac:(lia)) as (_ & _ & H3).
  split; [apply H1; unfold valid_sector_range; simpl; lia|].
  split; [apply H2; unfold valid_sector_range; simpl; lia|].
  apply H3; [unfold valid_sector_range; simpl; lia|unfold valid_sector_range; simpl; lia
            |discriminate|simpl; discriminate].
Defined.

Lemma valid_compare_range_swap this buffer s s2 c :
  valid_compare_range this buffer s s2 c -> valid_compare_range buffer this s2 s c.
Proof.
  intros (Hv & Hv2 & Hspan). split; [exact Hv2|]. split; [exact Hv|].
  intros Hc. symmetry. apply Hspan. exact Hc.
Qed.

Lemma compare_length_swap this buffer s s2 c :
  valid_compare_range this buffer s s2 c ->
  compare_length buffer this s2 s c = compare_length this buffer s s2 c.
Proof.
  intros (_ & _ & Hspan). unfold compare_length.
  destruct (Z.eqb_spec c 0); [apply Z.min_comm|apply Hspan; assumption].
Qed.

(** X28. [CompareTo] is symmetric: with the two buffers and the two start
    sectors exchanged it returns an equal result when the first call
    does, and otherwise a result with the expected and the actual value
    exchanged whose offset lies as far into the other span. A buffer
    compared with the same sectors of itself is equal. *)
Theorem CompareTo_symmetric this buffer s s2 c :
  wf this -> wf buffer -> valid_compare_range this buffer s s2 c ->
  (exists r r',
     CompareTo buffer s s2 c this = Ok r /\
     CompareTo this s2 s c buffer = Ok r' /\
     _areEqual r' = _areEqual r /\
     (_areEqual r = false ->
      _expectedValue r' = _actualValue r /\
      _actualValue r' = _expectedValue r /\
      _firstDifferenceOffset r' - range_start buffer s2
      = _firstDifferenceOffset r - range_start this s)) /\
  CompareTo this s s c this = Ok CompareResult_equal.
Proof.
  intros Hwf Hwf2 Hvc. split.
  - pose proof (valid_compare_range_swap this buffer s s2 c Hvc) as Hvc'.
    pose proof (compare_length_swap this buffer s s2 c Hvc) as Hn.
    destruct (CompareTo_result this buffer s s2 c Hwf Hwf2 Hvc)
      as (r & Hr & Hiff & Heq & Hneq).
    destruct (CompareTo_result buffer this s2 s c Hwf2 Hwf Hvc')
      as (r' & Hr' & Hiff' & Heq' & Hneq').
    rewrite Hn in Hiff', Hneq'.
    exists r, r'. split; [exact Hr|]. split; [exact Hr'|].
    destruct (_areEqual r) eqn:Er.
    + split; [|discriminate]. apply Hiff'. intros i Hi. symmetry.
      apply (proj1 Hiff eq_refl). exact Hi.
    + destruct (Hneq eq_refl) as (i & Hi & Hbefore & Hdiff & Hoff & Hexp & Hact & _).
      destruct (_areEqual r') eqn:Er'.
      * exfalso. apply Hdiff. symmetry. apply (proj1 Hiff' eq_refl). exact Hi.
      * split; [reflexivity|]. intros _.
        destruct (Hneq' eq_refl)
          as (i' & Hi' & Hbefore' & Hdiff' & Hoff' & Hexp' & Hact' & _).
        assert (Hii : i' = i).
        { destruct (Z.lt_trichotomy i' i) as [Hlt | [Heq0 | Hgt]]; [|exact Heq0|].
          - exfalso. apply Hdiff'. symmetry. apply Hbefore. lia.
          - exfalso. apply Hdiff. symmetry. apply Hbefore'. lia. }
        subst i'. rewrite Hexp', Hact', Hexp, Hact, Hoff, Hoff'.
        split; [reflexivity|]. split; [reflexivity|]. lia.
  - destruct Hvc as (Hv & _ & _).
    assert (Hself : valid_compare_range this this s s c)
      by (split; [exact Hv|split; [exact Hv|reflexivity]]).
    destruct (CompareTo_result this this s s c Hwf Hwf Hself) as (r & Hr & Hiff & Heq & _).
    rewrite Hr. f_equal. apply Heq. apply Hiff. reflexivity.
Qed.

Lemma CompareTo_symmetric_witness :
  (exists r r',
     CompareTo sample_plain 0 0 0 sample_named = Ok r /\
     CompareTo sample_named 0 0 0 sample_plain = Ok r' /\
     _areEqual r' = _areEqual r /\
     (_areEqual r = false ->
      _expectedValue r' = _actualValue r /\
      _actualValue r' = _expectedValue r /\
      _firstDifferenceOffset r' - range_start sample_plain 0
      = _firstDifferenceOffset r - range_start sample_named 0)) /\
  CompareTo sample_named 0 0 0 sample_named = Ok CompareResult_equal.
Proof.
  exact (CompareTo_symmetric sample_named sample_plain 0 0 0 wf_sample_named
           wf_sample_plain
           ltac:(unfold valid_compare_range, valid_sector_range; simpl; lia)).
Defined.

(** ** A refused Resize *)

(** X29. A [Resize] to 0 sectors or to 0 bytes per sector throws the
    invalid-argument error after it has released the old block: the
    buffer is left with its old sector count, sector size and name, but
    without payload and without generator, and with the pattern flag read
    again from the environment. *)
Theorem Resize_refused env a sc bps b :
  wf b -> sc < 1 \/ bps < 1 ->
  exists b',
    Resize env a sc bps b = (Throw InvalidArgumentError, b') /\
    payload b' = [] /\ _random b' = None /\
    _sectorCount b' = _sectorCount b /\ _bytesPerSector b' = _bytesPerSector b /\
    _name b' = _name b /\ _usePatternMode b' = pattern_mode_of env /\
    ~ wf b'.
Proof.
  intros Hwf Hbad.
  exists (set_usePatternMode (pattern_mode_of env) (set_random None (set_payload [] b))).
  split.
  - unfold Resize, Initialize, bind, get, modify, throw, ret. cbv beta iota.
    destruct (Z.ltb_spec sc 1) as [Hs|Hs]; [reflexivity|].
    destruct (Z.ltb_spec bps 1) as [Hb|Hb]; [reflexivity|lia].
  - cbn [set_usePatternMode set_random set_payload payload _random _sectorCount
           _bytesPerSector _name _usePatternMode].
    repeat split.
    intros (H1 & H2 & H3 & H4).
    pose proof (wf_total_nonneg b Hwf) as Hpos.
    unfold total in *.
    cbn [set_usePatternMode set_random set_payload payload _sectorCount _bytesPerSector
           length] in H4.
    change (Z.of_nat 0) with 0 in H4. lia.
Qed.

Lemma Resize_refused_witness :
  exists b',
    Resize None sample_alloc 0 8 sample_named = (Throw InvalidArgumentError, b') /\
    payload b' = [] /\ _random b' = None /\
    _sectorCount b' = _sectorCount sample_named /\
    _bytesPerSector b' = _bytesPerSector sample_named /\
    _name b' = _name sample_named /\ _usePatternMode b' = pattern_mode_of None /\
    ~ wf b'.
Proof.
  exact (Resize_refused None sample_alloc 0 8 sample_named wf_sample_named
           ltac:(left; lia)).
Defined.

(** ** Hexadecimal strings *)

Lemma put_hex_table :
  forallb (fun v =>
             if List.list_eq_dec Ascii.ascii_dec (put_hex 2 "0"%char v)
                  [hex_digit (v / 16); hex_digit (v mod 16)]
             then (hex_value (hex_digit (v / 16)) =? v / 16)
                  && (hex_value (hex_digit (v mod 16)) =? v mod 16)
             else false)
    (seqZ 0 256) = true.
Proof. vm_compute. reflexivity. Qed.

Lemma put_hex_byte v :
  is_byte v ->
  put_hex 2 "0"%char v = [hex_digit (v / 16); hex_digit (v mod 16)] /\
  hex_value (hex_digit (v / 16)) = v / 16 /\
  hex_value (hex_digit (v mod 16)) = v mod 16.
Proof.
  intros Hv. pose proof put_hex_table as Hall. rewrite forallb_forall in Hall.
  assert (Hin : In v (seqZ 0 256)) by (apply list_elem_of_In, elem_of_seqZ; exact Hv).
  specialize (Hall v Hin).
  destruct (List.list_eq_dec Ascii.ascii_dec (put_hex 2 "0"%char v)
              [hex_digit (v / 16); hex_digit (v mod 16)]) as [Heq|]; [|discriminate].
  apply andb_true_iff in Hall as (H1 & H2). split; [exact Heq|]. lia.
Qed.

Lemma put_hex_inj v1 v2 :
  is_byte v1 -> is_byte v2 -> put_hex 2 "0"%char v1 = put_hex 2 "0"%char v2 -> v1 = v2.
Proof.
  intros H1 H2 Heq.
  destruct (put_hex_byte v1 H1) as (E1 & A1 & B1).
  destruct (put_hex_byte v2 H2) as (E2 & A2 & B2).
  rewrite E1, E2 in Heq. injection Heq as Hhi Hlo.
  rewrite Hhi in A1. rewrite Hlo in B1.
  rewrite (Z.div_mod v1 16), (Z.div_mod v2 16) by lia. congruence.
Qed.

Lemma string_of_list_ascii_inj l1 l2 :
  string_of_list_ascii l1 = string_of_list_ascii l2 -> l1 = l2.
Proof.
  intros H. rewrite <- (list_ascii_of_string_of_list_ascii l1),
    <- (list_ascii_of_string_of_list_ascii l2). now rewrite H.
Qed.

Lemma length_string_of_list_ascii l :
  String.length (string_of_list_ascii l) = length l.
Proof. induction l as [|c l IH]; simpl; [reflexivity|now rewrite IH]. Qed.

(** X30. [BytesToHexString] writes two upper-case hexadecimal digits per
    byte, the high one first, so the string is twice as long as the data,
    and two byte sequences with the same string are the same sequence;
    [ByteToHexString] is the case of one byte. *)
Theorem BytesToHexString_lossless data :
  Forall is_byte data ->
  Z.of_nat (String.length (BytesToHexString data)) = 2 * Z.of_nat (length data) /\
  (forall v rest, data = v :: rest ->
     BytesToHexString data
     = String (hex_digit (v / 16)) (String (hex_digit (v mod 16)) (BytesToHexString rest))
     /\ ByteToHexString v = BytesToHexString [v]) /\
  (forall data', Forall is_byte data' ->
     BytesToHexString data' = BytesToHexString data -> data' = data).
Proof.
  intros Hdata. split; [|split].
  - unfold BytesToHexString. rewrite length_string_of_list_ascii.
    induction Hdata as [|v rest Hv Hrest IH]; [reflexivity|].
    cbn [BytesToHexString_loop]. rewrite (proj1 (put_hex_byte v Hv)).
    cbn [app length]. cbn [length] in IH. lia.
  - intros v rest ->. apply Forall_cons in Hdata as (Hv & _).
    unfold BytesToHexString, ByteToHexString. cbn [BytesToHexString_loop].
    rewrite (proj1 (put_hex_byte v Hv)). split; reflexivity.
  - intros data' Hdata' Heq. unfold BytesToHexString in Heq.
    apply string_of_list_ascii_inj in Heq.
    revert data' Hdata' Heq.
    induction Hdata as [|v rest Hv Hrest IH]; intros data' Hdata' Heq.
    + destruct Hdata' as [|v' rest' Hv' Hrest']; [reflexivity|].
      cbn [BytesToHexString_loop] in Heq. rewrite (proj1 (put_hex_byte v' Hv')) in Heq.
      discriminate.
    + destruct Hdata' as [|v' rest' Hv' Hrest'].
      * cbn [BytesToHexString_loop] in Heq. rewrite (proj1 (put_hex_byte v Hv)) in Heq.
        discriminate.
      * cbn [BytesToHexString_loop] in Heq.
        pose proof (proj1 (put_hex_byte v Hv)) as E.
        pose proof (proj1 (put_hex_byte v' Hv')) as E'.
        assert (Hhead : put_hex 2 "0"%char v' = put_hex 2 "0"%char v).
        { rewrite E, E' in Heq |- *. cbn [app] in Heq. congruence. }
        assert (Htail : BytesToHexString_loop rest' = BytesToHexString_loop rest).
        { rewrite E, E' in Heq. cbn [app] in Heq. congruence. }
        f_equal; [apply put_hex_inj; assumption|apply IH; assumption].
Qed.

Lemma BytesToHexString_lossless_witness :
  Z.of_nat (String.length (BytesToHexString [10; 255; 0]))
  = 2 * Z.of_nat (length [10; 255; 0]) /\
  BytesToHexString [10; 255; 0] = "0AFF00"%string /\
  (BytesToHexString [10; 255] = BytesToHexString [10; 255; 0] -> [10; 255] = [10; 255; 0]).
Proof.
  assert (H3 : Forall is_byte [10; 255; 0]) by (repeat constructor; unfold is_byte; lia).
  assert (H2 : Forall is_byte [10; 255]) by (repeat constructor; unfold is_byte; lia).
  destruct (BytesToHexString_lossless [10; 255; 0] H3) as (Hlen & _ & Hinj).
  split; [exact Hlen|]. split; [reflexivity|]. exact (Hinj [10; 255] H2).
Defined.

(** ** Successive random fills *)

Lemma isSeeded_Next_times n : forall r, _isSeeded (Next_times n r) = _isSeeded r.
Proof.
  induction n as [|n IH]; intros r; [reflexivity|].
  rewrite Next_times_S, IH. unfold Next.
  destruct (taus88_next (_generator r)). reflexivity.
Qed.

Lemma stream_byte_shift w r k :
  0 <= k -> stream_byte (Next_times w r) k = stream_byte r (4 * Z.of_nat w + k).
Proof.
  intros Hk. unfold stream_byte.
  replace (4 * Z.of_nat w + k) with (k + Z.of_nat w * 4) by lia.
  rewrite Z.div_add, Z.mod_add by lia.
  assert (Hq : 0 <= k / 4) by (apply Z.div_pos; lia).
  replace (Z.to_nat (k / 4 + Z.of_nat w)) with (w + Z.to_nat (k / 4))%nat by lia.
  rewrite Next_times_add. reflexivity.
Qed.

Lemma range_bytes_count b s c :
  c <> 0 -> range_bytes b s c = c * _bytesPerSector b.
Proof.
  intros Hc. unfold range_bytes, range_end, range_start, range_count.
  destruct (Z.eqb_spec c 0); [contradiction|]. ring.
Qed.

(** X5. On a buffer without pattern mode whose generator has never been
    seeded, successive [FillRandom] calls continue one stream: filling
    [c1] sectors and then the next [c2] sectors leaves the buffer, its
    generator included, as one fill of the [c1 + c2] sectors does. The
    clock is read by the first call only. *)
Theorem FillRandom_continues b s c1 c2 clock clock' :
  wf b -> _usePatternMode b = false -> _bytesPerSector b mod 4 = 0 ->
  (forall r0, _random b = Some r0 -> _isSeeded r0 = false) ->
  0 <= s -> 1 <= c1 -> 1 <= c2 -> s + c1 + c2 <= _sectorCount b ->
  exists b1 b2,
    FillRandom s c1 clock b = (Ok tt, b1) /\
    FillRandom (s + c1) c2 clock' b1 = (Ok tt, b2) /\
    FillRandom s (c1 + c2) clock b = (Ok tt, b2).
Proof.
  intros Hwf Hflag Hmod Hunseeded Hs Hc1 Hc2 Hfit.
  pose proof Hwf as (Hsc & Hbps & Ht & Hlen).
  assert (Hv1 : valid_sector_range b s c1) by (unfold valid_sector_range; lia).
  assert (Hv12 : valid_sector_range b s (c1 + c2)) by (unfold valid_sector_range; lia).
  destruct (sector_words c1 (_bytesPerSector b) Hmod) as (Hd1 & _).
  destruct (sector_words c2 (_bytesPerSector b) Hmod) as (Hd2 & _).
  destruct (sector_words (c1 + c2) (_bytesPerSector b) Hmod) as (Hd12 & _).
  assert (HW : 0 <= _bytesPerSector b / 4) by (apply Z.div_pos; lia).
  set (r := chosen_generator false 0 clock b).
  assert (Hr : _isSeeded r = false).
  { unfold r, chosen_generator, GetIsSeeded. destruct (_random b) as [r0|] eqn:E.
    - rewrite (Hunseeded r0 eq_refl). apply (Hunseeded r0 eq_refl).
    - reflexivity. }
  destruct (FillRandomImpl_plain b s c1 false 0 clock Hwf Hflag Hmod Hv1)
    as (d1 & Hrun1 & Hl1 & Hrd1).
  destruct (FillRandomImpl_plain b s (c1 + c2) false 0 clock Hwf Hflag Hmod Hv12)
    as (d12 & Hrun12 & Hl12 & Hrd12).
  fold r in Hrun1, Hrd1, Hrun12, Hrd12.
  rewrite range_bytes_count in Hrun1 by lia. rewrite Hd1 in Hrun1.
  rewrite range_bytes_count in Hrun12 by lia. rewrite Hd12 in Hrun12.
  set (w1 := Z.to_nat (c1 * (_bytesPerSector b / 4))) in *.
  set (b1 := set_random (Some (Next_times w1 r)) (set_payload d1 b)) in *.
  assert (Hwf1 : wf b1) by (apply (wf_set_payload_length b d1 Hwf Hl1)).
  assert (Hv2 : valid_sector_range b1 (s + c1) c2)
    by (unfold valid_sector_range, b1; cbn [set_random set_payload _sectorCount]; lia).
  destruct (FillRandomImpl_plain b1 (s + c1) c2 false 0 clock' Hwf1 Hflag Hmod Hv2)
    as (d2 & Hrun2 & Hl2 & Hrd2).
  assert (Hgen : chosen_generator false 0 clock' b1 = Next_times w1 r).
  { unfold chosen_generator, GetIsSeeded, b1. cbn [set_random _random].
    rewrite isSeeded_Next_times, Hr. reflexivity. }
  rewrite Hgen in Hrun2, Hrd2.
  rewrite range_bytes_count in Hrun2 by lia.
  change (_bytesPerSector b1) with (_bytesPerSector b) in Hrun2, Hrd2.
  rewrite Hd2 in Hrun2.
  exists b1, (set_random (Some (Next_times (Z.to_nat (c2 * (_bytesPerSector b / 4)))
                                  (Next_times w1 r))) (set_payload d2 b1)).
  split; [exact Hrun1|]. split; [exact Hrun2|].
  unfold FillRandom. rewrite Hrun12.
  assert (Hnn1 : 0 <= c1 * (_bytesPerSector b / 4)) by (apply Z.mul_nonneg_nonneg; lia).
  assert (Hnn2 : 0 <= c2 * (_bytesPerSector b / 4)) by (apply Z.mul_nonneg_nonneg; lia).
  assert (Hstate : Next_times (Z.to_nat ((c1 + c2) * (_bytesPerSector b / 4))) r
                   = Next_times (Z.to_nat (c2 * (_bytesPerSector b / 4)))
                       (Next_times w1 r)).
  { rewrite <- Next_times_add. f_equal. unfold w1. lia. }
  assert (Hpayload : d12 = d2).
  { apply rd_ext; [cbn [b1 set_random set_payload payload] in Hl2; congruence|].
    intros p Hp. rewrite Hrd12, Hrd2 by lia.
    cbn [b1 set_random set_payload payload]. rewrite Hrd1 by lia.
    unfold range_start, range_end, range_count, b1.
    cbn [set_random set_payload _bytesPerSector _sectorCount].
    destruct (Z.eqb_spec (c1 + c2) 0); [lia|].
    destruct (Z.eqb_spec c2 0); [lia|]. destruct (Z.eqb_spec c1 0); [lia|].
    set (bps := _bytesPerSector b) in *.
    assert (Hc1b : 0 <= c1 * bps) by (apply Z.mul_nonneg_nonneg; lia).
    assert (Hc2b : 0 < c2 * bps) by (apply Z.mul_pos_pos; lia).
    assert (Hsb : 0 <= s * bps) by (apply Z.mul_nonneg_nonneg; lia).
    replace ((s + (c1 + c2)) * bps) with (s * bps + c1 * bps + c2 * bps) by ring.
    replace ((s + c1 + c2) * bps) with (s * bps + c1 * bps + c2 * bps) by ring.
    replace ((s + c1) * bps) with (s * bps + c1 * bps) by ring.
    destruct (Z.leb_spec (s * bps) p) as [H1|H1]; cbn [andb].
    - destruct (Z.ltb_spec p (s * bps + c1 * bps + c2 * bps)) as [H2|H2].
      + destruct (Z.leb_spec (s * bps + c1 * bps) p) as [H3|H3]; cbn [andb].
        * rewrite stream_byte_shift by lia. f_equal. unfold w1.
          rewrite Z2Nat.id by exact Hnn1.
          destruct (sector_words c1 bps Hmod) as (_ & Hm). lia.
        * destruct (Z.ltb_spec p (s * bps + c1 * bps)); [reflexivity|lia].
      + destruct (Z.leb_spec (s * bps + c1 * bps) p); cbn [andb]; [|lia].
        destruct (Z.ltb_spec p (s * bps + c1 * bps)); [lia|reflexivity].
    - destruct (Z.leb_spec (s * bps + c1 * bps) p); [lia|]. reflexivity. }
  rewrite Hstate, Hpayload. reflexivity.
Qed.

Lemma FillRandom_continues_witness :
  exists b1 b2,
    FillRandom 0 1 99 sample_plain = (Ok tt, b1) /\
    FillRandom (0 + 1) 1 7 b1 = (Ok tt, b2) /\
    FillRandom 0 (1 + 1) 99 sample_plain = (Ok tt, b2).
Proof.
  exact (FillRandom_continues sample_plain 0 1 1 99 7 wf_sample_plain eq_refl eq_refl
           ltac:(intros r0 H; discriminate H) ltac:(lia) ltac:(lia) ltac:(lia)
           ltac:(simpl; lia)).
Defined.

(** ** The compression record *)

(** C1, as the code has it. In pattern mode the record lies at the start
    of each sector of the filled range, not at its end. After a fixed,
    incrementing or decrementing fill with a pattern of at most 8 bytes,
    on sectors of at least 21 bytes: sector offset 20 holds the type and
    length byte (unless the fill is fixed and the first byte of the range
    is 0), sector offsets 8 to [8 + len - 1] hold a copy of the first
    [len] bytes of the sector, and the other bytes of the sector,
    among them offsets 0 to 7, are those of the fill. After a random fill,
    on sectors of at least 28 bytes: sector offsets 8 to 19 hold the
    snapshot of the generator taken at the start of the sector and sector
    offset 20 holds the type and length byte 0x30; [FillRandomSeededBySector]
    seeds the generator again at the start of each sector, so the snapshot
    in sector [k] of its range is that of a generator seeded with
    [seed + k] modulo 2^32. [FillAddressOverlay] writes no record: on
    such sectors whose size is a multiple of 8 it leaves the bytes of a
    sector between the first eight and the last eight as they were. *)
Theorem compression_record_layout b s c f useSeed seed clock startingValue :
  wf b -> _usePatternMode b = true -> 21 <= _bytesPerSector b ->
  valid_sector_range b s c -> fill_args_ok f -> 0 <= fill_len f <= 8 ->
  let sb := range_start b s in
  let bps := _bytesPerSector b in
  (exists b',
     run_fill f s c b = (Ok tt, b') /\
     forall k, 0 <= k < range_count b s c ->
       rd (payload b') (sb + k * bps + 20) =
         (if (fill_byte f bps 0 =? 0)
             && (type_value (fill_type f) =? type_value eFixPattern)
          then fill_byte f bps (k * bps + 20)
          else type_and_length (fill_type f) (fill_len f)) /\
       (forall j, 0 <= j < fill_len f ->
          rd (payload b') (sb + k * bps + 8 + j) = fill_byte f bps (k * bps + j)) /\
       (forall j, fill_len f <= j < 12 ->
          rd (payload b') (sb + k * bps + 8 + j) = fill_byte f bps (k * bps + 8 + j)) /\
       (forall j, 0 <= j < 8 ->
          rd (payload b') (sb + k * bps + j) = fill_byte f bps (k * bps + j)) /\
       (forall j, 21 <= j < bps ->
          rd (payload b') (sb + k * bps + j) = fill_byte f bps (k * bps + j))) /\
  (bps mod 4 = 0 -> 28 <= bps ->
   exists r0 b',
     fst (GetRandom useSeed seed clock b) = Ok r0 /\
     (useSeed = true -> r0 = Random32_seeded seed) /\
     FillRandomImpl s c useSeed seed clock b = (Ok tt, b') /\
     forall k, 0 <= k < range_count b s c ->
       (forall j, 0 <= j < 12 ->
          rd (payload b') (sb + k * bps + 8 + j)
          = rd (snapshot (Next_times (Z.to_nat (k * (bps / 4))) r0)) j) /\
       rd (payload b') (sb + k * bps + 20) = type_and_length eRandomPattern 0) /\
  (bps mod 4 = 0 -> 28 <= bps ->
   exists b',
     FillRandomSeededBySector seed s c b = (Ok tt, b') /\
     forall k, 0 <= k < range_count b s c ->
       (forall j, 0 <= j < 12 ->
          rd (payload b') (sb + k * bps + 8 + j)
          = rd (snapshot (Random32_seeded (wrap32 (seed + k)))) j) /\
       rd (payload b') (sb + k * bps + 20) = type_and_length eRandomPattern 0) /\
  (bps mod 8 = 0 ->
   exists b',
     FillAddressOverlay startingValue s c b = (Ok tt, b') /\
     forall k j, 0 <= k < range_count b s c -> 8 <= j < bps - 8 ->
       rd (payload b') (sb + k * bps + j) = rd (payload b) (sb + k * bps + j)).
Proof.
  intros Hwf Hflag Hbps Hv Hok Hlen sb bps.
  pose proof (range_bounds b Hwf s c Hv) as (H0 & H1 & H2 & H3).
  fold sb bps in H0, H1, H2, H3. fold bps in Hbps.
  split; [|split; [|split]].
  - destruct (pattern_fill_final b s c f Hwf Hflag Hbps Hv Hok Hlen)
      as (d' & Hrun & Hlen' & Hrd).
    fold sb bps in Hrd.
    exists (set_payload d' b). split; [exact Hrun|]. simpl.
    intros k Hk.
    assert (Hbase : sb + k * bps + bps <= range_end b s c) by nia.
    assert (Hin : forall j, 0 <= j < bps ->
              rd d' (sb + k * bps + j) = stamped f bps (k * bps + j)).
    { intros j Hj. rewrite Hrd by nia.
      destruct (Z.leb_spec sb (sb + k * bps + j)); [|nia].
      destruct (Z.ltb_spec (sb + k * bps + j) (range_end b s c)); [|lia].
      simpl. f_equal. lia. }
    split; [|split; [|split; [|split]]].
    + rewrite Hin by lia. rewrite stamped_at by lia. reflexivity.
    + intros j Hj. replace (sb + k * bps + 8 + j) with (sb + k * bps + (8 + j)) by lia.
      rewrite Hin by lia. rewrite stamped_at by lia.
      destruct (Z.eqb_spec (8 + j) 20); [lia|].
      destruct (Z.leb_spec 8 (8 + j)); [|lia].
      destruct (Z.ltb_spec (8 + j) (8 + fill_len f)); [|lia].
      simpl. f_equal. lia.
    + intros j Hj. replace (sb + k * bps + 8 + j) with (sb + k * bps + (8 + j)) by lia.
      rewrite Hin by lia. rewrite stamped_at by lia.
      destruct (Z.eqb_spec (8 + j) 20); [lia|].
      destruct (Z.ltb_spec (8 + j) (8 + fill_len f)); [lia|].
      rewrite andb_false_r. f_equal. lia.
    + intros j Hj. rewrite Hin by lia. rewrite stamped_at by lia.
      destruct (Z.eqb_spec j 20); [lia|].
      destruct (Z.leb_spec 8 j); [lia|]. reflexivity.
    + intros j Hj. rewrite Hin by lia. rewrite stamped_at by lia.
      destruct (Z.eqb_spec j 20); [lia|].
      destruct (Z.ltb_spec j (8 + fill_len f)); [lia|].
      rewrite andb_false_r. reflexivity.
  - intros Hmod H28.
    destruct (FillRandomImpl_unfold b s c useSeed seed clock Hmod)
      as (r0 & Hget & Hr0 & Heq).
    destruct (FillSectorsWithRandomData_snapshot (set_random (Some r0) b) r0 s c
                (wf_set_random b _ Hwf) Hflag Hmod H28 Hv)
      as (r' & d' & Hfill & Hlen' & Hsnap).
    rewrite Hfill in Heq.
    exists r0, (set_random (Some r') (set_payload d' (set_random (Some r0) b))).
    split; [now rewrite Hget|]. split; [exact Hr0|]. split; [exact Heq|].
    exact Hsnap.
  - intros Hmod H28.
    destruct (FillRandomSeededBySector_snapshot b seed s c Hwf Hflag Hmod H28 Hv)
      as (b' & Hrun & _ & Hsnap & _).
    exists b'. split; [exact Hrun|exact Hsnap].
  - intros Hmod8.
    destruct (FillAddressOverlay_spec b startingValue s c Hwf Hmod8 Hv)
      as (d' & Hrun & _ & Hrd).
    fold sb bps in Hrd.
    exists (set_payload d' b). split; [exact Hrun|]. cbn [set_payload payload].
    intros k j Hk Hj.
    assert (Hkb : 0 <= k * bps) by (apply Z.mul_nonneg_nonneg; lia).
    assert (Hkn : (k + 1) * bps <= range_count b s c * bps)
      by (apply Z.mul_le_mono_nonneg_r; lia).
    rewrite Hrd by lia.
    destruct (Z.leb_spec sb (sb + k * bps + j)); [|lia].
    destruct (Z.ltb_spec (sb + k * bps + j) (range_end b s c)); [|lia].
    cbn [andb]. unfold overlay_byte.
    replace (sb + k * bps + j - sb) with (k * bps + j) by lia.
    rewrite mod_sector by lia.
    destruct (Z.leb_spec (bps - 8) j); [lia|].
    destruct (Z.ltb_spec j 8); [lia|]. reflexivity.
Qed.

(** C1 on [Buffer(2, 32)] in pattern mode: [FillIncrementing(250)],
    [FillRandomSeeded(16)], [FillRandomSeededBySector(16)] and
    [FillAddressOverlay(5)]. *)
Lemma compression_record_layout_witness :
  wf sample_pattern /\ _usePatternMode sample_pattern = true /\
  21 <= _bytesPerSector sample_pattern /\ valid_sector_range sample_pattern 0 0 /\
  fill_args_ok (PFillIncrementing 250) /\ 0 <= fill_len (PFillIncrementing 250) <= 8 /\
  (exists b',
     FillIncrementing 250 0 0 sample_pattern = (Ok tt, b') /\
     rd (payload b') (32 + 20) = 17 /\ rd (payload b') (32 + 8) = 250 /\
     rd (payload b') (32 + 7) = 1) /\
  (exists b',
     FillRandomSeeded 16 0 0 sample_pattern = (Ok tt, b') /\
     rd (payload b') (32 + 20) = 48 /\
     forall j, 0 <= j < 12 ->
       rd (payload b') (32 + 8 + j)
       = rd (snapshot (Next_times 8 (Random32_seeded 16))) j) /\
  (exists b',
     FillRandomSeededBySector 16 0 0 sample_pattern = (Ok tt, b') /\
     rd (payload b') (32 + 20) = 48 /\
     forall j, 0 <= j < 12 ->
       rd (payload b') (32 + 8 + j) = rd (snapshot (Random32_seeded 17)) j) /\
  (exists b',
     FillAddressOverlay 5 0 0 sample_pattern = (Ok tt, b') /\
     rd (payload b') (32 + 20) = rd (payload sample_pattern) (32 + 20)).
Proof.
  assert (H21 : 21 <= _bytesPerSector sample_pattern) by (simpl; lia).
  assert (Hargs : fill_args_ok (PFillIncrementing 250)) by (simpl; lia).
  assert (Hlen : 0 <= fill_len (PFillIncrementing 250) <= 8) by (simpl; lia).
  split; [exact wf_sample_pattern|]. split; [reflexivity|]. split; [exact H21|].
  split; [exact valid_whole_sample_pattern|]. split; [exact Hargs|]. split; [exact Hlen|].
  destruct (compression_record_layout sample_pattern 0 0 (PFillIncrementing 250) true 16 0 5
              wf_sample_pattern eq_refl H21 valid_whole_sample_pattern Hargs Hlen)
    as ((b' & Hrun & Hrec) & Hrand & Hsect & Hover).
  split; [|split; [|split]].
  - exists b'. split; [exact Hrun|].
    destruct (Hrec 1 ltac:(side)) as (Ht & Hp & _ & Hl & _).
    split; [exact Ht|]. split; [exact (Hp 0 ltac:(side))|].
    exact (Hl 7 ltac:(lia)).
  - destruct (Hrand eq_refl ltac:(side)) as (r0 & b'' & _ & Hr0 & Hrun' & Hsnap).
    exists b''. split; [exact Hrun'|].
    destruct (Hsnap 1 ltac:(side)) as (Hs & Ht).
    split; [exact Ht|]. rewrite (Hr0 eq_refl) in Hs. exact Hs.
  - destruct (Hsect eq_refl ltac:(side)) as (b'' & Hrun' & Hsnap).
    exists b''. split; [exact Hrun'|].
    destruct (Hsnap 1 ltac:(side)) as (Hs & Ht).
    split; [exact Ht|exact Hs].
  - destruct (Hover eq_refl) as (b'' & Hrun' & Hkeep).
    exists b''. split; [exact Hrun'|].
    exact (Hkeep 1 20 ltac:(side) ltac:(side)).
Defined.
